(* ===== verification/_CoqProject ===== *)
-Q . S2P
Prelude.v
Records.v
Fc.v
Asset.v
Objects.v
CreditBooks.v
Vesting.v
Database.v
Holdings.v
Sample.v
Fees.v
Evaluator.v
Transfer.v
VestingOps.v
WithdrawPermission.v
SametFund.v
CreditOffer.v
LiquidityPool.v
Htlc.v
Ticket.v
Feed.v
Vault.v
Budget.v
Market.v
Authority.v
Block.v
Schedule.v
ForkDb.v
Chain.v
Apply.v
ChainExample.v
UndoDatabase.v
AssetRules.v
BitassetFeed.v
Bids.v
AssetOps.v
FeedOps.v
FeedExpiry.v
AssetSteps.v
AssetRegistry.v
