(* ===== verification/Prelude.v ===== *)
(** * A verification development for the DeFiShares core

    DeFiShares core is a delegated proof-of-stake blockchain node in C++, derived from
    BitShares. This library is a shallow embedding of the logic of its chain: the
    objects of the chain state become records, the multi-index containers become
    tables ([Objects.table]: rows in a finite map and the next id), an operation on the
    state becomes a function from a database to a [result], which is a new database or
    the exception that is thrown. All paths below are under [src/libraries].

    ** Parts and files

    Foundations
    - [Prelude] (this file): the exception monad ([let!], [do!], [assert!] for
      [FC_ASSERT] and its relatives), inversion of monadic equations ([mon]), the
      wrap-around conversions of 32, 64 and 128-bit integers, sums over finite maps,
      insertion sort, and the lemmas on rounding that several components share.
    - [Records]: functional update of record fields, [r <| f := v |>].
    - [Fc]: what is used of code outside the repository (the submodule fc and Boost) as
      classes: the checked [share_type] arithmetic ([SafeInt64]) and normalised 128-bit
      rationals ([Rational]), each with its laws and an instance. Theorems are proved
      from the laws; witnesses run on the instances. Smaller classes stand beside the
      code that needs them: a hash ([Htlc.HtlcHash]), [std::nth_element]
      ([Feed.NthElement]), floating point ([Feed.LongDouble]) and the order in which a
      hash container iterates ([UndoDatabase.IterationOrder]).
    - [Asset]: [protocol/asset.cpp] and its header: comparison of prices, the two
      conversions with their roundings, scaling of prices, margin call prices.
    - [Objects]: one record per object class of [chain/include/graphene/chain/*_object.hpp]
      with the fields that modelled code reads or writes.
    - [Database]: the chain state, [db_balance.cpp], [is_authorized_asset.cpp] with its header, and the
      market fee functions of [db_market.cpp].
    - [Holdings]: the abstract specification most components are held to. [holdings a d]
      is all that anybody holds of asset [a] in the state [d], wherever it is kept
      (balances, orders, pools, funds, contracts, fees, budgets, vaults), [supply a d] the
      current supply the chain reports; [excess] is the difference, and [conserves d d']
      says that it is the same for every asset before and after. [db_wf] is the
      well-formedness of the state the operations rely on and keep. The C++ test suite
      checks the same sums at the end of its tests ([verify_asset_supplies]).
    - [Sample]: a small concrete state on which the witnesses evaluate.

    The evaluators. [Evaluator] models [chain/evaluator.cpp] and [evaluator.hpp]: fees are
    checked, converted and paid around the operation's own [do_evaluate] and [do_apply].
    It is a class; each operation is an instance of it and discharges the law
    ([EvaluatorLaws]) that its [do_apply] conserves every asset, so that
    [Evaluator.operation_conserves] holds for all of them at once. The instances:
    - [Transfer] ([transfer_evaluator.cpp]), [VestingOps] ([vesting_balance_evaluator.cpp],
      on top of [Vesting], the policies of [vesting_balance_object.cpp]),
    - [WithdrawPermission] ([withdraw_permission_evaluator.cpp]), [SametFund]
      ([samet_fund_evaluator.cpp]), [CreditOffer] ([credit_offer_evaluator.cpp] and the
      processing of due deals in [db_update.cpp], on top of [CreditBooks], the invariant of
      the three tables of the credit system), [LiquidityPool]
      ([liquidity_pool_evaluator.cpp]), [Htlc] ([htlc_evaluator.cpp] and the refunds of
      [db_update.cpp]), [Ticket] ([ticket_evaluator.cpp], [ticket_object.cpp] and the
      automatic updates of [db_update.cpp]).
    The operations' [validate] functions are those of [protocol/*.cpp].

    The order book. [Market]: limit orders, their matching and filling in
    [db_market.cpp], the create and cancel operations of [market_evaluator.cpp] and the
    expiration in [db_update.cpp].

    What the chain does by itself, every block or every maintenance interval.
    - [Fees]: the pending fees of an account and how they are split
      ([account_object.cpp]).
    - [Feed]: the median price feed ([asset_object.cpp]) and the feed policy
      ([defishares_feed.cpp]).
    - [Vault]: the GOLD treasury ([gold_reserve_vault.cpp]) and the pay of witnesses.
    - [Budget]: the budget of a maintenance interval, the pay of workers and witnesses out
      of the reserve or the treasury ([db_maint.cpp], [worker_evaluator.cpp]).

    Assets. The files follow [asset_evaluator.cpp] and [protocol/asset_ops.cpp].
    - [AssetRules]: symbols, permissions and flags, the checks of options and the hard forks
      they depend on; the grammar of symbols ([symbol_grammar]).
    - [BitassetFeed]: [update_bitasset_current_feed] and what it computes ([db_update.cpp]).
    - [Bids]: collateral bids, the cancellation of bids and of forced settlements, and the
      revival of an asset that was globally settled ([db_market.cpp],
      [market_evaluator.cpp]).
    - [AssetOps]: creating, issuing, reserving and updating an asset, its issuer, its fee
      pool and its accumulated fees. [FeedOps]: publishing feeds, the producers of feeds, the
      options of a market-issued asset, and one step of each of the updates of a block.
      All of them are instances of [Evaluator].
    - [FeedExpiry]: the loops of a block over expired feeds and waiting exchange rates.
    - [AssetSteps]: the promise [RegisterLaws] of an operation on assets: the few ways in
      which it may change the register. Each operation is an instance.
    - [AssetRegistry]: proved from that promise alone, what holds of every asset whatever
      operations follow: [registry_ok] is kept, revoked permissions and a renounced supply
      stay that way.

    Who may do it.
    - [Authority]: the authorities the operations of a transaction require, the check that
      the keys that signed satisfy them, the keys that still have to sign and the fewest
      that suffice ([protocol/transaction.cpp], [authority.hpp], [operations.cpp]). Its
      specification is [approves]: some entries of an authority approve and their weights
      reach its threshold. [verify_authority_sound] and [verify_authority_complete] relate
      the check to it, the latter up to the depth of recursion.

    Blocks and forks.
    - [Block]: headers, identifiers and the Merkle root ([protocol/block.cpp]).
    - [Schedule]: the slots, the witnesses who fill them, and what following a block does to
      the dynamic properties ([db_witness_schedule.cpp], parts of [db_update.cpp]).
    - [ForkDb]: the fork database ([fork_database.cpp]), a heap of items with shared and
      weak references.
    - [Chain]: [push_block], [pop_block], the switch between forks and the waiting
      transactions ([db_block.cpp], [db_with.hpp]). It asks of the state only what the
      class [BlockMachine] says. The states it can go back to form a list; that undo
      sessions implement such a list is what [UndoDatabase] proves.
    - [Apply]: [_apply_transaction], [_apply_block] and [_generate_block]; it is an instance
      of [BlockMachine] ([chain_machine_laws]) and asks of the evaluators and of the
      periodic updates only what the class [Ledger] says.
    - [ChainExample]: a small ledger with two branches, on which the theorems are applied.

    The object database. [UndoDatabase]: [libraries/db], the indexes and the undo history
    that block production, forks and failed transactions rely on; it stands on its own and
    is about any type of object.

    ** What the theorems show

    - Conservation: every operation, with its fee, leaves [excess] alone
      ([Evaluator.operation_conserves]); so do matching, culling, cancelling and expiring
      orders ([Market.market_conserves]) and the payments of the protocol
      ([Budget.protocol_payments_accounted]), exactly or up to the amounts their
      statements name.
    - Invariants of the components over whole histories: the books of the credit system,
      the solvency of the SameT funds, no period of a withdraw permission over its limit,
      pool shares that are never diluted, contracts that are settled once, tickets that
      stay accounted, GOLD debt that stays backed, a daily limit on what the treasury
      spends, a book of orders that is never crossed, a register of assets in order
      ([registry_preserved]) whose issuers cannot take back what they gave up
      ([revoked_permissions_final], [renounced_supply_final]).
    - The chain of blocks: pushing a block is atomic, whatever transactions wait and
      whether or not it switches to another fork ([push_block_atomic]), the branches of a
      fork are found ([fetch_branch_correct]), no transaction is applied twice
      ([no_transaction_twice]), the blocks a witness makes pass the checks of the others
      ([generated_block_accepted]), every witness gets one slot of each round
      ([witness_rounds_fair]), irreversible blocks have the witnesses' confirmations
      ([irreversible_blocks_confirmed]).
    - Functional behaviour on every branch, errors included ([transfer_correct],
      [vesting_withdraw_op_exact], [pay_market_fees_exact] and others), equivalence of the
      fixed-width arithmetic with exact integer formulas ([pool_amounts_exact]) and of the
      hashing in place with a tree ([merkle_root_correct]), rounding and its direction
      ([conversion_rounding], [match_at_price]).
    - Refinement: the undo history implements a stack of snapshots
      ([UndoDatabase.undo_refines_snapshots]).
    - Termination: every loop over a container is bounded, see below.
    - Each property has a witness, which applies it to a concrete state and evaluates
      the model there.

    ** Integers, fuel and bounds

    [share_type] is Z with the checked operations of [Fc.SafeInt64], which throw on
    overflow; plain integers of the source wrap explicitly ([u32], [u64], [u128],
    [to_int64]). Loops whose end is not structural take fuel and return [None], not a
    result, when it is used up. The fuel and why it is enough:
    - the loops over expired orders, contracts, due deals and tickets run with the number
      of rows (for tickets: a bound on the remaining updates), each round removing a row
      or an update ([expired_orders_cancelled], [htlc_settled_once],
      [credit_processing_settles], [process_tickets_ends]); the loops over expired feeds and
      waiting exchange rates with the number of market-issued assets, as a renewed feed is
      not expired and a rate that was taken does not wait ([block_feeds_settled]);
    - the loops that go back along a branch run with more rounds than any block's number,
      each round going to the number before ([fetch_branch_correct]); the loops that pop
      blocks run with the length of the undo history;
    - the passes of the Merkle root run with the number of hashes ([merkle_root_correct]);
    - the shrinking loops of [price * ratio] run with 128 rounds, each halving both parts,
      which are below 2^128 ([price_mul_ratio_total]).

    ** Not modelled

    - Parts of modelled files: [limit_order_update] and the automatic actions of orders
      ([on_fill]), changes of margin positions, forced and global settlement; margin calls,
      which the feed policy disables for every asset that could have them
      ([Market.no_margin_calls]); the code before hard forks core-606, core-625 and 615,
      which no block of this chain runs.
    - The fee schedule and the state of the transaction are parameters; serialisation,
      hashes and signatures are, too. Proposals and custom authorities are not modelled.
      Neither are the operations on accounts, committee members, witnesses and workers, and
      the counting of votes.
    - Confidential transfers (their cryptography is in a library that is not part of
      the repository), genesis, block storage, the network, the application and its APIs,
      the wallet, plugins, programs: input and output, or clients of the chain.

    ** What could follow

    Margin positions and the settlement of prediction markets, [limit_order_update], the
    counting of votes, proposals.
*)
From Stdlib Require Export ZArith Lia.
From stdpp Require Export base tactics option list gmap fin_maps strings.

#[export] Set Default Goal Selector "!".
Open Scope Z_scope.

(** ** Exceptions and the result monad *)

(** The exceptions the modelled code can throw. An exception aborts the whole
    operation: the undo session of the transaction discards every change, so a
    failing operation has no resulting state. *)
Inductive exc :=
  | assert_exception (msg : string)
  | overflow_exception
  | not_found (what : string)
  | bad_rational
  | thrown (msg : string).

Inductive result (A : Type) :=
  | Ok (a : A)
  | Err (e : exc).
Arguments Ok {A} _.
Arguments Err {A} _.

Definition rbind {A B} (m : result A) (f : A -> result B) : result B :=
  match m with Ok a => f a | Err e => Err e end.

Definition fc_assert (b : bool) (msg : string) : result unit :=
  if b then Ok tt else Err (assert_exception msg).

Definition of_option {A} (what : string) (o : option A) : result A :=
  match o with Some a => Ok a | None => Err (not_found what) end.

Definition is_ok {A} (r : result A) : bool :=
  match r with Ok _ => true | Err _ => false end.

Declare Scope result_scope.
Delimit Scope result_scope with result.
Notation "'let!' x ':=' m 'in' k" := (rbind m (fun x => k))
  (at level 10, x pattern, m at level 200, k at level 200,
   format "'[v' 'let!'  x  ':='  m  'in' '//' k ']'") : result_scope.
Notation "'do!' m 'in' k" := (rbind m (fun _ => k))
  (at level 10, m at level 200, k at level 200,
   format "'[v' 'do!'  m  'in' '//' k ']'") : result_scope.
Notation "'assert!' b '@' msg 'in' k" := (rbind (fc_assert b msg%string) (fun _ => k))
  (at level 10, b at level 99, msg at level 0, k at level 200,
   format "'[v' 'assert!'  b  '@'  msg  'in' '//' k ']'") : result_scope.
Open Scope result_scope.

(** [for]-loops that may throw, over a list. *)
Fixpoint rforeach {A} (f : A -> result unit) (l : list A) : result unit :=
  match l with
  | [] => Ok tt
  | x :: l' => do! f x in rforeach f l'
  end.

Fixpoint rfold {S A} (f : S -> A -> result S) (s : S) (l : list A) : result S :=
  match l with
  | [] => Ok s
  | x :: l' => let! s' := f s x in rfold f s' l'
  end.

Section Result.
Context {A B : Type}.
Implicit Types (m : result A) (f : A -> result B).

Lemma rbind_ok m f b :
  rbind m f = Ok b <-> exists a, m = Ok a /\ f a = Ok b.
Proof. destruct m; cbn; split; naive_solver. Qed.

Lemma fc_assert_ok b msg u : fc_assert b msg = Ok u <-> b = true.
Proof. destruct b, u; cbn; split; congruence. Qed.

Lemma of_option_ok what (o : option A) a : of_option what o = Ok a <-> o = Some a.
Proof. destruct o; cbn; split; congruence. Qed.

Lemma is_ok_true m : is_ok m = true <-> exists a, m = Ok a.
Proof. destruct m; cbn; naive_solver. Qed.
End Result.

Lemma rforeach_ok {A} (f : A -> result unit) l u :
  rforeach f l = Ok u <-> Forall (fun x => f x = Ok tt) l.
Proof.
  induction l as [|x l IH]; cbn.
  - destruct u. split; [constructor | done].
  - rewrite rbind_ok, Forall_cons. setoid_rewrite IH. split.
    + intros ([] & ? & ?); done.
    + intros [??]. exists tt. done.
Qed.

(** Invariants carried through a throwing loop. *)
Lemma rfold_invariant {S A} (I : S -> Prop) (f : S -> A -> result S) l s s' :
  (forall s x s', In x l -> I s -> f s x = Ok s' -> I s') ->
  I s -> rfold f s l = Ok s' -> I s'.
Proof.
  revert s. induction l as [|x l IH]; cbn; intros s Hf Hs H; [congruence|].
  apply rbind_ok in H as (s1 & H1 & H). eapply IH in H; eauto.
Qed.

Lemma rfold_total {S A} (f : S -> A -> S) l s :
  rfold (fun s x => Ok (f s x)) s l = Ok (foldl f s l).
Proof. revert s. induction l as [|x l IH]; cbn; [done | intros s; apply IH]. Qed.

(** A loop whose steps each change one entry of a view of the state, no entry twice:
    [val x] is what the step for [x] makes of its entry, [ok x] what it needs of it,
    [I] an invariant and [F] a frame. *)
Lemma rfold_pointwise {S A K E} `{EqDecision K} (I : S -> Prop) (F : S -> S -> Prop) `{!PreOrder F}
    (view : S -> K -> E) (key : A -> K) (val : A -> E -> E) (ok : A -> E -> Prop) (f : S -> A -> result S) l s :
  NoDup (key <$> l) -> I s ->
  (forall s x, x ∈ l -> I s -> ok x (view s (key x)) -> exists s', f s x = Ok s' /\ I s' /\ F s s'
     /\ forall k, view s' k = if decide (k = key x) then val x (view s k) else view s k) ->
  (forall x, x ∈ l -> ok x (view s (key x))) ->
  exists s', rfold f s l = Ok s' /\ I s' /\ F s s'
    /\ (forall x, x ∈ l -> view s' (key x) = val x (view s (key x)))
    /\ (forall k, k ∉ key <$> l -> view s' k = view s k).
Proof.
  revert s. induction l as [|x l IH]; cbn; intros s Hnd HI Hstep Hok.
  - exists s. split_and!; [done | done | done | | done]. intros x Hx. by apply not_elem_of_nil in Hx.
  - apply NoDup_cons in Hnd as [Hx Hnd].
    destruct (Hstep s x) as (s1 & E1 & HI1 & HF1 & Hv1); [left | done | apply Hok; left |].
    assert (forall k, k <> key x -> view s1 k = view s k) as Hne.
    { intros k Hk. rewrite Hv1. by case_decide. }
    assert (forall y, y ∈ l -> key y <> key x) as Hkeys.
    { intros y Hy Hk. apply Hx. rewrite <- Hk. by apply list_elem_of_fmap_2. }
    destruct (IH s1) as (s' & E' & HI' & HF' & Hin & Hout); [done..| | |].
    + intros s2 y Hy. apply Hstep. by right.
    + intros y Hy. rewrite Hne by (by apply Hkeys). apply Hok. by right.
    + exists s'. rewrite E1. split_and!; [done | done | by transitivity s1 | |].
      * intros y Hy. apply elem_of_cons in Hy as [->|Hy].
        -- rewrite Hout by done. rewrite Hv1. by rewrite decide_True.
        -- rewrite Hin by done. by rewrite Hne by (by apply Hkeys).
      * intros k Hk. apply not_elem_of_cons in Hk as [Hk1 Hk2]. rewrite Hout by done. by apply Hne.
Qed.

Lemma foldl_pointwise {S A K E} `{EqDecision K} (F : S -> S -> Prop) `{!PreOrder F}
    (view : S -> K -> E) (key : A -> K) (val : A -> E -> E) (f : S -> A -> S) l s :
  NoDup (key <$> l) ->
  (forall s x, x ∈ l -> F s (f s x)
     /\ forall k, view (f s x) k = if decide (k = key x) then val x (view s k) else view s k) ->
  F s (foldl f s l)
  /\ (forall x, x ∈ l -> view (foldl f s l) (key x) = val x (view s (key x)))
  /\ (forall k, k ∉ key <$> l -> view (foldl f s l) k = view s k).
Proof.
  intros Hnd Hf.
  destruct (rfold_pointwise (fun _ => True) F view key val (fun _ _ => True) (fun s x => Ok (f s x)) l s)
    as (s' & E' & _ & HF & Hin & Hout); [done | done | | done |].
  - intros s1 x Hx _ _. destruct (Hf s1 x Hx) as [??]. by exists (f s1 x).
  - rewrite rfold_total in E'. by injection E' as <-.
Qed.

(** ** Inversion of monadic code *)

Ltac reflect_bools :=
  repeat match goal with
  | H : (_ && _)%bool = true |- _ => apply andb_true_iff in H as [? ?]
  | H : (_ || _)%bool = false |- _ => apply orb_false_iff in H as [? ?]
  | H : negb _ = true |- _ => apply negb_true_iff in H
  | H : negb _ = false |- _ => apply negb_false_iff in H
  | H : (_ <? _) = true |- _ => apply Z.ltb_lt in H
  | H : (_ <? _) = false |- _ => apply Z.ltb_ge in H
  | H : (_ <=? _) = true |- _ => apply Z.leb_le in H
  | H : (_ <=? _) = false |- _ => apply Z.leb_gt in H
  | H : (_ =? _) = true |- _ => apply Z.eqb_eq in H
  | H : (_ =? _) = false |- _ => apply Z.eqb_neq in H
  | H : (_ >? _) = true |- _ => rewrite Z.gtb_ltb in H
  | H : (_ >? _) = false |- _ => rewrite Z.gtb_ltb in H
  | H : (_ >=? _) = true |- _ => rewrite Z.geb_leb in H
  | H : (_ >=? _) = false |- _ => rewrite Z.geb_leb in H
  | H : bool_decide _ = true |- _ => apply bool_decide_eq_true in H
  | H : bool_decide _ = false |- _ => apply bool_decide_eq_false in H
  end.

(** One step of inversion of a successful run. *)
Ltac mon_step :=
  match goal with
  | H : rbind _ _ = Ok _ |- _ =>
      let a := fresh "r" in let H1 := fresh "Hr" in
      apply rbind_ok in H as (a & H1 & H); cbn beta in H
  | H : fc_assert _ _ = Ok _ |- _ => apply fc_assert_ok in H
  | H : of_option _ _ = Ok _ |- _ => apply of_option_ok in H
  | H : Ok _ = Ok _ |- _ => injection H as H; try subst
  | H : Err _ = Ok _ |- _ => discriminate H
  | H : Some _ = Some _ |- _ => injection H as H; try subst
  | u : unit |- _ => destruct u
  end.

Ltac mon := repeat mon_step; reflect_bools.

(** Reduce a goal about a computation whose checks are known to pass. *)
Lemma rbind_Ok {A B} (a : A) (f : A -> result B) : rbind (Ok a) f = f a.
Proof. done. Qed.

(** ** Machine integers *)

Definition u128 (z : Z) : Z := z mod 2 ^ 128.
Definition u64 (z : Z) : Z := z mod 2 ^ 64.
Definition u32 (z : Z) : Z := z mod 2 ^ 32.
Definition u16 (z : Z) : Z := z mod 2 ^ 16.
Definition to_int64 (z : Z) : Z := (z + 2 ^ 63) mod 2 ^ 64 - 2 ^ 63.

Definition INT64_MAX : Z := 2 ^ 63 - 1.
Definition INT64_MIN : Z := - 2 ^ 63.
Definition int64_range (z : Z) : Prop := INT64_MIN <= z <= INT64_MAX.
Definition in_int64 (z : Z) : bool := (INT64_MIN <=? z) && (z <=? INT64_MAX).

Lemma in_int64_spec z : in_int64 z = true <-> int64_range z.
Proof. unfold in_int64, int64_range. rewrite andb_true_iff, !Z.leb_le. done. Qed.

Lemma u128_small z : 0 <= z < 2 ^ 128 -> u128 z = z.
Proof. intros. unfold u128. by apply Z.mod_small. Qed.

Lemma u128_bound z : 0 <= u128 z < 2 ^ 128.
Proof. unfold u128. apply Z.mod_pos_bound. lia. Qed.

Lemma u32_small z : 0 <= z < 2 ^ 32 -> u32 z = z.
Proof. intros. unfold u32. by apply Z.mod_small. Qed.

Lemma to_int64_small z : int64_range z -> to_int64 z = z.
Proof.
  unfold int64_range, INT64_MIN, INT64_MAX, to_int64. intros ?.
  rewrite Z.mod_small; lia.
Qed.

(** The product of two non-negative 64-bit amounts never wraps in 128 bits. *)
Lemma u128_mul_small a b :
  0 <= a < 2 ^ 64 -> 0 <= b < 2 ^ 64 -> u128 (a * b) = a * b.
Proof. intros. apply u128_small. split; [nia|]. change (2 ^ 128) with (2 ^ 64 * 2 ^ 64). nia. Qed.

(** ** Division *)

Section Division.
Implicit Types a b c n d : Z.

(** Rounding up the way the code writes it: [(n + d - 1) / d]. *)
Definition ceil_div n d : Z := (n + d - 1) / d.

Lemma div_mul_le n d : 0 < d -> n / d * d <= n.
Proof. intros. rewrite Z.mul_comm. by apply Z.mul_div_le. Qed.

Lemma div_lt_mul n d : 0 < d -> n < (n / d + 1) * d.
Proof. intros. pose proof (Z.mod_pos_bound n d). pose proof (Z.div_mod n d). nia. Qed.

Lemma ceil_div_ge n d : 0 < d -> n <= ceil_div n d * d.
Proof. intros Hd. unfold ceil_div. pose proof (div_lt_mul (n + d - 1) d Hd). nia. Qed.

Lemma ceil_div_lt n d : 0 < d -> (ceil_div n d - 1) * d < n.
Proof. intros Hd. unfold ceil_div. pose proof (div_mul_le (n + d - 1) d Hd). nia. Qed.

Lemma ceil_div_least n d k : 0 < d -> n <= k * d -> ceil_div n d <= k.
Proof. intros Hd Hk. pose proof (ceil_div_lt n d Hd). nia. Qed.

Lemma ceil_div_nonneg n d : 0 < d -> 0 <= n -> 0 <= ceil_div n d.
Proof. intros. unfold ceil_div. apply Z.div_pos; lia. Qed.

Lemma ceil_div_pos n d : 0 < d -> 0 < n -> 0 < ceil_div n d.
Proof. intros Hd Hn. pose proof (ceil_div_ge n d Hd). nia. Qed.

Lemma div_le_self n d : 0 <= n -> 0 < d -> n / d <= n.
Proof. intros. apply Z.div_le_upper_bound; nia. Qed.

(** A proportional share of [b] is at most [b]. *)
Lemma share_le a b c : 0 <= a -> 0 <= b -> a <= c -> 0 < c -> a * b / c <= b.
Proof. intros. apply Z.div_le_upper_bound; nia. Qed.

Lemma share_nonneg a b c : 0 <= a -> 0 <= b -> 0 < c -> 0 <= a * b / c.
Proof. intros. apply Z.div_pos; nia. Qed.
End Division.

(** ** Least elements *)

(** The first element of an ordered index: the least one of a list. *)
Fixpoint list_min {A} (lt : A -> A -> bool) (l : list A) : option A :=
  match l with
  | [] => None
  | x :: l' => match list_min lt l' with
               | Some y => Some (if lt y x then y else x)
               | None => Some x
               end
  end.

Lemma list_min_in {A} (lt : A -> A -> bool) l x : list_min lt l = Some x -> x ∈ l.
Proof.
  revert x. induction l as [|y l IH]; cbn; intros x E; [done|].
  destruct (list_min lt l) as [z|]; injection E as <-; [|by left].
  destruct (lt z y); [right; by apply IH | by left].
Qed.

Lemma list_min_None {A} (lt : A -> A -> bool) l : list_min lt l = None -> l = [].
Proof. destruct l as [|x l]; cbn; [done|]. by destruct (list_min lt l). Qed.

(** With a strict weak order nothing of the list is below its least element. *)
Lemma list_min_least {A} (lt : A -> A -> bool) l m :
  (forall x y, lt x y = true -> lt y x = false) ->
  (forall x y z, lt x y = false -> lt y z = false -> lt x z = false) ->
  list_min lt l = Some m -> forall x, x ∈ l -> lt x m = false.
Proof.
  intros Hasym Htrans. revert m. induction l as [|y l IH]; cbn; intros m Hm x Hx; [by apply not_elem_of_nil in Hx|].
  assert (forall z, lt z z = false) as Hirr.
  { intros z. destruct (lt z z) eqn:E; [|done]. by apply Hasym in E as E'; rewrite E in E'. }
  destruct (list_min lt l) as [z|] eqn:E.
  - injection Hm as <-. apply elem_of_cons in Hx as [->|Hx].
    + destruct (lt z y) eqn:Hzy; [by apply Hasym | apply Hirr].
    + destruct (lt z y) eqn:Hzy; [by apply IH|]. apply (Htrans _ z); [by apply IH | done].
  - injection Hm as <-. apply list_min_None in E as ->. apply list_elem_of_singleton in Hx as ->. apply Hirr.
Qed.

(** ** Sorting

    [std::sort] and [std::nth_element] ask of a comparison that it is a strict weak
    order; when it tells all the elements apart the sorted list is the only one. *)

(** [lt] orders the elements of [l]. *)
Definition strict_weak {A} (lt : A -> A -> bool) (l : list A) : Prop :=
  (forall x y, x ∈ l -> y ∈ l -> lt x y = true -> lt y x = false)
  /\ (forall x y z, x ∈ l -> y ∈ l -> z ∈ l -> lt x y = false -> lt y z = false -> lt x z = false).

Fixpoint insert_sorted {A} (lt : A -> A -> bool) (x : A) (l : list A) : list A :=
  match l with
  | [] => [x]
  | y :: l' => if lt x y then x :: y :: l' else y :: insert_sorted lt x l'
  end.

Fixpoint insertion_sort {A} (lt : A -> A -> bool) (l : list A) : list A :=
  match l with
  | [] => []
  | x :: l' => insert_sorted lt x (insertion_sort lt l')
  end.

Lemma insert_sorted_perm {A} (lt : A -> A -> bool) x l : insert_sorted lt x l ≡ₚ x :: l.
Proof.
  induction l as [|y l IH]; cbn; [done|]. destruct (lt x y); [done|]. rewrite IH. apply Permutation_swap.
Qed.

Lemma insertion_sort_perm {A} (lt : A -> A -> bool) l : insertion_sort lt l ≡ₚ l.
Proof. induction l as [|x l IH]; cbn; [done|]. by rewrite insert_sorted_perm, IH. Qed.

(** No element is below an earlier one. *)
Definition ascending {A} (lt : A -> A -> bool) (l : list A) : Prop :=
  forall i j x y, l !! i = Some x -> l !! j = Some y -> (i < j)%nat -> lt y x = false.

Lemma ascending_cons {A} (lt : A -> A -> bool) x l :
  ascending lt (x :: l) <-> (forall y, y ∈ l -> lt y x = false) /\ ascending lt l.
Proof.
  split.
  - intros Ha. split.
    + intros y [j Hj]%list_elem_of_lookup. by apply (Ha 0%nat (S j)); [..|lia].
    + intros i j a b Hi Hj Hij. by apply (Ha (S i) (S j)); [..|lia].
  - intros [Hx Ha] [|i] [|j] a b Hi Hj Hij; cbn in *; [lia| |lia|].
    + injection Hi as <-. apply Hx. by eapply list_elem_of_lookup_2.
    + by apply (Ha i j); [..|lia].
Qed.

Lemma strict_weak_sub {A} (lt : A -> A -> bool) l l' : l' ⊆ l -> strict_weak lt l -> strict_weak lt l'.
Proof. intros Hs [Ha Ht]. split; eauto. Qed.

Lemma insert_sorted_ascending {A} (lt : A -> A -> bool) x l : strict_weak lt (x :: l) ->
  ascending lt l -> ascending lt (insert_sorted lt x l).
Proof.
  induction l as [|y l IH]; cbn; intros Hsw Ha.
  - apply ascending_cons. split; [|done]. by intros z ?%not_elem_of_nil.
  - pose proof (proj1 (ascending_cons _ _ _) Ha) as [Hy Hl]. destruct (lt x y) eqn:E; apply ascending_cons.
    + split; [|done]. destruct Hsw as [Hasym Htr]. intros z [->|Hz]%elem_of_cons.
      * apply Hasym; [left | right; left | done].
      * apply (Htr _ y); [right; by right | right; left | left | by apply Hy |].
        apply Hasym; [left | right; left | done].
    + split.
      * intros z. rewrite insert_sorted_perm. intros [->|Hz]%elem_of_cons; [done | by apply Hy].
      * apply IH; [|done]. eapply strict_weak_sub; [|done]. intros z [->|Hz]%elem_of_cons; [left | right; by right].
Qed.

Lemma insertion_sort_ascending {A} (lt : A -> A -> bool) l : strict_weak lt l -> ascending lt (insertion_sort lt l).
Proof.
  induction l as [|x l IH]; cbn; intros Hsw; [by intros i j a b ?|].
  apply insert_sorted_ascending.
  - eapply strict_weak_sub; [|done]. intros z [->|Hz]%elem_of_cons; [left|]. right. by rewrite insertion_sort_perm in Hz.
  - apply IH. eapply strict_weak_sub; [|done]. intros z Hz. by right.
Qed.

Lemma Z_ltb_strict_weak (l : list Z) : strict_weak Z.ltb l.
Proof. split; intros *; rewrite ?Z.ltb_lt, ?Z.ltb_ge; lia. Qed.

(** ** Sums over finite maps *)

Section MapSum.
Context {K V : Type} `{Countable K}.
Implicit Types (m : gmap K V) (f : K -> V -> Z).

Definition msum f m : Z := map_fold (fun k v acc => f k v + acc) 0 m.

Lemma msum_empty f : msum f (∅ : gmap K V) = 0.
Proof. apply map_fold_empty. Qed.

Lemma msum_insert_new f m k v :
  m !! k = None -> msum f (<[k := v]> m) = f k v + msum f m.
Proof.
  intros Hk. unfold msum. rewrite map_fold_insert_L; [done | intros; lia | done].
Qed.

Lemma msum_delete f m k v :
  m !! k = Some v -> msum f (delete k m) = msum f m - f k v.
Proof.
  intros Hk. rewrite <- (insert_delete_id m k v) at 2 by done.
  rewrite msum_insert_new by apply lookup_delete_eq. lia.
Qed.

Lemma msum_insert f m k v v' :
  m !! k = Some v -> msum f (<[k := v']> m) = msum f m - f k v + f k v'.
Proof.
  intros Hk. rewrite <- insert_delete_eq.
  rewrite msum_insert_new by apply lookup_delete_eq.
  rewrite (msum_delete f m k v Hk). lia.
Qed.

(** Both cases at once, with a default for the absent entry. *)
Lemma msum_set f m k v' :
  msum f (<[k := v']> m) = msum f m - default 0 (f k <$> m !! k) + f k v'.
Proof.
  destruct (m !! k) as [v|] eqn:E; cbn.
  - by apply msum_insert.
  - rewrite msum_insert_new by done. lia.
Qed.

Lemma msum_ext f g m :
  (forall k v, m !! k = Some v -> f k v = g k v) -> msum f m = msum g m.
Proof.
  induction m as [|k v m Hk IH] using map_ind; intros Hfg.
  - by rewrite !msum_empty.
  - rewrite !msum_insert_new by done. rewrite Hfg by apply lookup_insert_eq.
    rewrite IH; [done|]. intros k' v' Hk'. apply Hfg.
    rewrite lookup_insert_ne; [done|]. intros ->. congruence.
Qed.

Lemma msum_zero m : msum (fun _ _ => 0) m = 0.
Proof.
  induction m as [|k v m Hk IH] using map_ind; [apply msum_empty|].
  rewrite msum_insert_new by done. lia.
Qed.

Lemma msum_nonneg f m :
  (forall k v, m !! k = Some v -> 0 <= f k v) -> 0 <= msum f m.
Proof.
  induction m as [|k v m Hk IH] using map_ind; intros Hf.
  - by rewrite msum_empty.
  - rewrite msum_insert_new by done.
    pose proof (Hf k v (lookup_insert_eq _ _ _)).
    enough (0 <= msum f m) by lia. apply IH. intros k' v' Hk'. apply Hf.
    rewrite lookup_insert_ne; [done|]. intros ->. congruence.
Qed.

Lemma msum_le_size f m c :
  (forall k v, m !! k = Some v -> f k v <= c) -> msum f m <= c * Z.of_nat (size m).
Proof.
  induction m as [|k v m Hk IH] using map_ind; intros Hf.
  - rewrite msum_empty, map_size_empty. lia.
  - rewrite msum_insert_new, map_size_insert_None by done.
    pose proof (Hf k v (lookup_insert_eq _ _ _)).
    enough (msum f m <= c * Z.of_nat (size m)) by lia. apply IH. intros k' v' Hk'. apply (Hf k').
    rewrite lookup_insert_ne; [done|]. intros ->. congruence.
Qed.

Lemma msum_lookup_le f m k v :
  (forall k v, m !! k = Some v -> 0 <= f k v) -> m !! k = Some v -> f k v <= msum f m.
Proof.
  intros Hf Hk. pose proof (msum_delete f m k v Hk) as E.
  enough (0 <= msum f (delete k m)) by lia. apply msum_nonneg. intros k' v'.
  rewrite lookup_delete_Some. intros [_ ?]. eauto.
Qed.
End MapSum.

Lemma msum_fmap {K V W} `{Countable K} (g : W -> V) f (m : gmap K W) : msum f (g <$> m) = msum (fun k w => f k (g w)) m.
Proof.
  induction m as [|k w m Hk IH] using map_ind.
  - by rewrite fmap_empty, !msum_empty.
  - rewrite fmap_insert, !msum_insert_new by (rewrite ?lookup_fmap, Hk; done). by rewrite IH.
Qed.

Create HintDb dfs.
#[export] Hint Resolve ceil_div_ge ceil_div_nonneg div_mul_le share_le share_nonneg : dfs.
