(* ===== verification/Records.v ===== *)
(** Functional update of record fields: [r <| f := v |>] and [r <| f ::= g |>].
    A record opts in with an instance of [Eta], its expansion into its fields; the
    setter of a field is computed from it. *)
From S2P Require Import Prelude.

Class Eta (R : Type) := eta_expand : R -> R.

Class Setter {R E : Type} (proj : R -> E) := set_field : (E -> E) -> R -> R.
Arguments set_field {R E} proj {Setter} f r /.

Ltac build_setter :=
  lazymatch goal with
  | |- @Setter ?R ?E ?proj =>
      let e := constr:(_ : Eta R) in
      let body := eval hnf in e in
      lazymatch eval pattern proj in body with
      | ?abstracted _ =>
          let u := eval cbv beta in (fun f : E -> E => abstracted (fun r : R => f (proj r))) in
          exact u
      end
  end.

#[export] Hint Extern 1 (Setter _) => build_setter : typeclass_instances.

Declare Scope record_scope.
Delimit Scope record_scope with record.
Notation "r <| f := v |>" := (set_field f (fun _ => v) r)
  (at level 8, left associativity, f at level 7, v at level 200,
   format "r  <|  f  :=  v  |>") : record_scope.
Notation "r <| f ::= g |>" := (set_field f g r)
  (at level 8, left associativity, f at level 7, g at level 200,
   format "r  <|  f  ::=  g  |>") : record_scope.
Open Scope record_scope.
