(* ===== verification/Fc.v ===== *)
(** What the program takes from code that is not part of the repository (the
    [fc] submodule and Boost), as interfaces: checked 64-bit integers
    ([fc::safe<int64_t>], the type [share_type]) and normalised 128-bit rationals
    ([boost::rational<fc::uint128_t>]). The components are written against the
    operations of the classes, their theorems against the laws; the concrete
    instances at the end show that the laws can hold and let witnesses run. *)
From S2P Require Import Prelude.

(** ** Time *)

(** [fc::time_point_sec] is represented by its unsigned 32-bit count of seconds;
    adding seconds wraps. *)
Definition tps_add (t s : Z) : Z := u32 (t + s).

Lemma tps_add_small t s : 0 <= t -> 0 <= s -> t + s < 2 ^ 32 -> tps_add t s = t + s.
Proof. intros. unfold tps_add. apply u32_small. lia. Qed.

(** ** [share_type] *)

(** Arithmetic of [fc::safe<int64_t>]: every operation may throw. *)
Class SafeInt64 := {
  safe_add : Z -> Z -> result Z;
  safe_sub : Z -> Z -> result Z;
  safe_neg : Z -> result Z;
  safe_mul : Z -> Z -> result Z;
  safe_div : Z -> Z -> result Z;
}.

(** Documented behaviour: the exact result when it is representable, an
    exception otherwise. *)
Class SafeInt64Laws `{!SafeInt64} : Prop := {
  safe_add_exact a b : int64_range (a + b) -> safe_add a b = Ok (a + b);
  safe_add_throws a b : ~ int64_range (a + b) -> is_ok (safe_add a b) = false;
  safe_sub_exact a b : int64_range (a - b) -> safe_sub a b = Ok (a - b);
  safe_sub_throws a b : ~ int64_range (a - b) -> is_ok (safe_sub a b) = false;
  safe_neg_exact a : int64_range (- a) -> safe_neg a = Ok (- a);
  safe_neg_throws a : ~ int64_range (- a) -> is_ok (safe_neg a) = false;
  safe_mul_exact a b : int64_range (a * b) -> safe_mul a b = Ok (a * b);
  safe_mul_throws a b : ~ int64_range (a * b) -> is_ok (safe_mul a b) = false;
  safe_div_exact a b : b <> 0 -> int64_range (Z.quot a b) -> safe_div a b = Ok (Z.quot a b);
  safe_div_throws a b : b = 0 \/ ~ int64_range (Z.quot a b) -> is_ok (safe_div a b) = false;
}.

Section SafeLemmas.
Context `{SafeInt64Laws}.

Lemma int64_range_dec z : {int64_range z} + {~ int64_range z}.
Proof.
  destruct (in_int64 z) eqn:E; [left | right]; rewrite <- in_int64_spec; congruence.
Defined.

Lemma safe_add_ok a b c : safe_add a b = Ok c <-> c = a + b /\ int64_range c.
Proof.
  destruct (int64_range_dec (a + b)) as [Hr|Hr].
  - rewrite safe_add_exact by done. split; [|intros [-> _]; done].
    intros [= <-]. done.
  - pose proof (safe_add_throws a b Hr). destruct (safe_add a b); [done|].
    split; [done|]. by intros [-> ?].
Qed.

Lemma safe_sub_ok a b c : safe_sub a b = Ok c <-> c = a - b /\ int64_range c.
Proof.
  destruct (int64_range_dec (a - b)) as [Hr|Hr].
  - rewrite safe_sub_exact by done. split; [|intros [-> _]; done].
    intros [= <-]. done.
  - pose proof (safe_sub_throws a b Hr). destruct (safe_sub a b); [done|].
    split; [done|]. by intros [-> ?].
Qed.

Lemma safe_neg_ok a c : safe_neg a = Ok c <-> c = - a /\ int64_range c.
Proof.
  destruct (int64_range_dec (- a)) as [Hr|Hr].
  - rewrite safe_neg_exact by done. split; [|intros [-> _]; done].
    intros [= <-]. done.
  - pose proof (safe_neg_throws a Hr). destruct (safe_neg a); [done|].
    split; [done|]. by intros [-> ?].
Qed.

Lemma safe_mul_ok a b c : safe_mul a b = Ok c <-> c = a * b /\ int64_range c.
Proof.
  destruct (int64_range_dec (a * b)) as [Hr|Hr].
  - rewrite safe_mul_exact by done. split; [|intros [-> _]; done].
    intros [= <-]. done.
  - pose proof (safe_mul_throws a b Hr). destruct (safe_mul a b); [done|].
    split; [done|]. by intros [-> ?].
Qed.

Lemma safe_div_ok a b c :
  safe_div a b = Ok c <-> b <> 0 /\ c = Z.quot a b /\ int64_range c.
Proof.
  destruct (Z.eq_dec b 0) as [->|Hb].
  { pose proof (safe_div_throws a 0 (or_introl eq_refl)).
    destruct (safe_div a 0); [done|]. split; [done|]. by intros [? _]. }
  destruct (int64_range_dec (Z.quot a b)) as [Hr|Hr].
  - rewrite safe_div_exact by done. split; [|intros (_ & -> & _); done].
    intros [= <-]. done.
  - pose proof (safe_div_throws a b (or_intror Hr)). destruct (safe_div a b); [done|].
    split; [done|]. by intros (? & -> & ?).
Qed.
End SafeLemmas.

(** Turns every successful checked operation of the context into an equation. *)
Ltac safe_ints :=
  repeat match goal with
  | H : safe_add _ _ = Ok _ |- _ => apply safe_add_ok in H as [? ?]
  | H : safe_sub _ _ = Ok _ |- _ => apply safe_sub_ok in H as [? ?]
  | H : safe_neg _ = Ok _ |- _ => apply safe_neg_ok in H as [? ?]
  | H : safe_mul _ _ = Ok _ |- _ => apply safe_mul_ok in H as [? ?]
  | H : safe_div _ _ = Ok _ |- _ => apply safe_div_ok in H as (? & ? & ?)
  end.

Ltac unfold_int64 := unfold int64_range, INT64_MIN, INT64_MAX in *.

(** ** Rationals *)

(** [boost::rational<fc::uint128_t>] *)
Class Rational := {
  rational : Type;
  rat_make : Z -> Z -> result rational;
  rat_num : rational -> Z;
  rat_den : rational -> Z;
  rat_mul : rational -> rational -> rational;
  rat_sub : rational -> rational -> rational;
  rat_lt : rational -> rational -> bool;
}.

(** A rational is kept normalised; the constructor throws on a zero
    denominator; arithmetic is exact as long as the cross products it goes
    through are representable. *)
Class RationalLaws `{!Rational} : Prop := {
  rat_make_zero n : is_ok (rat_make n 0) = false;
  rat_make_exact n d : 0 <= n < 2 ^ 128 -> 0 < d < 2 ^ 128 ->
    exists r, rat_make n d = Ok r /\ rat_num r * d = n * rat_den r;
  rat_den_pos r : 0 < rat_den r;
  rat_num_nonneg r : 0 <= rat_num r;
  rat_normal r : Z.gcd (rat_num r) (rat_den r) = 1;
  rat_mul_exact a b :
    rat_num a * rat_num b < 2 ^ 128 -> rat_den a * rat_den b < 2 ^ 128 ->
    rat_num (rat_mul a b) * (rat_den a * rat_den b)
      = rat_num a * rat_num b * rat_den (rat_mul a b);
  rat_lt_exact a b :
    rat_lt a b = (rat_num a * rat_den b <? rat_num b * rat_den a);
}.

(** Two normalised fractions of the same value are the same fraction. *)
Lemma normal_fraction_unique a b c d :
  0 < b -> 0 < d -> 0 <= a -> 0 <= c ->
  Z.gcd a b = 1 -> Z.gcd c d = 1 -> a * d = c * b -> a = c /\ b = d.
Proof.
  intros Hb Hd Ha Hc Hab Hcd E.
  assert (b = d) as ->.
  { apply Z.divide_antisym_nonneg; [lia | lia | |].
    - apply (Z.gauss b a d); [|by rewrite Z.gcd_comm]. exists c. lia.
    - apply (Z.gauss d c b); [|by rewrite Z.gcd_comm]. exists a. lia. }
  split; [nia | done].
Qed.

(** The numerator and the denominator of a normalised fraction are the smallest
    ones of its value. *)
Lemma normal_fraction_le a b n d :
  0 < b -> 0 < d -> 0 <= a -> 0 <= n -> Z.gcd a b = 1 -> a * d = n * b ->
  a <= n /\ b <= d.
Proof.
  intros Hb Hd Ha Hn Hg E.
  assert (Z.divide b d) as [k Hk].
  { apply (Z.gauss b a d); [|by rewrite Z.gcd_comm]. exists n. lia. }
  assert (1 <= k) by nia.
  assert (n = k * a) by nia. split; nia.
Qed.

(** ** Concrete instances *)

Definition checked (z : Z) : result Z := if in_int64 z then Ok z else Err overflow_exception.

#[export] Instance safe64 : SafeInt64 := {
  safe_add a b := checked (a + b);
  safe_sub a b := checked (a - b);
  safe_neg a := checked (- a);
  safe_mul a b := checked (a * b);
  safe_div a b := if b =? 0 then Err overflow_exception else checked (Z.quot a b);
}.

Lemma checked_ok z : int64_range z -> checked z = Ok z.
Proof. intros Hz. unfold checked. by rewrite (proj2 (in_int64_spec z) Hz). Qed.

Lemma checked_err z : ~ int64_range z -> is_ok (checked z) = false.
Proof.
  intros Hz. unfold checked. destruct (in_int64 z) eqn:E; [|done].
  by apply in_int64_spec in E.
Qed.

#[export] Instance safe64_laws : @SafeInt64Laws safe64.
Proof.
  split; cbn; intros; try (by apply checked_ok); try (by apply checked_err).
  - destruct (Z.eqb_spec b 0); [done|]. by apply checked_ok.
  - destruct (Z.eqb_spec b 0); [done|]. apply checked_err. tauto.
Qed.

Record fraction := Fraction {
  f_num : Z;
  f_den : Z;
  f_wf : (0 <=? f_num) && (0 <? f_den) && (Z.gcd f_num f_den =? 1) = true;
}.

Lemma fraction_wf_normalise n d :
  (0 <=? n) && (0 <? d) = true ->
  (0 <=? n / Z.gcd n d) && (0 <? d / Z.gcd n d)
    && (Z.gcd (n / Z.gcd n d) (d / Z.gcd n d) =? 1) = true.
Proof.
  intros E. apply andb_true_iff in E as [Hn%Z.leb_le Hd%Z.ltb_lt].
  pose proof (Z.gcd_nonneg n d) as Hg.
  assert (Z.gcd n d <> 0) by (intros [_ ?]%Z.gcd_eq_0; lia).
  pose proof (Z.divide_pos_le _ _ Hd (Z.gcd_divide_r n d)).
  rewrite !andb_true_iff, Z.leb_le, Z.ltb_lt, Z.eqb_eq. split_and!.
  - apply Z.div_pos; lia.
  - apply Z.div_str_pos. lia.
  - by apply Z.gcd_div_gcd.
Qed.

Definition fraction_zero : fraction := Fraction 0 1 eq_refl.

Definition fraction_make (n d : Z) : fraction :=
  match (0 <=? n) && (0 <? d) as b return ((0 <=? n) && (0 <? d) = b -> fraction) with
  | true => fun E => Fraction (n / Z.gcd n d) (d / Z.gcd n d) (fraction_wf_normalise n d E)
  | false => fun _ => fraction_zero
  end eq_refl.

#[export] Instance fractions : Rational := {
  rational := fraction;
  rat_make n d := if d =? 0 then Err bad_rational else Ok (fraction_make n d);
  rat_num := f_num;
  rat_den := f_den;
  rat_mul a b := fraction_make (f_num a * f_num b) (f_den a * f_den b);
  rat_sub a b := fraction_make (f_num a * f_den b - f_num b * f_den a) (f_den a * f_den b);
  rat_lt a b := f_num a * f_den b <? f_num b * f_den a;
}.

Lemma fraction_facts (r : fraction) : 0 <= f_num r /\ 0 < f_den r /\ Z.gcd (f_num r) (f_den r) = 1.
Proof. destruct r as [n d wf]. cbn. reflect_bools. done. Qed.

Lemma fraction_make_exact n d :
  0 <= n -> 0 < d -> f_num (fraction_make n d) * d = n * f_den (fraction_make n d).
Proof.
  intros Hn Hd. unfold fraction_make.
  generalize (fraction_wf_normalise n d).
  assert ((0 <=? n) && (0 <? d) = true) as ->.
  { rewrite andb_true_iff, Z.leb_le, Z.ltb_lt. done. }
  intros wf. cbn.
  assert (Z.gcd n d <> 0) by (intros [_ ?]%Z.gcd_eq_0; lia).
  destruct (Z.gcd_divide_l n d) as [k Hk], (Z.gcd_divide_r n d) as [l Hl].
  remember (Z.gcd n d) as g. rewrite Hk, Hl, !Z.div_mul by done. ring.
Qed.

#[export] Instance fractions_laws : @RationalLaws fractions.
Proof.
  split; cbn; intros.
  - done.
  - exists (fraction_make n d). destruct (Z.eqb_spec d 0); [lia|].
    split; [done|]. apply fraction_make_exact; lia.
  - apply fraction_facts.
  - apply fraction_facts.
  - apply fraction_facts.
  - destruct (fraction_facts a) as (? & ? & _), (fraction_facts b) as (? & ? & _).
    apply fraction_make_exact; [by apply Z.mul_nonneg_nonneg | by apply Z.mul_pos_pos].
  - done.
Qed.
