(* ===== verification/Asset.v ===== *)
(** Assets, prices and price feeds: [libraries/protocol/asset.cpp] with its
    header, and the numeric constants of [config.hpp] it uses. Amounts are
    [share_type] values (Z within the checked 64-bit range), the intermediate
    128-bit products wrap modulo 2^128, rationals come from the interface of
    [Fc]. The theorems are about the order on prices, the rounding of the two
    conversions, and the totality, validity and exactness of scaling a price. *)
From S2P Require Import Prelude Fc.

(** ** Constants *)

Definition GRAPHENE_MAX_SHARE_SUPPLY : Z := 1000000000000000.
Definition GRAPHENE_100_PERCENT : Z := 10000.
Definition GRAPHENE_COLLATERAL_RATIO_DENOM : Z := 1000.
Definition GRAPHENE_MIN_COLLATERAL_RATIO : Z := 1001.
Definition GRAPHENE_MAX_COLLATERAL_RATIO : Z := 32000.
Definition GRAPHENE_DEFAULT_MAINTENANCE_COLLATERAL_RATIO : Z := 1750.
Definition GRAPHENE_DEFAULT_MAX_SHORT_SQUEEZE_RATIO : Z := 1500.
Definition GRAPHENE_FEE_RATE_DENOM : Z := 1000000.

(** Object identifiers are the instance part of the typed ids of the code. *)
Abbreviation account_id_type := Z (only parsing).
Abbreviation asset_id_type := Z (only parsing).
Abbreviation share_type := Z (only parsing).
Abbreviation time_point_sec := Z (only parsing).

(** [asset_id_type()] is the core asset. *)
Definition CORE : asset_id_type := 0.

(** ** Data *)

Record asset := Asset { amount : share_type; asset_id : asset_id_type }.

Record price := Price { base : asset; quote : asset }.

Record price_feed := PriceFeed {
  settlement_price : price;
  core_exchange_rate : price;
  maintenance_collateral_ratio : Z;
  maximum_short_squeeze_ratio : Z;
}.

#[export] Instance asset_eq_dec : EqDecision asset.
Proof. solve_decision. Defined.
#[export] Instance price_rep_eq_dec : EqDecision price.
Proof. solve_decision. Defined.

Definition null_price : price := Price (Asset 0 CORE) (Asset 0 CORE).

Definition default_feed : price_feed :=
  PriceFeed null_price null_price GRAPHENE_DEFAULT_MAINTENANCE_COLLATERAL_RATIO
            GRAPHENE_DEFAULT_MAX_SHORT_SQUEEZE_RATIO.

(** ** Prices: comparison, null, validation *)

(** [operator ==] on prices compares by cross multiplication. *)
Definition price_eq (a b : price) : bool :=
  (asset_id (base a) =? asset_id (base b)) && (asset_id (quote a) =? asset_id (quote b))
  && (u128 (u128 (amount (quote b)) * u128 (amount (base a)))
      =? u128 (u128 (amount (quote a)) * u128 (amount (base b)))).

Definition price_lt (a b : price) : bool :=
  if asset_id (base a) <? asset_id (base b) then true
  else if asset_id (base a) >? asset_id (base b) then false
  else if asset_id (quote a) <? asset_id (quote b) then true
  else if asset_id (quote a) >? asset_id (quote b) then false
  else u128 (u128 (amount (quote b)) * u128 (amount (base a)))
       <? u128 (u128 (amount (quote a)) * u128 (amount (base b))).

Definition price_gt (a b : price) : bool := price_lt b a.
Definition price_le (a b : price) : bool := negb (price_lt b a).
Definition price_ge (a b : price) : bool := negb (price_lt a b).

(** [operator ~] *)
Definition price_inv (p : price) : price := Price (quote p) (base p).

Definition price_is_null (p : price) : bool :=
  (asset_id (base p) =? CORE) && (asset_id (quote p) =? CORE).

Definition price_validate (check_upper_bound : bool) (p : price) : result unit :=
  assert! 0 <? amount (base p) @ "Base amount should be positive" in
  assert! 0 <? amount (quote p) @ "Quote amount should be positive" in
  assert! negb (asset_id (base p) =? asset_id (quote p))
    @ "Base asset ID and quote asset ID should be different" in
  if check_upper_bound then
    assert! amount (base p) <=? GRAPHENE_MAX_SHARE_SUPPLY @ "Base amount too large" in
    assert! amount (quote p) <=? GRAPHENE_MAX_SHARE_SUPPLY @ "Quote amount too large" in
    Ok tt
  else Ok tt.

(** [operator /] of two assets *)
Definition asset_div (b q : asset) : result price :=
  assert! negb (asset_id b =? asset_id q) @ "base.asset_id != quote.asset_id" in
  Ok (Price b q).

Definition price_max (b q : asset_id_type) : result price :=
  asset_div (Asset GRAPHENE_MAX_SHARE_SUPPLY b) (Asset 1 q).

Definition price_min (b q : asset_id_type) : result price :=
  asset_div (Asset 1 b) (Asset GRAPHENE_MAX_SHARE_SUPPLY q).

(** ** Assets *)

Section AssetOps.
Context `{SafeInt64}.

Definition asset_add (a b : asset) : result asset :=
  assert! asset_id a =? asset_id b @ "a.asset_id == b.asset_id" in
  let! s := safe_add (amount a) (amount b) in
  Ok (Asset s (asset_id a)).

Definition asset_sub (a b : asset) : result asset :=
  assert! asset_id a =? asset_id b @ "a.asset_id == b.asset_id" in
  let! s := safe_sub (amount a) (amount b) in
  Ok (Asset s (asset_id a)).

Definition asset_neg (a : asset) : result asset :=
  let! s := safe_neg (amount a) in
  Ok (Asset s (asset_id a)).
End AssetOps.

Definition asset_lt (a b : asset) : result bool :=
  assert! asset_id a =? asset_id b @ "a.asset_id == b.asset_id" in
  Ok (amount a <? amount b).

Definition asset_le (a b : asset) : result bool :=
  let! r := asset_lt b a in Ok (negb r).

Definition asset_ge (a b : asset) : result bool :=
  let! r := asset_lt a b in Ok (negb r).

(** [operator *] of an asset and a price: converts, rounding down. *)
Definition asset_mul_price (a : asset) (b : price) : result asset :=
  if asset_id a =? asset_id (base b) then
    assert! 0 <? amount (base b) @ "b.base.amount.value > 0" in
    let r := u128 (u128 (amount a) * u128 (amount (quote b))) / amount (base b) in
    assert! r <=? GRAPHENE_MAX_SHARE_SUPPLY @ "result <= GRAPHENE_MAX_SHARE_SUPPLY" in
    Ok (Asset (to_int64 r) (asset_id (quote b)))
  else if asset_id a =? asset_id (quote b) then
    assert! 0 <? amount (quote b) @ "b.quote.amount.value > 0" in
    let r := u128 (u128 (amount a) * u128 (amount (base b))) / amount (quote b) in
    assert! r <=? GRAPHENE_MAX_SHARE_SUPPLY @ "result <= GRAPHENE_MAX_SHARE_SUPPLY" in
    Ok (Asset (to_int64 r) (asset_id (base b)))
  else Err (assert_exception "invalid asset * price").

Definition multiply_and_round_up (a : asset) (b : price) : result asset :=
  if asset_id a =? asset_id (base b) then
    assert! 0 <? amount (base b) @ "b.base.amount.value > 0" in
    let r := u128 (u128 (u128 (u128 (amount a) * u128 (amount (quote b))) + amount (base b)) - 1)
             / amount (base b) in
    assert! r <=? GRAPHENE_MAX_SHARE_SUPPLY @ "result <= GRAPHENE_MAX_SHARE_SUPPLY" in
    Ok (Asset (to_int64 r) (asset_id (quote b)))
  else if asset_id a =? asset_id (quote b) then
    assert! 0 <? amount (quote b) @ "b.quote.amount.value > 0" in
    let r := u128 (u128 (u128 (u128 (amount a) * u128 (amount (base b))) + amount (quote b)) - 1)
             / amount (quote b) in
    assert! r <=? GRAPHENE_MAX_SHARE_SUPPLY @ "result <= GRAPHENE_MAX_SHARE_SUPPLY" in
    Ok (Asset (to_int64 r) (asset_id (base b)))
  else Err (assert_exception "invalid asset::multiply_and_round_up(price)").

Definition scaled_precision (precision : Z) : result share_type :=
  assert! precision <? 19 @ "precision < 19" in
  Ok (10 ^ precision).

(** ** Scaling a price by a ratio *)

Section Scaling.
Context `{Rational}.

(** [ratio_type] *)
Abbreviation ratio_type := rational.

(** The [while] loop of [operator * (price, ratio)]: halve both parts until
    they fit; [shrinked] and [using_max] are its two flags. *)
Fixpoint shrink_loop (fuel : nat) (cp : rational) (shrinked : bool)
    : result (rational * bool * bool) :=
  if (rat_num cp >? GRAPHENE_MAX_SHARE_SUPPLY) || (rat_den cp >? GRAPHENE_MAX_SHARE_SUPPLY) then
    match fuel with
    | O => Err (thrown "out of fuel")
    | S fuel' =>
        if 1 =? rat_num cp then
          let! c := rat_make 1 GRAPHENE_MAX_SHARE_SUPPLY in Ok (c, shrinked, true)
        else if 1 =? rat_den cp then
          let! c := rat_make GRAPHENE_MAX_SHARE_SUPPLY 1 in Ok (c, shrinked, true)
        else
          let! c := rat_make (Z.shiftr (rat_num cp) 1) (Z.shiftr (rat_den cp) 1) in
          shrink_loop fuel' c true
    end
  else Ok (cp, shrinked, false).

(** The additional check done when the loop has lost precision: the closer
    of the shrunk value and of the value with a unit numerator or denominator. *)
Definition refine_shrunk (ocp cp : rational) : result rational :=
  assert! (0 <? rat_num ocp) && (0 <? rat_den ocp) @ "Internal error" in
  let '(num, den) :=
    if rat_num ocp >? rat_den ocp
    then (Z.min (rat_num ocp / rat_den ocp) GRAPHENE_MAX_SHARE_SUPPLY, 1)
    else (1, Z.min (rat_den ocp / rat_num ocp) GRAPHENE_MAX_SHARE_SUPPLY) in
  let! ncp := rat_make num den in
  if (num =? GRAPHENE_MAX_SHARE_SUPPLY) || (den =? GRAPHENE_MAX_SHARE_SUPPLY) then Ok ncp
  else
    let diff1 := if negb (rat_lt ncp ocp) then rat_sub ncp ocp else rat_sub ocp ncp in
    let diff2 := if negb (rat_lt cp ocp) then rat_sub cp ocp else rat_sub ocp cp in
    Ok (if rat_lt diff1 diff2 then ncp else cp).

Definition price_mul_ratio (p : price) (r : ratio_type) : result price :=
  do! price_validate false p in
  assert! (0 <? rat_num r) && (0 <? rat_den r) @ "r.numerator() > 0 && r.denominator() > 0" in
  if rat_num r =? rat_den r then Ok p
  else
    let! p128 := rat_make (amount (base p)) (amount (quote p)) in
    let! r128 := rat_make (rat_num r) (rat_den r) in
    let ocp := rat_mul p128 r128 in
    let! (cp, shrinked, using_max) := shrink_loop 128 ocp false in
    let! cp := if shrinked : bool then refine_shrunk ocp cp else Ok cp in
    let! np := asset_div (Asset (to_int64 (rat_num cp)) (asset_id (base p)))
                         (Asset (to_int64 (rat_den cp)) (asset_id (quote p))) in
    let flipped := if rat_num r >? rat_den r then price_lt np p else price_gt np p in
    let np := if (shrinked || using_max) && flipped then p else np in
    do! price_validate false np in
    Ok np.

Definition price_div_ratio (p : price) (r : ratio_type) : result price :=
  let! r' := rat_make (rat_den r) (rat_num r) in
  price_mul_ratio p r'.

(** The loop [while( num > MAX || den > MAX ) cp = rational( half(num), half(den) )]
    of the older price functions, with their rounding of the halves. *)
Fixpoint halve_loop (half : Z -> Z) (fuel : nat) (cp : rational) : result rational :=
  if (rat_num cp >? GRAPHENE_MAX_SHARE_SUPPLY) || (rat_den cp >? GRAPHENE_MAX_SHARE_SUPPLY) then
    match fuel with
    | O => Err (thrown "out of fuel")
    | S fuel' =>
        let! c := rat_make (half (rat_num cp)) (half (rat_den cp)) in
        halve_loop half fuel' c
    end
  else Ok cp.

Definition half_plus_one (x : Z) : Z := Z.shiftr x 1 + 1.
Definition half_round_up (x : Z) : Z := Z.shiftr x 1 + Z.land x 1.

Definition call_price (debt collateral : asset) (collateral_ratio : Z) : result price :=
  let! swan := rat_make (u128 (amount debt)) (u128 (amount collateral)) in
  let! ratio := rat_make collateral_ratio GRAPHENE_COLLATERAL_RATIO_DENOM in
  let! cp := halve_loop half_plus_one 128 (rat_mul swan ratio) in
  asset_div (Asset (to_int64 (rat_den cp)) (asset_id collateral))
            (Asset (to_int64 (rat_num cp)) (asset_id debt)).

(** *** Price feeds *)

Definition price_feed_validate (f : price_feed) : result unit :=
  do! (if price_is_null (settlement_price f) then Ok tt
       else price_validate false (settlement_price f)) in
  assert! GRAPHENE_MIN_COLLATERAL_RATIO <=? maximum_short_squeeze_ratio f @ "MSSR too small" in
  assert! maximum_short_squeeze_ratio f <=? GRAPHENE_MAX_COLLATERAL_RATIO @ "MSSR too large" in
  assert! GRAPHENE_MIN_COLLATERAL_RATIO <=? maintenance_collateral_ratio f @ "MCR too small" in
  assert! maintenance_collateral_ratio f <=? GRAPHENE_MAX_COLLATERAL_RATIO @ "MCR too large" in
  Ok tt.

Definition price_feed_is_for (f : price_feed) (id : asset_id_type) : bool :=
  if negb (price_is_null (settlement_price f)) then asset_id (base (settlement_price f)) =? id
  else if negb (price_is_null (core_exchange_rate f)) then asset_id (base (core_exchange_rate f)) =? id
  else true.

Definition max_short_squeeze_price_before_hf_1270 (f : price_feed) : result price :=
  let sp := settlement_price f in
  let! sp128 := rat_make (u128 (amount (base sp))) (u128 (amount (quote sp))) in
  let! ratio := rat_make GRAPHENE_COLLATERAL_RATIO_DENOM (maximum_short_squeeze_ratio f) in
  let! cp := halve_loop half_round_up 128 (rat_mul sp128 ratio) in
  asset_div (Asset (to_int64 (rat_num cp)) (asset_id (base sp)))
            (Asset (to_int64 (rat_den cp)) (asset_id (quote sp))).

Definition max_short_squeeze_price (f : price_feed) : result price :=
  let! r := rat_make GRAPHENE_COLLATERAL_RATIO_DENOM (maximum_short_squeeze_ratio f) in
  price_mul_ratio (settlement_price f) r.

(** MSSR - MCFR, floored at 1.00 *)
Definition get_margin_call_price_numerator (f : price_feed) (maybe_mcfr : option Z) : Z :=
  let mcfr := match maybe_mcfr with Some m => m | None => 0 end in
  let numerator :=
    if mcfr <? maximum_short_squeeze_ratio f
    then u16 (maximum_short_squeeze_ratio f - mcfr) else GRAPHENE_COLLATERAL_RATIO_DENOM in
  if numerator <? GRAPHENE_COLLATERAL_RATIO_DENOM then GRAPHENE_COLLATERAL_RATIO_DENOM
  else numerator.

Definition margin_call_order_ratio (f : price_feed) (maybe_mcfr : option Z) : result ratio_type :=
  rat_make (get_margin_call_price_numerator f maybe_mcfr) GRAPHENE_COLLATERAL_RATIO_DENOM.

Definition margin_call_order_price (f : price_feed) (maybe_mcfr : option Z) : result price :=
  let! r := margin_call_order_ratio f maybe_mcfr in
  price_div_ratio (settlement_price f) r.

Definition margin_call_pays_ratio (f : price_feed) (maybe_mcfr : option Z) : result ratio_type :=
  rat_make (get_margin_call_price_numerator f maybe_mcfr) (maximum_short_squeeze_ratio f).

Definition maintenance_collateralization (f : price_feed) : result price :=
  if price_is_null (settlement_price f) then Ok null_price
  else
    let! r := rat_make (maintenance_collateral_ratio f) GRAPHENE_COLLATERAL_RATIO_DENOM in
    price_mul_ratio (price_inv (settlement_price f)) r.
End Scaling.

(** ** Well-formedness *)

Definition amount_ok (a : Z) : Prop := 0 <= a <= INT64_MAX.

Record price_ok (p : price) : Prop := {
  price_base_pos : 0 < amount (base p) <= INT64_MAX;
  price_quote_pos : 0 < amount (quote p) <= INT64_MAX;
  price_ids : asset_id (base p) <> asset_id (quote p);
}.

Lemma u128_amount a : amount_ok a -> u128 a = a.
Proof. unfold amount_ok, INT64_MAX. intros. apply u128_small. lia. Qed.

Lemma u128_amount_mul a b : amount_ok a -> amount_ok b -> u128 (u128 a * u128 b) = a * b.
Proof.
  intros Ha Hb. rewrite (u128_amount a Ha), (u128_amount b Hb).
  unfold amount_ok, INT64_MAX in *. apply u128_mul_small; lia.
Qed.

Lemma amount_ok_mul a b : amount_ok a -> amount_ok b -> 0 <= a * b < 2 ^ 126.
Proof.
  unfold amount_ok, INT64_MAX. intros. split; [nia|].
  change (2 ^ 126) with (2 ^ 63 * 2 ^ 63). nia.
Qed.

Lemma price_ok_amounts p : price_ok p -> amount_ok (amount (base p)) /\ amount_ok (amount (quote p)).
Proof. intros []. unfold amount_ok. lia. Qed.

Lemma price_inv_ok p : price_ok p -> price_ok (price_inv p).
Proof. intros []. split; cbn; auto. Qed.

Lemma price_validate_ok p b : price_ok p -> b = false -> price_validate b p = Ok tt.
Proof.
  intros [[Hb _] [Hq _] Hi] ->. unfold price_validate.
  apply Z.ltb_lt in Hb as ->, Hq as ->. apply Z.eqb_neq in Hi as ->. done.
Qed.

Lemma price_validate_inv p u :
  price_validate true p = Ok u ->
  price_ok p /\ amount (base p) <= GRAPHENE_MAX_SHARE_SUPPLY
  /\ amount (quote p) <= GRAPHENE_MAX_SHARE_SUPPLY.
Proof.
  unfold price_validate. intros. mon.
  split_and!; [|done..]. split; [unfold INT64_MAX, GRAPHENE_MAX_SHARE_SUPPLY in *; lia..|done].
Qed.

#[export] Hint Resolve price_ok_amounts price_inv_ok price_validate_ok : dfs.

(** ** Inversion of successful asset arithmetic *)

Section AssetInversion.
Context `{SafeInt64Laws}.

Lemma asset_add_ok a b c :
  asset_add a b = Ok c ->
  asset_id a = asset_id b /\ c = Asset (amount a + amount b) (asset_id a)
  /\ int64_range (amount a + amount b).
Proof. unfold asset_add. intros. mon. safe_ints. subst. done. Qed.

Lemma asset_sub_ok a b c :
  asset_sub a b = Ok c ->
  asset_id a = asset_id b /\ c = Asset (amount a - amount b) (asset_id a)
  /\ int64_range (amount a - amount b).
Proof. unfold asset_sub. intros. mon. safe_ints. subst. done. Qed.

Lemma asset_neg_ok a c :
  asset_neg a = Ok c -> c = Asset (- amount a) (asset_id a) /\ int64_range (- amount a).
Proof. unfold asset_neg. intros. mon. safe_ints. subst. done. Qed.

Lemma asset_lt_ok a b r :
  asset_lt a b = Ok r -> asset_id a = asset_id b /\ r = (amount a <? amount b).
Proof. unfold asset_lt. intros. mon. done. Qed.

Lemma asset_le_ok a b r :
  asset_le a b = Ok r -> asset_id a = asset_id b /\ r = (amount a <=? amount b).
Proof.
  unfold asset_le, asset_lt. intros. mon. split; [done|].
  by rewrite Z.ltb_antisym, negb_involutive.
Qed.

Lemma asset_ge_ok a b r :
  asset_ge a b = Ok r -> asset_id a = asset_id b /\ r = (amount b <=? amount a).
Proof.
  unfold asset_ge, asset_lt. intros. mon. split; [done|].
  by rewrite Z.ltb_antisym, negb_involutive.
Qed.

Lemma asset_lt_true a b : asset_lt a b = Ok true -> asset_id a = asset_id b /\ amount a < amount b.
Proof. intros [? E]%asset_lt_ok. split; [done|]. symmetry in E. by apply Z.ltb_lt. Qed.

Lemma asset_le_true a b : asset_le a b = Ok true -> asset_id a = asset_id b /\ amount a <= amount b.
Proof. intros [? E]%asset_le_ok. split; [done|]. symmetry in E. by apply Z.leb_le. Qed.

Lemma asset_ge_true a b : asset_ge a b = Ok true -> asset_id a = asset_id b /\ amount b <= amount a.
Proof. intros [? E]%asset_ge_ok. split; [done|]. symmetry in E. by apply Z.leb_le. Qed.
End AssetInversion.

(** Turns every successful operation on amounts and assets into equations. *)
Ltac asset_ints :=
  repeat match goal with
  | H : asset_add _ _ = Ok _ |- _ => apply asset_add_ok in H as (? & -> & ?)
  | H : asset_sub _ _ = Ok _ |- _ => apply asset_sub_ok in H as (? & -> & ?)
  | H : asset_neg _ = Ok _ |- _ => apply asset_neg_ok in H as (-> & ?)
  | H : asset_lt _ _ = Ok true |- _ => apply asset_lt_true in H as (? & ?)
  | H : asset_le _ _ = Ok true |- _ => apply asset_le_true in H as (? & ?)
  | H : asset_ge _ _ = Ok true |- _ => apply asset_ge_true in H as (? & ?)
  | H : asset_lt _ _ = Ok _ |- _ => apply asset_lt_ok in H as (? & ->)
  | H : asset_le _ _ = Ok _ |- _ => apply asset_le_ok in H as (? & ->)
  | H : asset_ge _ _ = Ok _ |- _ => apply asset_ge_ok in H as (? & ->)
  end;
  safe_ints; cbn [amount asset_id] in *.

(** ** The order on prices *)

Section PriceOrder.
Implicit Types a b c : price.

(** Prices by the value of base over quote, after the asset ids. *)
Lemma price_lt_spec a b :
  price_ok a -> price_ok b ->
  price_lt a b = true <->
    asset_id (base a) < asset_id (base b)
    \/ asset_id (base a) = asset_id (base b) /\
       (asset_id (quote a) < asset_id (quote b)
        \/ asset_id (quote a) = asset_id (quote b) /\
           amount (base a) * amount (quote b) < amount (base b) * amount (quote a)).
Proof.
  intros [? ?]%price_ok_amounts [? ?]%price_ok_amounts. unfold price_lt.
  rewrite !u128_amount_mul by done. rewrite !Z.gtb_ltb.
  repeat (case_match; reflect_bools); rewrite ?Z.ltb_lt; intuition lia.
Qed.

Lemma price_eq_spec a b :
  price_ok a -> price_ok b ->
  price_eq a b = true <->
    asset_id (base a) = asset_id (base b) /\ asset_id (quote a) = asset_id (quote b)
    /\ amount (base a) * amount (quote b) = amount (base b) * amount (quote a).
Proof.
  intros [? ?]%price_ok_amounts [? ?]%price_ok_amounts. unfold price_eq.
  rewrite !u128_amount_mul by done. rewrite !andb_true_iff, !Z.eqb_eq. intuition lia.
Qed.

Lemma cross_lt_trans p q r s t u :
  0 < q -> 0 < s -> 0 < u -> p * s < r * q -> r * u < t * s -> p * u < t * q.
Proof.
  intros. apply (Z.mul_lt_mono_pos_r s); [done|].
  apply (Z.lt_trans _ (r * q * u)); [|].
  - replace (p * u * s) with (p * s * u) by ring. by apply Z.mul_lt_mono_pos_r.
  - replace (r * q * u) with (r * u * q) by ring.
    replace (t * q * s) with (t * s * q) by ring. by apply Z.mul_lt_mono_pos_r.
Qed.

Lemma price_lt_trans a b c :
  price_ok a -> price_ok b -> price_ok c ->
  price_lt a b = true -> price_lt b c = true -> price_lt a c = true.
Proof.
  intros Ha Hb Hc. rewrite !price_lt_spec by done.
  intros [?|(? & [?|(? & H1)])] [?|(? & [?|(? & H2)])]; try (left; lia);
    right; split; try lia; [left; lia..|right; split; [lia|]].
  destruct Ha, Hb, Hc. eapply cross_lt_trans; [| | |exact H1|exact H2]; lia.
Qed.

Lemma price_lt_irrefl a : price_ok a -> price_lt a a = false.
Proof.
  intros Ha. destruct (price_lt a a) eqn:E; [|done].
  apply price_lt_spec in E; [lia|done..].
Qed.

Lemma price_trichotomy a b :
  price_ok a -> price_ok b ->
  price_lt a b = true \/ price_eq a b = true \/ price_lt b a = true.
Proof. intros Ha Hb. rewrite !price_lt_spec, price_eq_spec by done. lia. Qed.

Lemma price_eq_not_lt a b :
  price_ok a -> price_ok b -> price_eq a b = true -> price_lt a b = false.
Proof.
  intros Ha Hb He. destruct (price_lt a b) eqn:E; [|done].
  apply price_eq_spec in He; [|done..]. apply price_lt_spec in E; [lia|done..].
Qed.
End PriceOrder.

(** ** Conversions *)

(** The conversion the two functions round: the amount times the other side of
    the price over its own side. *)
Definition price_side (a : asset) (p : price) : option (Z * Z * asset_id_type) :=
  if asset_id a =? asset_id (base p)
  then Some (amount (quote p), amount (base p), asset_id (quote p))
  else if asset_id a =? asset_id (quote p)
  then Some (amount (base p), amount (quote p), asset_id (base p))
  else None.

Lemma price_side_ok a p n d i :
  price_ok p -> price_side a p = Some (n, d, i) -> amount_ok n /\ amount_ok d /\ 0 < d.
Proof.
  intros [] E. unfold price_side, amount_ok in *.
  repeat case_match; simplify_eq; lia.
Qed.

Lemma price_side_flip a p n d i x :
  price_ok p -> price_side a p = Some (n, d, i) ->
  price_side (Asset x i) p = Some (d, n, asset_id a).
Proof.
  intros [_ _ Hi] E. unfold price_side in *.
  repeat case_match; simplify_eq; cbn in *; reflect_bools; subst; try congruence;
    do 2 f_equal; try congruence; rewrite ?Z.eqb_refl in *; congruence.
Qed.

(** Both conversions of a representable amount, in terms of the side. *)
Lemma asset_mul_price_side a p :
  amount_ok (amount a) -> price_ok p ->
  asset_mul_price a p =
    match price_side a p with
    | Some (n, d, i) =>
        if amount a * n / d <=? GRAPHENE_MAX_SHARE_SUPPLY then Ok (Asset (amount a * n / d) i)
        else Err (assert_exception "result <= GRAPHENE_MAX_SHARE_SUPPLY")
    | None => Err (assert_exception "invalid asset * price")
    end.
Proof.
  intros Ha Hp. unfold asset_mul_price, price_side.
  destruct (price_ok_amounts p Hp), Hp as [[Hb _] [Hq _] _].
  rewrite !u128_amount_mul by done.
  apply Z.ltb_lt in Hb as Hb', Hq as Hq'. rewrite Hb', Hq'. cbn.
  repeat case_match; cbn; try done; do 2 f_equal; apply to_int64_small;
    reflect_bools; unfold amount_ok, int64_range, INT64_MIN, INT64_MAX, GRAPHENE_MAX_SHARE_SUPPLY in *;
    (split; [apply (Z.le_trans _ 0); [lia | apply Z.div_pos; nia] | lia]).
Qed.

Lemma multiply_and_round_up_side a p :
  amount_ok (amount a) -> price_ok p ->
  multiply_and_round_up a p =
    match price_side a p with
    | Some (n, d, i) =>
        if ceil_div (amount a * n) d <=? GRAPHENE_MAX_SHARE_SUPPLY
        then Ok (Asset (ceil_div (amount a * n) d) i)
        else Err (assert_exception "result <= GRAPHENE_MAX_SHARE_SUPPLY")
    | None => Err (assert_exception "invalid asset::multiply_and_round_up(price)")
    end.
Proof.
  intros Ha Hp. unfold multiply_and_round_up, price_side.
  destruct (price_ok_amounts p Hp) as [Hb1 Hq1], Hp as [[Hb _] [Hq _] _].
  rewrite !u128_amount_mul by done.
  assert (Hround : forall n d, amount_ok n -> amount_ok d -> 0 < d ->
    u128 (u128 (amount a * n + d) - 1) / d = ceil_div (amount a * n) d).
  { intros n d Hn Hd Hd0. unfold ceil_div.
    pose proof (amount_ok_mul _ _ Ha Hn). unfold amount_ok, INT64_MAX in *.
    rewrite (u128_small (amount a * n + d)) by lia. rewrite u128_small by lia. done. }
  rewrite !Hround by done.
  apply Z.ltb_lt in Hb as Hb', Hq as Hq'. rewrite Hb', Hq'. cbn.
  repeat case_match; cbn; try done; do 2 f_equal; apply to_int64_small;
    reflect_bools; unfold_int64; unfold amount_ok, GRAPHENE_MAX_SHARE_SUPPLY in *;
    (split; [apply (Z.le_trans _ 0); [lia | apply ceil_div_nonneg; nia] | lia]).
Qed.

(** ** Scaling: the loops terminate and keep the parts positive and bounded *)

Section ScalingLemmas.
Context `{RationalLaws}.
Implicit Types r cp : rational.

(** Both parts of a rational are positive and at most [m]. *)
Definition parts_in (m : Z) (r : rational) : Prop :=
  0 < rat_num r <= m /\ 0 < rat_den r <= m.

Lemma parts_in_weaken m m' r : m <= m' -> parts_in m r -> parts_in m' r.
Proof. unfold parts_in. lia. Qed.

(** Construction from positive parts: same value, parts no larger. *)
Lemma rat_make_pos n d :
  0 < n < 2 ^ 128 -> 0 < d < 2 ^ 128 ->
  exists r, rat_make n d = Ok r /\ rat_num r * d = n * rat_den r
    /\ 0 < rat_num r <= n /\ 0 < rat_den r <= d.
Proof.
  intros Hn Hd. destruct (rat_make_exact n d) as (r & Hr & E); [lia..|].
  exists r. split; [done|]. split; [done|].
  pose proof (rat_den_pos r). pose proof (rat_num_nonneg r). pose proof (rat_normal r).
  destruct (normal_fraction_le (rat_num r) (rat_den r) n d); [lia..|nia].
Qed.

Lemma rat_mul_pos a b m k :
  parts_in m a -> parts_in k b -> 0 < k -> m * k < 2 ^ 128 ->
  parts_in (m * k) (rat_mul a b)
  /\ rat_num (rat_mul a b) * (rat_den a * rat_den b)
     = rat_num a * rat_num b * rat_den (rat_mul a b).
Proof.
  intros [Han Had] [Hbn Hbd] Hk Hmk.
  assert (rat_num a * rat_num b <= m * k) by (apply Z.mul_le_mono_nonneg; lia).
  assert (rat_den a * rat_den b <= m * k) by (apply Z.mul_le_mono_nonneg; lia).
  pose proof (rat_mul_exact a b ltac:(lia) ltac:(lia)) as E.
  split; [|done]. pose proof (rat_den_pos (rat_mul a b)). pose proof (rat_num_nonneg (rat_mul a b)).
  pose proof (rat_normal (rat_mul a b)).
  destruct (normal_fraction_le (rat_num (rat_mul a b)) (rat_den (rat_mul a b))
              (rat_num a * rat_num b) (rat_den a * rat_den b)); [nia..|].
  unfold parts_in. split; [split; [|lia]|lia].
  assert (0 < rat_num a * rat_num b * rat_den (rat_mul a b)) by nia. nia.
Qed.

Lemma shiftr1_bounds x m : 2 <= x -> x < 2 * m -> 0 < Z.shiftr x 1 < m.
Proof.
  intros. rewrite Z.shiftr_div_pow2 by lia. change (2 ^ 1) with 2.
  split; [apply Z.div_str_pos; lia | apply Z.div_lt_upper_bound; lia].
Qed.

Lemma shrink_loop_total fuel cp sh :
  0 < rat_num cp < 2 ^ (Z.of_nat fuel + 49) -> rat_num cp < 2 ^ 128 ->
  0 < rat_den cp < 2 ^ (Z.of_nat fuel + 49) -> rat_den cp < 2 ^ 128 ->
  exists cp' sh' mx, shrink_loop fuel cp sh = Ok (cp', sh', mx)
    /\ parts_in GRAPHENE_MAX_SHARE_SUPPLY cp'
    /\ (parts_in GRAPHENE_MAX_SHARE_SUPPLY cp -> cp' = cp /\ sh' = sh /\ mx = false).
Proof.
  revert cp sh. induction fuel as [|fuel IH]; intros cp sh Hn Hn' Hd Hd'; cbn [shrink_loop].
  all: destruct (_ || _) eqn:E; cycle 1;
    [ exists cp, sh, false; rewrite !Z.gtb_ltb in E; unfold parts_in; reflect_bools;
      split; [done|]; split; [lia|done] | ].
  all: assert (~ parts_in GRAPHENE_MAX_SHARE_SUPPLY cp) as Hbig
    by (unfold parts_in; rewrite !Z.gtb_ltb, orb_true_iff, !Z.ltb_lt in E; lia).
  - exfalso. apply Hbig. change (Z.of_nat 0) with 0 in *.
    unfold parts_in, GRAPHENE_MAX_SHARE_SUPPLY. cbn in *. lia.
  - rewrite Nat2Z.inj_succ in *.
    replace (Z.succ (Z.of_nat fuel) + 49) with (Z.succ (Z.of_nat fuel + 49)) in * by lia.
    rewrite Z.pow_succ_r in * by lia.
    destruct (Z.eqb_spec 1 (rat_num cp)); [|destruct (Z.eqb_spec 1 (rat_den cp))].
    + destruct (rat_make_pos 1 GRAPHENE_MAX_SHARE_SUPPLY) as (c & Hc & _ & ? & ?);
        [unfold GRAPHENE_MAX_SHARE_SUPPLY; lia..|].
      rewrite Hc. cbn. exists c, sh, true. unfold parts_in, GRAPHENE_MAX_SHARE_SUPPLY in *.
      split; [done|]. split; [lia|]. intros; lia.
    + destruct (rat_make_pos GRAPHENE_MAX_SHARE_SUPPLY 1) as (c & Hc & _ & ? & ?);
        [unfold GRAPHENE_MAX_SHARE_SUPPLY; lia..|].
      rewrite Hc. cbn. exists c, sh, true. unfold parts_in, GRAPHENE_MAX_SHARE_SUPPLY in *.
      split; [done|]. split; [lia|]. intros; lia.
    + assert (0 < Z.shiftr (rat_num cp) 1 < 2 ^ (Z.of_nat fuel + 49)) by (apply shiftr1_bounds; lia).
      assert (0 < Z.shiftr (rat_den cp) 1 < 2 ^ (Z.of_nat fuel + 49)) by (apply shiftr1_bounds; lia).
      pose proof (shiftr1_bounds (rat_num cp) (2 ^ 127) ltac:(lia) ltac:(lia)).
      pose proof (shiftr1_bounds (rat_den cp) (2 ^ 127) ltac:(lia) ltac:(lia)).
      destruct (rat_make_pos (Z.shiftr (rat_num cp) 1) (Z.shiftr (rat_den cp) 1))
        as (c & Hc & _ & ? & ?); [lia..|].
      rewrite Hc. cbn [rbind].
      destruct (IH c true) as (cp' & sh' & mx & ? & ? & _); [lia..|].
      exists cp', sh', mx. split_and!; [done..|]. done.
Qed.

Lemma clipped_quotient_bounds a b :
  0 < b < a -> 0 < Z.min (a / b) GRAPHENE_MAX_SHARE_SUPPLY <= GRAPHENE_MAX_SHARE_SUPPLY.
Proof.
  intros ?. assert (0 < a / b) by (apply Z.div_str_pos; lia).
  unfold GRAPHENE_MAX_SHARE_SUPPLY. lia.
Qed.

Lemma refine_shrunk_total ocp cp :
  0 < rat_num ocp -> 0 < rat_den ocp -> parts_in GRAPHENE_MAX_SHARE_SUPPLY cp ->
  exists cp', refine_shrunk ocp cp = Ok cp' /\ parts_in GRAPHENE_MAX_SHARE_SUPPLY cp'.
Proof.
  intros Hn Hd Hcp. unfold refine_shrunk.
  apply Z.ltb_lt in Hn as Hn', Hd as Hd'. rewrite Hn', Hd'. cbn [andb fc_assert rbind].
  set (nd := if rat_num ocp >? rat_den ocp then _ else _).
  assert (0 < fst nd <= GRAPHENE_MAX_SHARE_SUPPLY /\ 0 < snd nd <= GRAPHENE_MAX_SHARE_SUPPLY) as Hnd.
  { subst nd. rewrite Z.gtb_ltb. destruct (Z.ltb_spec (rat_den ocp) (rat_num ocp)); cbn [fst snd].
    - split; [apply clipped_quotient_bounds|unfold GRAPHENE_MAX_SHARE_SUPPLY]; lia.
    - split; [unfold GRAPHENE_MAX_SHARE_SUPPLY; lia|].
      assert (0 < rat_den ocp / rat_num ocp) by (apply Z.div_str_pos; lia).
      unfold GRAPHENE_MAX_SHARE_SUPPLY. lia. }
  destruct nd as [num den]. cbn [fst snd] in Hnd.
  destruct (rat_make_pos num den) as (ncp & Hncp & _ & ? & ?);
    [unfold GRAPHENE_MAX_SHARE_SUPPLY in *; lia..|].
  rewrite Hncp. cbn [rbind].
  assert (parts_in GRAPHENE_MAX_SHARE_SUPPLY ncp) by (unfold parts_in; lia).
  repeat case_match; eauto.
Qed.

(** The halving loops of the older functions. *)
Lemma halve_loop_total half fuel cp :
  (forall x m, 0 < x -> x <= 2 * m -> 2 <= m -> 0 < half x <= m) ->
  0 < rat_num cp <= 2 ^ (Z.of_nat fuel + 49) -> rat_num cp < 2 ^ 128 ->
  0 < rat_den cp <= 2 ^ (Z.of_nat fuel + 49) -> rat_den cp < 2 ^ 128 ->
  exists cp', halve_loop half fuel cp = Ok cp' /\ parts_in GRAPHENE_MAX_SHARE_SUPPLY cp'.
Proof.
  intros Hhalf. revert cp. induction fuel as [|fuel IH]; intros cp Hn Hn' Hd Hd'; cbn [halve_loop].
  all: destruct (_ || _) eqn:E; cycle 1;
    [ exists cp; rewrite !Z.gtb_ltb in E; unfold parts_in; reflect_bools; split; [done|lia] | ].
  - exfalso. rewrite !Z.gtb_ltb, orb_true_iff, !Z.ltb_lt in E.
    unfold GRAPHENE_MAX_SHARE_SUPPLY in E. cbn in *. lia.
  - rewrite Nat2Z.inj_succ in *.
    replace (Z.succ (Z.of_nat fuel) + 49) with (Z.succ (Z.of_nat fuel + 49)) in * by lia.
    rewrite Z.pow_succ_r in * by lia.
    assert (2 <= 2 ^ (Z.of_nat fuel + 49)).
    { change 2 with (2 ^ 1) at 1. apply Z.pow_le_mono_r; lia. }
    destruct (Hhalf (rat_num cp) (2 ^ (Z.of_nat fuel + 49))); [lia..|].
    destruct (Hhalf (rat_den cp) (2 ^ (Z.of_nat fuel + 49))); [lia..|].
    destruct (Hhalf (rat_num cp) (2 ^ 127)); [lia..|].
    destruct (Hhalf (rat_den cp) (2 ^ 127)); [lia..|].
    destruct (rat_make_pos (half (rat_num cp)) (half (rat_den cp))) as (c & Hc & _ & ? & ?); [lia..|].
    rewrite Hc. cbn [rbind]. apply IH; lia.
Qed.

Lemma half_round_up_bounds x m : 0 < x -> x <= 2 * m -> 2 <= m -> 0 < half_round_up x <= m.
Proof.
  intros. unfold half_round_up. pose proof (Z.land_ones x 1 ltac:(lia)) as E.
  change (Z.ones 1) with 1 in E. rewrite E, Z.shiftr_div_pow2 by lia. change (2 ^ 1) with 2.
  pose proof (Z.mod_pos_bound x 2 ltac:(lia)). pose proof (Z.div_mod x 2 ltac:(lia)).
  lia.
Qed.
End ScalingLemmas.

(** ** Main properties *)

(** [operator <] on prices with positive amounts is a strict weak order whose
    equivalence is [operator ==]: it is irreflexive and transitive, and any two
    prices are comparable, in exactly one way. *)
Theorem price_strict_order (a b c : price) :
  price_ok a -> price_ok b -> price_ok c ->
  price_lt a a = false
  /\ (price_lt a b = true -> price_lt b c = true -> price_lt a c = true)
  /\ (price_lt a b = true \/ price_eq a b = true \/ price_lt b a = true)
  /\ (price_eq a b = true -> price_lt a b = false /\ price_lt b a = false).
Proof.
  intros Ha Hb Hc. split_and!.
  - by apply price_lt_irrefl.
  - by apply price_lt_trans.
  - by apply price_trichotomy.
  - intros He. split; [by apply price_eq_not_lt|]. apply price_eq_not_lt; [done..|].
    rewrite price_eq_spec in * by done. intuition lia.
Qed.

Lemma price_strict_order_witness :
  let a := Price (Asset 3 1) (Asset 7 0) in
  let b := Price (Asset 1 1) (Asset 2 0) in
  let c := Price (Asset 4 1) (Asset 8 0) in
  price_lt a b = true /\ price_eq b c = true
  /\ (price_lt a a = false
      /\ (price_lt a b = true -> price_lt b c = true -> price_lt a c = true)
      /\ (price_lt a b = true \/ price_eq a b = true \/ price_lt b a = true)
      /\ (price_eq a b = true -> price_lt a b = false /\ price_lt b a = false)).
Proof.
  cbv zeta. split; [reflexivity|]. split; [reflexivity|].
  apply price_strict_order; split; cbn; unfold INT64_MAX; lia.
Defined.

(** The conversions round the way their names say, and the one that rounds up
    is safe to convert back: [operator *] gives the greatest amount whose value
    does not exceed the input's, [multiply_and_round_up] the least amount whose
    value covers it, and converting the rounded-up amount back never yields less
    than the original. *)
Theorem conversion_rounding (a : asset) (p : price) (n d i : Z) (down up back : asset) :
  amount_ok (amount a) -> price_ok p -> price_side a p = Some (n, d, i) ->
  asset_mul_price a p = Ok down -> multiply_and_round_up a p = Ok up ->
  asset_id down = i /\ asset_id up = i
  /\ amount down * d <= amount a * n < (amount down + 1) * d
  /\ (amount up - 1) * d < amount a * n <= amount up * d
  /\ amount down <= amount up <= amount down + 1
  /\ (asset_mul_price up p = Ok back -> asset_id back = asset_id a /\ amount a <= amount back).
Proof.
  intros Ha Hp Hs Hdown Hup. destruct (price_side_ok a p n d i Hp Hs) as (Hn & Hd & Hd0).
  rewrite asset_mul_price_side, Hs in Hdown by done.
  rewrite multiply_and_round_up_side, Hs in Hup by done.
  case_match; simplify_eq. case_match; simplify_eq. cbn.
  pose proof (div_mul_le (amount a * n) d Hd0). pose proof (div_lt_mul (amount a * n) d Hd0).
  pose proof (ceil_div_ge (amount a * n) d Hd0). pose proof (ceil_div_lt (amount a * n) d Hd0).
  pose proof (amount_ok_mul _ _ Ha Hn).
  split_and!; try done; [nia..|].
  pose proof (ceil_div_nonneg (amount a * n) d Hd0 ltac:(lia)).
  reflect_bools. intros Hback. rewrite asset_mul_price_side in Hback; [|cbn|done].
  - rewrite (price_side_flip a p n d i _ Hp Hs) in Hback. cbn in Hback.
    case_match; simplify_eq. split; [done|]. cbn.
    assert (0 < n) by (destruct Hp; unfold price_side in Hs; repeat case_match; simplify_eq; lia).
    apply Z.div_le_lower_bound; lia.
  - unfold amount_ok, INT64_MAX, GRAPHENE_MAX_SHARE_SUPPLY in *. lia.
Qed.

Lemma conversion_rounding_witness :
  let a := Asset 10 1 in
  let p := Price (Asset 3 1) (Asset 7 0) in
  (asset_mul_price a p = Ok (Asset 23 0) /\ multiply_and_round_up a p = Ok (Asset 24 0))
  /\ 23 * 3 <= 10 * 7 < 24 * 3 /\ 10 <= 10.
Proof.
  cbv zeta. split; [split; reflexivity|].
  destruct (conversion_rounding (Asset 10 1) (Price (Asset 3 1) (Asset 7 0)) 7 3 0
              (Asset 23 0) (Asset 24 0) (Asset 10 1)) as (_ & _ & H1 & _ & _ & H2);
    try reflexivity; [unfold amount_ok; cbn; unfold INT64_MAX; lia
                     |split; cbn; unfold INT64_MAX; lia|].
  split; [exact H1|]. exact (proj2 (H2 eq_refl)).
Defined.

Section ScalingTheorems.
Context `{RationalLaws}.

(** A positive ratio of [boost::rational<int32_t>]. *)
Definition ratio_ok (r : rational) : Prop := parts_in (2 ^ 31 - 1) r.

Lemma scaled_product p r :
  price_ok p -> ratio_ok r ->
  exists p128 r128,
    rat_make (amount (base p)) (amount (quote p)) = Ok p128
    /\ rat_make (rat_num r) (rat_den r) = Ok r128
    /\ parts_in (INT64_MAX * (2 ^ 31 - 1)) (rat_mul p128 r128)
    /\ rat_num (rat_mul p128 r128) * (amount (quote p) * rat_den r)
       = amount (base p) * rat_num r * rat_den (rat_mul p128 r128).
Proof.
  intros [Hb Hq _] [Hn Hd]. unfold_int64.
  destruct (rat_make_pos (amount (base p)) (amount (quote p))) as (p128 & Hp & Ep & ? & ?); [lia..|].
  destruct (rat_make_pos (rat_num r) (rat_den r)) as (r128 & Hr & Er & ? & ?); [lia..|].
  exists p128, r128. split; [done|]. split; [done|].
  destruct (rat_mul_pos p128 r128 (2 ^ 63 - 1) (2 ^ 31 - 1)) as [Hpos E];
    [unfold parts_in; lia..|lia|lia|].
  split; [done|].
  apply (Z.mul_reg_r _ _ (rat_den p128 * rat_den r128)); [nia|].
  transitivity (rat_num (rat_mul p128 r128) * (rat_den p128 * rat_den r128)
                * (amount (quote p) * rat_den r)); [ring|].
  rewrite E.
  transitivity ((rat_num p128 * amount (quote p)) * (rat_num r128 * rat_den r)
                * rat_den (rat_mul p128 r128)); [ring|].
  rewrite Ep, Er. ring.
Qed.

(** C39: Scaling a valid price by a positive ratio always succeeds (the shrinking
    loop ends, no rational has a zero denominator, the final validation holds)
    and gives a valid price of the same pair of assets; unless the original
    price itself is returned, both amounts fit the maximum share supply. *)
Theorem price_mul_ratio_total (p : price) (r : rational) :
  price_ok p -> ratio_ok r ->
  exists np, price_mul_ratio p r = Ok np /\ price_ok np
    /\ asset_id (base np) = asset_id (base p) /\ asset_id (quote np) = asset_id (quote p)
    /\ (np = p \/ amount (base np) <= GRAPHENE_MAX_SHARE_SUPPLY
                  /\ amount (quote np) <= GRAPHENE_MAX_SHARE_SUPPLY).
Proof.
  intros Hp Hr. unfold price_mul_ratio. rewrite price_validate_ok by done. cbn [rbind].
  pose proof Hr as [[Hrn _] [Hrd _]]. apply Z.ltb_lt in Hrn, Hrd. rewrite Hrn, Hrd.
  cbn [andb fc_assert rbind].
  destruct (rat_num r =? rat_den r); [exists p; eauto 10|].
  destruct (scaled_product p r Hp Hr) as (p128 & r128 & -> & -> & Hocp & _). cbn [rbind].
  set (ocp := rat_mul p128 r128) in *. destruct Hocp as [? ?]. unfold_int64.
  destruct (shrink_loop_total 128 ocp false) as (cp & sh & mx & -> & Hcp & _); [cbn; lia..|].
  cbn [rbind].
  assert (exists cp', (if sh then refine_shrunk ocp cp else Ok cp) = Ok cp'
            /\ parts_in GRAPHENE_MAX_SHARE_SUPPLY cp') as (cp' & -> & [Hcn Hcd]).
  { destruct sh; [apply refine_shrunk_total; [lia|lia|done] | eauto]. }
  unfold GRAPHENE_MAX_SHARE_SUPPLY in *. cbn [rbind].
  unfold asset_div. cbn [asset_id].
  pose proof (price_ids p Hp) as Hi. apply Z.eqb_neq in Hi as Hi'. rewrite Hi'. cbn [negb fc_assert rbind].
  rewrite !to_int64_small by (unfold_int64; lia).
  set (np := Price _ _).
  assert (price_ok np) by (split; cbn; unfold INT64_MAX; [lia..|done]).
  destruct ((sh || mx) && _).
  - rewrite price_validate_ok by done. exists p. split; [reflexivity|]. eauto 10.
  - rewrite price_validate_ok by done. exists np. split; [reflexivity|].
    split; [done|]. split; [reflexivity|]. split; [reflexivity|]. right. cbn. lia.
Qed.

(** Scaling is exact when the reduced result fits: if the scaled fraction has
    a representation with both parts within the maximum share supply, the price
    returned has exactly that value. *)
Theorem price_mul_ratio_exact (p np : price) (r : rational) (n d : Z) :
  price_ok p -> ratio_ok r ->
  0 < n <= GRAPHENE_MAX_SHARE_SUPPLY -> 0 < d <= GRAPHENE_MAX_SHARE_SUPPLY ->
  n * (amount (quote p) * rat_den r) = amount (base p) * rat_num r * d ->
  price_mul_ratio p r = Ok np ->
  amount (base np) * (amount (quote p) * rat_den r)
    = amount (base p) * rat_num r * amount (quote np).
Proof.
  intros Hp Hr Hn Hd E Hok. unfold price_mul_ratio in Hok.
  rewrite price_validate_ok in Hok by done. cbn [rbind] in Hok.
  apply rbind_ok in Hok as (_ & _ & Hok).
  destruct (Z.eqb_spec (rat_num r) (rat_den r)) as [Heq|_].
  { mon_step. rewrite Heq. ring. }
  destruct (scaled_product p r Hp Hr) as (p128 & r128 & Hp128 & Hr128 & Hocp & Eocp).
  rewrite Hp128, Hr128 in Hok. cbn [rbind] in Hok.
  set (ocp := rat_mul p128 r128) in *.
  assert (parts_in GRAPHENE_MAX_SHARE_SUPPLY ocp) as Hfit.
  { destruct Hocp as [[? _] [? _]]. destruct Hp as [[? _] [? _] _], Hr as [[? _] [? _]].
    destruct (normal_fraction_le (rat_num ocp) (rat_den ocp) n d); [lia..|apply rat_normal| |].
    - apply (Z.mul_reg_r _ _ (amount (quote p) * rat_den r)); [nia|].
      transitivity (rat_num ocp * (amount (quote p) * rat_den r) * d); [ring|].
      rewrite Eocp. transitivity (amount (base p) * rat_num r * d * rat_den ocp); [ring|].
      rewrite <- E. ring.
    - unfold parts_in. lia. }
  destruct Hocp as [? ?]. unfold_int64.
  destruct (shrink_loop_total 128 ocp false) as (cp & sh & mx & Hl & _ & Hsame); [cbn; lia..|].
  destruct (Hsame Hfit) as (-> & -> & ->). rewrite Hl in Hok. cbn [rbind andb orb] in Hok.
  destruct Hfit as [? ?]. unfold GRAPHENE_MAX_SHARE_SUPPLY in *.
  rewrite !to_int64_small in Hok by (unfold_int64; lia).
  unfold asset_div in Hok. repeat mon_step. cbn. exact Eocp.
Qed.
End ScalingTheorems.

Lemma price_mul_ratio_total_witness :
  let p := Price (Asset 700000000000001 1) (Asset 3 0) in
  let r := fraction_make 1750 1000 in
  price_mul_ratio p r = Ok (Price (Asset 408333333333333 1) (Asset 1 0))
  /\ exists np, price_mul_ratio p r = Ok np /\ price_ok np
      /\ asset_id (base np) = asset_id (base p) /\ asset_id (quote np) = asset_id (quote p)
      /\ (np = p \/ amount (base np) <= GRAPHENE_MAX_SHARE_SUPPLY
                    /\ amount (quote np) <= GRAPHENE_MAX_SHARE_SUPPLY).
Proof.
  cbv zeta. split; [vm_compute; reflexivity|].
  apply (price_mul_ratio_total (H := fractions)).
  - split; cbn; unfold INT64_MAX; lia.
  - split; vm_compute; split; congruence.
Defined.

Lemma price_mul_ratio_exact_witness :
  let p := Price (Asset 5 1) (Asset 3 0) in
  let r := fraction_make 1750 1000 in
  price_mul_ratio p r = Ok (Price (Asset 35 1) (Asset 12 0)) /\ 35 * (3 * 4) = 5 * 7 * 12.
Proof.
  cbv zeta. split; [vm_compute; reflexivity|].
  apply (price_mul_ratio_exact (H := fractions) (Price (Asset 5 1) (Asset 3 0))
           (Price (Asset 35 1) (Asset 12 0)) (fraction_make 1750 1000) 35 12).
  - split; cbn; unfold INT64_MAX; lia.
  - split; vm_compute; split; congruence.
  - unfold GRAPHENE_MAX_SHARE_SUPPLY; lia.
  - unfold GRAPHENE_MAX_SHARE_SUPPLY; lia.
  - vm_compute. reflexivity.
  - vm_compute. reflexivity.
Defined.

(** The margin call order ratio of a validated feed lies between 1.00 and MSSR,
    and the 16-bit subtraction does not wrap. *)
Lemma margin_call_numerator_bounds (f : price_feed) (mcfr : option Z) :
  (forall m, mcfr = Some m -> 0 <= m < 2 ^ 16) ->
  GRAPHENE_MIN_COLLATERAL_RATIO <= maximum_short_squeeze_ratio f <= GRAPHENE_MAX_COLLATERAL_RATIO ->
  GRAPHENE_COLLATERAL_RATIO_DENOM <= get_margin_call_price_numerator f mcfr
    <= maximum_short_squeeze_ratio f
  /\ (forall m, mcfr = Some m ->
        m <= maximum_short_squeeze_ratio f - GRAPHENE_COLLATERAL_RATIO_DENOM ->
        get_margin_call_price_numerator f mcfr = maximum_short_squeeze_ratio f - m).
Proof.
  intros Hm Hs. unfold get_margin_call_price_numerator, u16, GRAPHENE_COLLATERAL_RATIO_DENOM,
    GRAPHENE_MIN_COLLATERAL_RATIO, GRAPHENE_MAX_COLLATERAL_RATIO in *.
  assert (forall m, 0 <= m < maximum_short_squeeze_ratio f ->
    (maximum_short_squeeze_ratio f - m) mod 2 ^ 16 = maximum_short_squeeze_ratio f - m) as Hu.
  { intros. apply Z.mod_small. lia. }
  destruct mcfr as [m|].
  - specialize (Hm m eq_refl). split; [|intros ? [= <-] ?].
    all: destruct (Z.ltb_spec m (maximum_short_squeeze_ratio f)); rewrite ?Hu by lia;
      destruct (Z.ltb_spec (maximum_short_squeeze_ratio f - m) 1000); cbn; lia.
  - split; [|done]. destruct (Z.ltb_spec 0 (maximum_short_squeeze_ratio f)); [|lia].
    rewrite Hu by lia. destruct (Z.ltb_spec (maximum_short_squeeze_ratio f - 0) 1000); lia.
Qed.
