(* ===== verification/Objects.v ===== *)
(** The objects the chain stores: one record per object class of
    [libraries/chain/include/graphene/chain/*_object.hpp], restricted to the fields
    the modelled code reads or writes, and the tables (indexes) that hold them. *)
From S2P Require Import Prelude Records Fc Asset.
From Stdlib Require Import Strings.Byte.

(** ** Tables *)

(** An object index: the next instance to be handed out and the stored objects. *)
Record table (A : Type) := Table { next_id : Z; rows : gmap Z A }.
Arguments Table {A} _ _.
Arguments next_id {A} _.
Arguments rows {A} _.

Definition empty_table {A} : table A := Table 0 ∅.

Definition tfind {A} (t : table A) (id : Z) : option A := rows t !! id.

(** [database::create]: the new object gets the next instance. *)
Definition tcreate {A} (t : table A) (x : A) : table A :=
  Table (next_id t + 1) (<[next_id t := x]> (rows t)).

Definition tmodify {A} (t : table A) (id : Z) (x : A) : table A :=
  Table (next_id t) (<[id := x]> (rows t)).

Definition tremove {A} (t : table A) (id : Z) : table A :=
  Table (next_id t) (delete id (rows t)).

(** Search through a unique secondary index: the object that satisfies the key. *)
Definition tsearch {A} (P : A -> bool) (t : table A) : option (Z * A) :=
  head (filter (fun kv => P (kv.2) = true) (map_to_list (rows t))).

(** The first object of an index ordered by the time [key], by [id] among equals, if
    its time has come. *)
Definition tfirst_due {A} (key : A -> Z) (bound : Z) (t : table A) : option (Z * A) :=
  match list_min (fun x y => (key (snd x) <? key (snd y))
                             || (key (snd x) =? key (snd y)) && (fst x <? fst y)) (map_to_list (rows t)) with
  | Some (id, x) => if key x <=? bound then Some (id, x) else None
  | None => None
  end.

(** Every stored id is below the next one, so that [create] never overwrites. *)
Definition table_wf {A} (t : table A) : Prop :=
  0 <= next_id t /\ forall id x, rows t !! id = Some x -> 0 <= id < next_id t.

Section Tables.
Context {A : Type}.
Implicit Types (t : table A) (f : Z -> A -> Z).

Definition tsum f t : Z := msum f (rows t).

Lemma table_fresh t : table_wf t -> rows t !! next_id t = None.
Proof.
  intros [_ Hwf]. destruct (rows t !! next_id t) as [x|] eqn:E; [|done].
  apply Hwf in E. lia.
Qed.

Lemma lookup_tcreate t x : rows (tcreate t x) !! next_id t = Some x.
Proof. apply lookup_insert_eq. Qed.

Lemma lookup_tcreate_ne t x id : id <> next_id t -> rows (tcreate t x) !! id = rows t !! id.
Proof. intros. by apply lookup_insert_ne. Qed.

Lemma lookup_tmodify t x id : rows (tmodify t id x) !! id = Some x.
Proof. apply lookup_insert_eq. Qed.

Lemma lookup_tmodify_ne t x id i : i <> id -> rows (tmodify t id x) !! i = rows t !! i.
Proof. intros. by apply lookup_insert_ne. Qed.

Lemma lookup_tremove t id : rows (tremove t id) !! id = None.
Proof. apply lookup_delete_eq. Qed.

Lemma tmodify_size t id x : is_Some (rows t !! id) -> size (rows (tmodify t id x)) = size (rows t).
Proof. intros. unfold tmodify. cbn. by apply map_size_insert_Some. Qed.

Lemma tremove_size t id : is_Some (rows t !! id) -> size (rows (tremove t id)) = pred (size (rows t)).
Proof. intros. unfold tremove. cbn. by apply map_size_delete_Some. Qed.

(** A property of all the objects of a table. *)
Definition tall (P : A -> Prop) t : Prop := map_Forall (fun _ x => P x) (rows t).

Lemma tall_create P t x : P x -> tall P t -> tall P (tcreate t x).
Proof. intros. by apply map_Forall_insert_2. Qed.

Lemma tall_modify P t id x : P x -> tall P t -> tall P (tmodify t id x).
Proof. intros. by apply map_Forall_insert_2. Qed.

Lemma tall_remove P t id : tall P t -> tall P (tremove t id).
Proof. intros. by apply map_Forall_delete. Qed.

Lemma tall_lookup P t id x : tall P t -> rows t !! id = Some x -> P x.
Proof. intros Ht Hx. exact (Ht id x Hx). Qed.

Lemma tcreate_wf t x : table_wf t -> table_wf (tcreate t x).
Proof.
  intros [Hn Hwf]. split; [cbn; lia|]. intros id y. unfold tcreate. cbn.
  rewrite lookup_insert_Some.
  intros [[<- <-]|[_ H]]; [lia|]. apply Hwf in H. lia.
Qed.

Lemma tmodify_wf t id x y : rows t !! id = Some y -> table_wf t -> table_wf (tmodify t id x).
Proof.
  intros Hid [Hn Hwf]. split; [done|]. intros i z. unfold tmodify. cbn. rewrite lookup_insert_Some.
  intros [[<- _]|[_ H]]; [by apply (Hwf id y)|]. by apply Hwf in H.
Qed.

Lemma tremove_wf t id : table_wf t -> table_wf (tremove t id).
Proof. intros [Hn Hwf]. split; [done|]. intros i z. unfold tremove. cbn. rewrite lookup_delete_Some. intros [_ ?]. eauto. Qed.

Lemma tsum_create f t x :
  table_wf t -> tsum f (tcreate t x) = tsum f t + f (next_id t) x.
Proof.
  intros Hwf. unfold tsum, tcreate. cbn. rewrite msum_insert_new by (by apply table_fresh). lia.
Qed.

Lemma tsum_modify f t id x y :
  rows t !! id = Some y -> tsum f (tmodify t id x) = tsum f t - f id y + f id x.
Proof. intros. unfold tsum, tmodify. cbn. by apply msum_insert. Qed.

Lemma tsum_remove f t id y :
  rows t !! id = Some y -> tsum f (tremove t id) = tsum f t - f id y.
Proof. intros. unfold tsum, tremove. cbn. by apply msum_delete. Qed.

Lemma tsearch_Some P t id x :
  tsearch P t = Some (id, x) -> rows t !! id = Some x /\ P x = true.
Proof.
  unfold tsearch. intros E. apply head_Some_elem_of in E.
  apply list_elem_of_filter in E as [HP E]. by apply elem_of_map_to_list in E.
Qed.

Lemma tsearch_None P t id x :
  tsearch P t = None -> rows t !! id = Some x -> P x = false.
Proof.
  unfold tsearch. intros E Hx. apply head_None in E.
  destruct (P x) eqn:HP; [|done]. exfalso.
  assert ((id, x) ∈ filter (fun kv : Z * A => P (kv.2) = true) (map_to_list (rows t))) as Hin.
  { apply list_elem_of_filter. split; [done|]. by apply elem_of_map_to_list. }
  rewrite E in Hin. by apply not_elem_of_nil in Hin.
Qed.

Lemma tfirst_due_Some (key : A -> Z) bound t id x :
  tfirst_due key bound t = Some (id, x) -> rows t !! id = Some x /\ key x <= bound.
Proof.
  unfold tfirst_due. intros E. destruct (list_min _ _) as [[i y]|] eqn:Hmin; [|done].
  destruct (Z.leb_spec (key y) bound); [|done]. injection E as <- <-.
  apply list_min_in in Hmin. by apply elem_of_map_to_list in Hmin.
Qed.

(** When none is found, none is due. *)
Lemma tfirst_due_None (key : A -> Z) bound t id x :
  tfirst_due key bound t = None -> rows t !! id = Some x -> bound < key x.
Proof.
  unfold tfirst_due. intros E Hd. apply elem_of_map_to_list in Hd.
  destruct (list_min _ _) as [[i y]|] eqn:Hmin.
  - destruct (Z.leb_spec (key y) bound); [done|].
    eapply list_min_least with (x := (id, x)) in Hmin; [| | |done]; cbn in *.
    + apply orb_false_iff in Hmin as [Hmin _]. apply Z.ltb_ge in Hmin. lia.
    + intros [i1 x1] [i2 x2]. cbn. rewrite orb_true_iff, andb_true_iff, orb_false_iff, andb_false_iff,
        Z.ltb_lt, Z.eqb_eq, Z.ltb_lt, Z.ltb_ge, Z.eqb_neq, Z.ltb_ge. lia.
    + intros [i1 x1] [i2 x2] [i3 x3]. cbn.
      rewrite !orb_false_iff, !andb_false_iff, !Z.ltb_ge, !Z.eqb_neq. lia.
  - apply list_min_None in Hmin. rewrite Hmin in Hd. by apply not_elem_of_nil in Hd.
Qed.
End Tables.

(** The table obtained by creating the objects of a list in order. *)
Definition table_from {A} (l : list A) : table A := foldl tcreate empty_table l.

Lemma table_from_wf {A} (l : list A) : table_wf (table_from l).
Proof.
  unfold table_from. assert (table_wf (@empty_table A)) as Hwf.
  { split; [done|]. intros id x. unfold empty_table. cbn. by rewrite lookup_empty. }
  revert Hwf. generalize (@empty_table A). induction l as [|x l IH]; cbn; intros t Ht; [done|].
  by apply IH, tcreate_wf.
Qed.

Lemma table_from_all {A} (P : A -> Prop) (l : list A) : Forall P l -> tall P (table_from l).
Proof.
  unfold table_from. intros Hl. assert (tall P (@empty_table A)) as Ht by apply map_Forall_empty.
  revert Ht. generalize (@empty_table A). induction Hl as [|x l Hx Hl IH]; cbn; intros t Ht; [done|].
  by apply IH, tall_create.
Qed.
Arguments tcreate : simpl never.
Arguments tmodify : simpl never.
Arguments tremove : simpl never.
#[export] Hint Resolve tall_create tall_modify tall_remove : dfs.

#[export] Hint Resolve tcreate_wf tmodify_wf tremove_wf table_fresh : dfs.

(** ** Accounts *)

Record account_object := AccountObject {
  ac_registrar : account_id_type;
  ac_referrer : account_id_type;
  ac_lifetime_referrer : account_id_type;
  ac_membership_expiration_date : time_point_sec;
  ac_network_fee_percentage : Z;
  ac_lifetime_referrer_fee_percentage : Z;
  ac_referrer_rewards_percentage : Z;
  ac_whitelisting_accounts : gset account_id_type;
  ac_whitelisted_accounts : gset account_id_type;
  ac_blacklisted_accounts : gset account_id_type;
  ac_blacklisting_accounts : gset account_id_type;
  ac_cashback_vb : option Z;
  ac_allowed_assets : option (gset asset_id_type);
  (** The accounts of the active authority, whatever their weights. *)
  ac_active_account_auths : gset account_id_type;
}.
#[export] Instance eta_account_object : Eta account_object :=
  fun r => AccountObject (ac_registrar r) (ac_referrer r) (ac_lifetime_referrer r)
    (ac_membership_expiration_date r) (ac_network_fee_percentage r)
    (ac_lifetime_referrer_fee_percentage r) (ac_referrer_rewards_percentage r)
    (ac_whitelisting_accounts r) (ac_whitelisted_accounts r) (ac_blacklisted_accounts r)
    (ac_blacklisting_accounts r) (ac_cashback_vb r) (ac_allowed_assets r) (ac_active_account_auths r).

Record account_statistics_object := AccountStatistics {
  st_total_core_in_orders : share_type;
  st_total_core_inactive : share_type;
  st_total_core_pob : share_type;
  st_total_core_pol : share_type;
  st_total_pob_value : share_type;
  st_total_pol_value : share_type;
  st_has_cashback_vb : bool;
  st_lifetime_fees_paid : share_type;
  st_pending_fees : share_type;
  st_pending_vested_fees : share_type;
  st_last_vote_time : time_point_sec;
}.
#[export] Instance eta_account_statistics_object : Eta account_statistics_object :=
  fun r => AccountStatistics (st_total_core_in_orders r) (st_total_core_inactive r)
    (st_total_core_pob r) (st_total_core_pol r) (st_total_pob_value r) (st_total_pol_value r)
    (st_has_cashback_vb r) (st_lifetime_fees_paid r) (st_pending_fees r) (st_pending_vested_fees r)
    (st_last_vote_time r).

Record account_balance_object := AccountBalance {
  ab_balance : share_type;
  ab_maintenance_flag : bool;
}.
#[export] Instance eta_account_balance_object : Eta account_balance_object :=
  fun r => AccountBalance (ab_balance r) (ab_maintenance_flag r).

(** ** Assets *)

Record asset_options := AssetOptions {
  ao_max_supply : share_type;
  ao_market_fee_percent : Z;
  ao_max_market_fee : share_type;
  ao_issuer_permissions : Z;
  ao_flags : Z;
  ao_core_exchange_rate : price;
  ao_whitelist_authorities : gset account_id_type;
  ao_blacklist_authorities : gset account_id_type;
  ao_whitelist_markets : gset asset_id_type;
  ao_blacklist_markets : gset asset_id_type;
  ao_reward_percent : option Z;
  ao_whitelist_market_fee_sharing : option (gset account_id_type);
  ao_taker_fee_percent : option Z;
}.
#[export] Instance eta_asset_options : Eta asset_options :=
  fun r => AssetOptions (ao_max_supply r) (ao_market_fee_percent r) (ao_max_market_fee r)
    (ao_issuer_permissions r) (ao_flags r) (ao_core_exchange_rate r) (ao_whitelist_authorities r)
    (ao_blacklist_authorities r) (ao_whitelist_markets r) (ao_blacklist_markets r)
    (ao_reward_percent r) (ao_whitelist_market_fee_sharing r) (ao_taker_fee_percent r).

Record asset_object := AssetObject {
  as_symbol : string;
  as_precision : Z;
  as_issuer : account_id_type;
  as_options : asset_options;
  as_market_issued : bool;
  as_for_liquidity_pool : option Z;
  as_creation_block_num : Z;
}.
#[export] Instance eta_asset_object : Eta asset_object :=
  fun r => AssetObject (as_symbol r) (as_precision r) (as_issuer r) (as_options r) (as_market_issued
    r) (as_for_liquidity_pool r) (as_creation_block_num r).

(** Stored under the id of its asset. *)
Record asset_dynamic_data_object := AssetDynamicData {
  dd_current_supply : share_type;
  dd_confidential_supply : share_type;
  dd_accumulated_fees : share_type;
  dd_accumulated_collateral_fees : share_type;
  dd_fee_pool : share_type;
}.
#[export] Instance eta_asset_dynamic_data_object : Eta asset_dynamic_data_object :=
  fun r => AssetDynamicData (dd_current_supply r) (dd_confidential_supply r) (dd_accumulated_fees r)
    (dd_accumulated_collateral_fees r) (dd_fee_pool r).

(** [price_feed_with_icr] *)
Record price_feed_with_icr := PriceFeedIcr {
  pf_feed : price_feed;
  pf_initial_collateral_ratio : Z;
}.
#[export] Instance eta_price_feed_with_icr : Eta price_feed_with_icr :=
  fun r => PriceFeedIcr (pf_feed r) (pf_initial_collateral_ratio r).

Record bitasset_options := BitassetOptions {
  bo_feed_lifetime_sec : Z;
  bo_minimum_feeds : Z;
  bo_force_settlement_delay_sec : Z;
  bo_force_settlement_offset_percent : Z;
  bo_maximum_force_settlement_volume : Z;
  bo_short_backing_asset : asset_id_type;
  bo_initial_collateral_ratio : option Z;
  bo_maintenance_collateral_ratio : option Z;
  bo_maximum_short_squeeze_ratio : option Z;
  bo_margin_call_fee_ratio : option Z;
  bo_force_settle_fee_percent : option Z;
  bo_black_swan_response_method : option Z;
}.
#[export] Instance eta_bitasset_options : Eta bitasset_options :=
  fun r => BitassetOptions (bo_feed_lifetime_sec r) (bo_minimum_feeds r)
    (bo_force_settlement_delay_sec r) (bo_force_settlement_offset_percent r)
    (bo_maximum_force_settlement_volume r) (bo_short_backing_asset r) (bo_initial_collateral_ratio
    r) (bo_maintenance_collateral_ratio r) (bo_maximum_short_squeeze_ratio r)
    (bo_margin_call_fee_ratio r) (bo_force_settle_fee_percent r) (bo_black_swan_response_method r).

Record asset_bitasset_data_object := BitassetData {
  ba_asset_id : asset_id_type;
  ba_options : bitasset_options;
  ba_feeds : list (account_id_type * (time_point_sec * price_feed_with_icr));
  ba_median_feed : price_feed_with_icr;
  ba_current_feed : price_feed_with_icr;
  ba_current_feed_publication_time : time_point_sec;
  ba_current_maintenance_collateralization : price;
  ba_current_initial_collateralization : price;
  ba_is_prediction_market : bool;
  ba_force_settled_volume : share_type;
  ba_settlement_price : price;
  ba_settlement_fund : share_type;
  ba_individual_settlement_debt : share_type;
  ba_individual_settlement_fund : share_type;
  ba_asset_cer_updated : bool;
  ba_feed_cer_updated : bool;
}.
#[export] Instance eta_asset_bitasset_data_object : Eta asset_bitasset_data_object :=
  fun r => BitassetData (ba_asset_id r) (ba_options r) (ba_feeds r) (ba_median_feed r)
    (ba_current_feed r) (ba_current_feed_publication_time r)
    (ba_current_maintenance_collateralization r) (ba_current_initial_collateralization r)
    (ba_is_prediction_market r) (ba_force_settled_volume r) (ba_settlement_price r)
    (ba_settlement_fund r) (ba_individual_settlement_debt r) (ba_individual_settlement_fund r)
    (ba_asset_cer_updated r) (ba_feed_cer_updated r).

(** ** Vesting balances *)

Inductive vesting_policy :=
  | linear_vesting_policy (begin_timestamp : time_point_sec) (vesting_cliff_seconds : Z)
      (vesting_duration_seconds : Z) (begin_balance : share_type)
  | cdd_vesting_policy (vesting_seconds : Z) (coin_seconds_earned : Z)
      (start_claim : time_point_sec) (coin_seconds_earned_last_update : time_point_sec)
  | instant_vesting_policy.

Inductive vesting_balance_type :=
  | vb_unspecified | vb_cashback | vb_worker | vb_witness | vb_market_fee_sharing.

#[export] Instance vesting_balance_type_eq_dec : EqDecision vesting_balance_type.
Proof. solve_decision. Defined.

Record vesting_balance_object := VestingBalance {
  vb_owner : account_id_type;
  vb_balance : asset;
  vb_policy : vesting_policy;
  vb_balance_type : vesting_balance_type;
}.
#[export] Instance eta_vesting_balance_object : Eta vesting_balance_object :=
  fun r => VestingBalance (vb_owner r) (vb_balance r) (vb_policy r) (vb_balance_type r).

(** ** Markets without an order book: pools, credit offers, SameT funds *)

Record liquidity_pool_object := LiquidityPool {
  lp_asset_a : asset_id_type;
  lp_asset_b : asset_id_type;
  lp_balance_a : share_type;
  lp_balance_b : share_type;
  lp_share_asset : asset_id_type;
  lp_taker_fee_percent : Z;
  lp_withdrawal_fee_percent : Z;
  lp_virtual_value : Z;
}.
#[export] Instance eta_liquidity_pool_object : Eta liquidity_pool_object :=
  fun r => LiquidityPool (lp_asset_a r) (lp_asset_b r) (lp_balance_a r) (lp_balance_b r)
    (lp_share_asset r) (lp_taker_fee_percent r) (lp_withdrawal_fee_percent r) (lp_virtual_value r).

Record credit_offer_object := CreditOffer {
  co_owner_account : account_id_type;
  co_asset_type : asset_id_type;
  co_total_balance : share_type;
  co_current_balance : share_type;
  co_fee_rate : Z;
  co_max_duration_seconds : Z;
  co_min_deal_amount : share_type;
  co_enabled : bool;
  co_auto_disable_time : time_point_sec;
  co_acceptable_collateral : gmap asset_id_type price;
  co_acceptable_borrowers : gmap account_id_type share_type;
}.
#[export] Instance eta_credit_offer_object : Eta credit_offer_object :=
  fun r => CreditOffer (co_owner_account r) (co_asset_type r) (co_total_balance r)
    (co_current_balance r) (co_fee_rate r) (co_max_duration_seconds r) (co_min_deal_amount r)
    (co_enabled r) (co_auto_disable_time r) (co_acceptable_collateral r) (co_acceptable_borrowers r).

Record credit_deal_object := CreditDeal {
  cd_borrower : account_id_type;
  cd_offer_id : Z;
  cd_offer_owner : account_id_type;
  cd_debt_asset : asset_id_type;
  cd_debt_amount : share_type;
  cd_collateral_asset : asset_id_type;
  cd_collateral_amount : share_type;
  cd_fee_rate : Z;
  cd_latest_repay_time : time_point_sec;
  cd_auto_repay : Z;
}.
#[export] Instance eta_credit_deal_object : Eta credit_deal_object :=
  fun r => CreditDeal (cd_borrower r) (cd_offer_id r) (cd_offer_owner r) (cd_debt_asset r)
    (cd_debt_amount r) (cd_collateral_asset r) (cd_collateral_amount r) (cd_fee_rate r)
    (cd_latest_repay_time r) (cd_auto_repay r).

Record credit_deal_summary_object := CreditDealSummary {
  cs_borrower : account_id_type;
  cs_offer_id : Z;
  cs_offer_owner : account_id_type;
  cs_debt_asset : asset_id_type;
  cs_total_debt_amount : share_type;
}.
#[export] Instance eta_credit_deal_summary_object : Eta credit_deal_summary_object :=
  fun r => CreditDealSummary (cs_borrower r) (cs_offer_id r) (cs_offer_owner r) (cs_debt_asset r)
    (cs_total_debt_amount r).

Record samet_fund_object := SametFund {
  sf_owner_account : account_id_type;
  sf_asset_type : asset_id_type;
  sf_balance : share_type;
  sf_fee_rate : Z;
  sf_unpaid_amount : share_type;
}.
#[export] Instance eta_samet_fund_object : Eta samet_fund_object :=
  fun r => SametFund (sf_owner_account r) (sf_asset_type r) (sf_balance r) (sf_fee_rate r)
    (sf_unpaid_amount r).

(** ** Hashed time-lock contracts *)

Inductive htlc_hash_type := hash_ripemd160 | hash_sha1 | hash_sha256 | hash_hash160.

#[export] Instance htlc_hash_type_eq_dec : EqDecision htlc_hash_type.
Proof. solve_decision. Defined.

(** [htlc_hash]: the digest tagged with the algorithm. *)
Definition htlc_hash : Type := htlc_hash_type * list byte.

Record htlc_object := HtlcObject {
  ht_from : account_id_type;
  ht_to : account_id_type;
  ht_amount : share_type;
  ht_asset_id : asset_id_type;
  ht_preimage_hash : htlc_hash;
  ht_preimage_size : Z;
  ht_expiration : time_point_sec;
  ht_memo : option (list byte);
}.
#[export] Instance eta_htlc_object : Eta htlc_object :=
  fun r => HtlcObject (ht_from r) (ht_to r) (ht_amount r) (ht_asset_id r) (ht_preimage_hash r)
    (ht_preimage_size r) (ht_expiration r) (ht_memo r).

(** ** Tickets *)

(** [ticket_type], in the order of the enumeration. *)
Inductive ticket_type := liquid | lock_180_days | lock_360_days | lock_720_days | lock_forever.

#[export] Instance ticket_type_eq_dec : EqDecision ticket_type.
Proof. solve_decision. Defined.

Inductive ticket_status := charging | stable | withdrawing.

#[export] Instance ticket_status_eq_dec : EqDecision ticket_status.
Proof. solve_decision. Defined.

Record ticket_object := TicketObject {
  tk_account : account_id_type;
  tk_target_type : ticket_type;
  tk_amount : asset;
  tk_current_type : ticket_type;
  tk_status : ticket_status;
  tk_value : share_type;
  tk_next_auto_update_time : time_point_sec;
  tk_next_type_downgrade_time : time_point_sec;
}.
#[export] Instance eta_ticket_object : Eta ticket_object :=
  fun r => TicketObject (tk_account r) (tk_target_type r) (tk_amount r) (tk_current_type r)
    (tk_status r) (tk_value r) (tk_next_auto_update_time r) (tk_next_type_downgrade_time r).

(** ** Withdrawal permissions *)

Record withdraw_permission_object := WithdrawPermission {
  wp_withdraw_from_account : account_id_type;
  wp_authorized_account : account_id_type;
  wp_withdrawal_limit : asset;
  wp_withdrawal_period_sec : Z;
  wp_period_start_time : time_point_sec;
  wp_expiration : time_point_sec;
  wp_claimed_this_period : share_type;
}.
#[export] Instance eta_withdraw_permission_object : Eta withdraw_permission_object :=
  fun r => WithdrawPermission (wp_withdraw_from_account r) (wp_authorized_account r)
    (wp_withdrawal_limit r) (wp_withdrawal_period_sec r) (wp_period_start_time r) (wp_expiration r)
    (wp_claimed_this_period r).

(** ** The GOLD treasury *)

Record gold_reserve_vault_object := GoldReserveVault {
  gv_collateral_asset : asset_id_type;
  gv_debt_asset : asset_id_type;
  gv_dfs_locked_collateral : share_type;
  gv_gold_debt : share_type;
  gv_gold_pool_balance : share_type;
  gv_gold_committed_rewards : share_type;
  gv_gold_spent_today : share_type;
  gv_gold_daily_spending_limit : share_type;
  gv_target_collateral_ratio : Z;
  gv_daily_spending_divisor : Z;
  gv_last_feed_epoch : Z;
  gv_last_budget_day : Z;
  gv_last_rebalance_price : price;
  gv_last_rebalance_time : time_point_sec;
  gv_enabled : bool;
  gv_issuance_paused : bool;
  gv_emergency_mode : bool;
}.
#[export] Instance eta_gold_reserve_vault_object : Eta gold_reserve_vault_object :=
  fun r => GoldReserveVault (gv_collateral_asset r) (gv_debt_asset r) (gv_dfs_locked_collateral r)
    (gv_gold_debt r) (gv_gold_pool_balance r) (gv_gold_committed_rewards r) (gv_gold_spent_today r)
    (gv_gold_daily_spending_limit r) (gv_target_collateral_ratio r) (gv_daily_spending_divisor r)
    (gv_last_feed_epoch r) (gv_last_budget_day r) (gv_last_rebalance_price r)
    (gv_last_rebalance_time r) (gv_enabled r) (gv_issuance_paused r) (gv_emergency_mode r).

(** ** Limit orders *)

(** An order without an automatic action on being filled. *)
Record limit_order_object := LimitOrder {
  lo_expiration : time_point_sec;
  lo_seller : account_id_type;
  lo_for_sale : share_type;
  lo_sell_price : price;
  lo_filled_amount : Z;
  lo_deferred_fee : share_type;
  lo_deferred_paid_fee : asset;
  lo_is_settled_debt : bool;
}.
#[export] Instance eta_limit_order_object : Eta limit_order_object :=
  fun r => LimitOrder (lo_expiration r) (lo_seller r) (lo_for_sale r) (lo_sell_price r) (lo_filled_amount r)
    (lo_deferred_fee r) (lo_deferred_paid_fee r) (lo_is_settled_debt r).

(** ** Margin positions, settlement requests and bids *)

(** [call_price] is collateral / debt; it also gives the types of both. *)
Record call_order_object := CallOrder {
  ca_borrower : account_id_type;
  ca_collateral : share_type;
  ca_debt : share_type;
  ca_call_price : price;
  ca_target_collateral_ratio : option Z;
}.
#[export] Instance eta_call_order_object : Eta call_order_object :=
  fun r => CallOrder (ca_borrower r) (ca_collateral r) (ca_debt r) (ca_call_price r)
    (ca_target_collateral_ratio r).

Record force_settlement_object := ForceSettlement {
  fs_owner : account_id_type;
  fs_balance : asset;
  fs_settlement_date : time_point_sec;
}.

(** [inv_swan_price] is collateral / debt. *)
Record collateral_bid_object := CollateralBid {
  bd_bidder : account_id_type;
  bd_inv_swan_price : price;
}.

(** ** Witnesses and workers *)

Record witness_object := Witness {
  wi_witness_account : account_id_type;
  wi_last_aslot : Z;
  wi_pay_vb : option Z;
  wi_gold_pay_vb : option Z;
  wi_last_confirmed_block_num : Z;
}.
#[export] Instance eta_witness_object : Eta witness_object :=
  fun r => Witness (wi_witness_account r) (wi_last_aslot r) (wi_pay_vb r) (wi_gold_pay_vb r)
    (wi_last_confirmed_block_num r).

Inductive worker_type :=
  | refund_worker_type (total_burned : share_type)
  | vesting_balance_worker_type (balance : Z)
  | burn_worker_type (total_burned : share_type).

Record worker_object := Worker {
  wk_worker_account : account_id_type;
  wk_work_begin_date : time_point_sec;
  wk_work_end_date : time_point_sec;
  wk_daily_pay : share_type;
  wk_worker : worker_type;
  wk_gold_pay_vb : option Z;
  wk_gold_daily_pay : option share_type;
  wk_gold_refund_budget_ratio : option Z;
  wk_total_votes_for : Z;
  wk_total_votes_against : Z;
}.
#[export] Instance eta_worker_object : Eta worker_object :=
  fun r => Worker (wk_worker_account r) (wk_work_begin_date r) (wk_work_end_date r) (wk_daily_pay r) (wk_worker r)
    (wk_gold_pay_vb r) (wk_gold_daily_pay r) (wk_gold_refund_budget_ratio r) (wk_total_votes_for r)
    (wk_total_votes_against r).

(** ** Global objects *)

Record htlc_options := HtlcOptions {
  hto_max_timeout_secs : Z;
  hto_max_preimage_size : Z;
}.
#[export] Instance eta_htlc_options : Eta htlc_options :=
  fun r => HtlcOptions (hto_max_timeout_secs r) (hto_max_preimage_size r).

(** The part of [chain_parameters] and [chain_property_object] that is read. *)
Record chain_parameters := ChainParameters {
  cp_block_interval : Z;
  cp_market_fee_network_percent : Z;
  cp_cashback_vesting_period_seconds : Z;
  cp_cashback_vesting_threshold : share_type;
  cp_witness_pay_vesting_seconds : Z;
  cp_updatable_htlc_options : option htlc_options;
  cp_initial_bts_price_usd_scaled : Z;
  cp_initial_gold_price_usd_scaled : Z;
  cp_witness_pay_per_block : share_type;
  cp_worker_budget_per_day : share_type;
  cp_maker_fee_discount_percent : Z;
  cp_maximum_asset_whitelist_authorities : Z;
  cp_maximum_asset_feed_publishers : Z;
}.
#[export] Instance eta_chain_parameters : Eta chain_parameters :=
  fun r => ChainParameters (cp_block_interval r) (cp_market_fee_network_percent r)
    (cp_cashback_vesting_period_seconds r) (cp_cashback_vesting_threshold r)
    (cp_witness_pay_vesting_seconds r) (cp_updatable_htlc_options r)
    (cp_initial_bts_price_usd_scaled r) (cp_initial_gold_price_usd_scaled r)
    (cp_witness_pay_per_block r) (cp_worker_budget_per_day r) (cp_maker_fee_discount_percent r)
    (cp_maximum_asset_whitelist_authorities r) (cp_maximum_asset_feed_publishers r).

(** What a budget was made of ([budget_record_object]). *)
Record budget_record := BudgetRecord {
  br_time_since_last_budget : Z;
  br_from_initial_reserve : share_type;
  br_from_accumulated_fees : share_type;
  br_from_unused_witness_budget : share_type;
  br_requested_witness_budget : share_type;
  br_total_budget : share_type;
  br_witness_budget : share_type;
  br_worker_budget : share_type;
  br_leftover_worker_funds : share_type;
  br_supply_delta : share_type;
  br_max_supply : share_type;
  br_current_supply : share_type;
}.
#[export] Instance eta_budget_record : Eta budget_record :=
  fun r => BudgetRecord (br_time_since_last_budget r) (br_from_initial_reserve r) (br_from_accumulated_fees r)
    (br_from_unused_witness_budget r) (br_requested_witness_budget r) (br_total_budget r) (br_witness_budget r)
    (br_worker_budget r) (br_leftover_worker_funds r) (br_supply_delta r) (br_max_supply r) (br_current_supply r).

(** ** Results of operations *)

(** An [object_id_type] of the protocol space: the number of its type and the instance. *)
Definition object_ref : Type := Z * Z.
Definition asset_ref (id : asset_id_type) : object_ref := (3, id).
Definition ticket_ref (id : Z) : object_ref := (18, id).
Definition pool_ref (id : Z) : object_ref := (19, id).

Record generic_operation_result := GenericResult {
  new_objects : gset object_ref;
  updated_objects : gset object_ref;
  removed_objects : gset object_ref;
}.
#[export] Instance eta_generic_operation_result : Eta generic_operation_result :=
  fun r => GenericResult (new_objects r) (updated_objects r) (removed_objects r).

Record generic_exchange_operation_result := ExchangeResult {
  xr_paid : list asset;
  xr_received : list asset;
  xr_fees : list asset;
}.
