(* ===== verification/CreditBooks.v ===== *)
(** The books of the credit offers: how the three tables (offers, deals, per-borrower
    summaries) agree with each other, and that borrowing, repaying and defaulting keep
    them in agreement. The test suite checks totals of this
    (tests/common/database_fixture.cpp); the invariant is per offer and per borrower. *)
From S2P Require Import Prelude Records Fc Asset Objects.

(** What is owed to an offer, and by one borrower to an offer. *)
Definition deal_of (offer : Z) (x : credit_deal_object) : bool := cd_offer_id x =? offer.
Definition deal_by (offer : Z) (borrower : account_id_type) (x : credit_deal_object) : bool :=
  (cd_offer_id x =? offer) && (cd_borrower x =? borrower).

Definition debt (P : credit_deal_object -> bool) (deals : table credit_deal_object) : Z :=
  tsum (fun _ x => if P x then cd_debt_amount x else 0) deals.

Definition summary_key (offer : Z) (borrower : account_id_type) (s : credit_deal_summary_object) : bool :=
  (cs_offer_id s =? offer) && (cs_borrower s =? borrower).

(** The offers against the deals. *)
Record offer_books (offers : table credit_offer_object) (deals : table credit_deal_object) : Prop := {
  ob_offer id o : rows offers !! id = Some o ->
    co_total_balance o - co_current_balance o = debt (deal_of id) deals;
  ob_deal id x : rows deals !! id = Some x ->
    0 < cd_debt_amount x /\ 0 < cd_collateral_amount x
    /\ exists o, rows offers !! cd_offer_id x = Some o
        /\ co_asset_type o = cd_debt_asset x /\ co_owner_account o = cd_offer_owner x;
}.

(** The summaries against the deals. *)
Record summary_books (deals : table credit_deal_object) (sums : table credit_deal_summary_object) : Prop := {
  sb_total i s : rows sums !! i = Some s ->
    0 < cs_total_debt_amount s
    /\ cs_total_debt_amount s = debt (deal_by (cs_offer_id s) (cs_borrower s)) deals;
  sb_summarised id x : rows deals !! id = Some x ->
    exists i s, rows sums !! i = Some s /\ summary_key (cd_offer_id x) (cd_borrower x) s = true;
  sb_unique i j s t : rows sums !! i = Some s -> rows sums !! j = Some t ->
    cs_offer_id s = cs_offer_id t -> cs_borrower s = cs_borrower t -> i = j;
}.

Record credit_books (offers : table credit_offer_object) (deals : table credit_deal_object)
    (sums : table credit_deal_summary_object) : Prop := {
  books_offers : offer_books offers deals;
  books_summaries : summary_books deals sums;
}.

(** [deals'] is [deals] after the deal [y], stored under [id], has been reduced by [n]:
    partly, keeping its terms, or wholly, and then it is gone. *)
Definition reduced (deals : table credit_deal_object) (id : Z) (y : credit_deal_object) (n : Z)
    (deals' : table credit_deal_object) : Prop :=
  rows deals !! id = Some y /\ 0 <= n
  /\ ((n < cd_debt_amount y
        /\ exists x, deals' = tmodify deals id x
            /\ cd_debt_amount x = cd_debt_amount y - n /\ 0 < cd_collateral_amount x
            /\ cd_offer_id x = cd_offer_id y /\ cd_borrower x = cd_borrower y
            /\ cd_debt_asset x = cd_debt_asset y /\ cd_offer_owner x = cd_offer_owner y)
      \/ (n = cd_debt_amount y /\ deals' = tremove deals id)).

Section Books.
Implicit Types (offers : table credit_offer_object) (deals : table credit_deal_object)
  (sums : table credit_deal_summary_object) (P : credit_deal_object -> bool).

Lemma debt_create P deals x :
  table_wf deals -> debt P (tcreate deals x) = debt P deals + if P x then cd_debt_amount x else 0.
Proof. intros. unfold debt. by rewrite tsum_create. Qed.

Lemma debt_modify P deals id x y :
  rows deals !! id = Some y ->
  debt P (tmodify deals id x) = debt P deals - (if P y then cd_debt_amount y else 0)
    + if P x then cd_debt_amount x else 0.
Proof. intros E. unfold debt. by rewrite (tsum_modify _ _ _ _ _ E). Qed.

Lemma debt_remove P deals id y :
  rows deals !! id = Some y ->
  debt P (tremove deals id) = debt P deals - if P y then cd_debt_amount y else 0.
Proof. intros E. unfold debt. by rewrite (tsum_remove _ _ _ _ E). Qed.

Definition positive_deals deals : Prop := tall (fun x => 0 < cd_debt_amount x) deals.

Lemma books_positive offers deals : offer_books offers deals -> positive_deals deals.
Proof. intros Hb id x Hx. by apply (ob_deal _ _ Hb) in Hx as [? _]. Qed.

Lemma debt_terms P deals :
  positive_deals deals ->
  forall k v, rows deals !! k = Some v -> 0 <= (if P v then cd_debt_amount v else 0).
Proof. intros Hp k v Hv. pose proof (tall_lookup _ _ _ _ Hp Hv). cbn in *. destruct (P v); lia. Qed.

Lemma debt_nonneg P deals : positive_deals deals -> 0 <= debt P deals.
Proof. intros Hp. apply msum_nonneg. by apply debt_terms. Qed.

Lemma debt_lookup P deals id x :
  positive_deals deals -> rows deals !! id = Some x -> P x = true -> cd_debt_amount x <= debt P deals.
Proof.
  intros Hp Hx HP. pose proof (msum_lookup_le _ _ _ _ (debt_terms P deals Hp) Hx) as Hle.
  cbn in Hle. rewrite HP in Hle. exact Hle.
Qed.

(** A key without a summary owes nothing. *)
Lemma debt_unsummarised deals sums o b :
  summary_books deals sums -> tsearch (summary_key o b) sums = None ->
  debt (deal_by o b) deals = 0.
Proof.
  intros Hb Hs. unfold debt, tsum. rewrite (msum_ext _ (fun _ _ => 0)).
  - apply msum_zero.
  - intros k x Hx. destruct (deal_by o b x) eqn:E; [|done]. exfalso.
    destruct (sb_summarised _ _ Hb k x Hx) as (i & s & Hi & Hk).
    pose proof (tsearch_None _ _ _ _ Hs Hi) as Hno.
    unfold deal_by in E. reflect_bools. congruence.
Qed.

Lemma summary_key_true o b s : summary_key o b s = true <-> cs_offer_id s = o /\ cs_borrower s = b.
Proof. unfold summary_key. rewrite andb_true_iff, !Z.eqb_eq. done. Qed.

Lemma deal_by_true o b x : deal_by o b x = true <-> cd_offer_id x = o /\ cd_borrower x = b.
Proof. unfold deal_by. rewrite andb_true_iff, !Z.eqb_eq. done. Qed.

(** *** Reducing a deal *)

Lemma debt_reduced deals id y n deals' (P : credit_deal_object -> bool) :
  reduced deals id y n deals' ->
  (forall x, cd_offer_id x = cd_offer_id y -> cd_borrower x = cd_borrower y -> P x = P y) ->
  debt P deals' = debt P deals - if P y then n else 0.
Proof.
  intros (Hy & Hn & [(Hlt & x & -> & Hd & _ & Ho & Hb & _)|[-> ->]]) HP.
  - rewrite (debt_modify _ _ _ _ _ Hy), (HP x), Hd by done. destruct (P y); lia.
  - by rewrite (debt_remove _ _ _ _ Hy).
Qed.

Lemma reduced_rows deals id y n deals' k x' :
  reduced deals id y n deals' -> rows deals' !! k = Some x' ->
  exists x, rows deals !! k = Some x
    /\ cd_offer_id x' = cd_offer_id x /\ cd_borrower x' = cd_borrower x
    /\ cd_debt_asset x' = cd_debt_asset x /\ cd_offer_owner x' = cd_offer_owner x
    /\ (0 < cd_debt_amount x -> 0 < cd_collateral_amount x ->
        0 < cd_debt_amount x' /\ 0 < cd_collateral_amount x').
Proof.
  intros (Hy & Hn & [(Hlt & x & -> & Hd & Hc & Ho & Hb & Ha & Hw)|[-> ->]]) Hx'.
  - destruct (Z.eq_dec k id) as [->|Hne].
    + rewrite lookup_tmodify in Hx'. injection Hx' as <-. exists y. split_and!; auto; lia.
    + rewrite lookup_tmodify_ne in Hx' by done. by exists x'.
  - destruct (Z.eq_dec k id) as [->|Hne]; [by rewrite lookup_tremove in Hx'|].
    unfold tremove in Hx'. cbn in Hx'. rewrite lookup_delete_ne in Hx' by done. by exists x'.
Qed.

Lemma reduced_positive deals id y n deals' :
  reduced deals id y n deals' -> tall (fun x => 0 < cd_collateral_amount x) deals ->
  positive_deals deals -> positive_deals deals'.
Proof.
  intros Hr Hc Hp k x' Hx'. destruct (reduced_rows _ _ _ _ _ _ _ Hr Hx') as (x & Hx & _ & _ & _ & _ & H).
  apply H; [exact (tall_lookup _ _ _ _ Hp Hx) | exact (tall_lookup _ _ _ _ Hc Hx)].
Qed.

Lemma reduced_wf deals id y n deals' : reduced deals id y n deals' -> table_wf deals -> table_wf deals'.
Proof.
  intros (Hy & _ & [(_ & x & -> & _)|[_ ->]]) Hwf; [by eapply tmodify_wf | by apply tremove_wf].
Qed.

(** Repaying or writing off [n]: the offer's debt falls by [n]. *)
Lemma offer_books_reduced offers deals id y n deals' o o' :
  reduced deals id y n deals' -> rows offers !! cd_offer_id y = Some o ->
  co_total_balance o' - co_current_balance o' = co_total_balance o - co_current_balance o - n ->
  co_asset_type o' = co_asset_type o -> co_owner_account o' = co_owner_account o ->
  offer_books offers deals -> offer_books (tmodify offers (cd_offer_id y) o') deals'.
Proof.
  intros Hr Ho Hd Ha Hw Hb. split.
  - intros k o1 Hk. rewrite (debt_reduced _ _ _ _ _ (deal_of k) Hr) by (unfold deal_of; intros; congruence).
    unfold deal_of at 2. destruct (Z.eq_dec k (cd_offer_id y)) as [->|Hne].
    + rewrite lookup_tmodify in Hk. injection Hk as <-. rewrite Z.eqb_refl.
      apply (ob_offer _ _ Hb) in Ho. lia.
    + rewrite lookup_tmodify_ne in Hk by done. apply (ob_offer _ _ Hb) in Hk.
      rewrite (proj2 (Z.eqb_neq _ _)) by congruence. lia.
  - intros k x' Hk. destruct (reduced_rows _ _ _ _ _ _ _ Hr Hk) as (x & Hx & Eo & _ & Ea & Ew & Hpos).
    destruct (ob_deal _ _ Hb _ _ Hx) as (H1 & H2 & o1 & Ho1 & Ha1 & Hw1).
    split; [by apply Hpos|]. split; [by apply Hpos|]. rewrite Eo, Ea, Ew.
    destruct (Z.eq_dec (cd_offer_id x) (cd_offer_id y)) as [E|Hne].
    + exists o'. rewrite E, lookup_tmodify. split; [done|]. rewrite E in Ho1. split; congruence.
    + exists o1. by rewrite lookup_tmodify_ne.
Qed.

Lemma summary_modify_other sums i s' j t :
  rows (tmodify sums i s') !! j = Some t -> (j = i /\ t = s') \/ (j <> i /\ rows sums !! j = Some t).
Proof.
  destruct (Z.eq_dec j i) as [->|Hne]; [rewrite lookup_tmodify; left; split; congruence|].
  rewrite lookup_tmodify_ne by done. by right.
Qed.

Lemma summary_books_reduced deals sums id y n deals' i s s' :
  reduced deals id y n deals' -> positive_deals deals -> positive_deals deals' ->
  rows sums !! i = Some s -> summary_key (cd_offer_id y) (cd_borrower y) s = true ->
  cs_offer_id s' = cs_offer_id s -> cs_borrower s' = cs_borrower s ->
  cs_total_debt_amount s' = cs_total_debt_amount s - n ->
  summary_books deals sums ->
  summary_books deals' (if cs_total_debt_amount s =? n then tremove sums i else tmodify sums i s').
Proof.
  intros Hr Hp Hp' Hs [Ko Kb]%summary_key_true Eo Eb Et Hb.
  assert (debt (deal_by (cd_offer_id y) (cd_borrower y)) deals'
          = cs_total_debt_amount s - n) as Hkey.
  { rewrite (debt_reduced _ _ _ _ _ _ Hr) by (unfold deal_by; intros; congruence).
    rewrite (proj2 (deal_by_true _ _ y)) by done.
    destruct (sb_total _ _ Hb _ _ Hs) as [_ ->]. by rewrite Ko, Kb. }
  assert (forall o b, (o, b) <> (cd_offer_id y, cd_borrower y) ->
            debt (deal_by o b) deals' = debt (deal_by o b) deals) as Hother.
  { intros o b Hne. rewrite (debt_reduced _ _ _ _ _ _ Hr) by (unfold deal_by; intros; congruence).
    destruct (deal_by o b y) eqn:E; [|lia]. apply deal_by_true in E as [<- <-]. done. }
  assert (forall j t, rows sums !! j = Some t -> j <> i ->
            cs_total_debt_amount t = debt (deal_by (cs_offer_id t) (cs_borrower t)) deals'
            /\ 0 < cs_total_debt_amount t) as Hrest.
  { intros j t Ht Hj. destruct (sb_total _ _ Hb _ _ Ht) as [Hpos ->]. rewrite Hother; [split; [done|]|].
    - destruct (sb_total _ _ Hb _ _ Ht); lia.
    - intros [= E1 E2]. apply Hj. apply (sb_unique _ _ Hb _ _ _ _ Ht Hs); congruence. }
  assert (0 <= cs_total_debt_amount s - n) as Hge by (rewrite <- Hkey; by apply debt_nonneg).
  destruct (Z.eqb_spec (cs_total_debt_amount s) n) as [En|En]; split.
  - intros j t Ht. unfold tremove in Ht. cbn in Ht. apply lookup_delete_Some in Ht as [Hj Ht].
    destruct (Hrest j t Ht); [done|]. lia.
  - intros k x' Hk. destruct (reduced_rows _ _ _ _ _ _ _ Hr Hk) as (x & Hx & E1 & E2 & _).
    destruct (sb_summarised _ _ Hb _ _ Hx) as (j & t & Ht & [T1 T2]%summary_key_true).
    exists j, t. rewrite E1, E2. split; [|by apply summary_key_true].
    unfold tremove. cbn. rewrite lookup_delete_ne; [done|]. intros ->.
    assert (t = s) as -> by congruence.
    assert (deal_by (cd_offer_id y) (cd_borrower y) x' = true) as HP by (apply deal_by_true; split; congruence).
    pose proof (debt_lookup _ _ _ _ Hp' Hk HP). pose proof (tall_lookup _ _ _ _ Hp' Hk). cbn in *. lia.
  - intros j1 j2 t1 t2 H1 H2. unfold tremove in *. cbn in *.
    apply lookup_delete_Some in H1 as [_ H1], H2 as [_ H2]. by apply (sb_unique _ _ Hb).
  - intros j t [[-> ->]|[Hj Ht]]%summary_modify_other.
    + rewrite Et, Eo, Eb, Ko, Kb, Hkey. lia.
    + destruct (Hrest j t Ht); [done|]. lia.
  - intros k x' Hk. destruct (reduced_rows _ _ _ _ _ _ _ Hr Hk) as (x & Hx & E1 & E2 & _).
    destruct (sb_summarised _ _ Hb _ _ Hx) as (j & t & Ht & [T1 T2]%summary_key_true).
    destruct (Z.eq_dec j i) as [->|Hne].
    + exists i, s'. rewrite lookup_tmodify. split; [done|]. apply summary_key_true. split; congruence.
    + exists j, t. rewrite lookup_tmodify_ne by done. split; [done|]. apply summary_key_true. split; congruence.
  - intros j1 j2 t1 t2 [[-> ->]|[Hj1 H1]]%summary_modify_other [[-> ->]|[Hj2 H2]]%summary_modify_other E1 E2;
      [done | | |by apply (sb_unique _ _ Hb _ _ _ _ H1 H2)].
    + apply (sb_unique _ _ Hb _ _ _ _ Hs H2); congruence.
    + apply (sb_unique _ _ Hb _ _ _ _ H1 Hs); congruence.
Qed.

(** *** Borrowing *)

Lemma offer_books_borrow offers deals k x o o' :
  cd_offer_id x = k -> rows offers !! k = Some o -> table_wf deals ->
  0 < cd_debt_amount x -> 0 < cd_collateral_amount x ->
  cd_debt_asset x = co_asset_type o -> cd_offer_owner x = co_owner_account o ->
  co_current_balance o' = co_current_balance o - cd_debt_amount x ->
  co_total_balance o' = co_total_balance o ->
  co_asset_type o' = co_asset_type o -> co_owner_account o' = co_owner_account o ->
  offer_books offers deals -> offer_books (tmodify offers k o') (tcreate deals x).
Proof.
  intros <- Ho Hwf Hn Hc Ha Hw Ec Et Ea Ew Hb. split.
  - intros k o1 Hk. rewrite debt_create by done. unfold deal_of at 2.
    destruct (Z.eq_dec k (cd_offer_id x)) as [->|Hne].
    + rewrite lookup_tmodify in Hk. injection Hk as <-. rewrite Z.eqb_refl.
      apply (ob_offer _ _ Hb) in Ho. lia.
    + rewrite lookup_tmodify_ne in Hk by done. apply (ob_offer _ _ Hb) in Hk.
      rewrite (proj2 (Z.eqb_neq _ _)) by congruence. lia.
  - intros k z Hk.
    assert (forall j w, rows offers !! j = Some w -> exists w', rows (tmodify offers (cd_offer_id x) o') !! j = Some w'
              /\ co_asset_type w' = co_asset_type w /\ co_owner_account w' = co_owner_account w) as Hoff.
    { intros j w Hj. destruct (Z.eq_dec j (cd_offer_id x)) as [->|Hne].
      - exists o'. rewrite lookup_tmodify. split; [done|]. split; congruence.
      - exists w. by rewrite lookup_tmodify_ne. }
    destruct (Z.eq_dec k (next_id deals)) as [->|Hne].
    + rewrite lookup_tcreate in Hk. injection Hk as <-. split; [lia|]. split; [lia|].
      destruct (Hoff _ _ Ho) as (w & ? & ? & ?). exists w. split_and!; congruence.
    + rewrite lookup_tcreate_ne in Hk by done.
      destruct (ob_deal _ _ Hb _ _ Hk) as (? & ? & o1 & Ho1 & ? & ?). split; [done|]. split; [done|].
      destruct (Hoff _ _ Ho1) as (w & ? & ? & ?). exists w. split_and!; congruence.
Qed.

Lemma summary_books_borrow_more deals sums x i s s' :
  table_wf deals -> 0 < cd_debt_amount x ->
  rows sums !! i = Some s -> summary_key (cd_offer_id x) (cd_borrower x) s = true ->
  cs_offer_id s' = cs_offer_id s -> cs_borrower s' = cs_borrower s ->
  cs_total_debt_amount s' = cs_total_debt_amount s + cd_debt_amount x ->
  summary_books deals sums -> summary_books (tcreate deals x) (tmodify sums i s').
Proof.
  intros Hwf Hn Hs [Ko Kb]%summary_key_true Eo Eb Et Hb. split.
  - intros j t [[-> ->]|[Hj Ht]]%summary_modify_other; rewrite debt_create by done.
    + destruct (sb_total _ _ Hb _ _ Hs) as [Hpos Htot]. rewrite Eo, Eb, Et, Htot, Ko, Kb.
      rewrite (proj2 (deal_by_true _ _ x)) by done. rewrite Ko, Kb in Htot. lia.
    + destruct (sb_total _ _ Hb _ _ Ht) as [Hpos ->].
      destruct (deal_by (cs_offer_id t) (cs_borrower t) x) eqn:E; [exfalso|].
      * apply deal_by_true in E as [E1 E2]. apply Hj. apply (sb_unique _ _ Hb _ _ _ _ Ht Hs); congruence.
      * destruct (sb_total _ _ Hb _ _ Ht). lia.
  - intros k z Hk.
    assert (exists j t, rows sums !! j = Some t /\ summary_key (cd_offer_id z) (cd_borrower z) t = true) as (j & t & Ht & HK).
    { destruct (Z.eq_dec k (next_id deals)) as [->|Hne].
      - rewrite lookup_tcreate in Hk. injection Hk as <-. exists i, s. split; [done|]. by apply summary_key_true.
      - rewrite lookup_tcreate_ne in Hk by done. by apply (sb_summarised _ _ Hb) in Hk. }
    apply summary_key_true in HK as [K1 K2]. destruct (Z.eq_dec j i) as [->|Hne].
    + exists i, s'. rewrite lookup_tmodify. split; [done|]. apply summary_key_true. split; congruence.
    + exists j, t. rewrite lookup_tmodify_ne by done. split; [done|]. by apply summary_key_true.
  - intros j1 j2 t1 t2 [[-> ->]|[Hj1 H1]]%summary_modify_other [[-> ->]|[Hj2 H2]]%summary_modify_other E1 E2;
      [done | | |by apply (sb_unique _ _ Hb _ _ _ _ H1 H2)].
    + apply (sb_unique _ _ Hb _ _ _ _ Hs H2); congruence.
    + apply (sb_unique _ _ Hb _ _ _ _ H1 Hs); congruence.
Qed.

Lemma summary_books_borrow_new deals sums x s' :
  table_wf deals -> table_wf sums -> 0 < cd_debt_amount x ->
  tsearch (summary_key (cd_offer_id x) (cd_borrower x)) sums = None ->
  cs_offer_id s' = cd_offer_id x -> cs_borrower s' = cd_borrower x ->
  cs_total_debt_amount s' = cd_debt_amount x ->
  summary_books deals sums -> summary_books (tcreate deals x) (tcreate sums s').
Proof.
  intros Hwf Hwf' Hn Hnone Eo Eb Et Hb.
  pose proof (debt_unsummarised _ _ _ _ Hb Hnone) as Hzero.
  assert (forall j t, rows sums !! j = Some t ->
            cs_offer_id t = cd_offer_id x -> cs_borrower t = cd_borrower x -> False) as Hno.
  { intros j t Ht K1 K2. pose proof (tsearch_None _ _ _ _ Hnone Ht) as HK.
    rewrite (proj2 (summary_key_true _ _ t)) in HK by done. done. }
  assert (forall j t, rows (tcreate sums s') !! j = Some t ->
            (j = next_id sums /\ t = s') \/ rows sums !! j = Some t) as Hrow.
  { intros j t Hj. destruct (Z.eq_dec j (next_id sums)) as [->|Hne].
    - rewrite lookup_tcreate in Hj. left. split; congruence.
    - rewrite lookup_tcreate_ne in Hj by done. by right. }
  split.
  - intros j t [[-> ->]|Ht]%Hrow; rewrite debt_create by done.
    + rewrite Eo, Eb, Et, Hzero. rewrite (proj2 (deal_by_true _ _ x)) by done. lia.
    + destruct (deal_by (cs_offer_id t) (cs_borrower t) x) eqn:E.
      * apply deal_by_true in E as [E1 E2]. exfalso. by eapply Hno.
      * destruct (sb_total _ _ Hb _ _ Ht). lia.
  - intros k z Hk. destruct (Z.eq_dec k (next_id deals)) as [->|Hne].
    + rewrite lookup_tcreate in Hk. injection Hk as <-. exists (next_id sums), s'.
      rewrite lookup_tcreate. split; [done|]. by apply summary_key_true.
    + rewrite lookup_tcreate_ne in Hk by done. destruct (sb_summarised _ _ Hb _ _ Hk) as (j & t & Ht & HK).
      exists j, t. rewrite lookup_tcreate_ne; [done|]. intros ->. by rewrite table_fresh in Ht.
  - intros j1 j2 t1 t2 [[-> ->]|H1]%Hrow [[-> ->]|H2]%Hrow E1 E2; [done | | |by apply (sb_unique _ _ Hb _ _ _ _ H1 H2)].
    + exfalso. eapply Hno; [exact H2 | congruence | congruence].
    + exfalso. eapply Hno; [exact H1 | congruence | congruence].
Qed.

(** *** Creating, updating and deleting an offer *)

Lemma offer_books_create offers deals o :
  table_wf offers -> co_total_balance o = co_current_balance o ->
  offer_books offers deals -> offer_books (tcreate offers o) deals.
Proof.
  intros Hwf Ht Hb.
  assert (forall k x, rows deals !! k = Some x -> cd_offer_id x <> next_id offers) as Hfresh.
  { intros k x Hx E. destruct (ob_deal _ _ Hb _ _ Hx) as (_ & _ & w & Hw & _).
    rewrite E, table_fresh in Hw by done. done. }
  split.
  - intros k w Hk. destruct (Z.eq_dec k (next_id offers)) as [->|Hne].
    + rewrite lookup_tcreate in Hk. injection Hk as <-.
      unfold debt, tsum. rewrite (msum_ext _ (fun _ _ => 0)); [rewrite msum_zero; lia|].
      intros j x Hx. unfold deal_of. apply Hfresh, Z.eqb_neq in Hx. by rewrite Hx.
    + rewrite lookup_tcreate_ne in Hk by done. by apply (ob_offer _ _ Hb) in Hk.
  - intros k x Hx. destruct (ob_deal _ _ Hb _ _ Hx) as (? & ? & w & Hw & ?). split; [done|]. split; [done|].
    exists w. rewrite lookup_tcreate_ne; [done | by eapply Hfresh].
Qed.

Lemma offer_books_modify offers deals id o o' :
  rows offers !! id = Some o ->
  co_total_balance o' - co_current_balance o' = co_total_balance o - co_current_balance o ->
  co_asset_type o' = co_asset_type o -> co_owner_account o' = co_owner_account o ->
  offer_books offers deals -> offer_books (tmodify offers id o') deals.
Proof.
  intros Ho Ed Ea Ew Hb. split.
  - intros k w Hk. destruct (Z.eq_dec k id) as [->|Hne].
    + rewrite lookup_tmodify in Hk. injection Hk as <-. apply (ob_offer _ _ Hb) in Ho. lia.
    + rewrite lookup_tmodify_ne in Hk by done. by apply (ob_offer _ _ Hb) in Hk.
  - intros k x Hx. destruct (ob_deal _ _ Hb _ _ Hx) as (? & ? & w & Hw & ? & ?). split; [done|]. split; [done|].
    destruct (Z.eq_dec (cd_offer_id x) id) as [E|Hne].
    + exists o'. rewrite E, lookup_tmodify. rewrite E in Hw. split; [done|]. split; congruence.
    + exists w. by rewrite lookup_tmodify_ne.
Qed.

Lemma offer_books_remove offers deals id o :
  rows offers !! id = Some o -> co_total_balance o = co_current_balance o ->
  offer_books offers deals -> offer_books (tremove offers id) deals.
Proof.
  intros Ho Et Hb. pose proof (books_positive _ _ Hb) as Hp. split.
  - intros k w Hk. unfold tremove in Hk. cbn in Hk. apply lookup_delete_Some in Hk as [_ Hk].
    by apply (ob_offer _ _ Hb) in Hk.
  - intros k x Hx. destruct (ob_deal _ _ Hb _ _ Hx) as (? & ? & w & Hw & ? & ?). split; [done|]. split; [done|].
    exists w. unfold tremove. cbn. rewrite lookup_delete_ne; [done|]. intros ->.
    assert (deal_of (cd_offer_id x) x = true) as HP by apply Z.eqb_refl.
    pose proof (debt_lookup _ _ _ _ Hp Hx HP). pose proof (ob_offer _ _ Hb _ _ Ho). lia.
Qed.

(** Changing the terms of a deal leaves the books alone. *)
Lemma books_terms offers deals sums id x y :
  rows deals !! id = Some y ->
  cd_debt_amount x = cd_debt_amount y -> cd_collateral_amount x = cd_collateral_amount y ->
  cd_offer_id x = cd_offer_id y -> cd_borrower x = cd_borrower y ->
  cd_debt_asset x = cd_debt_asset y -> cd_offer_owner x = cd_offer_owner y ->
  credit_books offers deals sums -> credit_books offers (tmodify deals id x) sums.
Proof.
  intros Hy Ed Ec Eo Eb Ea Ew [Hob Hsb].
  assert (forall P : credit_deal_object -> bool, P x = P y -> debt P (tmodify deals id x) = debt P deals) as Hdebt.
  { intros P HP. rewrite (debt_modify _ _ _ _ _ Hy), HP, Ed. lia. }
  assert (forall k z, rows (tmodify deals id x) !! k = Some z -> exists z', rows deals !! k = Some z'
            /\ cd_debt_amount z = cd_debt_amount z' /\ cd_collateral_amount z = cd_collateral_amount z'
            /\ cd_offer_id z = cd_offer_id z' /\ cd_borrower z = cd_borrower z'
            /\ cd_debt_asset z = cd_debt_asset z' /\ cd_offer_owner z = cd_offer_owner z') as Hrow.
  { intros k z Hz. destruct (Z.eq_dec k id) as [->|Hne].
    - rewrite lookup_tmodify in Hz. injection Hz as <-. by exists y.
    - rewrite lookup_tmodify_ne in Hz by done. by exists z. }
  split; split.
  - intros k o Hk. rewrite Hdebt by (unfold deal_of; congruence). by apply (ob_offer _ _ Hob).
  - intros k z Hk. destruct (Hrow k z Hk) as (z' & Hz' & -> & -> & -> & _ & -> & ->).
    by apply (ob_deal _ _ Hob k).
  - intros i s Hs. rewrite Hdebt by (unfold deal_by; congruence). by apply (sb_total _ _ Hsb i).
  - intros k z Hk. destruct (Hrow k z Hk) as (z' & Hz' & _ & _ & -> & -> & _).
    by apply (sb_summarised _ _ Hsb k).
  - apply (sb_unique _ _ Hsb).
Qed.
End Books.
