(* ===== verification/Vesting.v ===== *)
(** Vesting balances: [vesting_balance_object.cpp]. The three policies (linear,
    coin-days-destroyed, instant), the dispatch of the object's member functions
    over them, and the properties that make withdrawing safe. The C [assert]s of
    the file are compiled out of a release build and are not part of the model;
    the theorems show that they hold. *)
From S2P Require Import Prelude Records Fc Asset Objects.

Record vesting_policy_context := VestingContext {
  ctx_balance : asset;
  ctx_now : time_point_sec;
  ctx_amount : asset;
}.
#[export] Instance eta_vesting_policy_context : Eta vesting_policy_context :=
  fun r => VestingContext (ctx_balance r) (ctx_now r) (ctx_amount r).

Section Policies.
Context `{SafeInt64}.
Implicit Types ctx : vesting_policy_context.

Definition sum_below_max_shares (a b : asset) : result bool :=
  if (amount a <=? GRAPHENE_MAX_SHARE_SUPPLY) && (amount b <=? GRAPHENE_MAX_SHARE_SUPPLY) then
    let! s := safe_add (amount a) (amount b) in
    Ok (s <=? GRAPHENE_MAX_SHARE_SUPPLY)
  else Ok false.

(** The test shared by all the policies before a deposit. *)
Definition deposit_check ctx : result bool :=
  if asset_id (ctx_amount ctx) =? asset_id (ctx_balance ctx)
  then sum_below_max_shares (ctx_amount ctx) (ctx_balance ctx)
  else Ok false.

(** *** Linear *)

Definition linear_get_allowed_withdraw (begin_timestamp cliff duration : Z)
    (begin_balance : share_type) ctx : result asset :=
  let! allowed :=
    if ctx_now ctx >? begin_timestamp then
      let elapsed_seconds := ctx_now ctx - begin_timestamp in
      if elapsed_seconds >=? cliff then
        let total_vested :=
          if elapsed_seconds <? duration
          then to_int64 (u64 (u128 (u128 begin_balance * elapsed_seconds) / duration))
          else begin_balance in
        let! withdrawn_already := safe_sub begin_balance (amount (ctx_balance ctx)) in
        safe_sub total_vested withdrawn_already
      else Ok 0
    else Ok 0 in
  Ok (Asset allowed (asset_id (ctx_balance ctx))).

Definition linear_is_withdraw_allowed (begin_timestamp cliff duration : Z)
    (begin_balance : share_type) ctx : result bool :=
  if asset_id (ctx_amount ctx) =? asset_id (ctx_balance ctx) then
    let! allowed := linear_get_allowed_withdraw begin_timestamp cliff duration begin_balance ctx in
    asset_le (ctx_amount ctx) allowed
  else Ok false.

(** *** Coin-days destroyed *)

(** [std::max(vesting_seconds, 1u)] *)
Definition vesting_period (vesting_seconds : Z) : Z := Z.max vesting_seconds 1.

Definition compute_coin_seconds_earned (vesting_seconds cse last_update : Z) ctx : Z :=
  let delta_seconds := ctx_now ctx - last_update in
  let delta_coin_seconds := u128 (u128 (amount (ctx_balance ctx)) * u128 delta_seconds) in
  let cap := u128 (u128 (amount (ctx_balance ctx)) * vesting_period vesting_seconds) in
  Z.min (u128 (cse + delta_coin_seconds)) cap.

Definition cdd_get_allowed_withdraw (vesting_seconds cse start_claim last_update : Z) ctx : asset :=
  if ctx_now ctx <=? start_claim then Asset 0 (asset_id (ctx_balance ctx))
  else
    let cs_earned := compute_coin_seconds_earned vesting_seconds cse last_update ctx in
    let withdraw_available := cs_earned / vesting_period vesting_seconds in
    Asset (to_int64 (u64 withdraw_available)) (asset_id (ctx_balance ctx)).

(** [on_deposit]: [update_coin_seconds_earned]. *)
Definition cdd_on_deposit (vesting_seconds cse start_claim last_update : Z) ctx : vesting_policy :=
  cdd_vesting_policy vesting_seconds
    (compute_coin_seconds_earned vesting_seconds cse last_update ctx) start_claim (ctx_now ctx).

(** The product is a signed 64-bit one. *)
Definition cdd_on_deposit_vested (vesting_seconds cse start_claim last_update : Z) ctx : vesting_policy :=
  let cse' := compute_coin_seconds_earned vesting_seconds cse last_update ctx in
  let added := to_int64 (amount (ctx_amount ctx) * vesting_period vesting_seconds) in
  cdd_vesting_policy vesting_seconds (u128 (cse' + u128 added)) start_claim (ctx_now ctx).

Definition cdd_on_withdraw (vesting_seconds cse start_claim last_update : Z) ctx : vesting_policy :=
  let cse' := compute_coin_seconds_earned vesting_seconds cse last_update ctx in
  let needed := u128 (u128 (amount (ctx_amount ctx)) * vesting_period vesting_seconds) in
  cdd_vesting_policy vesting_seconds (u128 (cse' - needed)) start_claim (ctx_now ctx).

Definition cdd_is_withdraw_allowed (vesting_seconds cse start_claim last_update : Z) ctx : result bool :=
  asset_le (ctx_amount ctx) (cdd_get_allowed_withdraw vesting_seconds cse start_claim last_update ctx).

(** *** Instant *)

Definition instant_is_withdraw_allowed ctx : result bool :=
  if asset_id (ctx_amount ctx) =? asset_id (ctx_balance ctx)
  then asset_le (ctx_amount ctx) (ctx_balance ctx) else Ok false.

(** *** Dispatch ([VESTING_VISITOR]) *)

Definition policy_get_allowed_withdraw (p : vesting_policy) ctx : result asset :=
  match p with
  | linear_vesting_policy b c d bb => linear_get_allowed_withdraw b c d bb ctx
  | cdd_vesting_policy v cse sc lu => Ok (cdd_get_allowed_withdraw v cse sc lu ctx)
  | instant_vesting_policy => Ok (ctx_balance ctx)
  end.

Definition policy_is_withdraw_allowed (p : vesting_policy) ctx : result bool :=
  match p with
  | linear_vesting_policy b c d bb => linear_is_withdraw_allowed b c d bb ctx
  | cdd_vesting_policy v cse sc lu => cdd_is_withdraw_allowed v cse sc lu ctx
  | instant_vesting_policy => instant_is_withdraw_allowed ctx
  end.

Definition policy_on_deposit (p : vesting_policy) ctx : vesting_policy :=
  match p with
  | cdd_vesting_policy v cse sc lu => cdd_on_deposit v cse sc lu ctx
  | _ => p
  end.

Definition policy_on_deposit_vested (p : vesting_policy) ctx : result vesting_policy :=
  match p with
  | linear_vesting_policy _ _ _ _ =>
      Err (thrown "May not deposit vested into a linear vesting balance.")
  | cdd_vesting_policy v cse sc lu => Ok (cdd_on_deposit_vested v cse sc lu ctx)
  | instant_vesting_policy => Ok p
  end.

Definition policy_on_withdraw (p : vesting_policy) ctx : vesting_policy :=
  match p with
  | cdd_vesting_policy v cse sc lu => cdd_on_withdraw v cse sc lu ctx
  | _ => p
  end.

Definition policy_is_deposit_vested_allowed (p : vesting_policy) ctx : result bool :=
  match p with
  | cdd_vesting_policy _ _ _ _ => deposit_check ctx
  | _ => Ok false
  end.

(** *** Member functions of [vesting_balance_object] *)

Definition vbo_is_deposit_allowed (vbo : vesting_balance_object) (now : Z) (a : asset) : result bool :=
  deposit_check (VestingContext (vb_balance vbo) now a).

Definition vbo_is_deposit_vested_allowed (vbo : vesting_balance_object) (now : Z) (a : asset) : result bool :=
  policy_is_deposit_vested_allowed (vb_policy vbo) (VestingContext (vb_balance vbo) now a).

Definition vbo_is_withdraw_allowed (vbo : vesting_balance_object) (now : Z) (a : asset) : result bool :=
  policy_is_withdraw_allowed (vb_policy vbo) (VestingContext (vb_balance vbo) now a).

Definition vbo_get_allowed_withdraw (vbo : vesting_balance_object) (now : Z) : result asset :=
  policy_get_allowed_withdraw (vb_policy vbo) (VestingContext (vb_balance vbo) now (Asset 0 CORE)).

Definition vbo_deposit (vbo : vesting_balance_object) (now : Z) (a : asset) : result vesting_balance_object :=
  let p := policy_on_deposit (vb_policy vbo) (VestingContext (vb_balance vbo) now a) in
  let! b := asset_add (vb_balance vbo) a in
  Ok (vbo <| vb_policy := p |> <| vb_balance := b |>).

Definition vbo_deposit_vested (vbo : vesting_balance_object) (now : Z) (a : asset) : result vesting_balance_object :=
  let! p := policy_on_deposit_vested (vb_policy vbo) (VestingContext (vb_balance vbo) now a) in
  let! b := asset_add (vb_balance vbo) a in
  Ok (vbo <| vb_policy := p |> <| vb_balance := b |>).

Definition vbo_withdraw (vbo : vesting_balance_object) (now : Z) (a : asset) : result vesting_balance_object :=
  let p := policy_on_withdraw (vb_policy vbo) (VestingContext (vb_balance vbo) now a) in
  let! b := asset_sub (vb_balance vbo) a in
  Ok (vbo <| vb_policy := p |> <| vb_balance := b |>).
End Policies.

(** ** Well-formedness *)

Definition UINT32_MAX : Z := 2 ^ 32 - 1.

(** What is taken for granted of the vesting balances of the chain at time [now]: the fields
    are in their ranges; a linear policy has begun with at least its balance and has not paid
    out more than it has vested, which the source asserts in
    [linear_vesting_policy::get_allowed_withdraw]; the update time of a coin-days policy is not
    in the future and its coin seconds are within those of the whole period. Creating and
    withdrawing keep it ([VestingOps]). *)
Definition policy_wf (bal now : Z) (p : vesting_policy) : Prop :=
  match p with
  | linear_vesting_policy b cliff dur bb =>
      0 <= b <= UINT32_MAX /\ 0 <= cliff <= UINT32_MAX /\ 0 <= dur <= UINT32_MAX
      /\ bal <= bb <= INT64_MAX
      /\ (bal < bb -> b < now /\ cliff <= now - b
            /\ (now - b < dur -> bb - bal <= bb * (now - b) / dur))
  | cdd_vesting_policy v cse sc lu =>
      0 <= v <= UINT32_MAX /\ 0 <= lu <= now /\ 0 <= cse <= bal * vesting_period v
  | instant_vesting_policy => True
  end.

Definition vbo_wf (now : Z) (vbo : vesting_balance_object) : Prop :=
  amount_ok (amount (vb_balance vbo)) /\ 0 <= now <= UINT32_MAX
  /\ policy_wf (amount (vb_balance vbo)) now (vb_policy vbo).

Section VestingLemmas.
Context `{SafeInt64Laws}.

Lemma vesting_period_bounds v : 0 <= v <= UINT32_MAX -> 1 <= vesting_period v <= UINT32_MAX.
Proof. unfold vesting_period, UINT32_MAX. lia. Qed.

(** Without wrap-around: the earned coin-seconds, capped. *)
Lemma coin_seconds_exact bal v cse lu now a i :
  amount_ok bal -> 0 <= v <= UINT32_MAX -> 0 <= lu <= now -> now <= UINT32_MAX ->
  0 <= cse <= bal * vesting_period v ->
  compute_coin_seconds_earned v cse lu (VestingContext (Asset bal i) now a)
    = Z.min (cse + bal * (now - lu)) (bal * vesting_period v).
Proof.
  intros Hb Hv Hlu Hnow Hcse. pose proof (vesting_period_bounds v Hv).
  unfold compute_coin_seconds_earned. cbn [ctx_balance ctx_now amount].
  unfold amount_ok, INT64_MAX, UINT32_MAX in *.
  assert (0 <= bal * vesting_period v <= bal * 2 ^ 32) by (split; [|apply Z.mul_le_mono_nonneg_l]; nia).
  assert (0 <= bal * (now - lu) <= bal * 2 ^ 32) by (split; [|apply Z.mul_le_mono_nonneg_l]; nia).
  rewrite !(u128_small bal), (u128_small (now - lu)) by lia.
  rewrite (u128_small (bal * (now - lu))), (u128_small (bal * vesting_period v)) by lia.
  rewrite u128_small by lia. done.
Qed.

Lemma cdd_allowed_exact bal v cse sc lu now a i :
  amount_ok bal -> policy_wf bal now (cdd_vesting_policy v cse sc lu) -> 0 <= now <= UINT32_MAX ->
  cdd_get_allowed_withdraw v cse sc lu (VestingContext (Asset bal i) now a)
    = Asset (if now <=? sc then 0
             else Z.min (cse + bal * (now - lu)) (bal * vesting_period v) / vesting_period v) i.
Proof.
  intros Hb (Hv & Hlu & Hcse) Hnow. unfold cdd_get_allowed_withdraw. cbn [ctx_now].
  destruct (now <=? sc); [done|]. rewrite coin_seconds_exact by (done || lia).
  cbn. f_equal. pose proof (vesting_period_bounds v Hv).
  set (e := Z.min _ _). assert (0 <= e / vesting_period v <= bal).
  { unfold amount_ok in Hb. split; [apply Z.div_pos; nia|].
    apply Z.div_le_upper_bound; [lia|]. subst e. lia. }
  unfold amount_ok, INT64_MAX in *. unfold u64. rewrite Z.mod_small by lia.
  apply to_int64_small. unfold_int64. lia.
Qed.

(** What a linear policy has released by [now]. *)
Definition linear_vested (b cliff dur bb now : Z) : Z :=
  if (now >? b) && (now - b >=? cliff)
  then (if now - b <? dur then bb * (now - b) / dur else bb) else 0.

Lemma linear_vested_bounds b cliff dur bb now :
  0 <= bb -> 0 <= linear_vested b cliff dur bb now <= bb.
Proof.
  intros. unfold linear_vested. destruct (_ && _) eqn:E; [|lia].
  reflect_bools. destruct (Z.ltb_spec (now - b) dur); [|lia].
  split; [apply Z.div_pos; nia|]. apply Z.div_le_upper_bound; nia.
Qed.

Lemma linear_allowed_exact bal b cliff dur bb now a i :
  amount_ok bal -> policy_wf bal now (linear_vesting_policy b cliff dur bb) -> 0 <= now <= UINT32_MAX ->
  linear_get_allowed_withdraw b cliff dur bb (VestingContext (Asset bal i) now a)
    = Ok (Asset (Z.max 0 (linear_vested b cliff dur bb now - (bb - bal))) i)
  /\ (bb = bal \/ bb - bal <= linear_vested b cliff dur bb now).
Proof.
  intros Hb (H1 & H2 & H3 & H4 & H5) Hnow.
  pose proof (linear_vested_bounds b cliff dur bb now) as HL.
  unfold linear_get_allowed_withdraw, linear_vested, amount_ok, UINT32_MAX, INT64_MAX in *.
  cbn [ctx_now ctx_balance amount asset_id].
  rewrite !Z.gtb_ltb, !Z.geb_leb in *.
  destruct (Z.ltb_spec b now) as [Hlt|]; cbn [andb] in *;
    [|split; [cbn; do 2 f_equal; lia | lia]].
  destruct (Z.leb_spec cliff (now - b)); [|split; [cbn; do 2 f_equal; lia | lia]].
  specialize (HL ltac:(lia)).
  set (tv := if now - b <? dur then _ else bb) in *.
  assert (bb = bal \/ bb - bal <= tv) as Hle.
  { destruct (Z.eq_dec bb bal); [by left|]. right. subst tv.
    destruct (Z.ltb_spec (now - b) dur); [apply H5; lia | lia]. }
  split; [|done].
  assert ((if now - b <? dur
      then to_int64 (u64 (u128 (u128 bb * (now - b)) / dur)) else bb) = tv) as ->.
  { subst tv. destruct (Z.ltb_spec (now - b) dur); [|done].
    rewrite (u128_small bb) by lia.
    assert (0 <= bb * (now - b) <= bb * 2 ^ 32) by (split; [nia|apply Z.mul_le_mono_nonneg_l; lia]).
    rewrite u128_small by lia. unfold u64. rewrite Z.mod_small by lia.
    apply to_int64_small. unfold_int64. lia. }
  rewrite safe_sub_exact by (unfold_int64; lia). cbn [rbind].
  rewrite safe_sub_exact by (unfold_int64; lia). cbn [rbind]. do 2 f_equal. lia.
Qed.
End VestingLemmas.

(** ** Main properties *)

Section VestingTheorems.
Context `{SafeInt64Laws}.
Implicit Types vbo : vesting_balance_object.

(** The amount a well-formed balance allows to withdraw, as a number. *)
Definition allowed_amount (p : vesting_policy) (bal now : Z) : Z :=
  match p with
  | linear_vesting_policy b cliff dur bb => Z.max 0 (linear_vested b cliff dur bb now - (bb - bal))
  | cdd_vesting_policy v cse sc lu =>
      if now <=? sc then 0
      else Z.min (cse + bal * (now - lu)) (bal * vesting_period v) / vesting_period v
  | instant_vesting_policy => bal
  end.

Lemma allowed_exact p bal now i a :
  amount_ok bal -> policy_wf bal now p -> 0 <= now <= UINT32_MAX ->
  policy_get_allowed_withdraw p (VestingContext (Asset bal i) now a)
    = Ok (Asset (allowed_amount p bal now) i).
Proof.
  intros Hb Hp Hnow. destruct p; cbn.
  - by apply linear_allowed_exact.
  - by rewrite cdd_allowed_exact.
  - done.
Qed.

Lemma allowed_amount_bounds p bal now :
  amount_ok bal -> policy_wf bal now p -> 0 <= now <= UINT32_MAX ->
  0 <= allowed_amount p bal now <= bal.
Proof.
  unfold amount_ok. intros Hb Hp Hnow. destruct p as [b cl d bb|v cse sc lu|]; cbn in *.
  - pose proof (linear_vested_bounds b cl d bb now). lia.
  - destruct (now <=? sc); [lia|]. pose proof (vesting_period_bounds v).
    split; [apply Z.div_pos; nia|]. apply Z.div_le_upper_bound; lia.
  - lia.
Qed.

Lemma is_withdraw_allowed_spec p bal now i n j :
  amount_ok bal -> policy_wf bal now p -> 0 <= now <= UINT32_MAX ->
  policy_is_withdraw_allowed p (VestingContext (Asset bal i) now (Asset n j)) = Ok true ->
  j = i /\ n <= allowed_amount p bal now.
Proof.
  intros Hb Hp Hnow Hw.
  pose proof (allowed_exact p bal now i (Asset n j) Hb Hp Hnow) as E. destruct p; cbn in Hw, E.
  - unfold linear_is_withdraw_allowed in Hw. cbn in Hw. case_match; [|mon; done].
    unfold asset_le, asset_lt in Hw. rewrite E in Hw. cbn in Hw. mon. cbn in *. mon. cbn [allowed_amount]. lia.
  - injection E as E. unfold cdd_is_withdraw_allowed, asset_le, asset_lt in Hw.
    rewrite E in Hw. cbn -[vesting_period] in Hw. mon. cbn [allowed_amount]. lia.
  - unfold instant_is_withdraw_allowed, asset_le, asset_lt in Hw. cbn in Hw.
    case_match; [|mon; done]. mon. cbn in *. mon. lia.
Qed.

(** What is allowed, for a well-formed balance. *)
Lemma vbo_allowed_ok vbo (now : Z) :
  vbo_wf now vbo ->
  exists a, vbo_get_allowed_withdraw vbo now = Ok a
    /\ asset_id a = asset_id (vb_balance vbo) /\ 0 <= amount a <= amount (vb_balance vbo).
Proof.
  intros (Hb & Hnow & Hp). unfold vbo_get_allowed_withdraw.
  destruct (vb_balance vbo) as [bal i]. cbn in *.
  exists (Asset (allowed_amount (vb_policy vbo) bal now) i).
  split; [by apply allowed_exact|]. split; [done|]. by apply allowed_amount_bounds.
Qed.

(** At any time the amount a well-formed vesting balance releases is computed without
    failure, is not negative and never exceeds the balance, under each of the three
    policies. *)
Theorem vesting_allowed_bounds vbo (now : Z) :
  vbo_wf now vbo ->
  exists a, vbo_get_allowed_withdraw vbo now = Ok a
    /\ asset_id a = asset_id (vb_balance vbo) /\ 0 <= amount a <= amount (vb_balance vbo).
Proof. apply vbo_allowed_ok. Qed.

Lemma policy_withdraw_wf p bal now i n :
  amount_ok bal -> policy_wf bal now p -> 0 <= now <= UINT32_MAX ->
  0 <= n <= allowed_amount p bal now ->
  policy_wf (bal - n) now (policy_on_withdraw p (VestingContext (Asset bal i) now (Asset n i)))
  /\ allowed_amount (policy_on_withdraw p (VestingContext (Asset bal i) now (Asset n i))) (bal - n) now
     = allowed_amount p bal now - n.
Proof.
  intros Hb Hp Hnow Hn. pose proof (allowed_amount_bounds p bal now Hb Hp Hnow).
  destruct p as [b cl d bb|v cse sc lu|]; cbn -[vesting_period] in *; unfold amount_ok in Hb.
  - pose proof Hp as (? & ? & ? & ? & Hpaid). split; [|lia].
    split_and!; try lia; intros Hlt;
      (destruct (Z.eq_dec n 0) as [->|]; [rewrite Z.sub_0_r in *; by apply Hpaid|]);
      unfold linear_vested in Hn; destruct (_ && _) eqn:E in Hn; try lia; reflect_bools.
    split_and!; try lia. intros Hd. apply Z.ltb_lt in Hd. rewrite Hd in Hn. lia.
  - pose proof Hp as (Hv & Hlu & Hcse). unfold cdd_on_withdraw.
    rewrite coin_seconds_exact by (done || lia). cbn [ctx_amount ctx_now amount].
    pose proof (vesting_period_bounds v Hv) as Hvp. remember (vesting_period v) as w.
    set (e := Z.min _ _) in *.
    assert (0 <= e <= bal * w) by (subst e; split; [apply Z.min_glb; nia|lia]).
    assert (n * w <= e) as Hne.
    { destruct (now <=? sc); [assert (n = 0) by lia; subst n; lia|].
      pose proof (div_mul_le e w). nia. }
    unfold INT64_MAX, UINT32_MAX in *.
    assert (0 <= n * w <= bal * 2 ^ 32) by nia.
    rewrite (u128_small n), (u128_small (n * w)), (u128_small (e - n * w)) by nia.
    cbn [policy_wf allowed_amount]. split; [split_and!; try lia; nia|].
    destruct (now <=? sc); [lia|].
    replace (now - now) with 0 by lia. rewrite Z.mul_0_r, Z.add_0_r.
    rewrite Z.min_l by nia. rewrite <- Z.add_opp_r, <- Z.mul_opp_l, Z.div_add by lia. lia.
  - split; [done|lia].
Qed.

(** The exact effect of an allowed withdrawal. *)
Lemma vbo_withdraw_ok vbo (now : Z) (req allowed : asset) :
  vbo_wf now vbo -> 0 <= amount req ->
  vbo_get_allowed_withdraw vbo now = Ok allowed ->
  vbo_is_withdraw_allowed vbo now req = Ok true ->
  exists vbo', vbo_withdraw vbo now req = Ok vbo' /\ vbo_wf now vbo'
    /\ vb_owner vbo' = vb_owner vbo /\ vb_balance_type vbo' = vb_balance_type vbo
    /\ vb_balance vbo' = Asset (amount (vb_balance vbo) - amount req) (asset_id (vb_balance vbo))
    /\ vbo_get_allowed_withdraw vbo' now = Ok (Asset (amount allowed - amount req) (asset_id allowed)).
Proof.
  intros (Hb & Hnow & Hp) Hn Ha Hw. unfold vbo_get_allowed_withdraw, vbo_is_withdraw_allowed in *.
  destruct vbo as [own [bal i] p ty]. destruct req as [n j]. cbn in *.
  rewrite allowed_exact in Ha by done. injection Ha as <-.
  destruct (is_withdraw_allowed_spec p bal now i n j Hb Hp Hnow Hw) as [-> Hle].
  pose proof (allowed_amount_bounds p bal now Hb Hp Hnow).
  destruct (policy_withdraw_wf p bal now i n) as [Hwf Hal]; [done..|lia|].
  assert (amount_ok (bal - n)) by (unfold amount_ok in *; lia).
  unfold vbo_withdraw, asset_sub. cbn. rewrite Z.eqb_refl. cbn.
  rewrite safe_sub_exact by (unfold amount_ok in *; unfold_int64; lia). cbn.
  eexists. split; [reflexivity|]. unfold vbo_wf. cbn.
  split_and!; try done; try lia. rewrite allowed_exact by done. by rewrite Hal.
Qed.

(** A withdrawal that is allowed is exact: it succeeds, takes the requested
    amount from the balance, leaves a well-formed balance, and lowers what can
    still be withdrawn at that time by exactly the amount, so that splitting a
    withdrawal gains nothing. *)
Theorem vesting_withdraw_exact vbo (now : Z) (req allowed : asset) :
  vbo_wf now vbo -> 0 <= amount req ->
  vbo_get_allowed_withdraw vbo now = Ok allowed ->
  vbo_is_withdraw_allowed vbo now req = Ok true ->
  exists vbo', vbo_withdraw vbo now req = Ok vbo' /\ vbo_wf now vbo'
    /\ vb_owner vbo' = vb_owner vbo /\ vb_balance_type vbo' = vb_balance_type vbo
    /\ vb_balance vbo' = Asset (amount (vb_balance vbo) - amount req) (asset_id (vb_balance vbo))
    /\ vbo_get_allowed_withdraw vbo' now = Ok (Asset (amount allowed - amount req) (asset_id allowed)).
Proof. apply vbo_withdraw_ok. Qed.

Lemma div_le_mono_num a b c : 0 < c -> a <= b -> a / c <= b / c.
Proof. intros. by apply Z.div_le_mono. Qed.

(** Vesting only progresses: as time passes a well-formed balance stays
    well-formed and the amount that can be withdrawn never decreases. *)
Theorem vesting_monotone vbo (now now' : Z) (a a' : asset) :
  vbo_wf now vbo -> now <= now' <= UINT32_MAX ->
  vbo_get_allowed_withdraw vbo now = Ok a -> vbo_get_allowed_withdraw vbo now' = Ok a' ->
  vbo_wf now' vbo /\ amount a <= amount a'.
Proof.
  intros (Hb & Hnow & Hp) Hle. destruct vbo as [own [bal i] p ty].
  unfold vbo_get_allowed_withdraw, vbo_wf. cbn in *.
  assert (policy_wf bal now' p) as Hp'.
  { destruct p as [b cl d bb|v cse sc lu|]; cbn in *; [|lia|done].
    destruct Hp as (? & ? & ? & ? & Hpaid). split_and!; try lia. intros Hlt.
    destruct (Hpaid Hlt) as (? & ? & Hd). split_and!; try lia. intros.
    etransitivity; [apply Hd; lia|]. unfold amount_ok in Hb. apply div_le_mono_num; nia. }
  rewrite !allowed_exact by (done || lia). intros [= <-] [= <-]. cbn.
  split; [split_and!; (done || lia)|]. unfold amount_ok in Hb.
  destruct p as [b cl d bb|v cse sc lu|]; cbn in *; [| |lia].
  - pose proof (linear_vested_bounds b cl d bb now') as Hub. unfold linear_vested in *.
    destruct ((now >? b) && (now - b >=? cl)) eqn:E; [|lia].
    destruct ((now' >? b) && (now' - b >=? cl)) eqn:E';
      [|rewrite !Z.gtb_ltb, !Z.geb_leb, andb_false_iff in *; reflect_bools; lia].
    reflect_bools. destruct (Z.ltb_spec (now - b) d), (Z.ltb_spec (now' - b) d); try lia.
    + assert (bb * (now - b) / d <= bb * (now' - b) / d) by (apply div_le_mono_num; nia). lia.
    + assert (bb * (now - b) / d <= bb) by (apply Z.div_le_upper_bound; nia). lia.
  - destruct (Z.leb_spec now' sc), (Z.leb_spec now sc); try lia.
    + destruct Hp as (Hv & ? & ?). pose proof (vesting_period_bounds v Hv).
      apply Z.div_pos; nia.
    + destruct Hp as (Hv & ? & ?). pose proof (vesting_period_bounds v Hv).
      apply div_le_mono_num; nia.
Qed.
End VestingTheorems.

Lemma vesting_allowed_bounds_witness :
  let vbo := VestingBalance 7 (Asset 1000 0) (cdd_vesting_policy 100 5000 0 50) vb_cashback in
  vbo_wf 60 vbo
  /\ exists a, vbo_get_allowed_withdraw vbo 60 = Ok a
      /\ asset_id a = asset_id (vb_balance vbo) /\ 0 <= amount a <= amount (vb_balance vbo).
Proof.
  cbv zeta. assert (vbo_wf 60 (VestingBalance 7 (Asset 1000 0) (cdd_vesting_policy 100 5000 0 50) vb_cashback)) as Hwf.
  { repeat split; vm_compute; congruence. }
  split; [exact Hwf|]. exact (vesting_allowed_bounds _ 60 Hwf).
Defined.

Lemma vesting_withdraw_exact_witness :
  let vbo := VestingBalance 7 (Asset 1000 0) (cdd_vesting_policy 100 5000 0 50) vb_cashback in
  vbo_get_allowed_withdraw vbo 60 = Ok (Asset 150 0)
  /\ exists vbo', vbo_withdraw vbo 60 (Asset 40 0) = Ok vbo' /\ vbo_wf 60 vbo'
      /\ vb_owner vbo' = vb_owner vbo /\ vb_balance_type vbo' = vb_balance_type vbo
      /\ vb_balance vbo' = Asset (1000 - 40) 0
      /\ vbo_get_allowed_withdraw vbo' 60 = Ok (Asset (150 - 40) 0).
Proof.
  cbv zeta. split; [vm_compute; reflexivity|].
  apply (vesting_withdraw_exact
           (VestingBalance 7 (Asset 1000 0) (cdd_vesting_policy 100 5000 0 50) vb_cashback)
           60 (Asset 40 0) (Asset 150 0)).
  - repeat split; vm_compute; congruence.
  - cbn. lia.
  - vm_compute. reflexivity.
  - vm_compute. reflexivity.
Defined.

Lemma vesting_monotone_witness :
  let vbo := VestingBalance 7 (Asset 700 0) (linear_vesting_policy 100 10 1000 1000) vb_unspecified in
  vbo_get_allowed_withdraw vbo 400 = Ok (Asset 0 0)
  /\ vbo_get_allowed_withdraw vbo 600 = Ok (Asset 200 0) /\ (vbo_wf 600 vbo /\ 0 <= 200).
Proof.
  cbv zeta. split; [vm_compute; reflexivity|]. split; [vm_compute; reflexivity|].
  apply (vesting_monotone
           (VestingBalance 7 (Asset 700 0) (linear_vesting_policy 100 10 1000 1000) vb_unspecified)
           400 600 (Asset 0 0) (Asset 200 0)).
  - repeat split; vm_compute; congruence.
  - unfold UINT32_MAX. lia.
  - vm_compute. reflexivity.
  - vm_compute. reflexivity.
Defined.

(** The signed product of [on_deposit_vested] overflows for a deposit and a vesting
    period whose product exceeds 63 bits: with the default one-year period a vested
    deposit of 300000000000 satoshis next to a million unvested ones makes the whole
    balance withdrawable at once. *)
Lemma deposit_vested_overflow :
  let vbo := VestingBalance 7 (Asset 1000000 0) (cdd_vesting_policy 31536000 0 0 1000) vb_cashback in
  vbo_wf 1000 vbo /\ vbo_get_allowed_withdraw vbo 1000 = Ok (Asset 0 0)
  /\ vbo_is_deposit_vested_allowed vbo 1000 (Asset 300000000000 0) = Ok true
  /\ exists vbo', vbo_deposit_vested vbo 1000 (Asset 300000000000 0) = Ok vbo'
       /\ vbo_get_allowed_withdraw vbo' 1000 = Ok (Asset 300001000000 0).
Proof.
  cbv zeta. split; [repeat split; vm_compute; congruence|].
  split; [vm_compute; reflexivity|]. split; [vm_compute; reflexivity|].
  eexists. split; [reflexivity|]. vm_compute. reflexivity.
Qed.
