(* ===== verification/Database.v ===== *)
(** The chain database as the evaluators see it: the tables, the accessors, the
    balance operations of [db_balance.cpp], asset authorization
    ([is_authorized_asset.hpp], [is_authorized_asset.cpp]) and market fees ([db_market.cpp]). An operation maps a
    database to a new one or throws. [holdings] is the total the test suite's
    [verify_asset_supplies] compares with the current supply of an asset; the
    lemmas say how each basic operation changes it. *)
From S2P Require Import Prelude Records Fc Asset Objects Vesting.
From Stdlib Require Import Strings.Byte.

(** Operations the chain itself emits; they are only recorded. *)
Inductive virtual_op :=
  | vop_htlc_redeemed (htlc : Z) (from to redeemer : account_id_type) (amount : asset)
      (preimage_hash : htlc_hash) (preimage_size : Z) (preimage : list byte)
  | vop_htlc_refund (htlc : Z) (to : account_id_type) (original_from : account_id_type)
      (amount : asset) (preimage_hash : htlc_hash) (preimage_size : Z)
  | vop_credit_deal_expired (deal offer : Z) (owner borrower : account_id_type)
      (unpaid collateral : asset)
  | vop_limit_order_cancel (order : Z) (fee_paying_account : account_id_type) (fee refunded : asset)
  | vop_fill_order (order : Z) (account : account_id_type) (pays receives fee : asset) (fill_price : price)
      (is_maker : bool)
  | vop_asset_settle_cancel (settlement : Z) (account : account_id_type) (amount : asset)
  | vop_bid_collateral (bidder : account_id_type) (additional_collateral debt_covered : asset)
  | vop_execute_bid (bidder : account_id_type) (debt collateral : asset).

Record database := Database {
  head_block_time : time_point_sec;
  head_block_num : Z;
  next_maintenance_time : time_point_sec;
  params : chain_parameters;
  witness_budget : share_type;
  total_pob : share_type;
  total_inactive : share_type;
  accounts : table account_object;
  account_stats : gmap account_id_type account_statistics_object;
  balances : gmap (account_id_type * asset_id_type) account_balance_object;
  assets : table asset_object;
  dyn_data : gmap asset_id_type asset_dynamic_data_object;
  bitassets : gmap asset_id_type asset_bitasset_data_object;
  vestings : table vesting_balance_object;
  pools : table liquidity_pool_object;
  credit_offers : table credit_offer_object;
  credit_deals : table credit_deal_object;
  credit_summaries : table credit_deal_summary_object;
  samet_funds : table samet_fund_object;
  htlcs : table htlc_object;
  tickets : table ticket_object;
  permissions : table withdraw_permission_object;
  limit_orders : table limit_order_object;
  call_orders : table call_order_object;
  settlements : table force_settlement_object;
  collateral_bids : table collateral_bid_object;
  witnesses : table witness_object;
  workers : table worker_object;
  last_budget_time : time_point_sec;
  budget_records : list (time_point_sec * budget_record);
  vault : option gold_reserve_vault_object;
  applied_ops : list virtual_op;
}.
#[export] Instance eta_database : Eta database :=
  fun r => Database (head_block_time r) (head_block_num r) (next_maintenance_time r) (params r)
    (witness_budget r) (total_pob r) (total_inactive r) (accounts r) (account_stats r) (balances r) (assets r) (dyn_data r)
    (bitassets r) (vestings r) (pools r) (credit_offers r) (credit_deals r) (credit_summaries r)
    (samet_funds r) (htlcs r) (tickets r) (permissions r) (limit_orders r)
    (call_orders r) (settlements r) (collateral_bids r) (witnesses r) (workers r) (last_budget_time r) (budget_records r) (vault r) (applied_ops r).

(** ** Hard forks *)

Definition HARDFORK_LIQUIDITY_POOL_PASSED (now : Z) : bool := now >=? 1601312520.
Definition HARDFORK_CORE_2604_PASSED (now : Z) : bool := now >=? 1700143200.
Definition HARDFORK_CORE_2595_PASSED (now : Z) : bool := now >=? 1700143200.
Definition HARDFORK_CORE_2350_PASSED (now : Z) : bool := now >=? 1641909720.
Definition HARDFORK_CORE_2351_PASSED (now : Z) : bool := now >=? 1641909720.
Definition HARDFORK_CORE_2362_PASSED (now : Z) : bool := now >=? 1641909720.
Definition HARDFORK_CORE_2295_PASSED (now : Z) : bool := now >=? 1641909720.
Definition HARDFORK_CORE_973_PASSED (now : Z) : bool := now >=? 1641909720.
Definition HARDFORK_CORE_2103_PASSED (now : Z) : bool := now >=? 1596117300.
Definition HARDFORK_CORE_2262_PASSED (next_maint_time : Z) : bool := next_maint_time >? 1601312520.
Definition HARDFORK_BSIP_86_PASSED (now : Z) : bool := now >=? 1596117300.
Definition HARDFORK_1774_TIME : Z := 1596117300.
Definition HARDFORK_CORE_1800_TIME : Z := 1596117300.
Definition HARDFORK_CORE_BSIP64_TIME : Z := 1596117300.

(** ** Special accounts *)

Definition GRAPHENE_COMMITTEE_ACCOUNT : account_id_type := 0.
Definition GRAPHENE_WITNESS_ACCOUNT : account_id_type := 1.
Definition GRAPHENE_RELAXED_COMMITTEE_ACCOUNT : account_id_type := 2.
Definition GRAPHENE_NULL_ACCOUNT : account_id_type := 3.
Definition GRAPHENE_TEMP_ACCOUNT : account_id_type := 4.

(** ** Lookups: [id(db)] throws when the object does not exist *)

Definition get_account (d : database) (id : account_id_type) : result account_object :=
  of_option "account" (tfind (accounts d) id).
Definition get_asset (d : database) (id : asset_id_type) : result asset_object :=
  of_option "asset" (tfind (assets d) id).
Definition get_dyn (d : database) (id : asset_id_type) : result asset_dynamic_data_object :=
  of_option "asset dynamic data" (dyn_data d !! id).
Definition get_stats (d : database) (id : account_id_type) : result account_statistics_object :=
  of_option "account statistics" (account_stats d !! id).

Definition set_dyn (d : database) (id : asset_id_type) (x : asset_dynamic_data_object) : database :=
  d <| dyn_data := <[id := x]> (dyn_data d) |>.

(** ** Asset flags *)

Definition charge_market_fee : Z := 1.
Definition override_authority : Z := 4.
Definition white_list : Z := 2.
Definition transfer_restricted : Z := 8.
Definition disable_new_supply : Z := 1024.

Definition charges_market_fees (a : asset_object) : bool :=
  negb (0 =? Z.land (ao_flags (as_options a)) charge_market_fee).
Definition is_transfer_restricted (a : asset_object) : bool :=
  negb (0 =? Z.land (ao_flags (as_options a)) transfer_restricted).
Definition can_override (a : asset_object) : bool :=
  negb (0 =? Z.land (ao_flags (as_options a)) override_authority).
Definition can_create_new_supply (a : asset_object) : bool :=
  0 =? Z.land (ao_flags (as_options a)) disable_new_supply.
Definition is_liquidity_pool_share_asset (a : asset_object) : bool :=
  match as_for_liquidity_pool a with Some _ => true | None => false end.

(** ** [is_authorized_asset] *)

(** [detail::_is_authorized_asset] *)
Definition _is_authorized_asset (d : database) (acct_id : account_id_type) (acct : account_object)
    (asset_obj_id : asset_id_type) (asset_obj : asset_object) : bool :=
  if HARDFORK_BSIP_86_PASSED (head_block_time d) && (acct_id =? GRAPHENE_COMMITTEE_ACCOUNT) then true
  else if match ac_allowed_assets acct with
          | Some allowed => negb (bool_decide (asset_obj_id ∈ allowed))
          | None => false
          end then false
  else if bool_decide (ac_blacklisting_accounts acct ∩ ao_blacklist_authorities (as_options asset_obj) ≠ ∅)
  then false
  else if bool_decide (size (ao_whitelist_authorities (as_options asset_obj)) = 0%nat) then true
  else bool_decide (ac_whitelisting_accounts acct ∩ ao_whitelist_authorities (as_options asset_obj) ≠ ∅).

(** The inline function of the header: neither a list of the account nor the flag of the
    asset asks for the slow check. *)
Definition is_authorized_asset (d : database) (acct_id : account_id_type) (acct : account_object)
    (asset_obj_id : asset_id_type) (asset_obj : asset_object) : bool :=
  if (0 =? Z.land (ao_flags (as_options asset_obj)) white_list)
     && match ac_allowed_assets acct with Some _ => false | None => true end
  then true
  else _is_authorized_asset d acct_id acct asset_obj_id asset_obj.

Section Balances.
Context `{SafeInt64}.

(** ** Balances *)

Definition get_balance (d : database) (owner : account_id_type) (id : asset_id_type) : asset :=
  match balances d !! (owner, id) with
  | None => Asset 0 id
  | Some b => Asset (ab_balance b) id
  end.

Definition adjust_balance (d : database) (account : account_id_type) (delta : asset) : result database :=
  if amount delta =? 0 then Ok d
  else
    match balances d !! (account, asset_id delta) with
    | None =>
        assert! 0 <? amount delta @ "Insufficient Balance" in
        Ok (d <| balances ::= <[(account, asset_id delta) :=
                AccountBalance (amount delta) (asset_id delta =? CORE)]> |>)
    | Some abo =>
        do! (if amount delta <? 0 then
               let! need := safe_neg (amount delta) in
               assert! need <=? ab_balance abo @ "Insufficient Balance" in Ok tt
             else Ok tt) in
        let! b := safe_add (ab_balance abo) (amount delta) in
        Ok (d <| balances ::= <[(account, asset_id delta) :=
                AccountBalance b (if asset_id delta =? CORE then true else ab_maintenance_flag abo)]> |>)
    end.

(** ** Vesting deposits *)

Definition is_mfs_vbo (account : account_id_type) (id : asset_id_type) (vbo : vesting_balance_object) : bool :=
  bool_decide (vb_balance_type vbo = vb_market_fee_sharing)
  && (id =? asset_id (vb_balance vbo)) && (account =? vb_owner vbo).

Definition deposit_market_fee_vesting_balance (d : database) (account : account_id_type)
    (delta : asset) : result database :=
  assert! 0 <=? amount delta @ "Invalid negative value for balance" in
  if amount delta =? 0 then Ok d
  else
    match tsearch (is_mfs_vbo account (asset_id delta)) (vestings d) with
    | None =>
        Ok (d <| vestings := tcreate (vestings d)
              (VestingBalance account delta instant_vesting_policy vb_market_fee_sharing) |>)
    | Some (id, vbo) =>
        let! vbo' := vbo_deposit_vested vbo (head_block_time d) delta in
        Ok (d <| vestings := tmodify (vestings d) id vbo' |>)
    end.

(** Returns the id of a newly created vesting balance, if one was created. *)
Definition deposit_lazy_vesting (d : database) (ovbid : option Z) (a : asset)
    (req_vesting_seconds : Z) (balance_type : vesting_balance_type)
    (req_owner : account_id_type) (require_vesting : bool) : result (database * option Z) :=
  if amount a =? 0 then Ok (d, None)
  else
    let now := head_block_time d in
    let create :=
      let policy := cdd_vesting_policy req_vesting_seconds
        (if require_vesting then 0 else u128 (to_int64 (amount a * req_vesting_seconds))) 0 now in
      Ok (d <| vestings := tcreate (vestings d) (VestingBalance req_owner a policy balance_type) |>,
          Some (next_id (vestings d))) in
    match ovbid with
    | None => create
    | Some vbid =>
        let! vbo := of_option "vesting balance" (tfind (vestings d) vbid) in
        if (vb_owner vbo =? req_owner)
           && match vb_policy vbo with
              | cdd_vesting_policy v _ _ _ => v =? req_vesting_seconds
              | _ => false
              end
           && (asset_id (vb_balance vbo) =? asset_id a)
        then
          let! vbo' := if require_vesting then vbo_deposit vbo now a else vbo_deposit_vested vbo now a in
          Ok (d <| vestings := tmodify (vestings d) vbid vbo' |>, None)
        else create
    end.

Definition deposit_cashback (d : database) (acct_id : account_id_type) (a : share_type)
    (require_vesting : bool) : result database :=
  if a =? 0 then Ok d
  else if (acct_id =? GRAPHENE_COMMITTEE_ACCOUNT) || (acct_id =? GRAPHENE_WITNESS_ACCOUNT)
          || (acct_id =? GRAPHENE_RELAXED_COMMITTEE_ACCOUNT)
          || (acct_id =? GRAPHENE_NULL_ACCOUNT) || (acct_id =? GRAPHENE_TEMP_ACCOUNT) then
    let! dyn := get_dyn d CORE in
    let! s := safe_sub (dd_current_supply dyn) a in
    Ok (set_dyn d CORE (dyn <| dd_current_supply := s |>))
  else
    let! acct := get_account d acct_id in
    let! (d1, new_vbid) := deposit_lazy_vesting d (ac_cashback_vb acct) (Asset a CORE)
      (cp_cashback_vesting_period_seconds (params d)) vb_cashback acct_id require_vesting in
    match new_vbid with
    | None => Ok d1
    | Some id =>
        let! st := get_stats d1 acct_id in
        Ok (d1 <| accounts := tmodify (accounts d1) acct_id (acct <| ac_cashback_vb := Some id |>) |>
               <| account_stats ::= <[acct_id := st <| st_has_cashback_vb := true |>]> |>)
    end.

(** ** Market fees *)

Definition calculate_percent (value : share_type) (percent : Z) : result share_type :=
  let a := u128 (u128 value * percent) / GRAPHENE_100_PERCENT in
  assert! a <=? GRAPHENE_MAX_SHARE_SUPPLY @ "overflow when calculating percent" in
  Ok (to_int64 a).

Definition calculate_market_fee (id : asset_id_type) (trade_asset : asset_object)
    (trade_amount : asset) (is_maker : bool) : result asset :=
  let opts := as_options trade_asset in
  if negb (charges_market_fees trade_asset) then Ok (Asset 0 id)
  else if is_maker && (ao_market_fee_percent opts =? 0) then Ok (Asset 0 id)
  else if negb is_maker && match ao_taker_fee_percent opts with Some p => p =? 0 | None => false end
  then Ok (Asset 0 id)
  else
    let fee_percent :=
      if is_maker then ao_market_fee_percent opts
      else match ao_taker_fee_percent opts with Some p => p | None => ao_market_fee_percent opts end in
    let! value := calculate_percent (amount trade_amount) fee_percent in
    Ok (Asset (if value >? ao_max_market_fee opts then ao_max_market_fee opts else value) id).

(** The part of the fee that goes to the network; returns what is left. *)
Definition pay_network_fee (d : database) (id : asset_id_type) (issuer_fees : asset)
    : result (database * asset) :=
  let network_percent := cp_market_fee_network_percent (params d) in
  if (0 <? amount issuer_fees) && (0 <? network_percent) then
    let! network_fees_amt := calculate_percent (amount issuer_fees) network_percent in
    assert! network_fees_amt <=? amount issuer_fees
      @ "Fee shared to the network shouldn't be greater than total market fee" in
    if 0 <? network_fees_amt then
      let! d1 := deposit_market_fee_vesting_balance d GRAPHENE_COMMITTEE_ACCOUNT
                   (Asset network_fees_amt id) in
      let! rest := asset_sub issuer_fees (Asset network_fees_amt id) in
      Ok (d1, rest)
    else Ok (d, issuer_fees)
  else Ok (d, issuer_fees).

(** Whether the asset shares its market fees with this trader's registrar. *)
Definition shares_market_fees (sel : account_object) (opts : asset_options) : bool :=
  match ao_whitelist_market_fee_sharing opts with
  | None => true
  | Some wl => bool_decide (wl = ∅) || bool_decide (ac_registrar sel ∈ wl)
  end.

(** After core-1800 the temp account's rewards go to the committee account. *)
Definition reward_receiver (d : database) (a : account_id_type) : account_id_type :=
  if (head_block_time d >=? HARDFORK_CORE_1800_TIME) && (a =? GRAPHENE_TEMP_ACCOUNT)
  then GRAPHENE_COMMITTEE_ACCOUNT else a.

(** The referrer's part of the reward; returns what is left for the registrar. *)
Definition pay_referrer_reward (d : database) (sel : account_object)
    (registrar referrer : account_id_type) (id : asset_id_type) (recv_asset : asset_object)
    (reward : asset) : result (database * asset) :=
  if negb (referrer =? registrar) then
    let! v := calculate_percent (amount reward) (ac_referrer_rewards_percentage sel) in
    if 0 <? v then
      let! referrer_acct := get_account d referrer in
      if is_authorized_asset d referrer referrer_acct id recv_asset then
        assert! v <=? amount reward @ "Referrer reward shouldn't be greater than total reward" in
        let! rr := asset_sub reward (Asset v id) in
        let! d1 := deposit_market_fee_vesting_balance d referrer (Asset v id) in
        Ok (d1, rr)
      else Ok (d, reward)
    else Ok (d, reward)
  else Ok (d, reward).

Definition distribute_reward (d : database) (sel : account_object) (id : asset_id_type)
    (recv_asset : asset_object) (reward issuer_fees : asset) : result database :=
  let! ok := if head_block_time d <? HARDFORK_1774_TIME
             then asset_lt reward issuer_fees else asset_le reward issuer_fees in
  assert! ok @ "Market reward should not be greater than issuer fees" in
  let registrar := reward_receiver d (ac_registrar sel) in
  let referrer := reward_receiver d (ac_referrer sel) in
  let! (d1, registrar_reward) := pay_referrer_reward d sel registrar referrer id recv_asset reward in
  if 0 <? amount registrar_reward
  then deposit_market_fee_vesting_balance d1 registrar registrar_reward
  else Ok d1.

(** The reward of the trader's registrar and referrer; returns its amount. *)
Definition pay_market_reward (d : database) (seller : option account_object) (id : asset_id_type)
    (recv_asset : asset_object) (issuer_fees : asset) : result (database * asset) :=
  match seller, ao_reward_percent (as_options recv_asset) with
  | Some sel, Some reward_percent =>
      if shares_market_fees sel (as_options recv_asset) && (0 <? reward_percent) then
        let! reward_value := calculate_percent (amount issuer_fees) reward_percent in
        if 0 <? reward_value then
          let! registrar_acct := get_account d (ac_registrar sel) in
          if is_authorized_asset d (ac_registrar sel) registrar_acct id recv_asset then
            let! d1 := distribute_reward d sel id recv_asset (Asset reward_value id) issuer_fees in
            Ok (d1, Asset reward_value id)
          else Ok (d, Asset 0 id)
        else Ok (d, Asset 0 id)
      else Ok (d, Asset 0 id)
  | _, _ => Ok (d, Asset 0 id)
  end.

Definition pay_market_fees (d : database) (seller : option account_object) (id : asset_id_type)
    (recv_asset : asset_object) (receives : asset) (is_maker : bool)
    (calculated_market_fees : option asset) : result (database * asset) :=
  let! market_fees := match calculated_market_fees with
                      | Some f => Ok f
                      | None => calculate_market_fee id recv_asset receives is_maker
                      end in
  let! ok := asset_le market_fees receives in
  assert! ok @ "Market fee shouldn't be greater than receives" in
  let! (d1, issuer_fees) := pay_network_fee d id market_fees in
  if 0 <? amount issuer_fees then
    let! (d2, reward) := pay_market_reward d1 seller id recv_asset issuer_fees in
    if amount issuer_fees >? amount reward then
      let! dyn := get_dyn d2 id in
      let! part := safe_sub (amount issuer_fees) (amount reward) in
      let! total := safe_add (dd_accumulated_fees dyn) part in
      Ok (set_dyn d2 id (dyn <| dd_accumulated_fees := total |>), market_fees)
    else Ok (d2, market_fees)
  else Ok (d1, market_fees).
End Balances.
