(* ===== verification/Holdings.v ===== *)
(** Who holds the supply. [holdings] is the total that the test suite's
    [verify_asset_supplies] (tests/common/database_fixture.cpp) compares with the
    current supply of an asset, restricted to the object classes that are modelled;
    [excess] is the difference of the two, which every operation must leave alone.
    The lemmas give the effect of the primitive operations of [Database] as an
    exact update of the database together with what it does to the sums. *)
From S2P Require Import Prelude Records Fc Asset Objects CreditBooks Vesting Database.

(** 1 when the amount is one of asset [a]. *)
Definition ind (a i : asset_id_type) : Z := if i =? a then 1 else 0.

Definition asset_in (a : asset_id_type) (x : asset) : Z := ind a (asset_id x) * amount x.

(** ** The sums, class by class *)

Section Sums.
Variable a : asset_id_type.

Definition bal_sum (m : gmap (account_id_type * asset_id_type) account_balance_object) : Z :=
  msum (fun k b => ind a (k.2) * ab_balance b) m.

Definition pend_sum (m : gmap account_id_type account_statistics_object) : Z :=
  msum (fun _ s => ind a CORE * (st_pending_fees s + st_pending_vested_fees s)) m.

(** The asset in which the collateral fees of an asset are kept. *)
Definition backing (bas : gmap asset_id_type asset_bitasset_data_object) (i : asset_id_type) : Z :=
  match bas !! i with Some b => ind a (bo_short_backing_asset (ba_options b)) | None => 0 end.

Definition dyn_sum (bas : gmap asset_id_type asset_bitasset_data_object)
    (m : gmap asset_id_type asset_dynamic_data_object) : Z :=
  msum (fun i x => ind a i * (dd_accumulated_fees x + dd_confidential_supply x)
                   + ind a CORE * dd_fee_pool x
                   + backing bas i * dd_accumulated_collateral_fees x) m.

Definition bit_sum (bas : gmap asset_id_type asset_bitasset_data_object) : Z :=
  msum (fun _ b => ind a (bo_short_backing_asset (ba_options b))
                   * (ba_settlement_fund b + ba_individual_settlement_fund b)) bas.

Definition vest_sum (t : table vesting_balance_object) : Z :=
  tsum (fun _ v => asset_in a (vb_balance v)) t.

Definition ticket_sum (t : table ticket_object) : Z :=
  tsum (fun _ k => asset_in a (tk_amount k)) t.

Definition pool_sum (t : table liquidity_pool_object) : Z :=
  tsum (fun _ p => ind a (lp_asset_a p) * lp_balance_a p + ind a (lp_asset_b p) * lp_balance_b p) t.

Definition samet_sum (t : table samet_fund_object) : Z :=
  tsum (fun _ f => ind a (sf_asset_type f) * (sf_balance f - sf_unpaid_amount f)) t.

Definition offer_sum (t : table credit_offer_object) : Z :=
  tsum (fun _ o => ind a (co_asset_type o) * co_current_balance o) t.

Definition deal_sum (t : table credit_deal_object) : Z :=
  tsum (fun _ o => ind a (cd_collateral_asset o) * cd_collateral_amount o) t.

Definition htlc_sum (t : table htlc_object) : Z :=
  tsum (fun _ h => ind a (ht_asset_id h) * ht_amount h) t.

(** An order holds what it sells and the deferred fee, in the core asset and as paid;
    what the order of a settled debt sells is in the fund of the asset. *)
Definition order_sum (o : limit_order_object) : Z :=
  (if lo_is_settled_debt o then 0 else ind a (asset_id (base (lo_sell_price o))) * lo_for_sale o)
  + ind a CORE * lo_deferred_fee o + asset_in a (lo_deferred_paid_fee o).

Definition limit_sum (t : table limit_order_object) : Z := tsum (fun _ o => order_sum o) t.

(** The collateral of a margin position. *)
Definition call_sum (t : table call_order_object) : Z :=
  tsum (fun _ c => ind a (asset_id (base (ca_call_price c))) * ca_collateral c) t.

Definition settle_sum (t : table force_settlement_object) : Z :=
  tsum (fun _ s => asset_in a (fs_balance s)) t.

Definition bid_sum (t : table collateral_bid_object) : Z :=
  tsum (fun _ b => asset_in a (base (bd_inv_swan_price b))) t.

Definition vault_sum (v : option gold_reserve_vault_object) : Z :=
  match v with Some g => ind a (gv_debt_asset g) * gv_gold_pool_balance g | None => 0 end.

Definition holdings (d : database) : Z :=
  bal_sum (balances d) + pend_sum (account_stats d) + dyn_sum (bitassets d) (dyn_data d)
  + bit_sum (bitassets d) + vest_sum (vestings d) + ticket_sum (tickets d) + pool_sum (pools d)
  + samet_sum (samet_funds d) + offer_sum (credit_offers d) + deal_sum (credit_deals d)
  + htlc_sum (htlcs d) + limit_sum (limit_orders d)
  + call_sum (call_orders d) + settle_sum (settlements d) + bid_sum (collateral_bids d) + vault_sum (vault d) + ind a CORE * witness_budget d.

Definition supply_in (m : gmap asset_id_type asset_dynamic_data_object) : Z :=
  match m !! a with Some x => dd_current_supply x | None => 0 end.

Definition supply (d : database) : Z := supply_in (dyn_data d).

Definition excess (d : database) : Z := holdings d - supply d.

Lemma bal_sum_insert m k b :
  bal_sum (<[k := b]> m)
    = bal_sum m + ind a (k.2) * (ab_balance b - default 0 (ab_balance <$> m !! k)).
Proof.
  unfold bal_sum. rewrite msum_set. destruct (m !! k); cbn; lia.
Qed.

Lemma pend_sum_insert m i x y :
  m !! i = Some y ->
  pend_sum (<[i := x]> m) = pend_sum m
    + ind a CORE * (st_pending_fees x + st_pending_vested_fees x
                    - st_pending_fees y - st_pending_vested_fees y).
Proof. intros E. unfold pend_sum. rewrite (msum_insert _ m i y x E). lia. Qed.

Lemma dyn_sum_insert bas m i x y :
  m !! i = Some y ->
  dyn_sum bas (<[i := x]> m) = dyn_sum bas m
    + ind a i * (dd_accumulated_fees x + dd_confidential_supply x
                 - dd_accumulated_fees y - dd_confidential_supply y)
    + ind a CORE * (dd_fee_pool x - dd_fee_pool y)
    + backing bas i * (dd_accumulated_collateral_fees x - dd_accumulated_collateral_fees y).
Proof. intros E. unfold dyn_sum. rewrite (msum_insert _ m i y x E). lia. Qed.

Lemma supply_in_insert m i x y :
  m !! i = Some y ->
  supply_in (<[i := x]> m) = supply_in m + ind a i * (dd_current_supply x - dd_current_supply y).
Proof.
  intros E. unfold supply_in, ind. destruct (Z.eqb_spec i a) as [->|Hn].
  - rewrite lookup_insert_eq, E. lia.
  - rewrite lookup_insert_ne by done. lia.
Qed.
End Sums.
Arguments bal_sum : simpl never.
Arguments pend_sum : simpl never.
Arguments backing : simpl never.
Arguments dyn_sum : simpl never.
Arguments bit_sum : simpl never.
Arguments vest_sum : simpl never.
Arguments ticket_sum : simpl never.
Arguments pool_sum : simpl never.
Arguments samet_sum : simpl never.
Arguments offer_sum : simpl never.
Arguments deal_sum : simpl never.
Arguments htlc_sum : simpl never.
Arguments limit_sum : simpl never.
Arguments call_sum : simpl never.
Arguments settle_sum : simpl never.
Arguments bid_sum : simpl never.
Arguments supply_in : simpl never.
Arguments ind : simpl never.

(** An operation conserves the assets when no asset's excess changes. *)
Definition conserves (d d' : database) : Prop := forall a, excess a d' = excess a d.

#[export] Instance conserves_preorder : PreOrder conserves.
Proof. split; [done|]. intros x y z Hxy Hyz a. by rewrite Hyz, Hxy. Qed.

(** The balances of a pool are non-negative 64-bit amounts. *)
Definition pool_balances_ok (p : liquidity_pool_object) : Prop :=
  amount_ok (lp_balance_a p) /\ amount_ok (lp_balance_b p).

(** The part of [asset_options::validate] the market fees and the pools rely on. *)
Definition asset_options_ok (a : asset_object) : Prop :=
  0 <= ao_max_market_fee (as_options a)
  /\ ao_max_supply (as_options a) <= GRAPHENE_MAX_SHARE_SUPPLY.

(** What the evaluators rely on: every table hands out fresh ids, and the books of
    the credit offers agree. *)
Record db_wf (d : database) : Prop := {
  wf_accounts : table_wf (accounts d);
  wf_assets : table_wf (assets d);
  wf_vestings : table_wf (vestings d);
  wf_pools : table_wf (pools d);
  wf_credit_offers : table_wf (credit_offers d);
  wf_credit_deals : table_wf (credit_deals d);
  wf_credit_summaries : table_wf (credit_summaries d);
  wf_samet_funds : table_wf (samet_funds d);
  wf_htlcs : table_wf (htlcs d);
  wf_tickets : table_wf (tickets d);
  wf_permissions : table_wf (permissions d);
  wf_limit_orders : table_wf (limit_orders d);
  wf_call_orders : table_wf (call_orders d);
  wf_settlements : table_wf (settlements d);
  wf_collateral_bids : table_wf (collateral_bids d);
  wf_asset_options : tall asset_options_ok (assets d);
  wf_pool_balances : tall pool_balances_ok (pools d);
  wf_books : credit_books (credit_offers d) (credit_deals d) (credit_summaries d);
}.
#[export] Hint Resolve wf_accounts wf_assets wf_vestings wf_pools wf_credit_offers wf_credit_deals
  wf_credit_summaries wf_samet_funds wf_htlcs wf_tickets wf_permissions wf_limit_orders
  wf_call_orders wf_settlements wf_collateral_bids
  wf_asset_options wf_pool_balances wf_books : dfs.

(** Preservation of [db_wf] by an explicit update. *)
Ltac wf := 
  match goal with
  | |- db_wf _ => split; cbn; eauto 3 with dfs
  end.

(** Conservation by an explicit update: what is left is arithmetic on the sums. *)
Ltac sums :=
  unfold bal_sum, pend_sum, bit_sum, vest_sum, ticket_sum, pool_sum, samet_sum, offer_sum,
    deal_sum, htlc_sum, limit_sum, call_sum, settle_sum, bid_sum in *.

Ltac table_sums :=
  repeat first
    [ rewrite tsum_create by (cbn; eauto 3 with dfs)
    | erewrite tsum_modify by (cbn; eassumption)
    | erewrite tsum_remove by (cbn; eassumption) ].

(** ** The primitive operations *)

Section Primitives.
Context `{SafeInt64Laws}.

Definition balance_of (d : database) (o : account_id_type) (i : asset_id_type) : Z :=
  amount (get_balance d o i).

Lemma balance_of_lookup d o i :
  balance_of d o i = default 0 (ab_balance <$> balances d !! (o, i)).
Proof. unfold balance_of, get_balance. by destruct (balances d !! (o, i)). Qed.

(** Every stored balance is a non-negative 64-bit amount. *)
Definition balances_ok (d : database) : Prop :=
  map_Forall (fun _ b => amount_ok (ab_balance b)) (balances d).

Lemma balances_ok_of d o i : balances_ok d -> amount_ok (balance_of d o i).
Proof.
  intros Hok. rewrite balance_of_lookup. destruct (_ !! _) eqn:E; cbn; [by eapply Hok|].
  unfold amount_ok, INT64_MAX. lia.
Qed.

(** A successful adjustment only replaces the table of balances. *)
Lemma adjust_balance_frame d acc delta d' :
  adjust_balance d acc delta = Ok d' ->
  exists m, d' = d <| balances := m |>
    /\ (forall a, bal_sum a m = bal_sum a (balances d) + asset_in a delta)
    /\ (int64_range (amount delta) -> balances_ok d -> balances_ok d').
Proof.
  unfold adjust_balance, asset_in. destruct (Z.eqb_spec (amount delta) 0) as [E|E].
  { intros [= <-]. exists (balances d). split; [by destruct d|]. split; [intros; lia | done]. }
  unfold balances_ok, amount_ok. unfold_int64.
  destruct (balances d !! _) as [b|] eqn:Hb; intros; mon; safe_ints; subst.
  - eexists. split; [done|]. split.
    + intros a. rewrite bal_sum_insert. cbn. rewrite Hb. cbn. lia.
    + intros _ Hok. cbn. apply map_Forall_insert_2; [|done]. cbn.
      specialize (Hok _ _ Hb). cbn in Hok. unfold_int64.
      destruct (Z.ltb_spec (amount delta) 0); mon; safe_ints; lia.
  - eexists. split; [done|]. split.
    + intros a. rewrite bal_sum_insert. cbn. rewrite Hb. cbn. lia.
    + intros Hrange Hok. cbn. apply map_Forall_insert_2; [cbn; lia | done].
Qed.

(** What a successful adjustment does to the balances. *)
Lemma adjust_balance_value d acc delta d' : adjust_balance d acc delta = Ok d' ->
  forall o i, balance_of d' o i = balance_of d o i + (if o =? acc then asset_in i delta else 0).
Proof.
  intros E o i. rewrite !balance_of_lookup. unfold adjust_balance, asset_in, ind in *.
  destruct (Z.eqb_spec (amount delta) 0) as [Ez|Ez].
  { mon. rewrite Ez. case_match; lia. }
  destruct (Z.eqb_spec o acc) as [->|Ho], (Z.eqb_spec (asset_id delta) i) as [<-|Hi];
    (destruct (balances d !! (acc, asset_id delta)) as [b|] eqn:Hb; mon; safe_ints; subst; cbn;
     [ first [rewrite lookup_insert_eq; cbn; lia | rewrite lookup_insert_ne by congruence; lia] .. ]).
Qed.

(** The effect of a successful adjustment, and when one succeeds. *)
Lemma adjust_balance_exact d acc delta d' :
  balances_ok d -> adjust_balance d acc delta = Ok d' -> int64_range (amount delta) ->
  balance_of d' acc (asset_id delta) = balance_of d acc (asset_id delta) + amount delta
  /\ (forall o i, (o, i) <> (acc, asset_id delta) -> balance_of d' o i = balance_of d o i)
  /\ balances_ok d'.
Proof.
  intros Hok Hd' Hrange.
  split_and!; [| |by edestruct adjust_balance_frame as (m & -> & ? & ?); eauto].
  - rewrite !balance_of_lookup. unfold adjust_balance in Hd'.
    destruct (Z.eqb_spec (amount delta) 0) as [E|E]; [mon; lia|].
    destruct (balances d !! _) as [b|] eqn:Hb; mon; safe_ints; subst; cbn;
      rewrite lookup_insert_eq; cbn; lia.
  - intros o i Hne. rewrite !balance_of_lookup. unfold adjust_balance in Hd'.
    destruct (Z.eqb_spec (amount delta) 0) as [E|E]; [by mon|].
    destruct (balances d !! (acc, _)) as [b|] eqn:Hb; mon; safe_ints; subst; cbn;
      by rewrite lookup_insert_ne by congruence.
Qed.

Lemma adjust_balance_total d acc delta :
  balances_ok d -> int64_range (amount delta) ->
  0 <= balance_of d acc (asset_id delta) + amount delta <= INT64_MAX ->
  is_ok (adjust_balance d acc delta) = true.
Proof.
  intros Hok Hrange Hn. pose proof (balances_ok_of d acc (asset_id delta) Hok) as Hb.
  unfold adjust_balance, amount_ok in *. rewrite balance_of_lookup in *. unfold_int64.
  destruct (Z.eqb_spec (amount delta) 0) as [E|E]; [done|].
  destruct (balances d !! _) as [b|] eqn:Hd; cbn in *.
  - assert (is_ok (if amount delta <? 0 then
              let! need := safe_neg (amount delta) in
              assert! need <=? ab_balance b @ "Insufficient Balance" in Ok tt
             else Ok tt) = true) as Hn1.
    { destruct (Z.ltb_spec (amount delta) 0); [|done].
      rewrite safe_neg_exact by (unfold_int64; lia). cbn.
      by rewrite (proj2 (Z.leb_le _ _)) by lia. }
    apply is_ok_true in Hn1 as [? ->]. cbn. by rewrite safe_add_exact by (unfold_int64; lia).
  - by rewrite (proj2 (Z.ltb_lt _ _)) by lia.
Qed.

(** The functional behaviour of [adjust_balance] on every branch: it succeeds
    exactly when the resulting balance is a non-negative 64-bit number; then that
    is the new balance, no other balance of any account changes, and the stored
    balances stay non-negative. *)
Theorem adjust_balance_correct d (acc : account_id_type) (delta : asset) :
  balances_ok d -> int64_range (amount delta) ->
  let n := balance_of d acc (asset_id delta) + amount delta in
  (is_ok (adjust_balance d acc delta) = true <-> 0 <= n <= INT64_MAX)
  /\ (forall d', adjust_balance d acc delta = Ok d' ->
       balance_of d' acc (asset_id delta) = n
       /\ (forall o i, (o, i) <> (acc, asset_id delta) -> balance_of d' o i = balance_of d o i)
       /\ balances_ok d').
Proof.
  intros Hok Hrange. cbn zeta. split; [split|].
  - intros [d' Hd']%is_ok_true. destruct (adjust_balance_exact _ _ _ _ Hok Hd' Hrange) as (<- & _ & Hok').
    by apply balances_ok_of.
  - by apply adjust_balance_total.
  - intros d' Hd'. by apply adjust_balance_exact.
Qed.

(** A deposit into a vesting balance adds its amount to the table. *)
Lemma vbo_deposit_balance vbo now x vbo' :
  vbo_deposit vbo now x = Ok vbo' \/ vbo_deposit_vested vbo now x = Ok vbo' ->
  vb_owner vbo' = vb_owner vbo /\ vb_balance_type vbo' = vb_balance_type vbo
  /\ forall a, asset_in a (vb_balance vbo') = asset_in a (vb_balance vbo) + asset_in a x.
Proof.
  unfold vbo_deposit, vbo_deposit_vested, asset_in.
  intros [E|E]; mon; asset_ints; cbn; split_and!; try done; intros a;
    replace (asset_id x) with (asset_id (vb_balance vbo)); lia.
Qed.

(** [d'] is [d] with [x] added to its vesting balances. *)
Definition vested (d : database) (x : asset) (d' : database) : Prop :=
  exists t, d' = d <| vestings := t |>
    /\ (table_wf (vestings d) -> table_wf t
        /\ forall a, vest_sum a t = vest_sum a (vestings d) + asset_in a x).

Lemma vested_zero d x : amount x = 0 -> vested d x d.
Proof.
  intros E. exists (vestings d). split; [by destruct d|]. intros ?. split; [done|].
  intros. unfold asset_in. rewrite E. lia.
Qed.

Lemma vested_create d x v :
  vb_balance v = x -> vested d x (d <| vestings := tcreate (vestings d) v |>).
Proof.
  intros <-. eexists. split; [done|]. intros Hwf. split; [eauto with dfs|]. intros a.
  unfold vest_sum. by rewrite tsum_create.
Qed.

Lemma vested_modify d x id v v' :
  tfind (vestings d) id = Some v ->
  (forall a, asset_in a (vb_balance v') = asset_in a (vb_balance v) + asset_in a x) ->
  vested d x (d <| vestings := tmodify (vestings d) id v' |>).
Proof.
  intros Hv E. eexists. split; [done|]. intros Hwf. split; [eauto with dfs|]. intros a.
  unfold vest_sum. rewrite (tsum_modify _ _ _ _ _ Hv), E. lia.
Qed.

Lemma deposit_market_fee_vested d acc x d' :
  deposit_market_fee_vesting_balance d acc x = Ok d' -> vested d x d' /\ 0 <= amount x.
Proof.
  unfold deposit_market_fee_vesting_balance. intros. mon. split; [|done]. case_match; reflect_bools; mon.
  { by apply vested_zero. }
  case_match; mon; [|by apply vested_create].
  case_match. mon.
  match goal with E : tsearch _ _ = Some _ |- _ => apply tsearch_Some in E as [Hrow _] end.
  apply (vested_modify _ _ _ _ _ Hrow). intros a. by eapply vbo_deposit_balance; right.
Qed.

Lemma deposit_lazy_vested d ovbid x secs ty owner req d' r :
  deposit_lazy_vesting d ovbid x secs ty owner req = Ok (d', r) -> vested d x d'.
Proof.
  unfold deposit_lazy_vesting. intros. case_match; reflect_bools; mon.
  { by apply vested_zero. }
  case_match; mon; [|by apply vested_create].
  case_match; mon; [|by apply vested_create].
  eapply vested_modify; [done|]. intros a. eapply vbo_deposit_balance. case_match; [by left | by right].
Qed.

Lemma vested_excess d x d' :
  vested d x d' -> db_wf d -> db_wf d' /\ forall a, excess a d' = excess a d + asset_in a x.
Proof.
  intros (t & -> & Ht) Hwf. destruct (Ht (wf_vestings _ Hwf)) as [Hwf' Hsum]. split.
  - destruct Hwf. wf.
  - intros a. unfold excess, holdings, supply. cbn. rewrite Hsum. lia.
Qed.

Lemma set_dyn_excess d id x y :
  dyn_data d !! id = Some y ->
  dd_accumulated_collateral_fees x = dd_accumulated_collateral_fees y -> db_wf d ->
  db_wf (set_dyn d id x) /\ forall a, excess a (set_dyn d id x) = excess a d
    + ind a id * (dd_accumulated_fees x + dd_confidential_supply x - dd_current_supply x
                  - (dd_accumulated_fees y + dd_confidential_supply y - dd_current_supply y))
    + ind a CORE * (dd_fee_pool x - dd_fee_pool y).
Proof.
  intros Hy Hc Hwf. split; [destruct Hwf; wf|]. intros a.
  unfold excess, holdings, supply, set_dyn. cbn.
  rewrite (dyn_sum_insert _ _ _ _ _ _ Hy), (supply_in_insert _ _ _ _ _ Hy), Hc. lia.
Qed.

(** [paid d x d']: [x] has been credited somewhere in [d'], on top of [d]. *)
Definition paid (d : database) (x : asset) (d' : database) : Prop :=
  db_wf d -> db_wf d' /\ forall a, excess a d' = excess a d + asset_in a x.

Lemma vested_paid d x d' : vested d x d' -> paid d x d'.
Proof. intros Hv Hwf. by apply (vested_excess d x). Qed.

Lemma paid_nothing d i : paid d (Asset 0 i) d.
Proof. intros Hwf. split; [done|]. intros a. unfold asset_in. cbn. lia. Qed.

Lemma paid_trans d d1 d2 i m n k :
  paid d (Asset m i) d1 -> paid d1 (Asset n i) d2 -> k = m + n -> paid d (Asset k i) d2.
Proof.
  intros H1 H2 -> Hwf. destruct (H1 Hwf) as [Hwf1 E1]. destruct (H2 Hwf1) as [Hwf2 E2].
  split; [done|]. intros a. rewrite E2, E1. unfold asset_in. cbn. lia.
Qed.

Lemma pay_network_fee_paid d id fees d1 rest :
  pay_network_fee d id fees = Ok (d1, rest) -> asset_id fees = id -> 0 <= amount fees ->
  asset_id rest = id /\ 0 <= amount rest <= amount fees
  /\ paid d (Asset (amount fees - amount rest) id) d1.
Proof.
  unfold pay_network_fee. intros E <- Hf.
  assert (paid d (Asset (amount fees - amount fees) (asset_id fees)) d) as Hz.
  { rewrite Z.sub_diag. apply paid_nothing. }
  case_match; reflect_bools; mon; [|done].
  match goal with E : (if ?b then _ else _) = Ok _ |- _ => destruct b eqn:Hn end; mon; [|done].
  asset_ints.
  match goal with E : deposit_market_fee_vesting_balance _ _ _ = Ok _ |- _ =>
    apply deposit_market_fee_vested in E as [Hv _] end.
  split_and!; [done | lia | lia |].
  apply vested_paid in Hv. eapply paid_trans; [apply paid_nothing | exact Hv | lia].
Qed.

Lemma deposit_mfv_paid d acc x d' :
  deposit_market_fee_vesting_balance d acc x = Ok d' -> paid d x d'.
Proof. intros [Hv _]%deposit_market_fee_vested. by apply vested_paid. Qed.

Lemma pay_referrer_reward_paid d sel g f id ra reward d1 rest :
  pay_referrer_reward d sel g f id ra reward = Ok (d1, rest) -> asset_id reward = id ->
  0 <= amount reward ->
  asset_id rest = id /\ 0 <= amount rest
  /\ paid d (Asset (amount reward - amount rest) id) d1.
Proof.
  unfold pay_referrer_reward. intros E <- Hf.
  assert (asset_id reward = asset_id reward /\ 0 <= amount reward
          /\ paid d (Asset (amount reward - amount reward) (asset_id reward)) d) as Hz.
  { rewrite Z.sub_diag. split_and!; [done | done | apply paid_nothing]. }
  destruct (negb _); mon; [|done].
  destruct (0 <? r) eqn:Hv; mon; [|done].
  destruct (is_authorized_asset _ _ _ _ _); mon; [|done].
  asset_ints. split_and!; [done | lia |].
  eapply paid_trans; [apply paid_nothing | by eapply deposit_mfv_paid | lia].
Qed.

Lemma distribute_reward_paid d sel id ra reward fees d' :
  distribute_reward d sel id ra reward fees = Ok d' -> asset_id reward = id -> 0 <= amount reward ->
  amount reward <= amount fees /\ paid d reward d'.
Proof.
  unfold distribute_reward. intros E Hid Hr. mon.
  assert (amount reward <= amount fees).
  { destruct (_ <? HARDFORK_1774_TIME); asset_ints; subst; reflect_bools; lia. }
  split; [done|].
  match goal with p : (database * asset)%type |- _ => destruct p as [d1 left_over] end.
  match goal with E : pay_referrer_reward _ _ _ _ _ _ _ = Ok _ |- _ =>
    apply pay_referrer_reward_paid in E as (Hi & Hn & Hp); [|done..] end.
  assert (reward = Asset (amount reward) id) as Hre by (destruct reward; cbn in *; by subst).
  rewrite Hre. destruct (Z.ltb_spec 0 (amount left_over)).
  - apply deposit_mfv_paid in E. destruct left_over as [n j]. cbn in *. subst j.
    eapply paid_trans; [exact Hp | exact E | lia].
  - mon. by replace (amount reward) with (amount reward - amount left_over) by lia.
Qed.

Lemma pay_market_reward_paid d sel id ra fees d1 reward :
  pay_market_reward d sel id ra fees = Ok (d1, reward) -> 0 <= amount fees ->
  asset_id reward = id /\ amount reward <= amount fees /\ paid d reward d1.
Proof.
  unfold pay_market_reward. intros E Hf.
  assert (asset_id (Asset 0 id) = id /\ amount (Asset 0 id) <= amount fees
          /\ paid d (Asset 0 id) d) as Hz by (split_and!; [done | done | apply paid_nothing]).
  destruct sel as [sel|]; [|by mon]. destruct (ao_reward_percent _); [|by mon].
  destruct (_ && _); [|by mon]. mon. destruct (0 <? r) eqn:Hv; [|by mon]. mon.
  destruct (is_authorized_asset _ _ _ _ _); [|by mon]. mon.
  match goal with E : distribute_reward _ _ _ _ _ _ = Ok _ |- _ =>
    apply distribute_reward_paid in E as [Hle Hp]; [| reflexivity | cbn; lia] end.
  split; [reflexivity|]. split; [exact Hle | exact Hp].
Qed.

Lemma calculate_percent_nonneg v p r : calculate_percent v p = Ok r -> 0 <= r.
Proof.
  unfold calculate_percent, GRAPHENE_MAX_SHARE_SUPPLY, GRAPHENE_100_PERCENT. intros. mon.
  assert (0 <= u128 (u128 v * p) / 10000) by (apply Z.div_pos; [apply u128_bound | lia]).
  rewrite to_int64_small by (unfold_int64; lia). done.
Qed.

Lemma calculate_market_fee_nonneg id ra x mk f :
  calculate_market_fee id ra x mk = Ok f -> 0 <= ao_max_market_fee (as_options ra) -> 0 <= amount f.
Proof.
  unfold calculate_market_fee. intros E Hm.
  do 3 (match type of E with (if ?b then _ else _) = _ => destruct b end; [by mon|]).
  mon. cbn. match goal with E : calculate_percent _ _ = Ok _ |- _ =>
    apply calculate_percent_nonneg in E end. by destruct (_ >? _).
Qed.

Lemma accumulate_paid d id y n :
  dyn_data d !! id = Some y ->
  paid d (Asset n id) (set_dyn d id (y <| dd_accumulated_fees := dd_accumulated_fees y + n |>)).
Proof.
  intros Hy Hwf. eapply set_dyn_excess in Hwf as [Hwf E]; [| exact Hy | shelve]. split; [exact Hwf|].
  intros a. rewrite E. unfold asset_in. cbn. lia.
  Unshelve. done.
Qed.

Lemma pay_market_fees_ok d seller id ra receives is_maker calc d' fees :
  db_wf d ->
  (forall f, calc = Some f -> 0 <= amount f) -> 0 <= ao_max_market_fee (as_options ra) ->
  pay_market_fees d seller id ra receives is_maker calc = Ok (d', fees) ->
  asset_id receives = id ->
  asset_id fees = id /\ 0 <= amount fees <= amount receives
  /\ db_wf d' /\ forall a, excess a d' = excess a d + asset_in a fees.
Proof.
  intros Hwf Hcalc Hmax Hrun Hid. unfold pay_market_fees in Hrun. mon. asset_ints.
  rename r into mf. assert (0 <= amount mf) as Hmf.
  { destruct calc as [f|]; mon; [by apply Hcalc|].
    match goal with E : calculate_market_fee _ _ _ _ = Ok _ |- _ =>
      by apply calculate_market_fee_nonneg in E end. }
  match goal with p : (database * asset)%type |- _ => destruct p as [d1 issuer_fees] end.
  match goal with E : pay_network_fee _ _ _ = Ok _ |- _ =>
    apply pay_network_fee_paid in E as (Hi & Hn & Hp); [|congruence | done] end.
  enough (fees = mf /\ paid d (Asset (amount mf) id) d') as [-> Hpaid].
  { replace (Asset (amount mf) id) with mf in Hpaid by (destruct mf; cbn in *; congruence).
    split_and!; [congruence | done | lia | by apply Hpaid..]. }
  destruct (0 <? amount issuer_fees) eqn:Hpos; reflect_bools.
  2:{ mon. split; [done|]. eapply paid_trans; [exact Hp | apply paid_nothing | lia]. }
  mon. match goal with p : (database * asset)%type |- _ => destruct p as [d2 reward] end.
  match goal with E : pay_market_reward _ _ _ _ _ = Ok _ |- _ =>
    apply pay_market_reward_paid in E as (Hri & Hrn & Hrp); [|lia] end.
  destruct reward as [rw ri]. cbn in Hri, Hrn, Hrp, Hrun. subst ri.
  assert (paid d (Asset (amount mf - amount issuer_fees + rw) id) d2) as Hp2
    by (by eapply paid_trans).
  destruct (amount issuer_fees >? rw) eqn:Hgt; reflect_bools.
  2:{ mon. split; [done|]. eapply paid_trans; [exact Hp2 | apply paid_nothing | lia]. }
  unfold get_dyn in *. mon. safe_ints. subst. split; [done|].
  eapply paid_trans; [exact Hp2 | by apply accumulate_paid | lia].
Qed.

(** Market fees are distributed exactly: what the network, the referrer, the
  registrar and the issuer's accumulated fees receive together is the market fee
  that was charged, which is between zero and the amount received; nothing is
  created and nothing is lost on any of the branches. *)
Theorem pay_market_fees_exact d seller id ra receives is_maker calc d' fees :
  db_wf d ->
  (forall f, calc = Some f -> 0 <= amount f) -> 0 <= ao_max_market_fee (as_options ra) ->
  pay_market_fees d seller id ra receives is_maker calc = Ok (d', fees) ->
  asset_id receives = id ->
  asset_id fees = id /\ 0 <= amount fees <= amount receives
  /\ db_wf d' /\ forall a, excess a d' = excess a d + asset_in a fees.
Proof. apply pay_market_fees_ok. Qed.

(** Where market fees go: nothing but the vesting balances and the accumulated
  fees of assets changes. *)
Definition fees_frame (d d' : database) : Prop :=
  exists t dd, d' = d <| vestings := t |> <| dyn_data := dd |>
    /\ forall a, supply_in a dd = supply_in a (dyn_data d).

#[export] Instance fees_frame_preorder : PreOrder fees_frame.
Proof.
  split.
  - intros d. exists (vestings d), (dyn_data d). by destruct d.
  - intros d0 d1 d2 (t1 & dd1 & -> & H1) (t2 & dd2 & -> & H2). exists t2, dd2.
    split; [done|]. intros a. rewrite H2. apply H1.
Qed.

Lemma vested_frame d x d' : vested d x d' -> fees_frame d d'.
Proof. intros (t & -> & _). exists t, (dyn_data d). by destruct d. Qed.

Lemma deposit_mfv_frame d acc x d' :
  deposit_market_fee_vesting_balance d acc x = Ok d' -> fees_frame d d'.
Proof. intros [Hv _]%deposit_market_fee_vested. by eapply vested_frame. Qed.

Lemma pay_referrer_reward_frame d sel g f id ra reward d1 rest :
  pay_referrer_reward d sel g f id ra reward = Ok (d1, rest) -> fees_frame d d1.
Proof.
  unfold pay_referrer_reward. intros E. repeat (case_match; mon); try done.
  by eapply deposit_mfv_frame.
Qed.

Ltac frame_step :=
  match goal with
  | E : deposit_market_fee_vesting_balance _ _ _ = Ok _ |- _ => apply deposit_mfv_frame in E
  | E : pay_referrer_reward _ _ _ _ _ _ _ = Ok (_, _) |- _ => apply pay_referrer_reward_frame in E
  | p : (database * asset)%type |- _ => destruct p
  end.

Lemma pay_network_fee_frame d id fees d1 rest :
  pay_network_fee d id fees = Ok (d1, rest) -> fees_frame d d1.
Proof.
  unfold pay_network_fee. intros E. case_match; mon; [|done].
  match goal with E : (if ?b then _ else _) = Ok _ |- _ => destruct b end; mon; [|done].
  by frame_step.
Qed.

Lemma distribute_reward_frame d sel id ra reward fees d' :
  distribute_reward d sel id ra reward fees = Ok d' -> fees_frame d d'.
Proof.
  unfold distribute_reward. intros E. mon. repeat frame_step. case_match; mon; [|done].
  frame_step. by etrans.
Qed.

Lemma pay_market_reward_frame d sel id ra fees d1 reward :
  pay_market_reward d sel id ra fees = Ok (d1, reward) -> fees_frame d d1.
Proof.
  unfold pay_market_reward. intros E. destruct sel; [|by mon]. destruct (ao_reward_percent _); [|by mon].
  destruct (_ && _); [|by mon]. mon. destruct (0 <? r); [|by mon]. mon.
  destruct (is_authorized_asset _ _ _ _ _); [|by mon]. mon. by eapply distribute_reward_frame.
Qed.

Lemma pay_market_fees_returns d seller id ra receives mk f d' fees :
  pay_market_fees d seller id ra receives mk (Some f) = Ok (d', fees) -> fees = f.
Proof.
  unfold pay_market_fees. intros E. mon. frame_step. destruct (0 <? amount _); mon; [|done].
  frame_step. destruct (_ >? _); by mon.
Qed.

Lemma pay_market_fees_frame d seller id ra receives mk calc d' fees :
  pay_market_fees d seller id ra receives mk calc = Ok (d', fees) -> fees_frame d d'.
Proof.
  unfold pay_market_fees, get_dyn. intros E. mon. frame_step.
  match goal with E : pay_network_fee _ _ _ = Ok _ |- _ => apply pay_network_fee_frame in E as F1 end.
  destruct (0 <? amount _); mon; [|done]. frame_step.
  match goal with E : pay_market_reward _ _ _ _ _ = Ok _ |- _ => apply pay_market_reward_frame in E as F2 end.
  destruct (_ >? _); mon; [|by etrans]. etrans; [exact F1|]. etrans; [exact F2|].
  match goal with E : dyn_data ?d !! _ = Some ?y |- fees_frame ?d (set_dyn _ _ ?x) =>
    exists (vestings d), (<[id := x]> (dyn_data d)); rename E into Hy end.
  split; [done|]. intros b. rewrite (supply_in_insert _ _ _ _ _ Hy). cbn. lia.
Qed.

End Primitives.
