(* ===== verification/Sample.v ===== *)
(** A small concrete chain state: eight accounts, the core asset, a user-issued
    asset and the share asset of a pool between them. The witnesses of the theorems
    about the database run on it. *)
From S2P Require Import Prelude Records Fc Asset Objects CreditBooks Vesting Database Holdings.

Definition sample_account : account_object :=
  AccountObject 5 6 6 (2 ^ 32 - 1) 2000 3000 5000 ∅ ∅ ∅ ∅ None None ∅.

Definition sample_stats : account_statistics_object := AccountStatistics 0 0 0 0 0 0 false 0 0 0 0.

Definition sample_options (flags : Z) (cer_quote : asset_id_type) : asset_options :=
  AssetOptions 1000000000000 100 1000000 0 flags (Price (Asset 2 cer_quote) (Asset 1 CORE))
    ∅ ∅ ∅ ∅ (Some 5000) None None.

Definition sample_asset (name : string) (issuer flags id : Z) (pool : option Z) : asset_object :=
  AssetObject name 5 issuer (sample_options flags id) false pool 1.

Definition sample_params : chain_parameters :=
  ChainParameters 5 1000 31536000 100000000 86400 (Some (HtlcOptions 2592000 1024)) 1 1 1000000 50000000000 2000 200 200.

(** Account 5 is the registrar and account 6 the referrer of everyone; accounts 5
    to 7 hold 1,000,000 of the core asset and of asset 1 each. *)
Definition sample_db : database :=
  Database 1800000000 1000 1800003600 sample_params 0 0 0
    (table_from (replicate 8 sample_account))
    (list_to_map (map (fun i => (i, sample_stats)) [0; 1; 2; 3; 4; 5; 6; 7]))
    (list_to_map [((5, 0), AccountBalance 1000000 true); ((6, 0), AccountBalance 1000000 true);
                  ((7, 0), AccountBalance 1000000 true); ((5, 1), AccountBalance 1000000 false);
                  ((6, 1), AccountBalance 1000000 false); ((7, 1), AccountBalance 1000000 false)])
    (table_from [sample_asset "DFS" 3 0 1 None; sample_asset "USD" 5 1 1 None;
                 sample_asset "LP" 5 0 2 None])
    (list_to_map [(0, AssetDynamicData 3000000 0 0 0 0); (1, AssetDynamicData 3000000 0 0 0 0);
                  (2, AssetDynamicData 0 0 0 0 0)])
    ∅ empty_table empty_table empty_table empty_table empty_table empty_table empty_table empty_table
    empty_table empty_table empty_table empty_table empty_table empty_table empty_table 0 [] None [].

Lemma empty_table_wf {A} : table_wf (@empty_table A).
Proof. apply (table_from_wf []). Qed.

Lemma empty_tall {A} (P : A -> Prop) : tall P empty_table.
Proof. apply map_Forall_empty. Qed.

Lemma empty_books : credit_books empty_table empty_table empty_table.
Proof.
  assert (forall A id x, rows (@empty_table A) !! id = Some x -> False) as Hno.
  { intros A id x. unfold empty_table. cbn. by rewrite lookup_empty. }
  split; split; intros; exfalso; eauto.
Qed.

Lemma sample_db_wf : db_wf sample_db.
Proof.
  split; cbn -[table_from]; first
    [ apply table_from_wf | apply empty_table_wf | apply empty_tall | apply empty_books | idtac ].
  apply table_from_all. repeat constructor; unfold asset_options_ok, GRAPHENE_MAX_SHARE_SUPPLY; cbn; lia.
Qed.

Lemma sample_db_balances : balances_ok sample_db.
Proof.
  intros k b Hk. apply elem_of_list_to_map_2 in Hk. cbn in Hk.
  unfold amount_ok, INT64_MAX. set_unfold in Hk.
  destruct_or!; simplify_eq; cbn; lia.
Qed.

(** In the sample state the holdings account for the whole supply. *)
Example sample_db_balanced : map (fun a => excess a sample_db) [0; 1; 2] = [0; 0; 0].
Proof. vm_compute. reflexivity. Qed.

Lemma adjust_balance_correct_witness :
  exists d', adjust_balance sample_db 6 (Asset (-1000) 1) = Ok d' /\ balance_of d' 6 1 = 999000.
Proof.
  pose proof (adjust_balance_correct sample_db 6 (Asset (-1000) 1) sample_db_balances
                ltac:(unfold_int64; cbn; lia)) as [[_ Hok] Hval].
  apply is_ok_true in Hok as [d' Hd']; [|vm_compute; split; discriminate].
  exists d'. split; [exact Hd'|]. destruct (Hval d' Hd') as [E _]. etrans; [exact E|]. vm_compute. reflexivity.
Defined.

Lemma pay_market_fees_exact_witness :
  exists d', pay_market_fees sample_db (Some sample_account) 1 (sample_asset "USD" 5 1 1 None)
               (Asset 500000 1) true None = Ok (d', Asset 5000 1)
    /\ forall a, excess a d' = excess a sample_db + asset_in a (Asset 5000 1).
Proof.
  eexists. assert (pay_market_fees sample_db (Some sample_account) 1 (sample_asset "USD" 5 1 1 None)
               (Asset 500000 1) true None = Ok _) as E by (vm_compute; reflexivity).
  split; [exact E|].
  eapply pay_market_fees_exact in E as (_ & _ & _ & Hx);
    [exact Hx | exact sample_db_wf | discriminate | vm_compute; discriminate | reflexivity].
Defined.

(** Decides a closed goal by evaluation. *)
Ltac evaluate_goal := vm_compute; repeat split; first [reflexivity | discriminate].
