(* ===== verification/Fees.v ===== *)
(** Operation fees: the account statistics that collect them and pay them out
    ([account_object.cpp]). [pay_fee] files a fee as pending; [process_fees], called
    at maintenance, splits the pending fees between the network, the lifetime
    referrer, the referrer and the registrar. *)
From S2P Require Import Prelude Records Fc Asset Objects Vesting Database Holdings Sample.

Definition is_basic_account (now : time_point_sec) (a : account_object) : bool :=
  now >? ac_membership_expiration_date a.

(** The result of [cut_fee] goes through [uint64_t]. *)
Definition cut_fee (a : share_type) (p : Z) : share_type :=
  if (a =? 0) || (p =? 0) then 0
  else if p =? GRAPHENE_100_PERCENT then a
  else to_int64 (u64 (u128 (u128 a * p) / GRAPHENE_100_PERCENT)).

Section Fees.
Context `{SafeInt64}.

Definition stats_pay_fee (s : account_statistics_object) (core_fee threshold : share_type)
    : result account_statistics_object :=
  if core_fee >? threshold then
    let! x := safe_add (st_pending_fees s) core_fee in
    Ok (s <| st_pending_fees := x |>)
  else
    let! x := safe_add (st_pending_vested_fees s) core_fee in
    Ok (s <| st_pending_vested_fees := x |>).

(** The network's, the lifetime referrer's, the referrer's and the registrar's
    part of a fee. *)
Definition fee_split (a : account_object) (core_fee_total : share_type)
    : result (share_type * share_type * share_type * share_type) :=
  let network_cut := cut_fee core_fee_total (ac_network_fee_percentage a) in
  let lifetime_cut := cut_fee core_fee_total (ac_lifetime_referrer_fee_percentage a) in
  let! x := safe_sub core_fee_total network_cut in
  let! referral := safe_sub x lifetime_cut in
  let referrer_cut := cut_fee referral (ac_referrer_rewards_percentage a) in
  let! registrar_cut := safe_sub referral referrer_cut in
  Ok (network_cut, lifetime_cut, referrer_cut, registrar_cut).

(** If the referrer is no longer a member, the lifetime referrer takes over. *)
Definition refresh_referrer (d : database) (id : account_id_type) : result database :=
  let! a := get_account d id in
  let! ref := get_account d (ac_referrer a) in
  if is_basic_account (head_block_time d) ref
  then Ok (d <| accounts := tmodify (accounts d) id (a <| ac_referrer := ac_lifetime_referrer a |>) |>)
  else Ok d.

Definition pay_out_fees (d : database) (id : account_id_type) (core_fee_total : share_type)
    (require_vesting : bool) : result database :=
  let! d := refresh_referrer d id in
  let! a := get_account d id in
  let! (network_cut, lifetime_cut, referrer_cut, registrar_cut) := fee_split a core_fee_total in
  let! dyn := get_dyn d CORE in
  let! acc := safe_add (dd_accumulated_fees dyn) network_cut in
  let d := set_dyn d CORE (dyn <| dd_accumulated_fees := acc |>) in
  let! d := deposit_cashback d (ac_lifetime_referrer a) lifetime_cut require_vesting in
  let! d := deposit_cashback d (ac_referrer a) referrer_cut require_vesting in
  deposit_cashback d (ac_registrar a) registrar_cut require_vesting.

Definition process_fees (d : database) (id : account_id_type) : result database :=
  let! s := get_stats d id in
  if (0 <? st_pending_fees s) || (0 <? st_pending_vested_fees s) then
    let! d := pay_out_fees d id (st_pending_fees s) true in
    let! s := get_stats d id in
    let! d := pay_out_fees d id (st_pending_vested_fees s) false in
    let! s := get_stats d id in
    let! paid := safe_add (st_pending_fees s) (st_pending_vested_fees s) in
    let! total := safe_add (st_lifetime_fees_paid s) paid in
    Ok (d <| account_stats ::= <[id := s <| st_lifetime_fees_paid := total |>
                                         <| st_pending_fees := 0 |>
                                         <| st_pending_vested_fees := 0 |>]> |>)
  else Ok d.
End Fees.

(** ** Lemmas *)

Section FeeLemmas.
Context `{SafeInt64Laws}.

Lemma cut_fee_exact a p :
  amount_ok a -> 0 <= p <= GRAPHENE_100_PERCENT -> cut_fee a p = a * p / GRAPHENE_100_PERCENT.
Proof.
  unfold cut_fee, amount_ok, INT64_MAX, GRAPHENE_100_PERCENT. intros Ha Hp.
  destruct (Z.eqb_spec a 0) as [->|]; [done|].
  destruct (Z.eqb_spec p 0) as [->|]; [by rewrite !Z.mul_0_r|].
  cbn [orb]. destruct (Z.eqb_spec p 10000) as [->|]; [rewrite Z.div_mul by lia; done|].
  rewrite (u128_small a) by lia. rewrite u128_small by nia.
  assert (0 <= a * p / 10000 <= a).
  { split; [apply Z.div_pos; nia | apply Z.div_le_upper_bound; nia]. }
  unfold u64. rewrite Z.mod_small by lia. apply to_int64_small. unfold_int64. lia.
Qed.

Lemma cut_fee_bounds a p :
  amount_ok a -> 0 <= p <= GRAPHENE_100_PERCENT -> 0 <= cut_fee a p <= a.
Proof.
  intros Ha Hp. rewrite cut_fee_exact by done. unfold amount_ok, GRAPHENE_100_PERCENT in *.
  split; [apply Z.div_pos; nia | apply Z.div_le_upper_bound; nia].
Qed.

Lemma fee_split_sum a t n l f g :
  fee_split a t = Ok (n, l, f, g) -> n + l + f + g = t.
Proof. unfold fee_split. intros. mon. safe_ints. lia. Qed.

(** What paying out leaves in place of an account's statistics. *)
Definition stats_kept (d d' : database) : Prop :=
  forall i s, account_stats d !! i = Some s ->
    exists s', account_stats d' !! i = Some s'
      /\ st_pending_fees s' = st_pending_fees s
      /\ st_pending_vested_fees s' = st_pending_vested_fees s
      /\ st_lifetime_fees_paid s' = st_lifetime_fees_paid s.

#[local] Instance stats_kept_preorder : PreOrder stats_kept.
Proof.
  split; [intros d i s E; by exists s|].
  intros x y z Hxy Hyz i s Hs. destruct (Hxy i s Hs) as (s1 & Hs1 & ? & ? & ?).
  destruct (Hyz i s1 Hs1) as (s2 & Hs2 & ? & ? & ?). exists s2. split_and!; congruence.
Qed.

Lemma stats_kept_same d d' : account_stats d' = account_stats d -> stats_kept d d'.
Proof. intros E i s. rewrite E. intros. by exists s. Qed.

Lemma deposit_cashback_paid d acc n rv d' :
  deposit_cashback d acc n rv = Ok d' -> paid d (Asset n CORE) d' /\ stats_kept d d'.
Proof.
  unfold deposit_cashback. intros E.
  destruct (Z.eqb_spec n 0) as [->|]; [mon; split; [apply paid_nothing | done]|].
  destruct (_ || _ || _ || _ || _).
  - unfold get_dyn in E. mon. safe_ints. subst. split; [|by apply stats_kept_same]. intros Hwf.
    eapply set_dyn_excess in Hwf as [Hwf Ex]; [| eassumption | shelve]. split; [exact Hwf|].
    intros a. rewrite Ex. unfold asset_in. cbn. lia.
    Unshelve. done.
  - unfold get_account, get_stats in E. mon.
    match goal with p : (database * option Z)%type |- _ => destruct p as [d1 vb] end.
    match goal with E : deposit_lazy_vesting _ _ _ _ _ _ _ = Ok _ |- _ =>
      apply deposit_lazy_vested in E as Hv end.
    pose proof (vested_paid _ _ _ Hv) as Hp. destruct Hv as (t & -> & _).
    destruct vb as [vid|]; mon; [|by split; [exact Hp | apply stats_kept_same]]. split.
    + intros Hwf. destruct (Hp Hwf) as [Hwf1 Ex]. split.
      * destruct Hwf1. cbn in *. wf.
      * intros a. rewrite <- Ex. unfold excess, holdings, supply. cbn.
        erewrite pend_sum_insert by eassumption. cbn. lia.
    + intros i s Hs. cbn. destruct (Z.eq_dec i acc) as [->|].
      * rewrite lookup_insert_eq. eexists. split; [done|]. cbn in *.
        match goal with E : account_stats _ !! acc = Some ?x |- _ =>
          assert (s = x) as -> by congruence end. done.
      * rewrite lookup_insert_ne by done. by exists s.
Qed.

Lemma refresh_referrer_paid d id d' :
  refresh_referrer d id = Ok d' -> paid d (Asset 0 CORE) d' /\ stats_kept d d'.
Proof.
  unfold refresh_referrer, get_account. intros. mon.
  destruct (is_basic_account _ _); mon; [|split; [apply paid_nothing | done]].
  split; [|by apply stats_kept_same]. intros Hwf. split.
  - destruct Hwf. wf.
  - intros a. unfold excess, holdings, supply, asset_in. cbn. lia.
Qed.

Lemma pay_out_fees_paid d id n rv d' :
  pay_out_fees d id n rv = Ok d' -> paid d (Asset n CORE) d' /\ stats_kept d d'.
Proof.
  unfold pay_out_fees, get_account, get_dyn. intros. mon.
  match goal with p : (_ * _ * _ * _)%type |- _ => destruct p as [[[nw lt] rf] rg] end. mon. safe_ints. subst.
  repeat match goal with
  | E : fee_split _ _ = Ok _ |- _ => apply fee_split_sum in E as Hsum; clear E
  | E : refresh_referrer _ _ = Ok _ |- _ => apply refresh_referrer_paid in E as [Hp1 Hs1]
  | E : deposit_cashback _ _ rf _ = Ok _ |- _ => apply deposit_cashback_paid in E as [Hp3 Hs3]
  | E : deposit_cashback _ _ lt _ = Ok _ |- _ => apply deposit_cashback_paid in E as [Hp2 Hs2]
  | E : deposit_cashback _ _ rg _ = Ok _ |- _ => apply deposit_cashback_paid in E as [Hp4 Hs4]
  end.
  split.
  - eapply paid_trans; [|exact Hp4|]; [eapply paid_trans; [|exact Hp3|reflexivity]|].
    + eapply paid_trans; [|exact Hp2|reflexivity].
      eapply paid_trans; [exact Hp1 | by apply accumulate_paid | reflexivity].
    + lia.
  - etrans; [exact Hs1|]. etrans; [|exact Hs4]. etrans; [|exact Hs3].
    etrans; [|exact Hs2]. by apply stats_kept_same.
Qed.
End FeeLemmas.

(** ** Main properties *)

Section FeeTheorems.
Context `{SafeInt64Laws}.

(** A fee is split without loss: with percentages of at most 100% (and the
    network's and the lifetime referrer's together at most 100%) the computation
    succeeds, the four parts are non-negative and add up to the fee, the network
    and the lifetime referrer get their percentage rounded down and the registrar
    what the referrer leaves. *)
Theorem fee_split_exact (a : account_object) (t : share_type) :
  amount_ok t ->
  0 <= ac_network_fee_percentage a -> 0 <= ac_lifetime_referrer_fee_percentage a ->
  ac_network_fee_percentage a + ac_lifetime_referrer_fee_percentage a <= GRAPHENE_100_PERCENT ->
  0 <= ac_referrer_rewards_percentage a <= GRAPHENE_100_PERCENT ->
  exists f g,
    let n := t * ac_network_fee_percentage a / GRAPHENE_100_PERCENT in
    let l := t * ac_lifetime_referrer_fee_percentage a / GRAPHENE_100_PERCENT in
    fee_split a t = Ok (n, l, f, g)
    /\ 0 <= n /\ 0 <= l /\ 0 <= f /\ 0 <= g /\ n + l + f + g = t
    /\ f = (t - n - l) * ac_referrer_rewards_percentage a / GRAPHENE_100_PERCENT.
Proof.
  intros Ht Hn Hl Hnl Hf. unfold fee_split.
  rewrite !(cut_fee_exact t) by (done || lia).
  assert (0 <= t * ac_network_fee_percentage a / GRAPHENE_100_PERCENT
          /\ 0 <= t * ac_lifetime_referrer_fee_percentage a / GRAPHENE_100_PERCENT
          /\ t * ac_network_fee_percentage a / GRAPHENE_100_PERCENT
             + t * ac_lifetime_referrer_fee_percentage a / GRAPHENE_100_PERCENT <= t) as (Hn0 & Hl0 & Hs).
  { unfold amount_ok, GRAPHENE_100_PERCENT in *.
    pose proof (div_mul_le (t * ac_network_fee_percentage a) 10000 ltac:(lia)).
    pose proof (div_mul_le (t * ac_lifetime_referrer_fee_percentage a) 10000 ltac:(lia)).
    split_and!; [apply Z.div_pos; nia | apply Z.div_pos; nia | nia]. }
  set (n := t * ac_network_fee_percentage a / _) in *.
  set (l := t * ac_lifetime_referrer_fee_percentage a / _) in *. cbn zeta.
  unfold amount_ok in *.
  rewrite safe_sub_exact by (unfold_int64; lia). cbn [rbind].
  rewrite safe_sub_exact by (unfold_int64; lia). cbn [rbind].
  assert (amount_ok (t - n - l)) as Hr by (unfold amount_ok; lia).
  pose proof (cut_fee_bounds _ _ Hr Hf). rewrite cut_fee_exact in * by done.
  rewrite safe_sub_exact by (unfold_int64; lia). cbn [rbind].
  do 2 eexists. split; [done|]. split_and!; lia.
Qed.

(** Processing the pending fees of an account pays out exactly what was
    pending: no asset is created or destroyed, the pending amounts become zero and
    are recorded as paid. *)
Theorem process_fees_exact d (id : account_id_type) s d' :
  db_wf d -> account_stats d !! id = Some s ->
  0 <= st_pending_fees s -> 0 <= st_pending_vested_fees s ->
  process_fees d id = Ok d' ->
  conserves d d' /\ db_wf d'
  /\ exists s', account_stats d' !! id = Some s'
      /\ st_pending_fees s' = 0 /\ st_pending_vested_fees s' = 0
      /\ st_lifetime_fees_paid s'
         = st_lifetime_fees_paid s + st_pending_fees s + st_pending_vested_fees s.
Proof.
  intros Hwf Hs H1 H2 Hrun. unfold process_fees, get_stats in Hrun. rewrite Hs in Hrun. cbn [of_option rbind] in Hrun.
  destruct ((0 <? st_pending_fees s) || (0 <? st_pending_vested_fees s)) eqn:Hp; reflect_bools.
  2:{ mon. split; [done|]. split; [done|]. exists s. split_and!; [done | lia..]. }
  mon. safe_ints. subst.
  repeat match goal with
  | E : pay_out_fees d _ _ _ = Ok _ |- _ => apply pay_out_fees_paid in E as [Hp1 Hk1]
  | E : pay_out_fees _ _ _ _ = Ok _ |- _ => apply pay_out_fees_paid in E as [Hp2 Hk2]
  end.
  destruct (Hk1 id s Hs) as (s1 & Hs1 & E1 & E2 & E3). 
  match goal with E : account_stats r !! id = Some ?x |- _ => assert (x = s1) as -> by congruence end.
  destruct (Hk2 id s1 Hs1) as (s2 & Hs2 & E4 & E5 & E6).
  match goal with E : account_stats r1 !! id = Some ?x |- _ => assert (x = s2) as -> by congruence end.
  destruct (Hp1 Hwf) as [Hwf1 Ex1], (Hp2 Hwf1) as [Hwf2 Ex2]. split_and!.
  - intros a. transitivity (excess a r1 - ind a CORE * (st_pending_fees s2 + st_pending_vested_fees s2)).
    + unfold excess, holdings, supply. cbn. erewrite pend_sum_insert by eassumption. cbn. lia.
    + rewrite Ex2, Ex1, E4, E5, E1, E2. unfold asset_in. cbn. lia.
  - destruct Hwf2. wf.
  - eexists. split; [cbn; by rewrite lookup_insert_eq|]. cbn. split_and!; [done | done | lia].
Qed.
End FeeTheorems.

Lemma fee_split_exact_witness :
  exists f g, fee_split sample_account 1001 = Ok (200, 300, f, g) /\ f = 250 /\ g = 251.
Proof.
  destruct (fee_split_exact sample_account 1001) as (f & g & E & _ & _ & _ & _ & Hs & Hf);
    try (cbn; unfold amount_ok, INT64_MAX, GRAPHENE_100_PERCENT; lia).
  exists f, g. split; [exact E|]. subst f. split; [reflexivity|].
  change (200 + 300 + 250 + g = 1001) in Hs. lia.
Defined.

Lemma process_fees_exact_witness :
  let s := sample_stats <| st_pending_fees := 1000 |> <| st_pending_vested_fees := 10 |> in
  let d := sample_db <| account_stats ::= <[7 := s]> |> in
  exists d', process_fees d 7 = Ok d' /\ conserves d d'.
Proof.
  intros s d. eexists. assert (process_fees d 7 = Ok _) as E by (vm_compute; reflexivity).
  split; [exact E|].
  apply (process_fees_exact d 7 s) in E as [Hc _];
    [exact Hc | | reflexivity | vm_compute; discriminate..].
  destruct sample_db_wf. split; assumption.
Defined.
