(* ===== verification/Evaluator.v ===== *)
(** The evaluator framework ([evaluator.hpp], [evaluator.cpp]): what every
    operation's evaluator provides, and the generic steps around it. A component
    implements [Evaluator] and discharges [EvaluatorLaws]; the theorems here are
    proved once against that interface. *)
From S2P Require Import Prelude Records Fc Asset Objects Vesting Database Holdings Sample Fees.

(** [validate] is the operation's own consistency check, [do_evaluate] the checks
    against the state (its result stands for the members the evaluator object keeps
    for [do_apply]), [do_apply] the change of state. *)
Class Evaluator (Op Ctx Res : Type) := {
  fee_payer : Op -> account_id_type;
  op_fee : Op -> asset;
  validate : Op -> result unit;
  do_evaluate : database -> Op -> result Ctx;
  do_apply : database -> Op -> Ctx -> result (database * Res);
}.

(** [d] is [d0] after nothing but the conversion and the payment of a fee. *)
Definition only_fees (d0 d : database) : Prop :=
  exists dd st, d = d0 <| dyn_data := dd |> <| account_stats := st |>
    /\ forall a, supply_in a dd = supply_in a (dyn_data d0).

(** What the framework relies on: applying a checked operation conserves every
    asset and keeps the tables well-formed. *)
Class EvaluatorLaws Op Ctx Res `{!Evaluator Op Ctx Res} : Prop := {
  apply_conserves d0 d (op : Op) (ctx : Ctx) d' (r : Res) :
    validate op = Ok tt -> do_evaluate d0 op = Ok ctx -> only_fees d0 d -> db_wf d ->
    do_apply d op ctx = Ok (d', r) -> conserves d d' /\ db_wf d';
}.

(** [I] is an invariant of the operation: applying it after its checks keeps [I]. *)
Definition preserves (I : database -> Prop) (Op : Type) {Ctx Res : Type}
    `{!Evaluator Op Ctx Res} : Prop :=
  forall d0 d (op : Op) (ctx : Ctx) d' (r : Res),
    validate op = Ok tt -> do_evaluate d0 op = Ok ctx -> only_fees d0 d -> I d ->
    do_apply d op ctx = Ok (d', r) -> I d'.

Section Framework.
Context `{SafeInt64}.

(** [generic_evaluator::prepare_fee]: returns [core_fee_paid]. *)
Definition prepare_fee (d : database) (account_id : account_id_type) (fee : asset)
    : result share_type :=
  assert! 0 <=? amount fee @ "fee.amount >= 0" in
  let! fee_paying_account := get_account d account_id in
  let! _ := get_stats d account_id in
  let! fee_asset := get_asset d (asset_id fee) in
  let! fee_asset_dyn_data := get_dyn d (asset_id fee) in
  assert! is_authorized_asset d account_id fee_paying_account (asset_id fee) fee_asset
    @ "Account attempted to pay fee by using asset, which is unauthorized due to whitelist / blacklist" in
  if asset_id fee =? CORE then Ok (amount fee)
  else
    let! fee_from_pool := asset_mul_price fee (ao_core_exchange_rate (as_options fee_asset)) in
    assert! asset_id fee_from_pool =? CORE @ "fee_from_pool.asset_id == asset_id_type()" in
    assert! amount fee_from_pool <=? dd_fee_pool fee_asset_dyn_data
      @ "Fee pool balance is less than required" in
    Ok (amount fee_from_pool).

Definition convert_fee (d : database) (fee : asset) (core_fee_paid : share_type) : result database :=
  if negb (asset_id fee =? CORE) then
    let! dyn := get_dyn d (asset_id fee) in
    let! acc := safe_add (dd_accumulated_fees dyn) (amount fee) in
    let! pool := safe_sub (dd_fee_pool dyn) core_fee_paid in
    Ok (set_dyn d (asset_id fee) (dyn <| dd_accumulated_fees := acc |> <| dd_fee_pool := pool |>))
  else Ok d.

Definition pay_fee (d : database) (payer : account_id_type) (core_fee_paid : share_type)
    : result database :=
  let! s := get_stats d payer in
  let! s' := stats_pay_fee s core_fee_paid (cp_cashback_vesting_threshold (params d)) in
  Ok (d <| account_stats ::= <[payer := s']> |>).

Section Run.
Context {Op Ctx Res : Type} `{!Evaluator Op Ctx Res}.
(** The fee schedule in force; [skip_fee_schedule_check] comes from the transaction. *)
Variable calculate_fee : database -> Op -> result share_type.
Variable skip_fee_schedule_check : bool.

(** [evaluator::evaluate] *)
Definition evaluate (d : database) (op : Op) : result (share_type * Ctx) :=
  let! core_fee_paid := prepare_fee d (fee_payer op) (op_fee op) in
  do! (if skip_fee_schedule_check then Ok tt
       else let! required_fee := calculate_fee d op in
            assert! core_fee_paid >=? required_fee @ "Insufficient Fee Paid" in Ok tt) in
  let! ctx := do_evaluate d op in
  Ok (core_fee_paid, ctx).

(** [evaluator::apply] *)
Definition apply (d : database) (op : Op) (core_fee_paid : share_type) (ctx : Ctx)
    : result (database * Res) :=
  let! d := convert_fee d (op_fee op) core_fee_paid in
  let! d := pay_fee d (fee_payer op) core_fee_paid in
  let! (d, res) := do_apply d op ctx in
  let! minus_fee := asset_neg (op_fee op) in
  let! d := adjust_balance d (fee_payer op) minus_fee in
  Ok (d, res).

(** [generic_evaluator::start_evaluate] with [apply] set; [op_evaluator_impl::evaluate]
    creates the evaluator object and calls it. *)
Definition start_evaluate (d : database) (op : Op) : result (database * Res) :=
  let! (core_fee_paid, ctx) := evaluate d op in
  apply d op core_fee_paid ctx.

(** An operation as the chain applies it: [database::apply_operation] dispatches to the
    evaluator, after [operation_validate], which [trx.validate] has called for an
    operation of a transaction and [try_push_virtual_operation] calls for one of the chain's own.
    An error undoes the changes in both cases. *)
Definition apply_operation (d : database) (op : Op) : result (database * Res) :=
  do! validate op in start_evaluate d op.
End Run.
End Framework.

Section FrameworkLemmas.
Context `{SafeInt64Laws}.

Lemma prepare_fee_core d acc fee n :
  prepare_fee d acc fee = Ok n -> asset_id fee = CORE -> n = amount fee.
Proof.
  unfold prepare_fee. intros E Hc. mon. rewrite Hc in E. cbn in E. by mon.
Qed.

Lemma convert_fee_only d fee n d' : convert_fee d fee n = Ok d' -> only_fees d d'.
Proof.
  unfold convert_fee, get_dyn. intros E. destruct (asset_id fee =? CORE).
  - cbn in E. mon. exists (dyn_data d'), (account_stats d'). by split; [destruct d'|].
  - cbn in E. mon. safe_ints. subst.
    match goal with E : dyn_data d !! _ = Some ?y |- _ => rename E into Hy; rename y into r end.
    exists (<[asset_id fee := r <| dd_accumulated_fees := dd_accumulated_fees r + amount fee |>
                   <| dd_fee_pool := dd_fee_pool r - n |>]> (dyn_data d)), (account_stats d).
    split; [reflexivity|]. intros a. rewrite (supply_in_insert _ _ _ _ _ Hy). cbn. lia.
Qed.

Lemma pay_fee_only d acc n d' : pay_fee d acc n = Ok d' -> only_fees d d'.
Proof.
  unfold pay_fee, get_stats. intros E. mon.
  eexists (dyn_data d), _. split; [reflexivity | done].
Qed.

Lemma convert_fee_paid d fee n d' :
  convert_fee d fee n = Ok d' -> (asset_id fee = CORE -> n = amount fee) -> db_wf d ->
  db_wf d' /\ only_fees d d' /\ forall a, excess a d' = excess a d + asset_in a fee - ind a CORE * n.
Proof.
  intros E Hc Hwf. pose proof (convert_fee_only _ _ _ _ E) as Hof. revert E.
  unfold convert_fee, get_dyn. intros E. destruct (Z.eqb_spec (asset_id fee) CORE) as [Hi|Hi]; cbn in E; mon.
  - split; [done|]. split; [done|]. intros a. unfold asset_in. rewrite Hi, Hc by done. lia.
  - safe_ints. subst.
    match goal with E : dyn_data d !! _ = Some ?y |- _ => rename E into Hy end.
    eapply set_dyn_excess in Hwf as [Hwf Ex]; [| exact Hy | shelve].
    split; [exact Hwf|]. split; [done|]. intros a. rewrite Ex. unfold asset_in. cbn. lia.
    Unshelve. done.
Qed.

Lemma stats_pay_fee_pending s n t s' :
  stats_pay_fee s n t = Ok s' ->
  st_pending_fees s' + st_pending_vested_fees s'
    = st_pending_fees s + st_pending_vested_fees s + n.
Proof. unfold stats_pay_fee. intros E. case_match; mon; safe_ints; subst; cbn; lia. Qed.

Lemma pay_fee_paid d acc n d' :
  pay_fee d acc n = Ok d' -> db_wf d ->
  db_wf d' /\ only_fees d d' /\ forall a, excess a d' = excess a d + ind a CORE * n.
Proof.
  intros E Hwf. pose proof (pay_fee_only _ _ _ _ E) as Hof. revert E.
  unfold pay_fee, get_stats. intros E. mon. split; [destruct Hwf; wf|]. split; [done|].
  intros a. unfold excess, holdings, supply. cbn. erewrite pend_sum_insert by eassumption.
    match goal with E : stats_pay_fee _ _ _ = Ok _ |- _ => apply stats_pay_fee_pending in E end. lia.
Qed.

Lemma only_fees_trans d0 d1 d2 : only_fees d0 d1 -> only_fees d1 d2 -> only_fees d0 d2.
Proof.
  intros (dd1 & st1 & -> & H1') (dd2 & st2 & -> & H2').
  exists dd2, st2. split; [done|]. intros a. rewrite H2'. cbn. apply H1'.
Qed.

Lemma adjust_balance_excess d acc x d' :
  adjust_balance d acc x = Ok d' -> db_wf d ->
  db_wf d' /\ forall a, excess a d' = excess a d + asset_in a x.
Proof.
  intros E Hwf. destruct (adjust_balance_frame _ _ _ _ E) as (m & -> & Hm & _).
  split; [destruct Hwf; wf|]. intros a. unfold excess, holdings, supply. cbn. rewrite Hm. lia.
Qed.

Section Generic.
Context {Op Ctx Res : Type} `{!Evaluator Op Ctx Res}.

Lemma apply_operation_inv (calc : database -> Op -> result share_type) skip d (op : Op) d' (r : Res) :
  apply_operation calc skip d op = Ok (d', r) -> validate op = Ok tt /\ start_evaluate calc skip d op = Ok (d', r).
Proof. unfold apply_operation. intros E. by mon. Qed.

(** What a successful run consists of. *)
Lemma start_evaluate_run (calc : database -> Op -> result share_type) skip d (op : Op) d' (r : Res) :
  start_evaluate calc skip d op = Ok (d', r) ->
  exists d1 ctx d2, do_evaluate d op = Ok ctx /\ only_fees d d1 /\ do_apply d1 op ctx = Ok (d2, r)
    /\ adjust_balance d2 (fee_payer op) (Asset (- amount (op_fee op)) (asset_id (op_fee op))) = Ok d'.
Proof.
  intros E. unfold start_evaluate, evaluate, apply in E. mon.
  match goal with p : (database * Res)%type |- _ => destruct p as [d3 res] end. mon. asset_ints.
  match goal with E : do_apply ?d1 _ ?ctx = Ok _ |- _ => exists d1, ctx, d3 end.
  split_and!; [done | | done | done].
  match goal with E : convert_fee _ _ _ = Ok _, F : pay_fee _ _ _ = Ok _ |- _ =>
    eapply only_fees_trans; [by eapply convert_fee_only | by eapply pay_fee_only] end.
Qed.

Lemma start_evaluate_inv (calc : database -> Op -> result share_type) skip d (op : Op) d' (r : Res) :
  start_evaluate calc skip d op = Ok (d', r) ->
  exists d1 ctx d2 m, do_evaluate d op = Ok ctx /\ only_fees d d1
    /\ do_apply d1 op ctx = Ok (d2, r) /\ d' = d2 <| balances := m |>.
Proof.
  intros (d1 & ctx & d2 & Hev & Hof & Hap & E)%start_evaluate_run.
  destruct (adjust_balance_frame _ _ _ _ E) as (m & -> & _). by exists d1, ctx, d2, m.
Qed.

(** The fee part conserves; so the whole does if [do_apply] does. *)
Lemma start_evaluate_conserves (calc : database -> Op -> result share_type) skip d (op : Op) d' (r : Res) :
  (forall d1 (ctx : Ctx) d2 (r' : Res), do_evaluate d op = Ok ctx -> only_fees d d1 -> db_wf d1 ->
     do_apply d1 op ctx = Ok (d2, r') -> conserves d1 d2 /\ db_wf d2) ->
  db_wf d -> start_evaluate calc skip d op = Ok (d', r) -> conserves d d' /\ db_wf d'.
Proof.
  intros Hlaw Hwf E. unfold start_evaluate, evaluate, apply in E. mon.
  match goal with p : (database * Res)%type |- _ => destruct p as [d3 res] end. mon. asset_ints.
  repeat match goal with
  | E : prepare_fee _ _ _ = Ok _ |- _ => pose proof (prepare_fee_core _ _ _ _ E) as Hcore; clear E
  | E : convert_fee _ _ _ = Ok _ |- _ =>
      apply convert_fee_paid in E as (Hwf1 & Ho1 & Ex1); [|done..]
  | E : pay_fee _ _ _ = Ok _ |- _ => apply pay_fee_paid in E as (Hwf2 & Ho2 & Ex2); [|done]
  | E : do_apply _ _ _ = Ok _ |- _ =>
      eapply Hlaw in E as [Hc Hwf3]; [| eassumption | by eapply only_fees_trans | done]
  | E : adjust_balance _ _ _ = Ok _ |- _ =>
      apply adjust_balance_excess in E as [Hwf4 Ex4]; [|done]
  end.
  split; [|done]. intros a. rewrite Ex4, Hc, Ex2, Ex1. unfold asset_in. cbn. lia.
Qed.

Context `{!EvaluatorLaws Op Ctx Res}.

(** C1: Conservation for every operation whose evaluator keeps the promise of the
    interface: with the fee taken from the payer, converted through the fee pool
    and filed as pending, the whole operation leaves the excess of every asset
    (what is held minus the current supply) unchanged. *)
Theorem operation_conserves (calc : database -> Op -> result share_type) skip d (op : Op) d' (r : Res) :
  db_wf d -> apply_operation calc skip d op = Ok (d', r) -> conserves d d' /\ db_wf d'.
Proof.
  intros Hwf E. unfold apply_operation in E. mon.
  eapply start_evaluate_conserves; [|done..]. intros. by eapply apply_conserves.
Qed.
End Generic.
End FrameworkLemmas.

(** ** Automation for the conservation of an evaluator's [do_apply] *)

(** Makes the frame of every adjustment of a balance explicit: only the table of
    balances is replaced, and its sum is known. *)
Ltac adjust_step :=
  match goal with
  | E : adjust_balance _ _ _ = Ok _ |- _ =>
      let F := fresh in let m := fresh "m" in let Em := fresh "Em" in
      pose proof (adjust_balance_frame _ _ _ _ E) as F; clear E;
      destruct F as (m & -> & Em & _); cbn in Em
  end.

Ltac adjust_steps := repeat adjust_step; cbn in *.

(** Two successful lookups of the same key found the same object. *)
Ltac same_rows :=
  repeat match goal with
  | H1 : ?o = Some ?x, H2 : ?o = Some ?y |- _ =>
      first [constr_eq x y; clear H2 | assert (y = x) as -> by congruence; clear H2]
  end.

(** Reduces conservation to arithmetic on the sums over the tables. *)
Ltac conserve :=
  let a := fresh "a" in
  same_rows; intros a;
  repeat match goal with W : db_wf _ |- _ => destruct W end;
  repeat match goal with
  | Ex : forall _, excess _ _ = _ |- _ => specialize (Ex a)
  | Em : forall _, bal_sum _ _ = _ |- _ => specialize (Em a)
  | Em : forall _, deal_sum _ _ = _ |- _ => specialize (Em a)
  end;
  unfold excess, holdings, supply, vest_sum, ticket_sum, pool_sum, samet_sum, offer_sum,
    deal_sum, htlc_sum, limit_sum, call_sum, settle_sum, bid_sum, asset_in, set_dyn in *;
  cbn in *;
  repeat match goal with
  | R : ?m !! ?i = Some _ |- context [dyn_sum _ _ (<[?i := _]> ?m)] =>
      rewrite (dyn_sum_insert _ _ _ _ _ _ R)
  | R : ?m !! ?i = Some _ |- context [supply_in _ (<[?i := _]> ?m)] =>
      rewrite (supply_in_insert _ _ _ _ _ R)
  | H : context [tsum _ (tcreate _ _)] |- _ => rewrite tsum_create in H by (cbn; eauto 3 with dfs)
  | |- context [tsum _ (tcreate _ _)] => rewrite tsum_create by (cbn; eauto 3 with dfs)
  | R : rows _ !! _ = Some _, H : context [tsum _ (tmodify _ _ _)] |- _ =>
      erewrite tsum_modify in H by exact R
  | R : rows _ !! _ = Some _ |- context [tsum _ (tmodify _ _ _)] => erewrite tsum_modify by exact R
  | R : rows _ !! _ = Some _, H : context [tsum _ (tremove _ _)] |- _ =>
      erewrite tsum_remove in H by exact R
  | R : rows _ !! _ = Some _ |- context [tsum _ (tremove _ _)] => erewrite tsum_remove by exact R
  end;
  cbn in *;
  repeat match goal with
  | E : ?x = ?y |- context [ind _ ?x] => rewrite E in *; clear E
  | E : ?x = ?y, F : context [ind _ ?x] |- _ => rewrite E in *; clear E
  end; lia.

(** Replaces the database the checks ran on by the one the change is applied to. *)
Ltac after_fees :=
  match goal with
  | F : only_fees _ _ |- _ =>
      let dd := fresh "dd" in let st := fresh "st" in let E := fresh "Esup" in
      destruct F as (dd & st & -> & E); cbn in *
  end.

(** ** Running operations on concrete states *)

(** A fee schedule that asks for nothing. *)
Definition no_fee (Op : Type) (d : database) (op : Op) : result share_type := Ok 0.

(** The state after an operation that succeeds. *)
Definition after {R} (x : result (database * R)) : database :=
  match x with Ok (d, _) => d | Err _ => sample_db end.

Lemma after_ok {R} (x : result (database * R)) : is_ok x = true -> exists r, x = Ok (after x, r).
Proof. destruct x as [[d r]|]; [|done]. intros _. by exists r. Qed.

Lemma only_fees_refl d : only_fees d d.
Proof. exists (dyn_data d), (account_stats d). by destruct d. Qed.
