(* ===== verification/Transfer.v ===== *)
(** Transfers: [transfer_evaluator.cpp] and [protocol/transfer.cpp]. *)
From S2P Require Import Prelude Records Fc Asset Objects Vesting Database Holdings Sample Fees Evaluator.

Record transfer_operation := TransferOperation {
  tr_fee : asset;
  tr_from : account_id_type;
  tr_to : account_id_type;
  tr_amount : asset;
}.

Record override_transfer_operation := OverrideTransferOperation {
  ov_fee : asset;
  ov_issuer : account_id_type;
  ov_from : account_id_type;
  ov_to : account_id_type;
  ov_amount : asset;
}.

Definition transfer_validate (op : transfer_operation) : result unit :=
  assert! 0 <=? amount (tr_fee op) @ "fee.amount >= 0" in
  assert! negb (tr_from op =? tr_to op) @ "from != to" in
  assert! 0 <? amount (tr_amount op) @ "amount.amount > 0" in
  Ok tt.

Definition override_transfer_validate (op : override_transfer_operation) : result unit :=
  assert! 0 <=? amount (ov_fee op) @ "fee.amount >= 0" in
  assert! negb (ov_from op =? ov_to op) @ "from != to" in
  assert! 0 <? amount (ov_amount op) @ "amount.amount > 0" in
  assert! negb (ov_issuer op =? ov_from op) @ "issuer != from" in
  Ok tt.

Definition transfer_do_evaluate (d : database) (op : transfer_operation) : result unit :=
  let id := asset_id (tr_amount op) in
  let! from_account := get_account d (tr_from op) in
  let! to_account := get_account d (tr_to op) in
  let! asset_type := get_asset d id in
  assert! is_authorized_asset d (tr_from op) from_account id asset_type
    @ "'from' account is not whitelisted for asset" in
  assert! is_authorized_asset d (tr_to op) to_account id asset_type
    @ "'to' account is not whitelisted for asset" in
  do! (if is_transfer_restricted asset_type then
         assert! (tr_from op =? as_issuer asset_type) || (tr_to op =? as_issuer asset_type)
           @ "Asset has transfer_restricted flag enabled" in Ok tt
       else Ok tt) in
  assert! amount (get_balance d (tr_from op) id) >=? amount (tr_amount op)
    @ "Insufficient Balance" in
  Ok tt.

Definition override_transfer_do_evaluate (d : database) (op : override_transfer_operation)
    : result unit :=
  let id := asset_id (ov_amount op) in
  let! asset_type := get_asset d id in
  assert! can_override asset_type @ "override_transfer not permitted for asset" in
  assert! as_issuer asset_type =? ov_issuer op @ "asset_type.issuer == op.issuer" in
  let! from_account := get_account d (ov_from op) in
  let! to_account := get_account d (ov_to op) in
  assert! is_authorized_asset d (ov_to op) to_account id asset_type
    @ "The to_account is not allowed to transact the asset" in
  do! (if negb (HARDFORK_CORE_2295_PASSED (head_block_time d)) then
         assert! is_authorized_asset d (ov_from op) from_account id asset_type
           @ "The from_account is not allowed to transact the asset" in Ok tt
       else Ok tt) in
  assert! amount (get_balance d (ov_from op) id) >=? amount (ov_amount op) @ "balance" in
  Ok tt.

Section Transfer.
Context `{SafeInt64}.

(** The body shared by the two [do_apply]. *)
Definition move_funds (d : database) (from to : account_id_type) (x : asset) : result database :=
  let! minus := asset_neg x in
  let! d := adjust_balance d from minus in
  adjust_balance d to x.

Definition transfer_do_apply (d : database) (op : transfer_operation) (ctx : unit)
    : result (database * unit) :=
  let! d := move_funds d (tr_from op) (tr_to op) (tr_amount op) in
  Ok (d, tt).

Definition override_transfer_do_apply (d : database) (op : override_transfer_operation) (ctx : unit)
    : result (database * unit) :=
  let! d := move_funds d (ov_from op) (ov_to op) (ov_amount op) in
  Ok (d, tt).

#[export] Instance transfer_evaluator : Evaluator transfer_operation unit unit := {
  fee_payer := tr_from;
  op_fee := tr_fee;
  validate := transfer_validate;
  do_evaluate := transfer_do_evaluate;
  do_apply := transfer_do_apply;
}.

#[export] Instance override_transfer_evaluator : Evaluator override_transfer_operation unit unit := {
  fee_payer := ov_issuer;
  op_fee := ov_fee;
  validate := override_transfer_validate;
  do_evaluate := override_transfer_do_evaluate;
  do_apply := override_transfer_do_apply;
}.
End Transfer.

Section TransferLemmas.
Context `{SafeInt64Laws}.

Lemma move_funds_conserves d from to x d' :
  move_funds d from to x = Ok d' -> db_wf d -> conserves d d' /\ db_wf d'.
Proof.
  unfold move_funds. intros E Hwf. mon. asset_ints.
  eapply adjust_balance_excess in Hr0 as [Hwf1 E1]; [|done].
  apply adjust_balance_excess in E as [Hwf2 E2]; [|done].
  split; [|done]. intros a. rewrite E2, E1. unfold asset_in. cbn. lia.
Qed.

#[export] Instance transfer_laws : EvaluatorLaws transfer_operation unit unit.
Proof.
  split. cbn. unfold transfer_do_apply. intros d0 d op ctx d' r _ _ _ Hwf E. mon.
  by eapply move_funds_conserves.
Qed.

#[export] Instance override_transfer_laws : EvaluatorLaws override_transfer_operation unit unit.
Proof.
  split. cbn. unfold override_transfer_do_apply. intros d0 d op ctx d' r _ _ _ Hwf E. mon.
  by eapply move_funds_conserves.
Qed.

Lemma move_funds_value d from to x d' : move_funds d from to x = Ok d' ->
  forall o i, balance_of d' o i
    = balance_of d o i + (if o =? to then asset_in i x else 0) - (if o =? from then asset_in i x else 0).
Proof.
  unfold move_funds. intros E o i. mon. asset_ints.
  rewrite (adjust_balance_value _ _ _ _ E), (adjust_balance_value _ _ _ _ Hr0).
  unfold asset_in. cbn. destruct (o =? to), (o =? from); lia.
Qed.

(** Moving funds between two accounts, balance by balance. *)
Lemma move_funds_moves d from to x d' :
  balances_ok d -> from <> to -> 0 < amount x <= INT64_MAX ->
  move_funds d from to x = Ok d' ->
  balance_of d' from (asset_id x) = balance_of d from (asset_id x) - amount x
  /\ balance_of d' to (asset_id x) = balance_of d to (asset_id x) + amount x
  /\ (forall o i, i <> asset_id x \/ (o <> from /\ o <> to) -> balance_of d' o i = balance_of d o i)
  /\ balances_ok d'.
Proof.
  intros Hok Hne Hx E. unfold move_funds in E. mon. asset_ints.
  destruct (adjust_balance_exact _ _ _ _ Hok Hr0) as (V1 & O1 & Hok1); [unfold_int64; cbn; lia|].
  destruct (adjust_balance_exact _ _ _ _ Hok1 E) as (V2 & O2 & Hok2); [unfold_int64; lia|].
  cbn in *. split_and!; [| | |done].
  - rewrite O2 by congruence. lia.
  - rewrite V2, O1 by congruence. done.
  - intros o i Hoi. rewrite O2, O1; [done | |]; intros [= -> ->]; destruct Hoi as [|[]]; done.
Qed.

Lemma move_funds_total d from to x :
  balances_ok d -> from <> to -> 0 < amount x <= balance_of d from (asset_id x) ->
  balance_of d to (asset_id x) + amount x <= INT64_MAX ->
  is_ok (move_funds d from to x) = true.
Proof.
  intros Hok Hne Hx Hto. unfold move_funds, asset_neg.
  pose proof (balances_ok_of d from (asset_id x) Hok) as Hf.
  pose proof (balances_ok_of d to (asset_id x) Hok) as Ht. unfold amount_ok in *.
  rewrite safe_neg_exact by (unfold_int64; lia). cbn [rbind].
  destruct (adjust_balance d from _) as [d1|e] eqn:E1.
  2:{ exfalso. eapply adjust_balance_total in Hok; [| |]; [by erewrite E1 in Hok | |];
      cbn; unfold_int64; lia. }
  cbn. destruct (adjust_balance_exact _ _ _ _ Hok E1) as (V1 & O1 & Hok1); [unfold_int64; cbn; lia|].
  apply adjust_balance_total; [done | unfold_int64; lia |].
  rewrite O1 by congruence. lia.
Qed.

(** A transfer that passes its checks moves exactly its amount: unless the
    receiver's balance would leave the 64-bit range it is applied, the sender
    loses what the receiver gains, and no other balance of any account changes. *)
Theorem transfer_correct d (op : transfer_operation) :
  balances_ok d -> validate op = Ok tt -> do_evaluate d op = Ok tt ->
  let i := asset_id (tr_amount op) in
  let n := amount (tr_amount op) in
  balance_of d (tr_to op) i + n <= INT64_MAX ->
  exists d', do_apply d op tt = Ok (d', tt)
    /\ balance_of d' (tr_from op) i = balance_of d (tr_from op) i - n
    /\ balance_of d' (tr_to op) i = balance_of d (tr_to op) i + n
    /\ (forall o j, j <> i \/ (o <> tr_from op /\ o <> tr_to op) -> balance_of d' o j = balance_of d o j)
    /\ balances_ok d'.
Proof.
  intros Hok Hv He. cbn zeta. intros Hto. cbn in Hv, He. unfold transfer_validate, transfer_do_evaluate in *. mon.
  fold (balance_of d (tr_from op) (asset_id (tr_amount op))) in *.
  pose proof (balances_ok_of d (tr_from op) (asset_id (tr_amount op)) Hok) as Hf.
  unfold amount_ok in Hf.
  destruct (move_funds d (tr_from op) (tr_to op) (tr_amount op)) as [d'|] eqn:E.
  - exists d'. cbn. unfold transfer_do_apply. rewrite E. split; [done|].
    apply move_funds_moves in E; [done | done | done | lia].
  - pose proof (move_funds_total d (tr_from op) (tr_to op) (tr_amount op) Hok) as Ht.
    rewrite E in Ht. discriminate Ht; [done | lia | done].
Qed.
End TransferLemmas.

Definition sample_transfer : transfer_operation := TransferOperation (Asset 100 CORE) 6 7 (Asset 2500 1).

Lemma transfer_correct_witness :
  exists d', do_apply sample_db sample_transfer tt = Ok (d', tt) /\ balance_of d' 7 1 = 1002500.
Proof.
  destruct (transfer_correct sample_db sample_transfer sample_db_balances) as (d' & E & _ & V & _);
    [vm_compute; reflexivity | vm_compute; reflexivity | vm_compute; discriminate |].
  exists d'. split; [exact E|]. etrans; [exact V|]. vm_compute. reflexivity.
Defined.

Lemma operation_conserves_witness :
  exists d', apply_operation (fun _ _ => Ok 90) false sample_db sample_transfer = Ok (d', tt)
    /\ conserves sample_db d'.
Proof.
  eexists. assert (apply_operation (fun _ _ => Ok 90) false sample_db sample_transfer = Ok (_, tt)) as E
    by (vm_compute; reflexivity).
  split; [exact E|]. apply operation_conserves in E; [apply E | exact sample_db_wf].
Defined.
