(* ===== verification/VestingOps.v ===== *)
(** The operations on vesting balances: [vesting_balance_evaluator.cpp] and
    [protocol/vesting.hpp]. *)
From S2P Require Import Prelude Records Fc Asset Objects Vesting Database Holdings Sample Fees Evaluator.

Inductive vesting_policy_initializer :=
  | linear_vesting_policy_initializer (begin_timestamp : time_point_sec)
      (vesting_cliff_seconds vesting_duration_seconds : Z)
  | cdd_vesting_policy_initializer (start_claim : time_point_sec) (vesting_seconds : Z)
  | instant_vesting_policy_initializer.

Record vesting_balance_create_operation := VestingBalanceCreate {
  vc_fee : asset;
  vc_creator : account_id_type;
  vc_owner : account_id_type;
  vc_amount : asset;
  vc_policy : vesting_policy_initializer;
}.

Record vesting_balance_withdraw_operation := VestingBalanceWithdraw {
  vw_fee : asset;
  vw_vesting_balance : Z;
  vw_owner : account_id_type;
  vw_amount : asset;
}.

Definition vesting_balance_create_validate (op : vesting_balance_create_operation) : result unit :=
  assert! 0 <=? amount (vc_fee op) @ "fee.amount >= 0" in
  assert! 0 <? amount (vc_amount op) @ "amount.amount > 0" in
  Ok tt.

Definition vesting_balance_withdraw_validate (op : vesting_balance_withdraw_operation) : result unit :=
  assert! 0 <=? amount (vw_fee op) @ "fee.amount >= 0" in
  assert! 0 <? amount (vw_amount op) @ "amount.amount > 0" in
  assert! negb (vw_owner op =? GRAPHENE_TEMP_ACCOUNT) @ "owner != GRAPHENE_TEMP_ACCOUNT" in
  Ok tt.

Definition vesting_balance_create_do_evaluate (d : database) (op : vesting_balance_create_operation)
    : result unit :=
  let id := asset_id (vc_amount op) in
  let! creator_account := get_account d (vc_creator op) in
  let! owner_account := get_account d (vc_owner op) in
  let! asset_obj := get_asset d id in
  assert! negb (is_transfer_restricted asset_obj) @ "Asset has transfer_restricted flag enabled" in
  if HARDFORK_CORE_973_PASSED (head_block_time d) then
    assert! is_authorized_asset d (vc_creator op) creator_account id asset_obj
      @ "The creator account is not allowed to transact the asset" in
    assert! is_authorized_asset d (vc_owner op) owner_account id asset_obj
      @ "The owner account is not allowed to transact the asset" in
    Ok tt
  else Ok tt.

(** [init_policy_visitor] *)
Definition init_policy (i : vesting_policy_initializer) (init_balance : share_type)
    (now : time_point_sec) : vesting_policy :=
  match i with
  | linear_vesting_policy_initializer b c dur => linear_vesting_policy b c dur init_balance
  | cdd_vesting_policy_initializer sc secs => cdd_vesting_policy secs 0 sc now
  | instant_vesting_policy_initializer => instant_vesting_policy
  end.

Section VestingOps.
Context `{SafeInt64}.

Definition vesting_balance_create_do_apply (d : database) (op : vesting_balance_create_operation)
    (ctx : unit) : result (database * Z) :=
  let now := head_block_time d in
  let! minus := asset_neg (vc_amount op) in
  let! d := adjust_balance d (vc_creator op) minus in
  let vbo := VestingBalance (vc_owner op) (vc_amount op)
               (init_policy (vc_policy op) (amount (vc_amount op)) now) vb_unspecified in
  Ok (d <| vestings := tcreate (vestings d) vbo |>, next_id (vestings d)).

Definition vesting_balance_withdraw_do_evaluate (d : database)
    (op : vesting_balance_withdraw_operation) : result unit :=
  let! vbo := of_option "vesting balance" (tfind (vestings d) (vw_vesting_balance op)) in
  assert! vw_owner op =? vb_owner vbo @ "op.owner == vbo.owner" in
  let! allowed := vbo_is_withdraw_allowed vbo (head_block_time d) (vw_amount op) in
  assert! allowed @ "vbo.is_withdraw_allowed( now, op.amount )" in
  Ok tt.

Definition vesting_balance_withdraw_do_apply (d : database)
    (op : vesting_balance_withdraw_operation) (ctx : unit) : result (database * unit) :=
  let! vbo := of_option "vesting balance" (tfind (vestings d) (vw_vesting_balance op)) in
  let! vbo' := vbo_withdraw vbo (head_block_time d) (vw_amount op) in
  let d := d <| vestings := tmodify (vestings d) (vw_vesting_balance op) vbo' |> in
  let! d := adjust_balance d (vw_owner op) (vw_amount op) in
  Ok (d, tt).

#[export] Instance vesting_balance_create_evaluator :
  Evaluator vesting_balance_create_operation unit Z := {
  fee_payer := vc_creator;
  op_fee := vc_fee;
  validate := vesting_balance_create_validate;
  do_evaluate := vesting_balance_create_do_evaluate;
  do_apply := vesting_balance_create_do_apply;
}.

#[export] Instance vesting_balance_withdraw_evaluator :
  Evaluator vesting_balance_withdraw_operation unit unit := {
  fee_payer := vw_owner;
  op_fee := vw_fee;
  validate := vesting_balance_withdraw_validate;
  do_evaluate := vesting_balance_withdraw_do_evaluate;
  do_apply := vesting_balance_withdraw_do_apply;
}.
End VestingOps.

Section VestingOpsTheorems.
Context `{SafeInt64Laws}.

#[export] Instance vesting_balance_create_laws : EvaluatorLaws vesting_balance_create_operation unit Z.
Proof.
  split. cbn. unfold vesting_balance_create_do_apply. intros d0 d op ctx d' r _ _ _ Hwf E. mon. asset_ints.
  adjust_steps. split; [conserve | destruct Hwf; wf].
Qed.

#[export] Instance vesting_balance_withdraw_laws :
  EvaluatorLaws vesting_balance_withdraw_operation unit unit.
Proof.
  split. cbn. unfold vesting_balance_withdraw_do_apply, vbo_withdraw.
  intros d0 d op ctx d' r _ _ _ Hwf E. mon. asset_ints.
  unfold tfind in *. adjust_steps. split; [conserve | destruct Hwf; wf].
Qed.

(** Every vesting balance of the chain is well-formed. *)
Definition vestings_wf (d : database) : Prop :=
  tall (vbo_wf (head_block_time d)) (vestings d).

Definition initializer_ok (i : vesting_policy_initializer) : Prop :=
  match i with
  | linear_vesting_policy_initializer b c dur =>
      0 <= b <= UINT32_MAX /\ 0 <= c <= UINT32_MAX /\ 0 <= dur <= UINT32_MAX
  | cdd_vesting_policy_initializer sc secs => 0 <= secs <= UINT32_MAX
  | instant_vesting_policy_initializer => True
  end.

(** A vesting balance created by an operation starts well-formed, so that all
    that is proved about withdrawing applies to it: it is stored under a fresh id
    with the whole deposit, of which a cliff, a start date or the coin-days policy
    releases nothing at creation, and the creator pays exactly the deposit. *)
Theorem vesting_create_wf d (op : vesting_balance_create_operation) d' id :
  db_wf d -> vestings_wf d -> balances_ok d -> 0 <= head_block_time d <= UINT32_MAX ->
  initializer_ok (vc_policy op) -> amount (vc_amount op) <= INT64_MAX ->
  validate op = Ok tt -> do_apply d op tt = Ok (d', id) ->
  vestings_wf d' /\ rows (vestings d) !! id = None
  /\ balance_of d' (vc_creator op) (asset_id (vc_amount op))
     = balance_of d (vc_creator op) (asset_id (vc_amount op)) - amount (vc_amount op)
  /\ exists v, rows (vestings d') !! id = Some v /\ vb_owner v = vc_owner op
      /\ vb_balance v = vc_amount op
      /\ (forall b c dur, vc_policy op = linear_vesting_policy_initializer b c dur ->
            head_block_time d < b + Z.max 1 c ->
            vbo_get_allowed_withdraw v (head_block_time d) = Ok (Asset 0 (asset_id (vc_amount op))))
      /\ (forall sc secs, vc_policy op = cdd_vesting_policy_initializer sc secs ->
            vbo_get_allowed_withdraw v (head_block_time d) = Ok (Asset 0 (asset_id (vc_amount op)))).
Proof.
  intros Hwf Hv Hok Hnow Hi Hmax Hval E. cbn in Hval, E.
  unfold vesting_balance_create_validate in Hval. unfold vesting_balance_create_do_apply in E.
  mon. asset_ints.
  match goal with E : adjust_balance _ _ _ = Ok _ |- _ => rename E into Hadj end.
  destruct (adjust_balance_exact _ _ _ _ Hok Hadj) as (Hb & _); [unfold_int64; cbn; lia|].
  destruct (adjust_balance_frame _ _ _ _ Hadj) as (m & -> & _ & _). cbn in *.
  set (v := VestingBalance _ _ _ _) in *.
  assert (vbo_wf (head_block_time d) v) as Hvv.
  { unfold vbo_wf. subst v. cbn. unfold amount_ok. split; [lia|]. split; [done|].
    destruct (vc_policy op); cbn in *; [| |done].
    - split_and!; try lia.
    - split_and!; try lia. pose proof (vesting_period_bounds vesting_seconds). nia. }
  split_and!.
  - unfold vestings_wf. cbn. by apply tall_create.
  - apply table_fresh. apply Hwf.
  - rewrite <- Z.add_opp_r, <- Hb. done.
  - exists v. split; [apply lookup_tcreate|]. split; [done|]. split; [done|].
    assert (forall p, vbo_wf (head_block_time d) (VestingBalance (vc_owner op) (vc_amount op) p vb_unspecified) ->
              allowed_amount p (amount (vc_amount op)) (head_block_time d) = 0 ->
              vbo_get_allowed_withdraw (VestingBalance (vc_owner op) (vc_amount op) p vb_unspecified)
                (head_block_time d) = Ok (Asset 0 (asset_id (vc_amount op)))) as Hz.
    { intros p (Ha & _ & Hp) <-. destruct (vc_amount op). by apply allowed_exact. }
    subst v. split.
    + intros b c dur Hpol Ht. rewrite Hpol in *. apply Hz; [done|]. cbn in *.
      unfold linear_vested. destruct (_ && _) eqn:Eb; [|lia].
      rewrite Z.gtb_ltb, Z.geb_leb in Eb. reflect_bools. lia.
    + intros sc secs Hpol. rewrite Hpol in *. apply Hz; [done|]. cbn in *.
      destruct (_ <=? _); [done|]. rewrite Z.sub_diag, Z.mul_0_r.
      pose proof (vesting_period_bounds secs Hi).
      rewrite Z.min_l by nia. by apply Z.div_0_l; lia.
Qed.

(** Withdrawing from a vesting balance is exact and safe: a withdrawal that
    passes its checks is applied (unless the owner's balance would overflow), the
    owner receives exactly the amount, which is at most what has vested, the
    vesting balance loses it and stays well-formed. *)
Theorem vesting_withdraw_op_exact d (op : vesting_balance_withdraw_operation) v allowed :
  vestings_wf d -> balances_ok d -> validate op = Ok tt -> do_evaluate d op = Ok tt ->
  rows (vestings d) !! vw_vesting_balance op = Some v ->
  vbo_get_allowed_withdraw v (head_block_time d) = Ok allowed ->
  balance_of d (vw_owner op) (asset_id (vw_amount op)) + amount (vw_amount op) <= INT64_MAX ->
  exists d' v', do_apply d op tt = Ok (d', tt)
    /\ vestings_wf d' /\ balances_ok d'
    /\ amount (vw_amount op) <= amount allowed
    /\ balance_of d' (vw_owner op) (asset_id (vw_amount op))
       = balance_of d (vw_owner op) (asset_id (vw_amount op)) + amount (vw_amount op)
    /\ rows (vestings d') !! vw_vesting_balance op = Some v'
    /\ vb_balance v' = Asset (amount (vb_balance v) - amount (vw_amount op)) (asset_id (vb_balance v)).
Proof.
  intros Hv Hok Hval Hev Hrow Hal Hmax. cbn in Hval, Hev.
  unfold vesting_balance_withdraw_validate in Hval. mon.
  unfold vesting_balance_withdraw_do_evaluate, tfind in Hev. rewrite Hrow in Hev.
  cbn [of_option rbind] in Hev. mon. subst.
  pose proof (tall_lookup _ _ _ _ Hv Hrow) as Hvv. cbn beta in Hvv.
  assert (0 <= amount (vw_amount op)) as Hn by lia.
  match goal with E : vbo_is_withdraw_allowed _ _ _ = Ok true |- _ =>
    pose proof E as Hw;
    destruct (vbo_withdraw_ok v _ _ _ Hvv Hn Hal E) as (v' & Ew & Hwf' & _ & _ & Eb & Ea) end.
  assert (0 <= amount allowed - amount (vw_amount op)) as Hle.
  { destruct (vbo_allowed_ok v' _ Hwf') as (a' & Ea' & _ & Ha'). rewrite Ea in Ea'.
    injection Ea' as <-. cbn in Ha'. lia. }
  pose proof (balances_ok_of d (vw_owner op) (asset_id (vw_amount op)) Hok) as Hb.
  unfold amount_ok in Hb.
  set (d1 := d <| vestings := tmodify (vestings d) (vw_vesting_balance op) v' |>).
  assert (is_ok (adjust_balance d1 (vw_owner op) (vw_amount op)) = true) as Hadj.
  { apply adjust_balance_total; [done | unfold_int64; lia |].
    change (balance_of d1) with (balance_of d). lia. }
  apply is_ok_true in Hadj as [d' Hadj]. exists d', v'.
  destruct (adjust_balance_exact d1 _ _ _ Hok Hadj) as (Hbal & _ & Hok'); [unfold_int64; lia|].
  destruct (adjust_balance_frame _ _ _ _ Hadj) as (m & -> & _).
  split_and!; [| | done | lia | done | apply lookup_tmodify | done].
  - cbn. unfold vesting_balance_withdraw_do_apply, tfind. rewrite Hrow. cbn [of_option rbind].
    rewrite Ew. cbn [rbind]. change (_ <| vestings := _ |>) with d1. by rewrite Hadj.
  - unfold vestings_wf. cbn. by apply tall_modify.
Qed.
End VestingOpsTheorems.

Definition sample_vesting_create : vesting_balance_create_operation :=
  VestingBalanceCreate (Asset 100 CORE) 6 7 (Asset 1000 1) (linear_vesting_policy_initializer 1799990000 0 100000).

Definition sample_vested_db : database :=
  sample_db <| vestings := table_from [VestingBalance 7 (Asset 1000 1)
    (linear_vesting_policy 1799990000 0 100000 1000) vb_unspecified] |>.

Lemma sample_vested_wf : vestings_wf sample_vested_db.
Proof.
  change (tall (vbo_wf 1800000000) (tcreate empty_table
    (VestingBalance 7 (Asset 1000 1) (linear_vesting_policy 1799990000 0 100000 1000) vb_unspecified))).
  apply tall_create; [|intros id x; unfold empty_table; cbn; by rewrite lookup_empty].
  unfold vbo_wf, amount_ok. cbn. unfold UINT32_MAX, INT64_MAX. lia.
Qed.

Lemma vesting_create_wf_witness :
  exists d', do_apply sample_db sample_vesting_create tt = Ok (d', 0) /\ vestings_wf d'.
Proof.
  eexists. assert (do_apply sample_db sample_vesting_create tt = Ok (_, 0)) as E by (vm_compute; reflexivity).
  split; [exact E|].
  refine (proj1 (vesting_create_wf _ _ _ _ sample_db_wf _ sample_db_balances _ _ _ _ E)).
  - intros id x. unfold sample_db, empty_table. cbn. by rewrite lookup_empty.
  - vm_compute; split; discriminate.
  - vm_compute. split_and!; discriminate.
  - vm_compute; discriminate.
  - reflexivity.
Defined.

Lemma vesting_withdraw_op_exact_witness :
  let op := VestingBalanceWithdraw (Asset 0 CORE) 0 7 (Asset 60 1) in
  exists d', do_apply sample_vested_db op tt = Ok (d', tt) /\ balance_of d' 7 1 = 1000060.
Proof.
  intros op.
  destruct (vesting_withdraw_op_exact sample_vested_db op
              (VestingBalance 7 (Asset 1000 1) (linear_vesting_policy 1799990000 0 100000 1000) vb_unspecified)
              (Asset 100 1) sample_vested_wf sample_db_balances)
    as (d' & v' & E & _ & _ & _ & Hb & _);
    [reflexivity | vm_compute; reflexivity | vm_compute; reflexivity | vm_compute; reflexivity
    | vm_compute; discriminate |].
  exists d'. split; [exact E|]. etrans; [exact Hb|]. vm_compute. reflexivity.
Defined.
