(* ===== verification/WithdrawPermission.v ===== *)
(** Withdrawal permissions: [withdraw_permission_object.hpp],
    [withdraw_permission_evaluator.cpp] and [protocol/withdraw_permission.cpp]. The
    main property is about whole histories of claims: no period ever pays more than
    the limit. *)
From S2P Require Import Prelude Records Fc Asset Objects Vesting Database Holdings Sample Fees Evaluator Transfer.

Record withdraw_permission_create_operation := WithdrawPermissionCreate {
  wpc_fee : asset;
  wpc_withdraw_from_account : account_id_type;
  wpc_authorized_account : account_id_type;
  wpc_withdrawal_limit : asset;
  wpc_withdrawal_period_sec : Z;
  wpc_periods_until_expiration : Z;
  wpc_period_start_time : time_point_sec;
}.

Record withdraw_permission_update_operation := WithdrawPermissionUpdate {
  wpu_fee : asset;
  wpu_withdraw_from_account : account_id_type;
  wpu_authorized_account : account_id_type;
  wpu_permission_to_update : Z;
  wpu_withdrawal_limit : asset;
  wpu_withdrawal_period_sec : Z;
  wpu_period_start_time : time_point_sec;
  wpu_periods_until_expiration : Z;
}.

Record withdraw_permission_claim_operation := WithdrawPermissionClaim {
  wpl_fee : asset;
  wpl_withdraw_permission : Z;
  wpl_withdraw_from_account : account_id_type;
  wpl_withdraw_to_account : account_id_type;
  wpl_amount_to_withdraw : asset;
}.

Record withdraw_permission_delete_operation := WithdrawPermissionDelete {
  wpd_fee : asset;
  wpd_withdraw_from_account : account_id_type;
  wpd_authorized_account : account_id_type;
  wpd_withdrawal_permission : Z;
}.

(** ** Validation *)

Definition withdraw_permission_update_validate (op : withdraw_permission_update_operation) : result unit :=
  assert! 0 <? amount (wpu_withdrawal_limit op) @ "withdrawal_limit.amount > 0" in
  assert! 0 <=? amount (wpu_fee op) @ "fee.amount >= 0" in
  assert! 0 <? wpu_withdrawal_period_sec op @ "withdrawal_period_sec > 0" in
  assert! negb (wpu_withdraw_from_account op =? wpu_authorized_account op)
    @ "withdraw_from_account != authorized_account" in
  assert! 0 <? wpu_periods_until_expiration op @ "periods_until_expiration > 0" in
  Ok tt.

Definition withdraw_permission_claim_validate (op : withdraw_permission_claim_operation) : result unit :=
  assert! negb (wpl_withdraw_to_account op =? wpl_withdraw_from_account op)
    @ "withdraw_to_account != withdraw_from_account" in
  assert! 0 <? amount (wpl_amount_to_withdraw op) @ "amount_to_withdraw.amount > 0" in
  assert! 0 <=? amount (wpl_fee op) @ "fee.amount >= 0" in
  Ok tt.

Definition withdraw_permission_create_validate (op : withdraw_permission_create_operation) : result unit :=
  assert! 0 <=? amount (wpc_fee op) @ "fee.amount >= 0" in
  assert! negb (wpc_withdraw_from_account op =? wpc_authorized_account op)
    @ "withdraw_from_account != authorized_account" in
  assert! 0 <? amount (wpc_withdrawal_limit op) @ "withdrawal_limit.amount > 0" in
  assert! 0 <? wpc_withdrawal_period_sec op @ "withdrawal_period_sec > 0" in
  assert! 0 <? wpc_periods_until_expiration op @ "periods_until_expiration > 0" in
  Ok tt.

Definition withdraw_permission_delete_validate (op : withdraw_permission_delete_operation) : result unit :=
  assert! 0 <=? amount (wpd_fee op) @ "fee.amount >= 0" in
  assert! negb (wpd_withdraw_from_account op =? wpd_authorized_account op)
    @ "withdraw_from_account != authorized_account" in
  Ok tt.

(** ** The permission object *)

Section Permission.
Context `{SafeInt64}.

Definition available_this_period (p : withdraw_permission_object) (current_time : time_point_sec)
    : result asset :=
  if current_time >=? tps_add (wp_period_start_time p) (wp_withdrawal_period_sec p)
  then Ok (wp_withdrawal_limit p)
  else
    let! left_over := if amount (wp_withdrawal_limit p) >? wp_claimed_this_period p
                      then safe_sub (amount (wp_withdrawal_limit p)) (wp_claimed_this_period p)
                      else Ok 0 in
    Ok (Asset left_over (asset_id (wp_withdrawal_limit p))).

(** The change a claim of [x] at time [now] makes to the permission. *)
Definition permission_claim (p : withdraw_permission_object) (now : time_point_sec) (x : share_type)
    : result withdraw_permission_object :=
  let periods := Z.quot (now - wp_period_start_time p) (wp_withdrawal_period_sec p) in
  let p1 := p <| wp_period_start_time :=
                   tps_add (wp_period_start_time p) (periods * wp_withdrawal_period_sec p) |> in
  if periods =? 0 then
    let! c := safe_add (wp_claimed_this_period p1) x in
    Ok (p1 <| wp_claimed_this_period := c |>)
  else Ok (p1 <| wp_claimed_this_period := x |>).

(** ** The evaluators *)

(** [period_start_time + periods_until_expiration * withdrawal_period_sec]: the
    product is a 32-bit one. *)
Definition permission_expiration (start periods period_sec : Z) : time_point_sec :=
  tps_add start (u32 (periods * period_sec)).

Definition withdraw_permission_create_do_evaluate (d : database)
    (op : withdraw_permission_create_operation) : result unit :=
  let! _ := get_account d (wpc_withdraw_from_account op) in
  let! _ := get_account d (wpc_authorized_account op) in
  let! _ := get_asset d (asset_id (wpc_withdrawal_limit op)) in
  assert! wpc_period_start_time op >? head_block_time d @ "period_start_time" in
  assert! permission_expiration (wpc_period_start_time op) (wpc_periods_until_expiration op)
            (wpc_withdrawal_period_sec op) >? head_block_time d @ "expiration" in
  assert! wpc_withdrawal_period_sec op >=? cp_block_interval (params d) @ "withdrawal_period_sec" in
  Ok tt.

Definition withdraw_permission_create_do_apply (d : database)
    (op : withdraw_permission_create_operation) (ctx : unit) : result (database * Z) :=
  let p := WithdrawPermission (wpc_withdraw_from_account op) (wpc_authorized_account op)
             (wpc_withdrawal_limit op) (wpc_withdrawal_period_sec op) (wpc_period_start_time op)
             (permission_expiration (wpc_period_start_time op) (wpc_periods_until_expiration op)
                (wpc_withdrawal_period_sec op)) 0 in
  Ok (d <| permissions := tcreate (permissions d) p |>, next_id (permissions d)).

Definition get_permission (d : database) (id : Z) : result withdraw_permission_object :=
  of_option "withdraw permission" (tfind (permissions d) id).

Definition withdraw_permission_claim_do_evaluate (d : database)
    (op : withdraw_permission_claim_operation) : result unit :=
  let now := head_block_time d in
  let x := wpl_amount_to_withdraw op in
  let! permit := get_permission d (wpl_withdraw_permission op) in
  assert! wp_expiration permit >? now @ "permit.expiration > head_block_time" in
  assert! wp_authorized_account permit =? wpl_withdraw_to_account op @ "authorized_account" in
  assert! wp_withdraw_from_account permit =? wpl_withdraw_from_account op @ "withdraw_from_account" in
  assert! wp_period_start_time permit <=? now @ "permit.period_start_time <= head_block_time" in
  let! available := available_this_period permit now in
  let! ok := asset_le x available in
  assert! ok @ "op.amount_to_withdraw <= permit.available_this_period( head_block_time )" in
  let! ok := asset_ge (get_balance d (wpl_withdraw_from_account op) (asset_id x)) x in
  assert! ok @ "get_balance >= op.amount_to_withdraw" in
  let! asset_obj := get_asset d (asset_id x) in
  do! (if is_transfer_restricted asset_obj then
         assert! (as_issuer asset_obj =? wp_authorized_account permit)
                 || (as_issuer asset_obj =? wp_withdraw_from_account permit)
           @ "Asset has transfer_restricted flag enabled" in Ok tt
       else Ok tt) in
  let! to := get_account d (wp_authorized_account permit) in
  assert! is_authorized_asset d (wp_authorized_account permit) to (asset_id x) asset_obj
    @ "Account is unauthorized to transact asset due to whitelist / blacklist" in
  let! from := get_account d (wpl_withdraw_from_account op) in
  assert! is_authorized_asset d (wpl_withdraw_from_account op) from (asset_id x) asset_obj
    @ "Account is unauthorized to withdraw asset due to whitelist / blacklist" in
  Ok tt.

Definition withdraw_permission_claim_do_apply (d : database)
    (op : withdraw_permission_claim_operation) (ctx : unit) : result (database * unit) :=
  let! permit := get_permission d (wpl_withdraw_permission op) in
  let! permit' := permission_claim permit (head_block_time d) (amount (wpl_amount_to_withdraw op)) in
  let d := d <| permissions := tmodify (permissions d) (wpl_withdraw_permission op) permit' |> in
  let! d := move_funds d (wpl_withdraw_from_account op) (wpl_withdraw_to_account op)
              (wpl_amount_to_withdraw op) in
  Ok (d, tt).

Definition withdraw_permission_update_do_evaluate (d : database)
    (op : withdraw_permission_update_operation) : result unit :=
  let! permit := get_permission d (wpu_permission_to_update op) in
  assert! wp_authorized_account permit =? wpu_authorized_account op @ "authorized_account" in
  assert! wp_withdraw_from_account permit =? wpu_withdraw_from_account op @ "withdraw_from_account" in
  let! _ := get_asset d (asset_id (wpu_withdrawal_limit op)) in
  assert! wpu_period_start_time op >=? head_block_time d @ "period_start_time" in
  assert! permission_expiration (wpu_period_start_time op) (wpu_periods_until_expiration op)
            (wpu_withdrawal_period_sec op) >? head_block_time d @ "expiration" in
  assert! wpu_withdrawal_period_sec op >=? cp_block_interval (params d) @ "withdrawal_period_sec" in
  Ok tt.

Definition withdraw_permission_update_do_apply (d : database)
    (op : withdraw_permission_update_operation) (ctx : unit) : result (database * unit) :=
  let! p := get_permission d (wpu_permission_to_update op) in
  let p' := p <| wp_period_start_time := wpu_period_start_time op |>
              <| wp_expiration := permission_expiration (wpu_period_start_time op)
                   (wpu_periods_until_expiration op) (wpu_withdrawal_period_sec op) |>
              <| wp_withdrawal_limit := wpu_withdrawal_limit op |>
              <| wp_withdrawal_period_sec := wpu_withdrawal_period_sec op |> in
  Ok (d <| permissions := tmodify (permissions d) (wpu_permission_to_update op) p' |>, tt).

Definition withdraw_permission_delete_do_evaluate (d : database)
    (op : withdraw_permission_delete_operation) : result unit :=
  let! permit := get_permission d (wpd_withdrawal_permission op) in
  assert! wp_authorized_account permit =? wpd_authorized_account op @ "authorized_account" in
  assert! wp_withdraw_from_account permit =? wpd_withdraw_from_account op @ "withdraw_from_account" in
  Ok tt.

Definition withdraw_permission_delete_do_apply (d : database)
    (op : withdraw_permission_delete_operation) (ctx : unit) : result (database * unit) :=
  let! _ := get_permission d (wpd_withdrawal_permission op) in
  Ok (d <| permissions := tremove (permissions d) (wpd_withdrawal_permission op) |>, tt).

#[export] Instance withdraw_permission_create_evaluator :
  Evaluator withdraw_permission_create_operation unit Z := {
  fee_payer := wpc_withdraw_from_account;
  op_fee := wpc_fee;
  validate := withdraw_permission_create_validate;
  do_evaluate := withdraw_permission_create_do_evaluate;
  do_apply := withdraw_permission_create_do_apply;
}.

#[export] Instance withdraw_permission_claim_evaluator :
  Evaluator withdraw_permission_claim_operation unit unit := {
  fee_payer := wpl_withdraw_to_account;
  op_fee := wpl_fee;
  validate := withdraw_permission_claim_validate;
  do_evaluate := withdraw_permission_claim_do_evaluate;
  do_apply := withdraw_permission_claim_do_apply;
}.

#[export] Instance withdraw_permission_update_evaluator :
  Evaluator withdraw_permission_update_operation unit unit := {
  fee_payer := wpu_withdraw_from_account;
  op_fee := wpu_fee;
  validate := withdraw_permission_update_validate;
  do_evaluate := withdraw_permission_update_do_evaluate;
  do_apply := withdraw_permission_update_do_apply;
}.

#[export] Instance withdraw_permission_delete_evaluator :
  Evaluator withdraw_permission_delete_operation unit unit := {
  fee_payer := wpd_withdraw_from_account;
  op_fee := wpd_fee;
  validate := withdraw_permission_delete_validate;
  do_evaluate := withdraw_permission_delete_do_evaluate;
  do_apply := withdraw_permission_delete_do_apply;
}.
End Permission.

Section PermissionTheorems.
Context `{SafeInt64Laws}.

#[export] Instance withdraw_permission_create_laws :
  EvaluatorLaws withdraw_permission_create_operation unit Z.
Proof.
  split. cbn. unfold withdraw_permission_create_do_apply. intros d0 d op ctx d' r _ _ _ Hwf E. mon.
  split; [conserve | destruct Hwf; wf].
Qed.

#[export] Instance withdraw_permission_claim_laws :
  EvaluatorLaws withdraw_permission_claim_operation unit unit.
Proof.
  split. cbn. unfold withdraw_permission_claim_do_apply, get_permission, tfind.
  intros d0 d op ctx d' r _ _ _ Hwf E. mon.
  match goal with E : move_funds _ _ _ _ = Ok _ |- _ =>
    apply move_funds_conserves in E as [Hc Hwf1]; [|destruct Hwf; wf] end.
  split; [|done]. etrans; [|exact Hc]. conserve.
Qed.

#[export] Instance withdraw_permission_update_laws :
  EvaluatorLaws withdraw_permission_update_operation unit unit.
Proof.
  split. cbn. unfold withdraw_permission_update_do_apply, get_permission, tfind.
  intros d0 d op ctx d' r _ _ _ Hwf E. mon. split; [conserve | destruct Hwf; wf].
Qed.

#[export] Instance withdraw_permission_delete_laws :
  EvaluatorLaws withdraw_permission_delete_operation unit unit.
Proof.
  split. cbn. unfold withdraw_permission_delete_do_apply, get_permission, tfind.
  intros d0 d op ctx d' r _ _ _ Hwf E. mon. split; [conserve | destruct Hwf; wf].
Qed.

(** ** Histories of claims *)

(** What is taken from the balance of [owner] in the [k]-th period after [start]: the
    balance before each claim minus the balance after it. *)
Definition withdrawn (owner : account_id_type) (a : asset_id_type) (start period k : Z)
    (l : list (database * database)) : Z :=
  foldr (fun c s => (if (head_block_time c.1 - start) / period =? k
                     then balance_of c.1 owner a - balance_of c.2 owner a else 0) + s) 0 l.

Lemma withdrawn_cons owner a start period k c l :
  withdrawn owner a start period k (c :: l)
    = (if (head_block_time c.1 - start) / period =? k
       then balance_of c.1 owner a - balance_of c.2 owner a else 0) + withdrawn owner a start period k l.
Proof. done. Qed.

Definition permission_ok (p : withdraw_permission_object) : Prop :=
  0 <= wp_period_start_time p /\ 0 < wp_withdrawal_period_sec p
  /\ 0 <= wp_claimed_this_period p <= INT64_MAX /\ amount_ok (amount (wp_withdrawal_limit p)).

Lemma withdrawn_shift owner a start period k q l :
  0 < period -> withdrawn owner a (start + q * period) period k l = withdrawn owner a start period (k + q) l.
Proof.
  intros Hp. induction l as [|c l IH]; [done|]. rewrite !withdrawn_cons, IH. f_equal.
  replace (head_block_time c.1 - (start + q * period)) with (head_block_time c.1 - start + (- q) * period) by lia.
  rewrite Z.div_add by lia. destruct (Z.eqb_spec ((head_block_time c.1 - start) / period + - q) k),
    (Z.eqb_spec ((head_block_time c.1 - start) / period) (k + q)); lia.
Qed.

Lemma withdrawn_past owner a start period k t l :
  0 < period -> Forall (fun c => t <= head_block_time c.1) l -> k < (t - start) / period ->
  withdrawn owner a start period k l = 0.
Proof.
  intros Hp Hl Hk. induction Hl as [|c l Ht Hl IH]; [done|]. rewrite withdrawn_cons, IH.
  assert ((t - start) / period <= (head_block_time c.1 - start) / period) by (apply Z.div_le_mono; lia).
  destruct (Z.eqb_spec ((head_block_time c.1 - start) / period) k); lia.
Qed.

(** What the checks of the evaluator say about the permission. *)
Lemma claim_checks d op p :
  tfind (permissions d) (wpl_withdraw_permission op) = Some p ->
  withdraw_permission_claim_validate op = Ok tt -> withdraw_permission_claim_do_evaluate d op = Ok tt ->
  let x := wpl_amount_to_withdraw op in
  wp_period_start_time p <= head_block_time d /\ 0 < amount x
  /\ (exists a, available_this_period p (head_block_time d) = Ok a /\ amount x <= amount a)
  /\ asset_id x = asset_id (wp_withdrawal_limit p)
  /\ wpl_withdraw_from_account op = wp_withdraw_from_account p
  /\ wpl_withdraw_to_account op = wp_authorized_account p
  /\ wp_authorized_account p <> wp_withdraw_from_account p.
Proof.
  intros Hp Hv He. unfold withdraw_permission_claim_validate, withdraw_permission_claim_do_evaluate, get_permission in *.
  rewrite Hp in He. cbn [of_option rbind] in He. mon. asset_ints. reflect_bools.
  split_and!; try done; try lia; [eexists; split; [eassumption|lia]|].
  unfold available_this_period in *. destruct (_ >=? _); mon; cbn in *; congruence.
Qed.

(** The new permission, without wrap-around. *)
Lemma permission_claim_exact p now x p' a :
  permission_ok p -> now + wp_withdrawal_period_sec p < 2 ^ 32 -> wp_period_start_time p <= now -> 0 < x ->
  available_this_period p now = Ok a -> x <= amount a -> permission_claim p now x = Ok p' ->
  let period := wp_withdrawal_period_sec p in
  let q := (now - wp_period_start_time p) / period in
  let before := if q =? 0 then wp_claimed_this_period p else 0 in
  0 <= q /\ before + x <= amount (wp_withdrawal_limit p)
  /\ p' = p <| wp_period_start_time := wp_period_start_time p + q * period |>
            <| wp_claimed_this_period := before + x |>
  /\ permission_ok p'.
Proof.
  intros (Hs & Hpd & Hc & Hl) Hnow Hle Hx Ha Hxa E period q before.
  unfold permission_claim in E. unfold available_this_period in Ha.
  rewrite Z.quot_div_nonneg in E by lia. fold period q in E. rewrite Z.geb_leb in Ha.
  assert (0 <= q) by (apply Z.div_pos; lia).
  pose proof (div_mul_le (now - wp_period_start_time p) period Hpd).
  pose proof (div_lt_mul (now - wp_period_start_time p) period Hpd). fold q in H2, H3.
  rewrite tps_add_small in E by nia.
  rewrite tps_add_small in Ha by (fold period; lia). fold period in Ha.
  unfold amount_ok in Hl. subst before. destruct (Z.eqb_spec q 0) as [Hq|Hq].
  - cbn in E. mon. safe_ints. subst. cbn.
    destruct (Z.leb_spec (wp_period_start_time p + period) now); [nia|].
    assert (wp_claimed_this_period p + x <= amount (wp_withdrawal_limit p)) as Hlim.
    { destruct (_ >? _) eqn:Hg; mon; cbn in *; [|lia]. safe_ints. lia. }
    split_and!; try done; try lia. unfold permission_ok, amount_ok. cbn. split_and!; try done; nia.
  - cbn in E. mon. cbn.
    destruct (Z.leb_spec (wp_period_start_time p + period) now); [|nia]. mon.
    split_and!; try done; try lia. unfold permission_ok, amount_ok. cbn. split_and!; try done; nia.
Qed.

(** A permission starts out well-formed and unused. *)
Lemma permission_created d0 d (op : withdraw_permission_create_operation) d' id :
  validate op = Ok tt -> do_evaluate d0 op = Ok tt -> do_apply d op tt = Ok (d', id) ->
  0 <= head_block_time d0 -> amount (wpc_withdrawal_limit op) <= INT64_MAX ->
  exists p, tfind (permissions d') id = Some p /\ permission_ok p /\ wp_claimed_this_period p = 0
    /\ wp_authorized_account p <> wp_withdraw_from_account p.
Proof.
  cbn. unfold withdraw_permission_create_validate, withdraw_permission_create_do_evaluate,
    withdraw_permission_create_do_apply. intros Hv He Ha Ht Hl. mon. reflect_bools.
  eexists. split; [unfold tcreate, tfind; cbn; apply lookup_insert_eq|].
  unfold permission_ok, amount_ok, INT64_MAX in *. cbn. split_and!; congruence || lia.
Qed.

Section History.
Variable calculate_fee : database -> withdraw_permission_claim_operation -> result share_type.
Variable skip_fee_schedule_check : bool.
Variable id : Z.

(** A history of the chain as the permission [id] sees it: claims of it, and between them
    anything that leaves this permission as it is, while time does not run backwards. The
    list holds the states before and after each claim. *)
Inductive permission_history : database -> list (database * database) -> Prop :=
  | history_end d : permission_history d []
  | history_claim d op d' l : wpl_withdraw_permission op = id ->
      apply_operation calculate_fee skip_fee_schedule_check d op = Ok (d', tt) ->
      permission_history d' l -> permission_history d ((d, d') :: l)
  | history_other d d' l : head_block_time d <= head_block_time d' ->
      tfind (permissions d') id = tfind (permissions d) id ->
      permission_history d' l -> permission_history d l.

(** A claim by the real evaluator: what it does to the permission and to the balances. *)
Lemma claim_exact d op d' p :
  wpl_withdraw_permission op = id -> tfind (permissions d) id = Some p -> permission_ok p ->
  head_block_time d + wp_withdrawal_period_sec p < 2 ^ 32 ->
  apply_operation calculate_fee skip_fee_schedule_check d op = Ok (d', tt) ->
  let x := wpl_amount_to_withdraw op in
  let q := (head_block_time d - wp_period_start_time p) / wp_withdrawal_period_sec p in
  let before := if q =? 0 then wp_claimed_this_period p else 0 in
  0 <= q /\ 0 < amount x /\ before + amount x <= amount (wp_withdrawal_limit p)
  /\ (exists p', tfind (permissions d') id = Some p' /\ permission_ok p'
       /\ p' = p <| wp_period_start_time := wp_period_start_time p + q * wp_withdrawal_period_sec p |>
                 <| wp_claimed_this_period := before + amount x |>)
  /\ head_block_time d' = head_block_time d
  /\ forall o i, o <> wp_authorized_account p ->
       balance_of d' o i
       = balance_of d o i - (if o =? wp_withdraw_from_account p
                             then ind i (asset_id (wp_withdrawal_limit p)) * amount x else 0).
Proof.
  intros <- Hp Hok Hnow E. cbn zeta.
  apply apply_operation_inv in E as [Hv E]. apply start_evaluate_run in E as (d1 & [] & d2 & He & Hof & Ha & Hfee).
  destruct (claim_checks d op p Hp Hv He) as (Hle & Hx & (a & Hav & Hxa) & Hi & Hfrom & Hto & Hne).
  cbn in Ha, Hfee. rewrite Hto in Hfee. destruct Hof as (dd & st & -> & _).
  unfold withdraw_permission_claim_do_apply, get_permission in Ha. cbn [permissions head_block_time] in Ha.
  cbn in Ha. rewrite Hp in Ha. cbn [of_option rbind] in Ha. mon.
  match goal with R : permission_claim _ _ _ = Ok _, M : move_funds _ _ _ _ = Ok _ |- _ =>
    rename R into Hc; rename M into Hm end.
  destruct (permission_claim_exact _ _ _ _ _ Hok Hnow Hle Hx Hav Hxa Hc) as (Hq & Hlim & -> & Hok').
  assert (forall o i, o <> wp_authorized_account p ->
    balance_of d' o i = balance_of d o i - (if o =? wp_withdraw_from_account p
      then ind i (asset_id (wp_withdrawal_limit p)) * amount (wpl_amount_to_withdraw op) else 0)) as Hbal.
  { intros o i Ho. rewrite (adjust_balance_value _ _ _ _ Hfee), (move_funds_value _ _ _ _ _ Hm).
    rewrite Hto, Hfrom, (proj2 (Z.eqb_neq o _)) by done. unfold asset_in. rewrite Hi.
    match goal with |- ?x + 0 - ?y + 0 = ?z - ?u => change x with z; lia end. }
  unfold move_funds in Hm. mon. asset_ints. adjust_steps.
  split_and!; try done. eexists. split; [apply lookup_tmodify|]. by split.
Qed.

Lemma history_times d l : permission_history d l -> forall p, tfind (permissions d) id = Some p -> permission_ok p ->
  Forall (fun c => head_block_time c.1 + wp_withdrawal_period_sec p < 2 ^ 32) l ->
  Forall (fun c => head_block_time d <= head_block_time c.1) l.
Proof.
  induction 1 as [d|d op d' l Hid E Hl IH|d d' l Ht Hsame Hl IH]; intros p Hp Hok Hb; try (constructor; [cbn; lia|]); try done.
  - apply Forall_cons in Hb as [Hb1 Hb].
    destruct (claim_exact d op d' p Hid Hp Hok Hb1 E) as (_ & _ & _ & (p' & Hp' & Hok' & Ep) & Et & _).
    rewrite <- Et. apply (IH p' Hp' Hok'). by rewrite Ep.
  - rewrite <- Hsame in Hp. eapply Forall_impl; [exact (IH p Hp Hok Hb)|]. cbn. lia.
Qed.
Lemma history_bound d l : permission_history d l -> forall p, tfind (permissions d) id = Some p -> permission_ok p ->
  Forall (fun c => head_block_time c.1 + wp_withdrawal_period_sec p < 2 ^ 32) l ->
  wp_authorized_account p <> wp_withdraw_from_account p -> forall k, 0 <= k ->
    withdrawn (wp_withdraw_from_account p) (asset_id (wp_withdrawal_limit p))
      (wp_period_start_time p) (wp_withdrawal_period_sec p) k l
    <= if k =? 0 then Z.max 0 (amount (wp_withdrawal_limit p) - wp_claimed_this_period p)
       else amount (wp_withdrawal_limit p).
Proof.
  induction 1 as [d|d op d' l Hid E Hl IH|d d' l Ht Hsame Hl IH]; intros p Hp Hok Hb Hne k Hk.
  - cbn. destruct Hok as (_ & _ & _ & ? & _). destruct (k =? 0); lia.
  - apply Forall_cons in Hb as [Hb1 Hb]. rewrite withdrawn_cons.
    destruct (claim_exact d op d' p Hid Hp Hok Hb1 E) as (Hq & Hx & Hlim & (p' & Hp' & Hok' & Ep) & Et & Hbal).
    cbn [fst snd] in *. rewrite Hbal by done. rewrite Z.eqb_refl. unfold ind. rewrite Z.eqb_refl.
    set (q := (head_block_time d - wp_period_start_time p) / wp_withdrawal_period_sec p) in *.
    specialize (IH p' Hp' Hok'). rewrite Ep in IH. cbn in IH. specialize (IH Hb Hne).
    assert (0 < wp_withdrawal_period_sec p) as Hpd by apply Hok.
    assert (0 <= wp_claimed_this_period p) as Hc by apply Hok.
    destruct (Z.lt_ge_cases k q) as [Hkq|Hkq].
    + rewrite (withdrawn_past _ _ _ _ _ (head_block_time d)); [|done| |exact Hkq].
      2:{ rewrite <- Et. apply (history_times _ _ Hl p' Hp' Hok'). by rewrite Ep. }
      destruct (Z.eqb_spec q k); [lia|]. destruct Hok as (_ & _ & _ & ? & _). destruct (k =? 0); lia.
    + specialize (IH (k - q) ltac:(lia)). rewrite withdrawn_shift in IH by done.
      replace (k - q + q) with k in IH by lia.
      destruct (Z.eqb_spec q k) as [<-|Hkn].
      * rewrite Z.sub_diag in IH. cbn in IH. destruct (Z.eqb_spec q 0); lia.
      * destruct (Z.eqb_spec (k - q) 0); [lia|]. destruct (Z.eqb_spec k 0); lia.
  - rewrite <- Hsame in Hp. by apply (IH p).
Qed.

(** A claim touches nobody but the two parties, and only the limit's asset. *)
Lemma history_parties d l : permission_history d l -> forall p, tfind (permissions d) id = Some p -> permission_ok p ->
  Forall (fun c => head_block_time c.1 + wp_withdrawal_period_sec p < 2 ^ 32) l ->
  Forall (fun c => forall o i, o <> wp_authorized_account p ->
    (o, i) <> (wp_withdraw_from_account p, asset_id (wp_withdrawal_limit p)) ->
    balance_of c.2 o i = balance_of c.1 o i) l.
Proof.
  induction 1 as [d|d op d' l Hid E Hl IH|d d' l Ht Hsame Hl IH]; intros p Hp Hok Hb; [done| |].
  - apply Forall_cons in Hb as [Hb1 Hb].
    destruct (claim_exact d op d' p Hid Hp Hok Hb1 E) as (_ & _ & _ & (p' & Hp' & Hok' & Ep) & _ & Hbal).
    constructor.
    + intros o i Ho Hoi. cbn. rewrite Hbal by done. destruct (Z.eqb_spec o (wp_withdraw_from_account p)) as [->|]; [|lia].
      unfold ind. rewrite (proj2 (Z.eqb_neq _ _)) by congruence. lia.
    + specialize (IH p' Hp' Hok'). rewrite Ep in IH. by apply IH.
  - rewrite <- Hsame in Hp. by apply (IH p).
Qed.

(** C15: A withdrawal permission is a limit. Whatever happens on the chain while the
    permission stays as its owner set it (claims of it, and between them anything that
    does not change it, with time not running backwards), what the claims take from the
    owner's balance in any one period adds up to at most the withdrawal limit, across the
    lazy roll-over of periods (the first period counts what had been claimed in it
    before); and no claim changes a balance of anybody but the owner and the authorised
    account, nor another asset of the owner. The owner is not the authorised account
    (checked when the permission is created), and each claim is made at a time that is
    at least one period away from the end of the 32-bit time range. *)
Theorem withdraw_permission_limit d p l :
  tfind (permissions d) id = Some p -> permission_ok p ->
  wp_claimed_this_period p <= amount (wp_withdrawal_limit p) ->
  wp_authorized_account p <> wp_withdraw_from_account p ->
  permission_history d l -> Forall (fun c => head_block_time c.1 + wp_withdrawal_period_sec p < 2 ^ 32) l ->
  (forall k, 0 <= k ->
    withdrawn (wp_withdraw_from_account p) (asset_id (wp_withdrawal_limit p))
      (wp_period_start_time p) (wp_withdrawal_period_sec p) k l
      + (if k =? 0 then wp_claimed_this_period p else 0) <= amount (wp_withdrawal_limit p))
  /\ Forall (fun c => forall o i, o <> wp_authorized_account p ->
       (o, i) <> (wp_withdraw_from_account p, asset_id (wp_withdrawal_limit p)) ->
       balance_of c.2 o i = balance_of c.1 o i) l.
Proof.
  intros Hp Hok Hc Hne Hh Hb. split; [|by apply (history_parties d)].
  intros k Hk. pose proof (history_bound d l Hh p Hp Hok Hb Hne k Hk). destruct (k =? 0); lia.
Qed.
End History.
End PermissionTheorems.

(** ** A sample permission *)

(** Account 6 lets account 7 take 100 of asset 1 per thousand seconds. *)
Definition sample_permission : withdraw_permission_create_operation :=
  WithdrawPermissionCreate (Asset 10 CORE) 6 7 (Asset 100 1) 1000 50 1800000100.
Definition sample_claim (n : Z) : withdraw_permission_claim_operation :=
  WithdrawPermissionClaim (Asset 3 CORE) 0 6 7 (Asset n 1).

Definition permission0 : database := after (apply_operation (no_fee _) true sample_db sample_permission).
(** Two claims in the first period, one in the second. *)
Definition permission1 : database := permission0 <| head_block_time := 1800000200 |>.
Definition permission2 : database := after (apply_operation (no_fee _) true permission1 (sample_claim 60)).
Definition permission3 : database := after (apply_operation (no_fee _) true permission2 (sample_claim 40)).
Definition permission4 : database := permission3 <| head_block_time := 1800001500 |>.
Definition permission5 : database := after (apply_operation (no_fee _) true permission4 (sample_claim 100)).

Lemma sample_history : permission_history (no_fee _) true 0 permission0
  [(permission1, permission2); (permission2, permission3); (permission4, permission5)].
Proof.
  assert (forall d n, is_ok (apply_operation (no_fee _) true d (sample_claim n)) = true ->
    apply_operation (no_fee _) true d (sample_claim n) = Ok (after (apply_operation (no_fee _) true d (sample_claim n)), tt))
    as Hrun by (intros d n Hok; by destruct (after_ok _ Hok) as [[] E]).
  apply (history_other _ _ _ _ permission1); [vm_compute; discriminate | vm_compute; reflexivity |].
  apply (history_claim _ _ _ _ (sample_claim 60)); [reflexivity | apply Hrun; vm_compute; reflexivity |].
  apply (history_claim _ _ _ _ (sample_claim 40)); [reflexivity | apply Hrun; vm_compute; reflexivity |].
  apply (history_other _ _ _ _ permission4); [vm_compute; discriminate | vm_compute; reflexivity |].
  apply (history_claim _ _ _ _ (sample_claim 100)); [reflexivity | apply Hrun; vm_compute; reflexivity |].
  apply history_end.
Qed.

(** One more unit in the second period is refused. *)
Example sample_over_limit : apply_operation (no_fee _) true permission5 (sample_claim 1)
  = Err (assert_exception "op.amount_to_withdraw <= permit.available_this_period( head_block_time )").
Proof. vm_compute. reflexivity. Qed.

Lemma withdraw_permission_limit_witness :
  let l := [(permission1, permission2); (permission2, permission3); (permission4, permission5)] in
  withdrawn 6 1 1800000100 1000 0 l = 100 /\ withdrawn 6 1 1800000100 1000 1 l <= 100.
Proof.
  intros l. split; [vm_compute; reflexivity|].
  destruct (withdraw_permission_limit (no_fee _) true 0 permission0
    (WithdrawPermission 6 7 (Asset 100 1) 1000 1800000100 1800050100 0) l) as [Hl _].
  - vm_compute. reflexivity.
  - unfold permission_ok, amount_ok, INT64_MAX. cbn. lia.
  - vm_compute. discriminate.
  - discriminate.
  - exact sample_history.
  - repeat constructor.
  - exact (Hl 1 ltac:(lia)).
Defined.
