(* ===== verification/SametFund.v ===== *)
(** SameT funds (funds whose loans are repaid within the transaction):
    [samet_fund_evaluator.cpp], [protocol/samet_fund.cpp]. *)
From S2P Require Import Prelude Records Fc Asset Objects Vesting Database Holdings Sample Fees Evaluator.

Record samet_fund_create_operation := SametFundCreate {
  sfc_fee : asset;
  sfc_owner_account : account_id_type;
  sfc_asset_type : asset_id_type;
  sfc_balance : share_type;
  sfc_fee_rate : Z;
}.

Record samet_fund_delete_operation := SametFundDelete {
  sfd_fee : asset;
  sfd_owner_account : account_id_type;
  sfd_fund_id : Z;
}.

Record samet_fund_update_operation := SametFundUpdate {
  sfu_fee : asset;
  sfu_owner_account : account_id_type;
  sfu_fund_id : Z;
  sfu_delta_amount : option asset;
  sfu_new_fee_rate : option Z;
}.

Record samet_fund_borrow_operation := SametFundBorrow {
  sfb_fee : asset;
  sfb_borrower : account_id_type;
  sfb_fund_id : Z;
  sfb_borrow_amount : asset;
}.

Record samet_fund_repay_operation := SametFundRepay {
  sfr_fee : asset;
  sfr_account : account_id_type;
  sfr_fund_id : Z;
  sfr_repay_amount : asset;
  sfr_fund_fee : asset;
}.

(** ** Validation *)

Definition samet_fund_create_validate (op : samet_fund_create_operation) : result unit :=
  assert! 0 <=? amount (sfc_fee op) @ "Fee should not be negative" in
  assert! 0 <? sfc_balance op @ "Balance should be positive" in
  Ok tt.

Definition samet_fund_delete_validate (op : samet_fund_delete_operation) : result unit :=
  assert! 0 <=? amount (sfd_fee op) @ "Fee should not be negative" in
  Ok tt.

Definition samet_fund_update_validate (op : samet_fund_update_operation) : result unit :=
  assert! 0 <=? amount (sfu_fee op) @ "Fee should not be negative" in
  assert! match sfu_delta_amount op, sfu_new_fee_rate op with None, None => false | _, _ => true end
    @ "Should change something" in
  match sfu_delta_amount op with
  | Some delta => assert! negb (amount delta =? 0) @ "Delta amount should not be zero" in Ok tt
  | None => Ok tt
  end.

Definition samet_fund_borrow_validate (op : samet_fund_borrow_operation) : result unit :=
  assert! 0 <=? amount (sfb_fee op) @ "Fee should not be negative" in
  assert! 0 <? amount (sfb_borrow_amount op) @ "Amount to borrow should be positive" in
  Ok tt.

Definition samet_fund_repay_validate (op : samet_fund_repay_operation) : result unit :=
  assert! 0 <=? amount (sfr_fee op) @ "Fee should not be negative" in
  assert! 0 <? amount (sfr_repay_amount op) @ "Amount to repay should be positive" in
  assert! 0 <=? amount (sfr_fund_fee op) @ "Fund fee should not be negative" in
  assert! asset_id (sfr_repay_amount op) =? asset_id (sfr_fund_fee op)
    @ "Asset type of repay amount and fund fee should be the same" in
  Ok tt.

(** ** Evaluators *)

Section SametFund.
Context `{SafeInt64}.

Definition get_fund (d : database) (id : Z) : result samet_fund_object :=
  of_option "SameT fund" (tfind (samet_funds d) id).

Definition samet_fund_create_do_evaluate (d : database) (op : samet_fund_create_operation) : result unit :=
  assert! HARDFORK_CORE_2351_PASSED (head_block_time d) @ "Not allowed until the core-2351 hardfork" in
  let! acct := get_account d (sfc_owner_account op) in
  let! a := get_asset d (sfc_asset_type op) in
  assert! is_authorized_asset d (sfc_owner_account op) acct (sfc_asset_type op) a
    @ "The account is unauthorized by the asset" in
  Ok tt.

Definition samet_fund_create_do_apply (d : database) (op : samet_fund_create_operation) (ctx : unit)
    : result (database * Z) :=
  let! minus := asset_neg (Asset (sfc_balance op) (sfc_asset_type op)) in
  let! d := adjust_balance d (sfc_owner_account op) minus in
  let f := SametFund (sfc_owner_account op) (sfc_asset_type op) (sfc_balance op) (sfc_fee_rate op) 0 in
  Ok (d <| samet_funds := tcreate (samet_funds d) f |>, next_id (samet_funds d)).

Definition samet_fund_delete_do_evaluate (d : database) (op : samet_fund_delete_operation) : result unit :=
  let! fund := get_fund d (sfd_fund_id op) in
  assert! sf_owner_account fund =? sfd_owner_account op
    @ "The account is not the owner of the SameT Fund" in
  assert! sf_unpaid_amount fund =? 0
    @ "Can only delete a SameT Fund when the unpaid amount is zero" in
  Ok tt.

Definition samet_fund_delete_do_apply (d : database) (op : samet_fund_delete_operation) (ctx : unit)
    : result (database * asset) :=
  let! fund := get_fund d (sfd_fund_id op) in
  let released := Asset (sf_balance fund) (sf_asset_type fund) in
  let! d := adjust_balance d (sfd_owner_account op) released in
  Ok (d <| samet_funds := tremove (samet_funds d) (sfd_fund_id op) |>, released).

Definition samet_fund_update_do_evaluate (d : database) (op : samet_fund_update_operation) : result unit :=
  let! fund := get_fund d (sfu_fund_id op) in
  assert! sf_owner_account fund =? sfu_owner_account op
    @ "The account is not the owner of the SameT Fund" in
  do! (match sfu_delta_amount op with
       | Some delta =>
           assert! sf_asset_type fund =? asset_id delta @ "Asset type mismatch" in
           assert! sf_unpaid_amount fund =? 0
             @ "Can only update the balance of a SameT Fund when the unpaid amount is zero" in
           if amount delta >? 0 then
             let! acct := get_account d (sfu_owner_account op) in
             let! a := get_asset d (sf_asset_type fund) in
             assert! is_authorized_asset d (sfu_owner_account op) acct (sf_asset_type fund) a
               @ "The account is unauthorized by the asset" in Ok tt
           else
             let! taken := safe_neg (amount delta) in
             assert! sf_balance fund >? taken @ "Insufficient balance in the SameT Fund" in Ok tt
       | None => Ok tt
       end) in
  match sfu_new_fee_rate op with
  | Some r => assert! negb (sf_fee_rate fund =? r)
                @ "New fee rate should not be the same as the original fee rate" in Ok tt
  | None => Ok tt
  end.

Definition samet_fund_update_do_apply (d : database) (op : samet_fund_update_operation) (ctx : unit)
    : result (database * unit) :=
  let! d := match sfu_delta_amount op with
            | Some delta => let! minus := asset_neg delta in adjust_balance d (sfu_owner_account op) minus
            | None => Ok d
            end in
  let! fund := get_fund d (sfu_fund_id op) in
  let! balance := match sfu_delta_amount op with
                  | Some delta => safe_add (sf_balance fund) (amount delta)
                  | None => Ok (sf_balance fund)
                  end in
  let fund' := fund <| sf_balance := balance |>
                    <| sf_fee_rate := match sfu_new_fee_rate op with
                                      | Some r => r | None => sf_fee_rate fund end |> in
  let d := d <| samet_funds := tmodify (samet_funds d) (sfu_fund_id op) fund' |> in
  assert! 0 <? sf_balance fund' @ "Balance in the SameT Fund should be positive" in
  Ok (d, tt).

Definition samet_fund_borrow_do_evaluate (d : database) (op : samet_fund_borrow_operation) : result unit :=
  let! fund := get_fund d (sfb_fund_id op) in
  assert! sf_asset_type fund =? asset_id (sfb_borrow_amount op) @ "Asset type mismatch" in
  let! total := safe_add (sf_unpaid_amount fund) (amount (sfb_borrow_amount op)) in
  assert! sf_balance fund >=? total
    @ "Insufficient balance in the SameT Fund thus unable to borrow" in
  let! acct := get_account d (sfb_borrower op) in
  let! a := get_asset d (sf_asset_type fund) in
  assert! is_authorized_asset d (sfb_borrower op) acct (sf_asset_type fund) a
    @ "The account is unauthorized by the asset" in
  Ok tt.

(** The result lists the impacted accounts: the owner of the fund. *)
Definition samet_fund_borrow_do_apply (d : database) (op : samet_fund_borrow_operation) (ctx : unit)
    : result (database * account_id_type) :=
  let! fund := get_fund d (sfb_fund_id op) in
  let! unpaid := safe_add (sf_unpaid_amount fund) (amount (sfb_borrow_amount op)) in
  let fund' := fund <| sf_unpaid_amount := unpaid |> in
  let d := d <| samet_funds := tmodify (samet_funds d) (sfb_fund_id op) fund' |> in
  let! d := adjust_balance d (sfb_borrower op) (sfb_borrow_amount op) in
  assert! sf_balance fund' >=? sf_unpaid_amount fund' @ "Should not borrow more than available" in
  Ok (d, sf_owner_account fund').

(** The fee for repaying [n], rounded up. *)
Definition samet_required_fee (n fee_rate : Z) : Z :=
  u128 (u128 (u128 (u128 n * fee_rate) + GRAPHENE_FEE_RATE_DENOM) - 1) / GRAPHENE_FEE_RATE_DENOM.

Definition samet_fund_repay_do_evaluate (d : database) (op : samet_fund_repay_operation) : result unit :=
  let! fund := get_fund d (sfr_fund_id op) in
  assert! sf_asset_type fund =? asset_id (sfr_repay_amount op) @ "Asset type mismatch" in
  let! acct := get_account d (sfr_account op) in
  let! a := get_asset d (sf_asset_type fund) in
  assert! is_authorized_asset d (sfr_account op) acct (sf_asset_type fund) a
    @ "The account is unauthorized by the asset" in
  assert! amount (sfr_repay_amount op) <=? sf_unpaid_amount fund
    @ "Repay amount should not be greater than unpaid amount" in
  assert! u128 (amount (sfr_fund_fee op))
          >=? samet_required_fee (amount (sfr_repay_amount op)) (sf_fee_rate fund)
    @ "Insuffient fund fee" in
  Ok tt.

Definition samet_fund_repay_do_apply (d : database) (op : samet_fund_repay_operation) (ctx : unit)
    : result (database * account_id_type) :=
  let! total := asset_add (sfr_repay_amount op) (sfr_fund_fee op) in
  let! minus := asset_neg total in
  let! d := adjust_balance d (sfr_account op) minus in
  let! fund := get_fund d (sfr_fund_id op) in
  let! balance := safe_add (sf_balance fund) (amount (sfr_fund_fee op)) in
  let! unpaid := safe_sub (sf_unpaid_amount fund) (amount (sfr_repay_amount op)) in
  let fund' := fund <| sf_balance := balance |> <| sf_unpaid_amount := unpaid |> in
  Ok (d <| samet_funds := tmodify (samet_funds d) (sfr_fund_id op) fund' |>, sf_owner_account fund').

#[export] Instance samet_fund_create_evaluator : Evaluator samet_fund_create_operation unit Z := {
  fee_payer := sfc_owner_account;
  op_fee := sfc_fee;
  validate := samet_fund_create_validate;
  do_evaluate := samet_fund_create_do_evaluate;
  do_apply := samet_fund_create_do_apply;
}.

#[export] Instance samet_fund_delete_evaluator : Evaluator samet_fund_delete_operation unit asset := {
  fee_payer := sfd_owner_account;
  op_fee := sfd_fee;
  validate := samet_fund_delete_validate;
  do_evaluate := samet_fund_delete_do_evaluate;
  do_apply := samet_fund_delete_do_apply;
}.

#[export] Instance samet_fund_update_evaluator : Evaluator samet_fund_update_operation unit unit := {
  fee_payer := sfu_owner_account;
  op_fee := sfu_fee;
  validate := samet_fund_update_validate;
  do_evaluate := samet_fund_update_do_evaluate;
  do_apply := samet_fund_update_do_apply;
}.

#[export] Instance samet_fund_borrow_evaluator :
  Evaluator samet_fund_borrow_operation unit account_id_type := {
  fee_payer := sfb_borrower;
  op_fee := sfb_fee;
  validate := samet_fund_borrow_validate;
  do_evaluate := samet_fund_borrow_do_evaluate;
  do_apply := samet_fund_borrow_do_apply;
}.

#[export] Instance samet_fund_repay_evaluator :
  Evaluator samet_fund_repay_operation unit account_id_type := {
  fee_payer := sfr_account;
  op_fee := sfr_fee;
  validate := samet_fund_repay_validate;
  do_evaluate := samet_fund_repay_do_evaluate;
  do_apply := samet_fund_repay_do_apply;
}.
End SametFund.

Section SametFundTheorems.
Context `{SafeInt64Laws}.

Ltac start_apply :=
  split; cbn;
  unfold samet_fund_create_do_apply, samet_fund_delete_do_apply, samet_fund_update_do_apply,
    samet_fund_borrow_do_apply, samet_fund_repay_do_apply, get_fund, tfind;
  intros d0 d op ctx d' r Hval Heval Hfees Hwf E; mon; asset_ints.

#[export] Instance samet_fund_create_laws : EvaluatorLaws samet_fund_create_operation unit Z.
Proof. start_apply. adjust_steps. split; [conserve | destruct Hwf; wf]. Qed.

#[export] Instance samet_fund_delete_laws : EvaluatorLaws samet_fund_delete_operation unit asset.
Proof.
  start_apply. adjust_steps. split; [|destruct Hwf; wf].
  unfold samet_fund_delete_do_evaluate, get_fund, tfind in Heval. after_fees. mon.
  conserve.
Qed.

#[export] Instance samet_fund_update_laws : EvaluatorLaws samet_fund_update_operation unit unit.
Proof.
  start_apply. unfold samet_fund_update_do_evaluate, get_fund, tfind in Heval. after_fees.
  destruct (sfu_delta_amount op); mon; asset_ints; adjust_steps; subst; (split; [conserve | destruct Hwf; wf]).
Qed.

#[export] Instance samet_fund_borrow_laws :
  EvaluatorLaws samet_fund_borrow_operation unit account_id_type.
Proof.
  start_apply. unfold samet_fund_borrow_do_evaluate, get_fund, tfind in Heval. after_fees. mon.
  adjust_steps. subst. split; [conserve | destruct Hwf; wf].
Qed.

#[export] Instance samet_fund_repay_laws :
  EvaluatorLaws samet_fund_repay_operation unit account_id_type.
Proof.
  start_apply. unfold samet_fund_repay_do_evaluate, get_fund, tfind in Heval. after_fees. mon.
  adjust_steps. subst. split; [conserve | destruct Hwf; wf].
Qed.

(** A fund is solvent: it holds something and has not lent more than it holds. *)
Definition fund_wf (f : samet_fund_object) : Prop :=
  0 < sf_balance f /\ 0 <= sf_unpaid_amount f <= sf_balance f.

Definition samet_funds_wf (d : database) : Prop := tall fund_wf (samet_funds d).

Ltac start_preserves :=
  unfold preserves; cbn;
  unfold samet_fund_create_do_apply, samet_fund_delete_do_apply, samet_fund_update_do_apply,
    samet_fund_borrow_do_apply, samet_fund_repay_do_apply,
    samet_fund_create_do_evaluate, samet_fund_delete_do_evaluate, samet_fund_update_do_evaluate,
    samet_fund_borrow_do_evaluate, samet_fund_repay_do_evaluate,
    samet_fund_create_validate, samet_fund_delete_validate, samet_fund_update_validate,
    samet_fund_borrow_validate, samet_fund_repay_validate, get_fund, tfind, samet_funds_wf;
  intros d0 d op ctx d' r Hval Heval Hfees Hf E; after_fees; mon; asset_ints; adjust_steps; same_rows.

(** A row of a table that is well-formed throughout is well-formed. *)
Ltac row_wf :=
  match goal with
  | Ht : tall ?P (?f ?d), R : rows (?f ?d) !! _ = Some ?x |- _ =>
      pose proof (tall_lookup P _ _ _ Ht R)
  end.

(** C14: SameT funds stay solvent: each of the five operations, applied after its
    checks (with only a fee taken in between), preserves that every fund holds a
    positive balance and has lent between nothing and that balance. *)
Theorem samet_funds_solvent :
  preserves samet_funds_wf samet_fund_create_operation
  /\ preserves samet_funds_wf samet_fund_delete_operation
  /\ preserves samet_funds_wf samet_fund_update_operation
  /\ preserves samet_funds_wf samet_fund_borrow_operation
  /\ preserves samet_funds_wf samet_fund_repay_operation.
Proof.
  split_and!; start_preserves.
  - apply tall_create; [|done]. unfold fund_wf. cbn. lia.
  - by apply tall_remove.
  - destruct (sfu_delta_amount op); mon; asset_ints; adjust_steps; same_rows; row_wf;
      unfold fund_wf in *; (apply tall_modify; [cbn; lia | done]).
  - row_wf. unfold fund_wf in *. apply tall_modify; [cbn; lia | done].
  - row_wf. unfold fund_wf in *. apply tall_modify; [cbn; lia | done].
Qed.

Lemma samet_required_fee_exact n rate :
  amount_ok n -> 0 <= rate < 2 ^ 32 ->
  samet_required_fee n rate = ceil_div (n * rate) GRAPHENE_FEE_RATE_DENOM.
Proof.
  unfold amount_ok, INT64_MAX, samet_required_fee, ceil_div, GRAPHENE_FEE_RATE_DENOM. intros Hn Hr.
  assert (0 <= n * rate < 2 ^ 95) by (change (2 ^ 95) with (2 ^ 63 * 2 ^ 32); nia).
  rewrite (u128_small n) by lia. rewrite (u128_small (n * rate)) by lia.
  rewrite !u128_small by (rewrite ?u128_small; lia). done.
Qed.

(** The price of a loan: the fund fee of an accepted repayment is at least the
    repaid amount times the fee rate, rounded up (the code's 128-bit computation is
    that ceiling, without wrap-around); applied, the repayment lowers the unpaid
    amount by exactly what is repaid and raises the fund's balance by exactly the
    fee. *)
Theorem samet_repay_fee d f (op : samet_fund_repay_operation) d' r :
  samet_funds_wf d -> tfind (samet_funds d) (sfr_fund_id op) = Some f ->
  0 <= sf_fee_rate f < 2 ^ 32 -> sf_balance f <= INT64_MAX -> amount (sfr_fund_fee op) <= INT64_MAX ->
  validate op = Ok tt -> do_evaluate d op = Ok tt -> do_apply d op tt = Ok (d', r) ->
  let n := amount (sfr_repay_amount op) in
  let fee := amount (sfr_fund_fee op) in
  let required := samet_required_fee n (sf_fee_rate f) in
  required <= fee
  /\ (required - 1) * GRAPHENE_FEE_RATE_DENOM < n * sf_fee_rate f <= required * GRAPHENE_FEE_RATE_DENOM
  /\ exists f', tfind (samet_funds d') (sfr_fund_id op) = Some f'
      /\ sf_balance f' = sf_balance f + fee /\ sf_unpaid_amount f' = sf_unpaid_amount f - n.
Proof.
  intros Hwf Hf Hrate Hbal Hfee Hval Heval E. cbn in Hval, Heval, E. cbn zeta.
  pose proof (tall_lookup _ _ _ _ Hwf Hf) as [_ Hfund].
  unfold samet_fund_repay_validate, samet_fund_repay_do_evaluate, samet_fund_repay_do_apply,
    get_fund in *.
  rewrite Hf in Heval. cbn [of_option rbind] in Heval. mon. asset_ints. adjust_steps.
  unfold tfind in *. same_rows.
  assert (amount_ok (amount (sfr_repay_amount op))) as Hn by (unfold amount_ok; lia).
  rewrite samet_required_fee_exact in * by done.
  rewrite u128_amount in * by (unfold amount_ok; lia).
  split_and!; [lia | by apply ceil_div_lt | by apply ceil_div_ge |].
  eexists. split; [apply lookup_tmodify|]. cbn. subst. done.
Qed.
End SametFundTheorems.

Definition sample_fund_db : database :=
  sample_db <| samet_funds := table_from [SametFund 5 1 10000 2500 400] |>.

Lemma sample_fund_wf : samet_funds_wf sample_fund_db.
Proof.
  change (tall fund_wf (tcreate empty_table (SametFund 5 1 10000 2500 400))).
  apply tall_create; [unfold fund_wf; cbn; lia|]. intros id x. unfold empty_table. cbn.
  by rewrite lookup_empty.
Qed.

(** Account 6 borrows 600 of the fund's remaining 9600, and repays 500 with a fee of 2. *)
Definition sample_borrow : samet_fund_borrow_operation := SametFundBorrow (Asset 1 CORE) 6 0 (Asset 600 1).
Definition sample_fund_repay : samet_fund_repay_operation := SametFundRepay (Asset 1 CORE) 6 0 (Asset 500 1) (Asset 2 1).
Definition fund_db1 : database := after (do_apply sample_fund_db sample_borrow tt).
Definition fund_db2 : database := after (do_apply fund_db1 sample_fund_repay tt).

(** Borrowing more than the fund has left is refused. *)
Example samet_borrow_too_much :
  do_evaluate fund_db1 (SametFundBorrow (Asset 1 CORE) 6 0 (Asset 9001 1))
  = Err (assert_exception "Insufficient balance in the SameT Fund thus unable to borrow").
Proof. vm_compute. reflexivity. Qed.

Lemma samet_funds_solvent_witness : samet_funds_wf fund_db2
  /\ map (fun d => option_map (fun f => (sf_balance f, sf_unpaid_amount f)) (rows (samet_funds d) !! 0)) [fund_db1; fund_db2]
     = [Some (10000, 1000); Some (10002, 500)].
Proof.
  destruct samet_funds_solvent as (_ & _ & _ & Hb & Hr). split; [|vm_compute; reflexivity].
  destruct (after_ok (do_apply sample_fund_db sample_borrow tt)) as [r1 E1]; [vm_compute; reflexivity|].
  destruct (after_ok (do_apply fund_db1 sample_fund_repay tt)) as [r2 E2]; [vm_compute; reflexivity|].
  refine (Hr fund_db1 fund_db1 sample_fund_repay tt fund_db2 r2 _ _ (only_fees_refl _) _ E2); [vm_compute; reflexivity..|].
  refine (Hb sample_fund_db _ sample_borrow tt fund_db1 r1 _ _ (only_fees_refl _) sample_fund_wf E1); vm_compute; reflexivity.
Defined.

Lemma samet_repay_fee_witness :
  let op := SametFundRepay (Asset 0 CORE) 7 0 (Asset 401 1) (Asset 2 1) in
  let op' := SametFundRepay (Asset 0 CORE) 7 0 (Asset 400 1) (Asset 1 1) in
  do_evaluate sample_fund_db op <> Ok tt
  /\ exists d' r f', do_apply sample_fund_db op' tt = Ok (d', r)
       /\ tfind (samet_funds d') 0 = Some f' /\ sf_balance f' = 10001 /\ sf_unpaid_amount f' = 0.
Proof.
  intros op op'. split; [vm_compute; discriminate|].
  do 2 eexists. assert (do_apply sample_fund_db op' tt = Ok (_, _)) as E by (vm_compute; reflexivity).
  destruct (samet_repay_fee sample_fund_db (SametFund 5 1 10000 2500 400) op' _ _ sample_fund_wf eq_refl
              ltac:(cbn; lia) ltac:(cbn; unfold INT64_MAX; lia) ltac:(cbn; unfold INT64_MAX; lia)
              eq_refl eq_refl E) as (_ & _ & f' & Hf & Hb & Hu).
  exists f'. split; [exact E|]. split; [exact Hf|]. split; [exact Hb | exact Hu].
Defined.
