(* ===== verification/CreditOffer.v ===== *)
(** Credit offers and credit deals: [credit_offer_evaluator.cpp],
    [protocol/credit_offer.cpp] and the periodic processing of expired offers and deals
    ([database::update_credit_offers_and_deals] in [db_update.cpp]). *)
From S2P Require Import Prelude Records Fc Asset Objects CreditBooks Vesting Database Holdings Sample Fees Evaluator.

Definition GRAPHENE_MAX_CREDIT_OFFER_SECS : Z := 380 * 86400.
Definition GRAPHENE_MAX_CREDIT_DEAL_SECS : Z := 380 * 86400.
Definition CDAR_TYPE_COUNT : Z := 3.
Definition no_auto_repayment : Z := 0.
Definition only_full_repayment : Z := 1.
Definition allow_partial_repayment : Z := 2.

Record credit_offer_create_operation := CreditOfferCreate {
  coc_fee : asset;
  coc_owner_account : account_id_type;
  coc_asset_type : asset_id_type;
  coc_balance : share_type;
  coc_fee_rate : Z;
  coc_max_duration_seconds : Z;
  coc_min_deal_amount : share_type;
  coc_enabled : bool;
  coc_auto_disable_time : time_point_sec;
  coc_acceptable_collateral : gmap asset_id_type price;
  coc_acceptable_borrowers : gmap account_id_type share_type;
}.

Record credit_offer_delete_operation := CreditOfferDelete {
  cod_fee : asset;
  cod_owner_account : account_id_type;
  cod_offer_id : Z;
}.

Record credit_offer_update_operation := CreditOfferUpdate {
  cou_fee : asset;
  cou_owner_account : account_id_type;
  cou_offer_id : Z;
  cou_delta_amount : option asset;
  cou_fee_rate : option Z;
  cou_max_duration_seconds : option Z;
  cou_min_deal_amount : option share_type;
  cou_enabled : option bool;
  cou_auto_disable_time : option time_point_sec;
  cou_acceptable_collateral : option (gmap asset_id_type price);
  cou_acceptable_borrowers : option (gmap account_id_type share_type);
}.

Record credit_offer_accept_operation := CreditOfferAccept {
  coa_fee : asset;
  coa_borrower : account_id_type;
  coa_offer_id : Z;
  coa_borrow_amount : asset;
  coa_collateral : asset;
  coa_max_fee_rate : Z;
  coa_min_duration_seconds : Z;
  coa_auto_repay : option Z;
}.

Record credit_deal_repay_operation := CreditDealRepay {
  cdr_fee : asset;
  cdr_account : account_id_type;
  cdr_deal_id : Z;
  cdr_repay_amount : asset;
  cdr_credit_fee : asset;
}.

Record credit_deal_update_operation := CreditDealUpdate {
  cdu_fee : asset;
  cdu_account : account_id_type;
  cdu_deal_id : Z;
  cdu_auto_repay : Z;
}.

(** ** Validation *)

(** The entry with the smallest key. *)
Definition flat_begin {A} (m : gmap Z A) : option (Z * A) :=
  list_min (fun x y => fst x <? fst y) (map_to_list m).

Definition validate_acceptable_collateral (acceptable_collateral : gmap asset_id_type price)
    (p_asset_type : option asset_id_type) : result unit :=
  match flat_begin acceptable_collateral with
  | None => Err (assert_exception "Acceptable collateral list should not be empty")
  | Some (_, p) =>
      let asset_type := match p_asset_type with Some a => a | None => asset_id (base p) end in
      rforeach (fun '(collateral_asset_type, collateral_price) =>
        assert! asset_id (base collateral_price) =? asset_type
          @ "Base asset ID in price of acceptable collateral should be same as offer asset type" in
        assert! asset_id (quote collateral_price) =? collateral_asset_type
          @ "Quote asset ID in price of acceptable collateral should be same as collateral asset type" in
        price_validate true collateral_price) (map_to_list acceptable_collateral)
  end.

Definition validate_acceptable_borrowers (acceptable_borrowers : gmap account_id_type share_type) : result unit :=
  rforeach (fun '(_, max_borrow_amount) =>
    assert! 0 <=? max_borrow_amount
      @ "Maximum amount to borrow for acceptable borrowers should not be negative" in
    assert! max_borrow_amount <=? GRAPHENE_MAX_SHARE_SUPPLY
      @ "Maximum amount to borrow for acceptable borrowers should not be greater than max" in
    Ok tt) (map_to_list acceptable_borrowers).

Definition credit_offer_create_validate (op : credit_offer_create_operation) : result unit :=
  assert! 0 <=? amount (coc_fee op) @ "Fee should not be negative" in
  assert! 0 <? coc_balance op @ "Balance should be positive" in
  assert! coc_max_duration_seconds op <=? GRAPHENE_MAX_CREDIT_DEAL_SECS
    @ "Maximum duration should not be greater than 380 days" in
  assert! 0 <=? coc_min_deal_amount op @ "Minimum deal amount should not be negative" in
  assert! coc_min_deal_amount op <=? GRAPHENE_MAX_SHARE_SUPPLY
    @ "Minimum deal amount should not be greater than max" in
  do! validate_acceptable_collateral (coc_acceptable_collateral op) (Some (coc_asset_type op)) in
  validate_acceptable_borrowers (coc_acceptable_borrowers op).

Definition credit_offer_delete_validate (op : credit_offer_delete_operation) : result unit :=
  assert! 0 <=? amount (cod_fee op) @ "Fee should not be negative" in Ok tt.

(** Runs a check on an optional field when it is present. *)
Definition when_valid {A} (o : option A) (f : A -> result unit) : result unit :=
  match o with Some x => f x | None => Ok tt end.

Definition is_valid {A} (o : option A) : bool := match o with Some _ => true | None => false end.

Definition credit_offer_update_validate (op : credit_offer_update_operation) : result unit :=
  assert! 0 <=? amount (cou_fee op) @ "Fee should not be negative" in
  do! when_valid (cou_delta_amount op) (fun delta =>
    assert! negb (amount delta =? 0) @ "Delta amount should not be zero" in Ok tt) in
  do! when_valid (cou_max_duration_seconds op) (fun secs =>
    assert! secs <=? GRAPHENE_MAX_CREDIT_DEAL_SECS
      @ "Maximum duration should not be greater than 380 days" in Ok tt) in
  do! when_valid (cou_min_deal_amount op) (fun m =>
    assert! 0 <=? m @ "Minimum deal amount should not be negative" in
    assert! m <=? GRAPHENE_MAX_SHARE_SUPPLY @ "Minimum deal amount should not be greater than max" in
    Ok tt) in
  do! when_valid (cou_acceptable_collateral op) (fun c => validate_acceptable_collateral c None) in
  do! when_valid (cou_acceptable_borrowers op) validate_acceptable_borrowers in
  let updating_something :=
    is_valid (cou_delta_amount op) || is_valid (cou_fee_rate op)
    || is_valid (cou_max_duration_seconds op) || is_valid (cou_min_deal_amount op)
    || is_valid (cou_enabled op) || is_valid (cou_auto_disable_time op)
    || is_valid (cou_acceptable_collateral op) || is_valid (cou_acceptable_borrowers op) in
  assert! updating_something
    @ "Should change something - at least one of the optional data fields should be present" in
  Ok tt.

Definition credit_offer_accept_validate (op : credit_offer_accept_operation) : result unit :=
  assert! 0 <=? amount (coa_fee op) @ "Fee should not be negative" in
  assert! 0 <? amount (coa_borrow_amount op) @ "Amount to borrow should be positive" in
  assert! 0 <? amount (coa_collateral op) @ "Collateral amount should be positive" in
  when_valid (coa_auto_repay op) (fun r =>
    assert! r <? CDAR_TYPE_COUNT @ "auto_repay should be less than 3" in Ok tt).

Definition credit_deal_repay_validate (op : credit_deal_repay_operation) : result unit :=
  assert! 0 <=? amount (cdr_fee op) @ "Fee should not be negative" in
  assert! 0 <? amount (cdr_repay_amount op) @ "Amount to repay should be positive" in
  assert! 0 <=? amount (cdr_credit_fee op) @ "Credit fee should not be negative" in
  assert! asset_id (cdr_repay_amount op) =? asset_id (cdr_credit_fee op)
    @ "Asset type of repay amount and credit fee should be the same" in
  Ok tt.

Definition credit_deal_update_validate (op : credit_deal_update_operation) : result unit :=
  assert! 0 <=? amount (cdu_fee op) @ "Fee should not be negative" in
  assert! cdu_auto_repay op <? CDAR_TYPE_COUNT @ "auto_repay should be less than 3" in
  Ok tt.

(** ** Evaluators *)

(** An account is authorized for an asset, both given by id. *)
Definition check_authorized (d : database) (acct : account_id_type) (id : asset_id_type) (msg : string)
    : result unit :=
  let! a := get_account d acct in
  let! ast := get_asset d id in
  assert! is_authorized_asset d acct a id ast @ msg in Ok tt.

Definition get_offer (d : database) (id : Z) : result credit_offer_object :=
  of_option "credit offer" (tfind (credit_offers d) id).
Definition get_deal (d : database) (id : Z) : result credit_deal_object :=
  of_option "credit deal" (tfind (credit_deals d) id).

(** The auto-disable time lies in the allowed range. *)
Definition check_auto_disable_time (auto_disable_time block_time : time_point_sec) : result unit :=
  assert! auto_disable_time >? block_time @ "Auto-disable time should be in the future" in
  assert! auto_disable_time - block_time <=? GRAPHENE_MAX_CREDIT_OFFER_SECS
    @ "Auto-disable time should not be too late in the future" in
  Ok tt.

Section CreditOffer.
Context `{SafeInt64}.

Definition credit_offer_create_do_evaluate (d : database) (op : credit_offer_create_operation) : result unit :=
  let block_time := head_block_time d in
  assert! HARDFORK_CORE_2362_PASSED block_time @ "Not allowed until the core-2362 hardfork" in
  do! (if coc_enabled op then check_auto_disable_time (coc_auto_disable_time op) block_time else Ok tt) in
  do! rforeach (fun '(id, _) => do! get_asset d id in Ok tt) (map_to_list (coc_acceptable_collateral op)) in
  do! rforeach (fun '(id, _) => do! get_account d id in Ok tt) (map_to_list (coc_acceptable_borrowers op)) in
  check_authorized d (coc_owner_account op) (coc_asset_type op) "The account is unauthorized by the asset".

Definition credit_offer_create_do_apply (d : database) (op : credit_offer_create_operation) (ctx : unit)
    : result (database * Z) :=
  let! minus := asset_neg (Asset (coc_balance op) (coc_asset_type op)) in
  let! d := adjust_balance d (coc_owner_account op) minus in
  let o := CreditOffer (coc_owner_account op) (coc_asset_type op) (coc_balance op) (coc_balance op)
             (coc_fee_rate op) (coc_max_duration_seconds op) (coc_min_deal_amount op) (coc_enabled op)
             (coc_auto_disable_time op) (coc_acceptable_collateral op) (coc_acceptable_borrowers op) in
  Ok (d <| credit_offers := tcreate (credit_offers d) o |>, next_id (credit_offers d)).

Definition credit_offer_delete_do_evaluate (d : database) (op : credit_offer_delete_operation) : result unit :=
  let! offer := get_offer d (cod_offer_id op) in
  assert! co_owner_account offer =? cod_owner_account op
    @ "The account is not the owner of the credit offer" in
  assert! co_total_balance offer =? co_current_balance offer
    @ "Can only delete a credit offer when the unpaid amount is zero" in
  Ok tt.

Definition credit_offer_delete_do_apply (d : database) (op : credit_offer_delete_operation) (ctx : unit)
    : result (database * asset) :=
  let! offer := get_offer d (cod_offer_id op) in
  let released := Asset (co_current_balance offer) (co_asset_type offer) in
  let! d := if negb (co_current_balance offer =? 0)
            then adjust_balance d (cod_owner_account op) released else Ok d in
  Ok (d <| credit_offers := tremove (credit_offers d) (cod_offer_id op) |>, released).

Definition credit_offer_update_do_evaluate (d : database) (op : credit_offer_update_operation) : result unit :=
  let! offer := get_offer d (cou_offer_id op) in
  assert! co_owner_account offer =? cou_owner_account op
    @ "The account is not the owner of the credit offer" in
  do! when_valid (cou_delta_amount op) (fun delta =>
    assert! co_asset_type offer =? asset_id delta @ "Asset type mismatch" in
    if amount delta >? 0 then
      check_authorized d (cou_owner_account op) (co_asset_type offer) "The account is unauthorized by the asset"
    else
      let! taken := safe_neg (amount delta) in
      assert! co_total_balance offer >? taken
        @ "Should leave some funds in the credit offer when updating" in
      assert! co_current_balance offer >=? taken @ "Insufficient balance in the credit offer" in
      Ok tt) in
  let enabled := match cou_enabled op with Some e => e | None => co_enabled offer end in
  do! (if enabled then
         check_auto_disable_time (match cou_auto_disable_time op with
                                  | Some t => t | None => co_auto_disable_time offer end)
           (head_block_time d)
       else Ok tt) in
  do! when_valid (cou_acceptable_collateral op) (fun c =>
    rforeach (fun '(id, p) =>
      do! get_asset d id in
      assert! co_asset_type offer =? asset_id (base p)
        @ "Asset type mismatch in a price of acceptable collateral" in Ok tt) (map_to_list c)) in
  when_valid (cou_acceptable_borrowers op) (fun b =>
    rforeach (fun '(id, _) => do! get_account d id in Ok tt) (map_to_list b)).

Definition credit_offer_update_do_apply (d : database) (op : credit_offer_update_operation) (ctx : unit)
    : result (database * unit) :=
  let! d := match cou_delta_amount op with
            | Some delta => let! minus := asset_neg delta in adjust_balance d (cou_owner_account op) minus
            | None => Ok d
            end in
  let! coo := get_offer d (cou_offer_id op) in
  let! (total, current) :=
    match cou_delta_amount op with
    | Some delta =>
        let! total := safe_add (co_total_balance coo) (amount delta) in
        let! current := safe_add (co_current_balance coo) (amount delta) in
        Ok (total, current)
    | None => Ok (co_total_balance coo, co_current_balance coo)
    end in
  let offer := CreditOffer (co_owner_account coo) (co_asset_type coo) total current
    (default (co_fee_rate coo) (cou_fee_rate op))
    (default (co_max_duration_seconds coo) (cou_max_duration_seconds op))
    (default (co_min_deal_amount coo) (cou_min_deal_amount op))
    (default (co_enabled coo) (cou_enabled op))
    (default (co_auto_disable_time coo) (cou_auto_disable_time op))
    (default (co_acceptable_collateral coo) (cou_acceptable_collateral op))
    (default (co_acceptable_borrowers coo) (cou_acceptable_borrowers op)) in
  let d := d <| credit_offers := tmodify (credit_offers d) (cou_offer_id op) offer |> in
  assert! 0 <? co_total_balance offer @ "Total balance in the credit offer should be positive" in
  assert! 0 <=? co_current_balance offer @ "Current balance in the credit offer should not be negative" in
  assert! co_total_balance offer >=? co_current_balance offer
    @ "Total balance in the credit offer should not be less than current balance" in
  do! (if co_enabled offer then check_auto_disable_time (co_auto_disable_time offer) (head_block_time d)
       else Ok tt) in
  Ok (d, tt).

(** The result is the id of the borrower's deal summary, when there is one. *)
Definition credit_offer_accept_do_evaluate (d : database) (op : credit_offer_accept_operation)
    : result (option Z) :=
  do! (if negb (HARDFORK_CORE_2595_PASSED (head_block_time d)) then
         assert! negb (is_valid (coa_auto_repay op)) @ "auto_repay unavailable until the core-2595 hardfork" in
         Ok tt
       else Ok tt) in
  let! offer := get_offer d (coa_offer_id op) in
  assert! co_enabled offer @ "The credit offer is not enabled" in
  assert! co_asset_type offer =? asset_id (coa_borrow_amount op) @ "Asset type mismatch" in
  assert! co_current_balance offer >=? amount (coa_borrow_amount op)
    @ "Insufficient balance in the credit offer thus unable to borrow" in
  assert! co_min_deal_amount offer <=? amount (coa_borrow_amount op)
    @ "Borrowing amount should not be less than minimum deal amount" in
  assert! co_fee_rate offer <=? coa_max_fee_rate op
    @ "The maximum accceptable fee rate is lower than offered" in
  assert! co_max_duration_seconds offer >=? coa_min_duration_seconds op
    @ "The minimum accceptable duration is longer than offered" in
  let! coll_price := of_option "Collateral asset type is not acceptable by the credit offer"
                       (co_acceptable_collateral offer !! asset_id (coa_collateral op)) in
  do! check_authorized d (coa_borrower op) (co_asset_type offer)
        "The borrower is unauthorized by the borrowing asset" in
  do! check_authorized d (coa_borrower op) (asset_id (coa_collateral op))
        "The borrower is unauthorized by the collateral asset" in
  do! check_authorized d (co_owner_account offer) (co_asset_type offer)
        "The owner of the credit offer is unauthorized by the borrowing asset" in
  do! check_authorized d (co_owner_account offer) (asset_id (coa_collateral op))
        "The owner of the credit offer is unauthorized by the collateral asset" in
  let! required_collateral := multiply_and_round_up (coa_borrow_amount op) coll_price in
  assert! amount required_collateral <=? amount (coa_collateral op) @ "Insufficient collateral provided" in
  let! max_allowed :=
    if bool_decide (co_acceptable_borrowers offer = ∅) then Ok None
    else let! m := of_option "Account is not in acceptable borrowers"
                     (co_acceptable_borrowers offer !! coa_borrower op) in Ok (Some m) in
  let summary := tsearch (summary_key (coa_offer_id op) (coa_borrower op)) (credit_summaries d) in
  let already_borrowed := match summary with Some (_, s) => cs_total_debt_amount s | None => 0 end in
  do! when_valid max_allowed (fun m =>
    let! total := safe_add already_borrowed (amount (coa_borrow_amount op)) in
    assert! total <=? m @ "Unable to borrow: maximum allowed exceeded" in Ok tt) in
  Ok (option_map fst summary).

(** [time_point_sec::maximum()] caps the repayment time. *)
Definition latest_repay_time_for (block_time max_duration_seconds : Z) : time_point_sec :=
  if (2 ^ 32 - 1) - block_time >=? max_duration_seconds
  then tps_add block_time max_duration_seconds else 2 ^ 32 - 1.

Definition credit_offer_accept_do_apply (d : database) (op : credit_offer_accept_operation)
    (deal_summary : option Z) : result (database * Z) :=
  let! minus := asset_neg (coa_collateral op) in
  let! d := adjust_balance d (coa_borrower op) minus in
  let! d := adjust_balance d (coa_borrower op) (coa_borrow_amount op) in
  let! coo := get_offer d (coa_offer_id op) in
  let! current := safe_sub (co_current_balance coo) (amount (coa_borrow_amount op)) in
  let offer := coo <| co_current_balance := current |> in
  let d := d <| credit_offers := tmodify (credit_offers d) (coa_offer_id op) offer |> in
  let block_time := head_block_time d in
  let new_deal := CreditDeal (coa_borrower op) (coa_offer_id op) (co_owner_account offer)
    (co_asset_type offer) (amount (coa_borrow_amount op)) (asset_id (coa_collateral op))
    (amount (coa_collateral op)) (co_fee_rate offer)
    (latest_repay_time_for block_time (co_max_duration_seconds offer)) (default 0 (coa_auto_repay op)) in
  let deal_id := next_id (credit_deals d) in
  let d := d <| credit_deals := tcreate (credit_deals d) new_deal |> in
  let! d := match deal_summary with
            | Some i =>
                let! s := of_option "credit deal summary" (tfind (credit_summaries d) i) in
                let! total := safe_add (cs_total_debt_amount s) (amount (coa_borrow_amount op)) in
                Ok (d <| credit_summaries := tmodify (credit_summaries d) i
                                               (s <| cs_total_debt_amount := total |>) |>)
            | None =>
                Ok (d <| credit_summaries := tcreate (credit_summaries d)
                      (CreditDealSummary (coa_borrower op) (coa_offer_id op) (co_owner_account offer)
                         (co_asset_type offer) (amount (coa_borrow_amount op))) |>)
            end in
  assert! 0 <? co_total_balance offer @ "Total balance in the credit offer should be positive" in
  assert! 0 <=? co_current_balance offer @ "Current balance in the credit offer should not be negative" in
  assert! co_total_balance offer >=? co_current_balance offer
    @ "Total balance in the credit offer should not be less than current balance" in
  assert! cd_latest_repay_time new_deal >? block_time @ "Latest repayment time should be in the future" in
  assert! cd_latest_repay_time new_deal - block_time <=? GRAPHENE_MAX_CREDIT_DEAL_SECS
    @ "Latest repayment time should not be too late in the future" in
  Ok (d, deal_id).

(** The fee for repaying [n], rounded up. *)
Definition credit_required_fee (n fee_rate : Z) : Z :=
  u128 (u128 (u128 (u128 n * fee_rate) + GRAPHENE_FEE_RATE_DENOM) - 1) / GRAPHENE_FEE_RATE_DENOM.

Definition credit_deal_repay_do_evaluate (d : database) (op : credit_deal_repay_operation) : result unit :=
  let! deal := get_deal d (cdr_deal_id op) in
  assert! cd_borrower deal =? cdr_account op @ "A credit deal can only be repaid by the borrower" in
  assert! cd_debt_asset deal =? asset_id (cdr_repay_amount op) @ "Asset type mismatch" in
  assert! cd_debt_amount deal >=? amount (cdr_repay_amount op)
    @ "Repay amount should not be greater than unpaid amount" in
  assert! u128 (amount (cdr_credit_fee op))
          >=? credit_required_fee (amount (cdr_repay_amount op)) (cd_fee_rate deal)
    @ "Insuffient credit fee" in
  do! check_authorized d (cdr_account op) (cd_debt_asset deal)
        "The account is unauthorized by the repaying asset" in
  check_authorized d (cd_offer_owner deal) (cd_debt_asset deal)
    "The owner of the credit offer is unauthorized by the repaying asset".

(** Takes [n] off the summary of a borrower, which is dropped when it is paid up. *)
Definition reduce_summary (sums : table credit_deal_summary_object) (i : Z)
    (s : credit_deal_summary_object) (n : share_type) : result (table credit_deal_summary_object) :=
  if cs_total_debt_amount s =? n then Ok (tremove sums i)
  else let! total := safe_sub (cs_total_debt_amount s) n in
       Ok (tmodify sums i (s <| cs_total_debt_amount := total |>)).

(** The deal after a repayment of [n], and the collateral it releases. *)
Definition reduce_deal (deals : table credit_deal_object) (id : Z) (deal : credit_deal_object)
    (n : share_type) : result (table credit_deal_object * share_type) :=
  if cd_debt_amount deal =? n then Ok (tremove deals id, cd_collateral_amount deal)
  else
    let amount_to_release := u128 (u128 n * u128 (cd_collateral_amount deal)) / cd_debt_amount deal in
    assert! amount_to_release <? u128 (cd_collateral_amount deal) @ "Internal error" in
    let released := to_int64 amount_to_release in
    let! debt_left := safe_sub (cd_debt_amount deal) n in
    let! collateral_left := safe_sub (cd_collateral_amount deal) released in
    Ok (tmodify deals id (deal <| cd_debt_amount := debt_left |>
                               <| cd_collateral_amount := collateral_left |>), released).

(** Returns the released collateral. *)
Definition credit_deal_repay_do_apply (d : database) (op : credit_deal_repay_operation) (ctx : unit)
    : result (database * asset) :=
  let n := amount (cdr_repay_amount op) in
  let! total_amount := safe_add n (amount (cdr_credit_fee op)) in
  let! minus := safe_neg total_amount in
  let! d := adjust_balance d (cdr_account op) (Asset minus (asset_id (cdr_repay_amount op))) in
  let! deal := get_deal d (cdr_deal_id op) in
  let! obj := get_offer d (cd_offer_id deal) in
  let! total := safe_add (co_total_balance obj) (amount (cdr_credit_fee op)) in
  let! current := safe_add (co_current_balance obj) total_amount in
  let offer := obj <| co_total_balance := total |> <| co_current_balance := current |> in
  let d := d <| credit_offers := tmodify (credit_offers d) (cd_offer_id deal) offer |> in
  assert! co_total_balance offer >=? co_current_balance offer
    @ "Total balance in the credit offer should not be less than current balance" in
  let! (i, s) := of_option "Internal error"
                   (tsearch (summary_key (cd_offer_id deal) (cdr_account op)) (credit_summaries d)) in
  let! sums := reduce_summary (credit_summaries d) i s n in
  let d := d <| credit_summaries := sums |> in
  let! (deals, released) := reduce_deal (credit_deals d) (cdr_deal_id op) deal n in
  let d := d <| credit_deals := deals |> in
  let collateral_released := Asset released (cd_collateral_asset deal) in
  let! d := adjust_balance d (cdr_account op) collateral_released in
  Ok (d, collateral_released).

Definition credit_deal_update_do_evaluate (d : database) (op : credit_deal_update_operation) : result unit :=
  assert! HARDFORK_CORE_2595_PASSED (head_block_time d) @ "Not allowed until the core-2595 hardfork" in
  let! deal := get_deal d (cdu_deal_id op) in
  assert! cd_borrower deal =? cdu_account op @ "A credit deal can only be updated by the borrower" in
  assert! negb (cd_auto_repay deal =? cdu_auto_repay op)
    @ "The automatic repayment type does not change" in
  Ok tt.

Definition credit_deal_update_do_apply (d : database) (op : credit_deal_update_operation) (ctx : unit)
    : result (database * unit) :=
  let! deal := get_deal d (cdu_deal_id op) in
  Ok (d <| credit_deals := tmodify (credit_deals d) (cdu_deal_id op)
                             (deal <| cd_auto_repay := cdu_auto_repay op |>) |>, tt).

#[export] Instance credit_offer_create_evaluator : Evaluator credit_offer_create_operation unit Z := {
  fee_payer := coc_owner_account;
  op_fee := coc_fee;
  validate := credit_offer_create_validate;
  do_evaluate := credit_offer_create_do_evaluate;
  do_apply := credit_offer_create_do_apply;
}.

#[export] Instance credit_offer_delete_evaluator : Evaluator credit_offer_delete_operation unit asset := {
  fee_payer := cod_owner_account;
  op_fee := cod_fee;
  validate := credit_offer_delete_validate;
  do_evaluate := credit_offer_delete_do_evaluate;
  do_apply := credit_offer_delete_do_apply;
}.

#[export] Instance credit_offer_update_evaluator : Evaluator credit_offer_update_operation unit unit := {
  fee_payer := cou_owner_account;
  op_fee := cou_fee;
  validate := credit_offer_update_validate;
  do_evaluate := credit_offer_update_do_evaluate;
  do_apply := credit_offer_update_do_apply;
}.

#[export] Instance credit_offer_accept_evaluator : Evaluator credit_offer_accept_operation (option Z) Z := {
  fee_payer := coa_borrower;
  op_fee := coa_fee;
  validate := credit_offer_accept_validate;
  do_evaluate := credit_offer_accept_do_evaluate;
  do_apply := credit_offer_accept_do_apply;
}.

#[export] Instance credit_deal_repay_evaluator : Evaluator credit_deal_repay_operation unit asset := {
  fee_payer := cdr_account;
  op_fee := cdr_fee;
  validate := credit_deal_repay_validate;
  do_evaluate := credit_deal_repay_do_evaluate;
  do_apply := credit_deal_repay_do_apply;
}.

#[export] Instance credit_deal_update_evaluator : Evaluator credit_deal_update_operation unit unit := {
  fee_payer := cdu_account;
  op_fee := cdu_fee;
  validate := credit_deal_update_validate;
  do_evaluate := credit_deal_update_do_evaluate;
  do_apply := credit_deal_update_do_apply;
}.

(** ** Periodic processing *)

(** Offers whose time has come are disabled. *)
Definition disable_expired_offers (head_time : time_point_sec) (offers : table credit_offer_object)
    : table credit_offer_object :=
  Table (next_id offers)
    ((fun o => if co_enabled o && (co_auto_disable_time o <=? head_time)
               then o <| co_enabled := false |> else o) <$> rows offers).

(** The first deal of the [by_latest_repay_time] index, if it is past due. *)
Definition first_due_deal (head_time : time_point_sec) (deals : table credit_deal_object)
    : option (Z * credit_deal_object) :=
  tfirst_due cd_latest_repay_time head_time deals.

(** The repayment the chain tries on behalf of the borrower. The sum of the
    denominator and the rate is a 32-bit one; dividing by zero is fatal. *)
Definition auto_repay_operation (d : database) (id : Z) (deal : credit_deal_object)
    : result credit_deal_repay_operation :=
  let rate := cd_fee_rate deal in
  let required_fee := credit_required_fee (cd_debt_amount deal) rate in
  let total_required := u128 (required_fee + u128 (cd_debt_amount deal)) in
  let balance := u128 (amount (get_balance d (cd_borrower deal) (cd_debt_asset deal))) in
  let! (n, fee) :=
    if (cd_auto_repay deal =? only_full_repayment) || (balance >=? total_required)
    then Ok (cd_debt_amount deal, to_int64 required_fee)
    else
      let divisor := u32 (GRAPHENE_FEE_RATE_DENOM + rate) in
      do! (if divisor =? 0 then Err (thrown "division by zero") else Ok tt) in
      let debt_to_repay := u128 (balance * GRAPHENE_FEE_RATE_DENOM) / divisor in
      let collateral_to_release :=
        u128 (debt_to_repay * u128 (cd_collateral_amount deal)) / u128 (cd_debt_amount deal) in
      let debt_to_repay :=
        u128 (u128 (u128 (collateral_to_release * u128 (cd_debt_amount deal))
                    + u128 (cd_collateral_amount deal)) - 1) / u128 (cd_collateral_amount deal) in
      let fee_to_pay := credit_required_fee debt_to_repay rate in
      Ok (to_int64 debt_to_repay, to_int64 fee_to_pay) in
  Ok (CreditDealRepay (Asset 0 CORE) (cd_borrower deal) id (Asset n (cd_debt_asset deal))
        (Asset fee (cd_debt_asset deal))).

(** [try_push_virtual_operation] in its [try] block: the operation is validated and
    applied; a failure leaves no trace. *)
Definition try_auto_repay (d : database) (id : Z) (deal : credit_deal_object) : result database :=
  if cd_auto_repay deal =? no_auto_repayment then Ok d
  else
    let! op := auto_repay_operation d id deal in
    match apply_operation (fun _ _ => Ok 0) true d op with
    | Ok (d', _) => Ok d'
    | Err _ => Ok d
    end.

(** What happens to a deal that is still unpaid: the owner of the offer gets the collateral. *)
Definition expire_deal (d : database) (id : Z) : result database :=
  let! deal := get_deal d id in
  let! obj := get_offer d (cd_offer_id deal) in
  let! total := safe_sub (co_total_balance obj) (cd_debt_amount deal) in
  let d := d <| credit_offers := tmodify (credit_offers d) (cd_offer_id deal)
                                   (obj <| co_total_balance := total |>) |> in
  let! d := match tsearch (summary_key (cd_offer_id deal) (cd_borrower deal)) (credit_summaries d) with
            | None => Ok d
            | Some (i, s) =>
                let! sums := reduce_summary (credit_summaries d) i s (cd_debt_amount deal) in
                Ok (d <| credit_summaries := sums |>)
            end in
  let! d := adjust_balance d (cd_offer_owner deal)
              (Asset (cd_collateral_amount deal) (cd_collateral_asset deal)) in
  let d := d <| applied_ops ::= cons (vop_credit_deal_expired id (cd_offer_id deal) (cd_offer_owner deal)
              (cd_borrower deal) (Asset (cd_debt_amount deal) (cd_debt_asset deal))
              (Asset (cd_collateral_amount deal) (cd_collateral_asset deal))) |> in
  Ok (d <| credit_deals := tremove (credit_deals d) id |>).

(** One round of the loop. *)
Definition process_deal (d : database) (id : Z) (deal : credit_deal_object) : result database :=
  let! d := try_auto_repay d id deal in
  match tfind (credit_deals d) id with
  | None => Ok d
  | Some _ => expire_deal d id
  end.

(** The loop over the due deals; [None] when the fuel is used up. *)
Fixpoint process_due_deals (fuel : nat) (head_time : time_point_sec) (d : database)
    : option (result database) :=
  match first_due_deal head_time (credit_deals d) with
  | None => Some (Ok d)
  | Some (id, deal) =>
      match fuel with
      | O => None
      | S fuel' =>
          match process_deal d id deal with
          | Ok d' => process_due_deals fuel' head_time d'
          | Err e => Some (Err e)
          end
      end
  end.

Definition update_credit_offers_and_deals (d : database) : option (result database) :=
  let head_time := head_block_time d in
  let d := d <| credit_offers := disable_expired_offers head_time (credit_offers d) |> in
  process_due_deals (size (rows (credit_deals d))) head_time d.
End CreditOffer.

Section CreditOfferLaws.
Context `{SafeInt64Laws}.

Ltac start_apply :=
  cbn;
  unfold credit_offer_create_do_apply, credit_offer_delete_do_apply, credit_offer_update_do_apply,
    credit_offer_accept_do_apply, credit_deal_update_do_apply, get_offer, get_deal, tfind;
  intros d0 d op ctx d' r Hval Heval Hfees Hwf E; mon; asset_ints.

(** The books are the only part of [db_wf] that needs work. *)
Ltac credit_wf :=
  match goal with W : db_wf _ |- _ =>
    let B := fresh "Hbooks" in pose proof (wf_books _ W) as B; destruct W end;
  split; cbn in *; eauto 3 with dfs.

#[export] Instance credit_offer_create_laws : EvaluatorLaws credit_offer_create_operation unit Z.
Proof.
  split. start_apply. adjust_steps. split; [conserve|]. credit_wf.
  destruct Hbooks. split; [|done]. by apply offer_books_create.
Qed.

#[export] Instance credit_offer_delete_laws : EvaluatorLaws credit_offer_delete_operation unit asset.
Proof.
  split. start_apply. unfold credit_offer_delete_do_evaluate, get_offer, tfind in Heval.
  after_fees. mon. same_rows.
  match goal with E : (if negb (?x =? 0) then _ else _) = Ok _ |- _ =>
    destruct (Z.eqb_spec x 0); cbn [negb] in E end; mon; adjust_steps.
  all: split; [conserve|]; credit_wf; destruct Hbooks; (split; [|done]); by eapply offer_books_remove.
Qed.

#[export] Instance credit_offer_update_laws : EvaluatorLaws credit_offer_update_operation unit unit.
Proof.
  split. start_apply. unfold credit_offer_update_do_evaluate, get_offer, tfind in Heval.
  after_fees. unfold when_valid in *.
  destruct (cou_delta_amount op); mon; asset_ints; adjust_steps; same_rows; mon; safe_ints; subst.
  - split; [conserve|]. credit_wf. destruct Hbooks. split; [|done].
    eapply offer_books_modify; [eassumption | cbn; lia | done..].
  - split; [conserve|]. credit_wf. destruct Hbooks. split; [|done].
    eapply offer_books_modify; [eassumption | cbn; lia | done..].
Qed.

Lemma reduce_summary_ok sums i s n sums' :
  reduce_summary sums i s n = Ok sums' ->
  exists s', cs_offer_id s' = cs_offer_id s /\ cs_borrower s' = cs_borrower s
    /\ cs_total_debt_amount s' = cs_total_debt_amount s - n
    /\ sums' = if cs_total_debt_amount s =? n then tremove sums i else tmodify sums i s'.
Proof.
  unfold reduce_summary. intros E.
  exists (s <| cs_total_debt_amount := cs_total_debt_amount s - n |>). split_and!; try done.
  destruct (_ =? n); mon; safe_ints; by subst.
Qed.

Lemma to_int64_le z : - 2 ^ 63 <= z -> to_int64 z <= z.
Proof.
  intros Hz. unfold to_int64. enough ((z + 2 ^ 63) mod 2 ^ 64 <= z + 2 ^ 63) by lia.
  apply Z.mod_le; lia.
Qed.

Lemma u128_le z : 0 <= z -> u128 z <= z.
Proof. intros. unfold u128. apply Z.mod_le; lia. Qed.

(** A reduction of a deal takes [n] off its debt and releases collateral, which
    stays positive while there is debt left. *)
Lemma reduce_deal_ok deals id deal n deals' released :
  reduce_deal deals id deal n = Ok (deals', released) ->
  rows deals !! id = Some deal -> 0 < cd_debt_amount deal -> 0 < cd_collateral_amount deal ->
  0 <= n <= cd_debt_amount deal ->
  reduced deals id deal n deals'
  /\ (forall a, deal_sum a deals' = deal_sum a deals - ind a (cd_collateral_asset deal) * released).
Proof.
  unfold reduce_deal. intros E Hd Hdebt Hcoll Hn.
  destruct (Z.eqb_spec (cd_debt_amount deal) n) as [En|En]; mon.
  - split; [split; [done|]; split; [lia|]; by right|]. intros a. unfold deal_sum.
    rewrite (tsum_remove _ _ _ _ Hd). lia.
  - safe_ints. subst.
    assert (0 <= u128 (u128 n * u128 (cd_collateral_amount deal)) / cd_debt_amount deal)
      by (apply Z.div_pos; [apply u128_bound | done]).
    match goal with L : _ < u128 (cd_collateral_amount deal) |- _ =>
      pose proof (u128_le (cd_collateral_amount deal) ltac:(lia)) end.
    set (rel := u128 (u128 n * u128 (cd_collateral_amount deal)) / cd_debt_amount deal) in *.
    pose proof (to_int64_le rel ltac:(lia)). split.
    + split; [done|]. split; [lia|]. left. split; [lia|]. eexists. split; [done|]. cbn.
      split_and!; try done; lia.
    + intros a. unfold deal_sum. rewrite (tsum_modify _ _ _ _ _ Hd). cbn. lia.
Qed.

#[export] Instance credit_offer_accept_laws : EvaluatorLaws credit_offer_accept_operation (option Z) Z.
Proof.
  split. cbn. unfold credit_offer_accept_do_apply, credit_offer_accept_do_evaluate,
    credit_offer_accept_validate, get_offer, tfind.
  intros d0 d op ctx d' r Hval Heval Hfees Hwf E. after_fees. mon. asset_ints. adjust_steps. same_rows.
  pose proof (wf_books _ Hwf) as [Hob Hsb]. cbn in Hob, Hsb.
  match goal with R : rows (credit_offers d0) !! _ = Some ?o |- _ => rename R into Hoff end.
  destruct (tsearch _ (credit_summaries d0)) as [[i s]|] eqn:Hsum; cbn [option_map fst] in *;
    unfold tfind in *; mon; safe_ints; subst.
  - apply tsearch_Some in Hsum as [Hrow Hkey]. same_rows. split; [conserve|]. credit_wf. split.
    + eapply offer_books_borrow; try reflexivity; try eassumption; done.
    + eapply summary_books_borrow_more; try eassumption; done.
  - split; [conserve|]. credit_wf. split.
    + eapply offer_books_borrow; try reflexivity; try eassumption; done.
    + by apply summary_books_borrow_new.
Qed.

(** Repaying, of which only that the credit fee is not negative is needed of the validation. *)
Lemma repay_apply_conserves d0 d op (ctx : unit) d' r :
  0 <= amount (cdr_repay_amount op) ->
  credit_deal_repay_do_evaluate d0 op = Ok ctx -> only_fees d0 d -> db_wf d ->
  credit_deal_repay_do_apply d op ctx = Ok (d', r) -> conserves d d' /\ db_wf d'.
Proof.
  unfold credit_deal_repay_do_apply, credit_deal_repay_do_evaluate, get_offer, get_deal, tfind.
  intros Hn Heval Hfees Hwf E. after_fees. mon.
  match goal with p : (Z * credit_deal_summary_object)%type |- _ => destruct p as [i s] end. mon.
  match goal with p : (table credit_deal_object * Z)%type |- _ => destruct p as [deals released] end.
  mon. asset_ints. subst. adjust_steps. same_rows.
  pose proof (wf_books _ Hwf) as [Hob Hsb]. cbn in Hob, Hsb.
  match goal with R : rows (credit_deals d0) !! _ = Some ?y |- _ => rename R into Hdeal; rename y into deal end.
  destruct (ob_deal _ _ Hob _ _ Hdeal) as (Hdebt & Hcoll & o & Ho & Ha & Hw). same_rows.
  match goal with R : reduce_deal _ _ _ _ = Ok _ |- _ =>
    apply reduce_deal_ok in R as [Hred Hsum]; [|done..|lia] end.
  match goal with R : reduce_summary _ _ _ _ = Ok _ |- _ =>
    apply reduce_summary_ok in R as (s' & Es1 & Es2 & Es3 & ->) end.
  match goal with R : tsearch _ _ = Some _ |- _ => apply tsearch_Some in R as [Hrow Hkey] end.
  pose proof (books_positive _ _ Hob) as Hpos.
  assert (positive_deals deals) as Hpos'.
  { eapply reduced_positive; [exact Hred | | done]. intros k x Hx.
    by apply (ob_deal _ _ Hob) in Hx as (_ & ? & _). }
  replace (cdr_account op) with (cd_borrower deal) in *.
  split.
  - conserve.
  - credit_wf; [by eapply reduced_wf | | split].
    + destruct (_ =? _); [by apply tremove_wf | by eapply tmodify_wf].
    + eapply offer_books_reduced; [exact Hred | eassumption | cbn; lia | done..].
    + by eapply summary_books_reduced.
Qed.

#[export] Instance credit_deal_repay_laws : EvaluatorLaws credit_deal_repay_operation unit asset.
Proof.
  split. cbn. intros d0 d op ctx d' r Hval Heval Hfees Hwf E.
  unfold credit_deal_repay_validate in Hval. mon.
  eapply repay_apply_conserves; [|done..]. lia.
Qed.

#[export] Instance credit_deal_update_laws : EvaluatorLaws credit_deal_update_operation unit unit.
Proof.
  split. start_apply. split; [conserve|]. credit_wf. by eapply books_terms.
Qed.
End CreditOfferLaws.

(** ** Processing the due deals *)

Section Processing.
Context `{SafeInt64Laws}.

Lemma credit_required_fee_exact n rate :
  amount_ok n -> 0 <= rate < 2 ^ 32 ->
  credit_required_fee n rate = ceil_div (n * rate) GRAPHENE_FEE_RATE_DENOM.
Proof.
  unfold amount_ok, INT64_MAX, credit_required_fee, ceil_div, GRAPHENE_FEE_RATE_DENOM. intros Hn Hr.
  assert (0 <= n * rate < 2 ^ 95) by (change (2 ^ 95) with (2 ^ 63 * 2 ^ 32); nia).
  rewrite (u128_small n) by lia. rewrite (u128_small (n * rate)) by lia.
  rewrite !u128_small by (rewrite ?u128_small; lia). done.
Qed.

(** The numeric ranges of a deal. *)
Record deal_in_range (x : credit_deal_object) : Prop := {
  range_debt : 0 < cd_debt_amount x <= GRAPHENE_MAX_SHARE_SUPPLY;
  range_coll : 0 < cd_collateral_amount x <= INT64_MAX;
  range_rate : 0 <= cd_fee_rate x < 2 ^ 32 - GRAPHENE_FEE_RATE_DENOM;
}.

(** The amounts of a partial repayment out of the balance [b]. *)
Definition partial_debt (b debt coll rate : Z) : Z :=
  ceil_div (b * GRAPHENE_FEE_RATE_DENOM / (GRAPHENE_FEE_RATE_DENOM + rate) * coll / debt * debt) coll.

Lemma partial_debt_bounds b debt coll rate :
  0 <= b -> 0 < debt -> 0 < coll -> 0 <= rate ->
  b < debt + ceil_div (debt * rate) GRAPHENE_FEE_RATE_DENOM ->
  let n := partial_debt b debt coll rate in
  0 <= n < debt /\ n * (GRAPHENE_FEE_RATE_DENOM + rate) <= b * GRAPHENE_FEE_RATE_DENOM.
Proof.
  intros Hb Hd Hc Hr Hlt n. unfold partial_debt in n.
  pose proof (ceil_div_lt (debt * rate) GRAPHENE_FEE_RATE_DENOM eq_refl) as Hceil.
  unfold GRAPHENE_FEE_RATE_DENOM in *.
  pose proof (div_mul_le (b * 1000000) (1000000 + rate) ltac:(lia)) as H1'.
  assert (0 <= b * 1000000 / (1000000 + rate)) as H1p by (apply Z.div_pos; lia).
  set (d1 := b * 1000000 / (1000000 + rate)) in *.
  pose proof (div_mul_le (d1 * coll) debt Hd) as H2'.
  assert (0 <= d1 * coll / debt) by (apply Z.div_pos; nia).
  set (c := d1 * coll / debt) in *.
  assert (n <= d1) by (apply ceil_div_least; lia).
  assert (0 <= n) by (apply ceil_div_nonneg; nia).
  assert (d1 * (1000000 + rate) < debt * (1000000 + rate)) by nia.
  split; [nia | nia].
Qed.

(** The operation the chain builds, without wrap-around. *)
Lemma auto_repay_exact d id deal :
  deal_in_range deal ->
  let debt := cd_debt_amount deal in
  let rate := cd_fee_rate deal in
  let b := u128 (balance_of d (cd_borrower deal) (cd_debt_asset deal)) in
  let full := (cd_auto_repay deal =? only_full_repayment)
              || (b >=? debt + ceil_div (debt * rate) GRAPHENE_FEE_RATE_DENOM) in
  let n := if full then debt else partial_debt b debt (cd_collateral_amount deal) rate in
  auto_repay_operation d id deal
    = Ok (CreditDealRepay (Asset 0 CORE) (cd_borrower deal) id (Asset n (cd_debt_asset deal))
            (Asset (ceil_div (n * rate) GRAPHENE_FEE_RATE_DENOM) (cd_debt_asset deal)))
  /\ 0 <= n <= debt.
Proof.
  intros [Hd Hc Hr]. cbn zeta. unfold auto_repay_operation.
  unfold GRAPHENE_MAX_SHARE_SUPPLY, INT64_MAX, GRAPHENE_FEE_RATE_DENOM in Hd, Hc, Hr.
  set (debt := cd_debt_amount deal) in *. set (rate := cd_fee_rate deal) in *.
  set (coll := cd_collateral_amount deal) in *.
  assert (forall n, 0 <= n <= debt -> 0 <= ceil_div (n * rate) GRAPHENE_FEE_RATE_DENOM < 2 ^ 63) as Hfee.
  { intros n Hn. pose proof (ceil_div_nonneg (n * rate) GRAPHENE_FEE_RATE_DENOM eq_refl ltac:(nia)).
    pose proof (ceil_div_lt (n * rate) GRAPHENE_FEE_RATE_DENOM eq_refl).
    unfold GRAPHENE_FEE_RATE_DENOM in *. nia. }
  rewrite (credit_required_fee_exact debt) by (unfold amount_ok, INT64_MAX; lia).
  pose proof (Hfee debt ltac:(lia)) as Hf.
  rewrite (u128_small debt) by lia. rewrite (u128_small (_ + debt)) by lia.
  change (amount (get_balance d (cd_borrower deal) (cd_debt_asset deal)))
    with (balance_of d (cd_borrower deal) (cd_debt_asset deal)).
  pose proof (u128_bound (balance_of d (cd_borrower deal) (cd_debt_asset deal))) as Hbb.
  set (b := u128 (balance_of d (cd_borrower deal) (cd_debt_asset deal))) in *.
  rewrite (Z.add_comm (ceil_div _ _) debt).
  destruct ((cd_auto_repay deal =? only_full_repayment) || _) eqn:Efull.
  - cbn [rbind]. split; [|lia]. by rewrite to_int64_small by (unfold_int64; lia).
  - apply orb_false_iff in Efull as [_ Hlt]. rewrite Z.geb_leb in Hlt. apply Z.leb_gt in Hlt.
    destruct (partial_debt_bounds b debt coll rate) as [Hn _]; [lia..|].
    unfold u32. rewrite Z.mod_small by (unfold GRAPHENE_FEE_RATE_DENOM; lia).
    rewrite (proj2 (Z.eqb_neq _ _)) by (unfold GRAPHENE_FEE_RATE_DENOM; lia). cbn [rbind].
    rewrite (u128_small (b * _)) by (unfold GRAPHENE_FEE_RATE_DENOM; lia).
    rewrite (u128_small coll) by lia.
    pose proof (div_mul_le (b * GRAPHENE_FEE_RATE_DENOM) (GRAPHENE_FEE_RATE_DENOM + rate)
                  ltac:(unfold GRAPHENE_FEE_RATE_DENOM; lia)) as H1'.
    assert (0 <= b * GRAPHENE_FEE_RATE_DENOM / (GRAPHENE_FEE_RATE_DENOM + rate))
      by (apply Z.div_pos; unfold GRAPHENE_FEE_RATE_DENOM; lia).
    unfold partial_debt in *. set (d1 := b * _ / _) in *.
    assert (d1 <= b) by (unfold GRAPHENE_FEE_RATE_DENOM in *; nia).
    assert (0 <= d1 * coll < 2 ^ 127) by (split; [|change (2 ^ 127) with (2 ^ 64 * 2 ^ 63)]; nia).
    rewrite (u128_small (d1 * coll)) by lia.
    pose proof (div_mul_le (d1 * coll) debt ltac:(lia)) as H2'.
    assert (0 <= d1 * coll / debt) by (apply Z.div_pos; lia). set (c := d1 * coll / debt) in *.
    rewrite (u128_small (c * debt)) by nia.
    rewrite (u128_small (c * debt + coll)) by lia. rewrite (u128_small (c * debt + coll - 1)) by lia.
    fold (ceil_div (c * debt) coll). set (n := ceil_div (c * debt) coll) in *.
    rewrite credit_required_fee_exact by (unfold amount_ok, INT64_MAX; lia).
    pose proof (Hfee n ltac:(lia)).
    rewrite !to_int64_small by (unfold_int64; lia). split; [done | lia].
Qed.

Definition deals_in_range (d : database) : Prop := tall deal_in_range (credit_deals d).

(** A reduced deal stays in range. *)
Lemma reduce_deal_range deals id deal n deals' released :
  reduce_deal deals id deal n = Ok (deals', released) -> rows deals !! id = Some deal ->
  deal_in_range deal -> 0 <= n <= cd_debt_amount deal -> tall deal_in_range deals ->
  tall deal_in_range deals'
  /\ (size (rows deals') <= size (rows deals))%nat
  /\ (rows deals' !! id = None -> size (rows deals') < size (rows deals))%nat.
Proof.
  unfold reduce_deal. intros E Hrow [Hd Hc Hr] Hn Hall.
  destruct (Z.eqb_spec (cd_debt_amount deal) n) as [En|En]; mon.
  - split; [by apply tall_remove|]. rewrite tremove_size by eauto.
    assert (size (rows deals) <> 0%nat) by (apply map_size_ne_0_lookup; by exists id, deal). lia.
  - safe_ints. subst. rewrite tmodify_size by eauto. split; [|split; [lia|]].
    + apply tall_modify; [|done]. unfold INT64_MAX, GRAPHENE_MAX_SHARE_SUPPLY in *.
      set (rel := u128 _ / cd_debt_amount deal) in *.
      assert (0 <= rel) by (apply Z.div_pos; [apply u128_bound | lia]).
      rewrite u128_small in * by lia.
      rewrite to_int64_small by (unfold_int64; lia).
      split; cbn; unfold INT64_MAX, GRAPHENE_MAX_SHARE_SUPPLY; [lia | lia | done].
    + by rewrite lookup_tmodify.
Qed.

(** Expiring a deal: the collateral changes hands, the books follow, the deal is gone. *)
Lemma expire_deal_ok d id d' :
  db_wf d -> expire_deal d id = Ok d' ->
  conserves d d' /\ db_wf d' /\ credit_deals d' = tremove (credit_deals d) id
  /\ head_block_time d' = head_block_time d.
Proof.
  unfold expire_deal, get_deal, get_offer, tfind. intros Hwf E. mon. safe_ints. subst.
  match goal with R : rows (credit_deals d) !! _ = Some ?y |- _ => rename R into Hdeal; rename y into deal end.
  pose proof (wf_books _ Hwf) as [Hob Hsb].
  destruct (ob_deal _ _ Hob _ _ Hdeal) as (Hdebt & Hcoll & o & Ho & Ha & Hw). same_rows.
  assert (reduced (credit_deals d) id deal (cd_debt_amount deal) (tremove (credit_deals d) id)) as Hred.
  { split; [done|]. split; [lia|]. by right. }
  cbn [credit_summaries set_field] in *.
  destruct (tsearch _ (credit_summaries d)) as [[i s]|] eqn:Hsum.
  2:{ exfalso. destruct (sb_summarised _ _ Hsb _ _ Hdeal) as (i & s & Hs & Hk).
      pose proof (tsearch_None _ _ _ _ Hsum Hs). congruence. }
  apply tsearch_Some in Hsum as [Hrow Hkey]. mon.
  match goal with R : reduce_summary _ _ _ _ = Ok _ |- _ =>
    apply reduce_summary_ok in R as (s' & Es1 & Es2 & Es3 & ->) end.
  adjust_steps. split_and!; [conserve | | done | done].
  destruct Hwf as [? ? ? ? ? ? ? ? ? ? ? ? ? ? ? ? ? _]. split; cbn; eauto 3 with dfs.
  - destruct (_ =? _); [by apply tremove_wf | by eapply tmodify_wf].
  - split.
    + eapply offer_books_reduced; [exact Hred | eassumption | cbn; lia | done..].
    + eapply summary_books_reduced; [exact Hred | by eapply books_positive | | done..].
      intros k x Hx. unfold tremove in Hx. cbn in Hx. apply lookup_delete_Some in Hx as [_ Hx].
      by apply (ob_deal _ _ Hob) in Hx as [? _].
Qed.

(** The automatic repayment, when it goes through, is an ordinary repayment. *)
Lemma try_auto_repay_ok d id deal d' :
  db_wf d -> deals_in_range d -> rows (credit_deals d) !! id = Some deal ->
  try_auto_repay d id deal = Ok d' ->
  conserves d d' /\ db_wf d' /\ deals_in_range d' /\ head_block_time d' = head_block_time d
  /\ (size (rows (credit_deals d')) <= size (rows (credit_deals d)))%nat
  /\ (rows (credit_deals d') !! id = None ->
      size (rows (credit_deals d')) < size (rows (credit_deals d)))%nat.
Proof.
  intros Hwf Hrange Hrow E. unfold try_auto_repay in E.
  assert (conserves d d /\ db_wf d /\ deals_in_range d /\ head_block_time d = head_block_time d
          /\ (size (rows (credit_deals d)) <= size (rows (credit_deals d)))%nat
          /\ (rows (credit_deals d) !! id = None ->
              size (rows (credit_deals d)) < size (rows (credit_deals d)))%nat) as Hsame.
  { split_and!; try done. congruence. }
  pose proof (tall_lookup _ _ _ _ Hrange Hrow) as Hr.
  destruct (cd_auto_repay deal =? no_auto_repayment); [by mon|].
  destruct (auto_repay_exact d id deal Hr) as [Eop Hn]. rewrite Eop in E. cbn [rbind] in E. clear Eop.
  match type of E with (match apply_operation ?c ?k ?x ?op with _ => _ end) = _ =>
    destruct (apply_operation c k x op) as [[d2 res]|] eqn:Hrun; [|by mon]; set (o := op) in * end.
  apply apply_operation_inv in Hrun as [_ Hrun]. mon. pose proof Hrun as Hinv.
  eapply start_evaluate_conserves in Hrun as [Hc Hwf']; [| |done].
  2:{ intros d1 ctx d2 r' Hev Hf Hw Hap. eapply repay_apply_conserves; [|done..]. cbn. lia. }
  apply start_evaluate_inv in Hinv as (d1 & ctx & d2 & m & Hev & Hf & Hap & ->).
  after_fees. unfold credit_deal_repay_do_apply, get_deal, get_offer, tfind in Hap. cbn in Hap. mon.
  match goal with p : (Z * credit_deal_summary_object)%type |- _ => destruct p as [i s] end. mon.
  match goal with p : (table credit_deal_object * Z)%type |- _ => destruct p as [deals released] end.
  mon. adjust_steps. same_rows.
  match goal with R : reduce_deal _ _ _ _ = Ok _ |- _ =>
    apply reduce_deal_range in R as (R1 & R2 & R3); [|done..] end.
  split_and!; done.
Qed.

(** One round keeps the invariant of the loop and removes a deal. *)
Lemma process_deal_ok d id deal d' :
  db_wf d -> deals_in_range d -> rows (credit_deals d) !! id = Some deal ->
  process_deal d id deal = Ok d' ->
  conserves d d' /\ db_wf d' /\ deals_in_range d' /\ head_block_time d' = head_block_time d
  /\ (size (rows (credit_deals d')) < size (rows (credit_deals d)))%nat.
Proof.
  intros Hwf Hr Hrow E. unfold process_deal in E. mon.
  match goal with R : try_auto_repay _ _ _ = Ok _ |- _ =>
    apply try_auto_repay_ok in R as (Hc1 & Hwf1 & Hr1' & Ht1 & Hle & Hlt); [|done..] end.
  unfold tfind in E. rename r into d1. destruct (rows (credit_deals d1) !! id) eqn:Hfind; mon.
  - apply expire_deal_ok in E as (Hc2 & Hwf2 & Ed & Ht2); [|done]. split_and!.
    + by etrans.
    + done.
    + unfold deals_in_range. rewrite Ed. by apply tall_remove.
    + congruence.
    + rewrite Ed, tremove_size by (by eexists).
      assert (size (rows (credit_deals d1)) <> 0%nat) by (apply map_size_ne_0_lookup; eauto). lia.
  - split_and!; auto.
Qed.

Lemma process_due_deals_ok fuel head d :
  db_wf d -> deals_in_range d -> (size (rows (credit_deals d)) <= fuel)%nat ->
  exists r, process_due_deals fuel head d = Some r
    /\ forall d', r = Ok d' -> conserves d d' /\ db_wf d'
        /\ first_due_deal head (credit_deals d') = None.
Proof.
  revert d. induction fuel as [|fuel IH]; intros d Hwf Hr Hfuel; cbn.
  - destruct (first_due_deal head (credit_deals d)) as [[id deal]|] eqn:E.
    + apply (tfirst_due_Some cd_latest_repay_time) in E as [Hrow _].
      assert (size (rows (credit_deals d)) <> 0%nat) by (apply map_size_ne_0_lookup; eauto). lia.
    + eexists. split; [done|]. intros d' [= <-]. done.
  - destruct (first_due_deal head (credit_deals d)) as [[id deal]|] eqn:E.
    + apply (tfirst_due_Some cd_latest_repay_time) in E as [Hrow _].
      destruct (process_deal d id deal) as [d1|e] eqn:Hp; [|by eexists].
      apply process_deal_ok in Hp as (Hc & Hwf1 & Hr1 & _ & Hlt); [|done..].
      destruct (IH d1) as (r & Er & Hd'); [done..|lia|]. exists r. split; [done|].
      intros d' ->. destruct (Hd' d' eq_refl) as (Hc' & ? & ?). split_and!; [by etrans | done | done].
    + eexists. split; [done|]. intros d' [= <-]. done.
Qed.
End Processing.

(** ** Main properties *)

Section CreditOfferTheorems.
Context `{SafeInt64Laws}.

(** C12: The books of the credit offers always balance: each of the six operations
    keeps, for every offer, lent = total - current = the sum of its open deals, for
    every borrower of an offer, the summary = the sum of the deals, and that every
    deal has a positive debt, positive collateral and an existing offer of its asset
    and owner (and that all tables stay well-formed). *)
Theorem credit_books_balance :
  preserves db_wf credit_offer_create_operation
  /\ preserves db_wf credit_offer_delete_operation
  /\ preserves db_wf credit_offer_update_operation
  /\ preserves db_wf credit_offer_accept_operation
  /\ preserves db_wf credit_deal_repay_operation
  /\ preserves db_wf credit_deal_update_operation.
Proof.
  split_and!; intros d0 d op ctx d' r Hval Heval Hfees Hwf E;
    by eapply apply_conserves in E as [_ ?].
Qed.

(** C40: Repaying releases collateral in proportion, never more: for a deal of the
    chain and any repayment up to its debt the computation succeeds (the internal
    assertion cannot fail); a full repayment releases all the collateral; a partial one
    releases the proportional share rounded down, strictly less than all, so that the
    remaining debt is at least as well collateralised as before. *)
Theorem credit_repay_collateral deals id deal (n : share_type) :
  rows deals !! id = Some deal ->
  0 < cd_debt_amount deal <= INT64_MAX -> 0 < cd_collateral_amount deal <= INT64_MAX ->
  0 <= n <= cd_debt_amount deal ->
  exists deals' released, reduce_deal deals id deal n = Ok (deals', released)
    /\ released = n * cd_collateral_amount deal / cd_debt_amount deal
    /\ (n = cd_debt_amount deal -> released = cd_collateral_amount deal /\ rows deals' !! id = None)
    /\ (n < cd_debt_amount deal -> released < cd_collateral_amount deal
        /\ exists deal', rows deals' !! id = Some deal'
            /\ cd_debt_amount deal' = cd_debt_amount deal - n
            /\ cd_collateral_amount deal' = cd_collateral_amount deal - released
            /\ cd_collateral_amount deal' * cd_debt_amount deal
               >= cd_collateral_amount deal * cd_debt_amount deal').
Proof.
  intros Hrow Hd Hc Hn. unfold reduce_deal, INT64_MAX in *.
  destruct (Z.eqb_spec (cd_debt_amount deal) n) as [<-|Hne].
  - do 2 eexists. split; [done|]. split; [by rewrite Z.mul_comm, Z.div_mul by lia|].
    split; [intros _; split; [done | apply lookup_tremove] | lia].
  - rewrite (u128_small n), (u128_small (cd_collateral_amount deal)) by lia.
    rewrite u128_mul_small by lia.
    pose proof (div_mul_le (n * cd_collateral_amount deal) (cd_debt_amount deal) ltac:(lia)).
    pose proof (share_nonneg n (cd_collateral_amount deal) (cd_debt_amount deal)).
    set (rel := n * cd_collateral_amount deal / cd_debt_amount deal) in *.
    assert (rel < cd_collateral_amount deal) by nia.
    rewrite (proj2 (Z.ltb_lt _ _)) by done. cbn [fc_assert rbind].
    rewrite (to_int64_small rel) by (unfold_int64; lia).
    rewrite !safe_sub_exact by (unfold_int64; lia). cbn [rbind].
    do 2 eexists. split; [done|]. split; [done|]. split; [lia|]. intros _. split; [done|].
    eexists. split; [apply lookup_tmodify|]. cbn. split_and!; [done | done |]. nia.
Qed.

(** C13: Processing the due deals terminates and settles all of them: the loop ends
    within as many rounds as there are deals, and when it ends normally no remaining
    deal is due, every asset has been conserved through the repayments and the
    liquidations, and the books still balance. *)
Theorem credit_processing_settles d :
  db_wf d -> deals_in_range d ->
  exists r, update_credit_offers_and_deals d = Some r
    /\ forall d', r = Ok d' -> conserves d d' /\ db_wf d'
        /\ forall id deal, rows (credit_deals d') !! id = Some deal ->
             head_block_time d < cd_latest_repay_time deal.
Proof.
  intros Hwf Hr. unfold update_credit_offers_and_deals.
  set (d1 := d <| credit_offers := _ |>).
  assert (forall k o, rows (credit_offers d1) !! k = Some o -> exists o', rows (credit_offers d) !! k = Some o'
            /\ co_total_balance o = co_total_balance o' /\ co_current_balance o = co_current_balance o'
            /\ co_asset_type o = co_asset_type o' /\ co_owner_account o = co_owner_account o') as Hrows.
  { intros k o Hk. subst d1. cbn in Hk. apply lookup_fmap_Some in Hk as (o' & <- & Ho').
    exists o'. split; [done|]. by destruct (_ && _). }
  assert (forall k o', rows (credit_offers d) !! k = Some o' -> exists o, rows (credit_offers d1) !! k = Some o
            /\ co_asset_type o = co_asset_type o' /\ co_owner_account o = co_owner_account o') as Hrows'.
  { intros k o' Hk. subst d1. cbn. rewrite lookup_fmap, Hk. eexists. split; [done|]. by destruct (_ && _). }
  assert (db_wf d1 /\ conserves d d1) as [Hwf1 Hc1].
  { split.
    - pose proof (wf_books _ Hwf) as [Hob Hsb].
    destruct Hwf as [? ? ? ? Ho ? ? ? ? ? ? ? ? ? ? ? ? _]. subst d1. split; cbn in *; try assumption.
      + destruct Ho as [Hn Ho]. split; [done|]. intros k o Hk.
        destruct (Hrows k o Hk) as (o' & Ho' & _). by apply Ho in Ho'.
      + split; [|done]. split.
        * intros k o Hk. destruct (Hrows k o Hk) as (o' & Ho' & -> & -> & _). by apply (ob_offer _ _ Hob).
        * intros k x Hx. destruct (ob_deal _ _ Hob _ _ Hx) as (? & ? & o' & Ho' & ? & ?).
          split; [done|]. split; [done|]. destruct (Hrows' _ _ Ho') as (o & Hk & ? & ?).
          exists o. split; [done|]. split; congruence.
    - intros a. subst d1. unfold excess, holdings, supply. cbn.
      enough (offer_sum a (disable_expired_offers (head_block_time d) (credit_offers d))
              = offer_sum a (credit_offers d)) by lia.
      unfold offer_sum, tsum. cbn. rewrite msum_fmap. apply msum_ext. intros k o _. by destruct (_ && _). }
  destruct (process_due_deals_ok (size (rows (credit_deals d))) (head_block_time d) d1)
    as (r & Er & Hok); [done | done | done |].
  exists r. split; [done|]. intros d' Hd'. destruct (Hok d' Hd') as (Hc & ? & Hnone).
  split_and!; [by etrans | done |]. intros id deal. by apply (tfirst_due_None cd_latest_repay_time).
Qed.

(** An automatic repayment asks for what the borrower can pay: it is a repayment
    of this deal by its borrower with exactly the required fee; it repays the whole
    debt if that is asked for or the balance suffices for it with the fee; and unless the
    whole debt is asked for, the amount together with its fee fits in the balance. *)
Theorem credit_auto_repay_affordable d (id : Z) deal :
  deal_in_range deal -> 0 <= balance_of d (cd_borrower deal) (cd_debt_asset deal) < 2 ^ 63 ->
  exists n fee, auto_repay_operation d id deal
      = Ok (CreditDealRepay (Asset 0 CORE) (cd_borrower deal) id (Asset n (cd_debt_asset deal))
              (Asset fee (cd_debt_asset deal)))
    /\ 0 <= n <= cd_debt_amount deal
    /\ fee = credit_required_fee n (cd_fee_rate deal)
    /\ (cd_auto_repay deal = only_full_repayment
        \/ cd_debt_amount deal + credit_required_fee (cd_debt_amount deal) (cd_fee_rate deal)
           <= balance_of d (cd_borrower deal) (cd_debt_asset deal) -> n = cd_debt_amount deal)
    /\ (cd_auto_repay deal <> only_full_repayment ->
        n + fee <= balance_of d (cd_borrower deal) (cd_debt_asset deal)).
Proof.
  intros Hr Hb. destruct (auto_repay_exact d id deal Hr) as [E Hn]. rewrite u128_small in E, Hn by lia.
  set (b := balance_of d (cd_borrower deal) (cd_debt_asset deal)) in *.
  do 2 eexists. split; [exact E|]. split; [exact Hn|]. destruct Hr as [Hd Hc Hrt].
  unfold GRAPHENE_MAX_SHARE_SUPPLY, INT64_MAX, GRAPHENE_FEE_RATE_DENOM in Hd, Hc, Hrt. split; [|split].
  - rewrite credit_required_fee_exact; [done | unfold amount_ok, INT64_MAX; lia | lia].
  - rewrite credit_required_fee_exact by (unfold amount_ok, INT64_MAX; lia). intros [->|Hfull]; [done|].
    fold b in Hfull. rewrite Z.geb_leb, (proj2 (Z.leb_le _ _) Hfull), orb_true_r. done.
  - intros Hne. apply Z.eqb_neq in Hne. rewrite Hne in *. cbn [orb] in *.
    destruct (_ >=? _) eqn:Hge; rewrite Z.geb_leb in Hge.
    + apply Z.leb_le in Hge. lia.
    + apply Z.leb_gt in Hge.
      destruct (partial_debt_bounds b (cd_debt_amount deal) (cd_collateral_amount deal) (cd_fee_rate deal))
        as [_ Hfit]; [lia..|].
      assert (ceil_div (partial_debt b (cd_debt_amount deal) (cd_collateral_amount deal) (cd_fee_rate deal)
                        * cd_fee_rate deal) GRAPHENE_FEE_RATE_DENOM
              <= b - partial_debt b (cd_debt_amount deal) (cd_collateral_amount deal) (cd_fee_rate deal)).
      { apply ceil_div_least; [done|]. lia. }
      lia.
Qed.
End CreditOfferTheorems.

(** ** A concrete book, and the rate that stops the chain *)

Definition sample_offer : credit_offer_object :=
  CreditOffer 5 1 10000 6000 30000 86400 1 true 1800000000 {[0 := Price (Asset 1 1) (Asset 2 0)]} ∅.

Definition sample_deal (rate auto_repay : Z) : credit_deal_object :=
  CreditDeal 7 0 5 1 4000 0 8000 rate 1799999999 auto_repay.

Definition sample_credit_db (rate auto_repay : Z) : database :=
  sample_db <| credit_offers := table_from [sample_offer] |>
            <| credit_deals := table_from [sample_deal rate auto_repay] |>
            <| credit_summaries := table_from [CreditDealSummary 7 0 5 1 4000] |>.

Lemma table_of_one {A} (y : A) id x : rows (table_from [y]) !! id = Some x -> id = 0 /\ x = y.
Proof.
  intros E. change (<[0 := y]> (∅ : gmap Z A) !! id = Some x) in E.
  apply lookup_insert_Some in E as [[<- <-]|[_ E]]; [done | by rewrite lookup_empty in E].
Qed.

Lemma sample_credit_wf rate ar : db_wf (sample_credit_db rate ar).
Proof.
  destruct sample_db_wf. split; try assumption; try apply table_from_wf.
  split; split.
  - intros id o [-> ->]%table_of_one. vm_compute. reflexivity.
  - intros id x [-> ->]%table_of_one. split_and!; [reflexivity | reflexivity |]. by exists sample_offer.
  - intros id x [-> ->]%table_of_one. split; vm_compute; reflexivity.
  - intros id x [-> ->]%table_of_one. by exists 0, (CreditDealSummary 7 0 5 1 4000).
  - intros i j s t [-> ->]%table_of_one [-> ->]%table_of_one _ _. done.
Qed.

Lemma sample_credit_range ar : deals_in_range (sample_credit_db 30000 ar).
Proof.
  intros id x [-> ->]%table_of_one.
  split; unfold GRAPHENE_MAX_SHARE_SUPPLY, INT64_MAX, GRAPHENE_FEE_RATE_DENOM; cbn; lia.
Qed.

(** Account 6 borrows 1000 from the sample offer, which leaves 5000 in it, and repays 400. *)
Definition sample_accept : credit_offer_accept_operation :=
  CreditOfferAccept (Asset 1 CORE) 6 0 (Asset 1000 1) (Asset 2001 CORE) 30000 3600 (Some 2).
Definition sample_repay : credit_deal_repay_operation :=
  CreditDealRepay (Asset 1 CORE) 6 1 (Asset 400 1) (Asset 12 1).
Definition credit_db1 : database := after (do_apply (sample_credit_db 30000 2) sample_accept None).
Definition credit_db2 : database := after (do_apply credit_db1 sample_repay tt).

Lemma credit_books_balance_witness : db_wf credit_db2
  /\ map (fun d => option_map co_current_balance (rows (credit_offers d) !! 0)) [credit_db1; credit_db2]
     = [Some 5000; Some 5412]
  /\ option_map cd_debt_amount (rows (credit_deals credit_db2) !! 1) = Some 600.
Proof.
  destruct credit_books_balance as (_ & _ & _ & Ha & Hr & _). split; [|split; vm_compute; reflexivity].
  destruct (after_ok (do_apply (sample_credit_db 30000 2) sample_accept None)) as [r1 E1]; [vm_compute; reflexivity|].
  destruct (after_ok (do_apply credit_db1 sample_repay tt)) as [r2 E2]; [vm_compute; reflexivity|].
  refine (Hr credit_db1 credit_db1 sample_repay tt credit_db2 r2 _ _ (only_fees_refl _) _ E2); [vm_compute; reflexivity..|].
  refine (Ha (sample_credit_db 30000 2) _ sample_accept None credit_db1 r1 _ _ (only_fees_refl _) (sample_credit_wf 30000 2) E1);
    vm_compute; reflexivity.
Defined.

Lemma credit_repay_collateral_witness :
  exists deals' released,
    reduce_deal (table_from [sample_deal 30000 2]) 0 (sample_deal 30000 2) 1001 = Ok (deals', released)
    /\ released = 2002.
Proof.
  destruct (credit_repay_collateral (table_from [sample_deal 30000 2]) 0 (sample_deal 30000 2) 1001)
    as (deals' & released & E & Er & _);
    [reflexivity | unfold INT64_MAX; cbn; lia | unfold INT64_MAX; cbn; lia | cbn; lia |].
  exists deals', released. split; [exact E | exact Er].
Defined.

Lemma credit_processing_settles_witness :
  exists d', update_credit_offers_and_deals (sample_credit_db 30000 2) = Some (Ok d')
    /\ conserves (sample_credit_db 30000 2) d' /\ rows (credit_deals d') = ∅.
Proof.
  eexists. assert (update_credit_offers_and_deals (sample_credit_db 30000 2) = Some (Ok _)) as E
    by (vm_compute; reflexivity).
  split; [exact E|]. split; [|vm_compute; reflexivity].
  destruct (credit_processing_settles _ (sample_credit_wf 30000 2) (sample_credit_range 2)) as (r & Er & Hr).
  rewrite E in Er. injection Er as <-. exact (proj1 (Hr _ eq_refl)).
Defined.

Lemma credit_auto_repay_affordable_witness :
  exists n fee, auto_repay_operation (sample_credit_db 30000 2) 0 (sample_deal 30000 2)
      = Ok (CreditDealRepay (Asset 0 CORE) 7 0 (Asset n 1) (Asset fee 1)) /\ n + fee <= 1000000.
Proof.
  destruct (credit_auto_repay_affordable (sample_credit_db 30000 2) 0 (sample_deal 30000 2))
    as (n & fee & E & _ & _ & _ & Hfit).
  - apply (sample_credit_range 2 0). reflexivity.
  - vm_compute. split; [discriminate | reflexivity].
  - exists n, fee. split; [exact E|]. apply Hfit. vm_compute. discriminate.
Defined.

(** A rate of 2^32 - 10^6 passes every check, makes the 32-bit sum zero, and the
    processing of the block divides by it, outside of the [try] block. *)
Lemma credit_rate_division_by_zero :
  update_credit_offers_and_deals (sample_credit_db (2 ^ 32 - 1000000) allow_partial_repayment)
    = Some (Err (thrown "division by zero")).
Proof. vm_compute. reflexivity. Qed.
