(* ===== verification/LiquidityPool.v ===== *)
(** Liquidity pools: [liquidity_pool_evaluator.cpp], [protocol/liquidity_pool.cpp] and
    [update_virtual_value] of [liquidity_pool_object.hpp]. *)
From S2P Require Import Prelude Records Fc Asset Objects CreditBooks Vesting Database Holdings Sample Fees Evaluator.

(** ** Operations and results *)

Record liquidity_pool_create_operation := LiquidityPoolCreate {
  lpc_fee : asset;
  lpc_account : account_id_type;
  lpc_asset_a : asset_id_type;
  lpc_asset_b : asset_id_type;
  lpc_share_asset : asset_id_type;
  lpc_taker_fee_percent : Z;
  lpc_withdrawal_fee_percent : Z;
}.

Record liquidity_pool_delete_operation := LiquidityPoolDelete {
  lpd_fee : asset;
  lpd_account : account_id_type;
  lpd_pool : Z;
}.

Record liquidity_pool_update_operation := LiquidityPoolUpdate {
  lpu_fee : asset;
  lpu_account : account_id_type;
  lpu_pool : Z;
  lpu_taker_fee_percent : option Z;
  lpu_withdrawal_fee_percent : option Z;
}.

Record liquidity_pool_deposit_operation := LiquidityPoolDeposit {
  lpi_fee : asset;
  lpi_account : account_id_type;
  lpi_pool : Z;
  lpi_amount_a : asset;
  lpi_amount_b : asset;
}.

Record liquidity_pool_withdraw_operation := LiquidityPoolWithdraw {
  lpo_fee : asset;
  lpo_account : account_id_type;
  lpo_pool : Z;
  lpo_share_amount : asset;
}.

Record liquidity_pool_exchange_operation := LiquidityPoolExchange {
  lpx_fee : asset;
  lpx_account : account_id_type;
  lpx_pool : Z;
  lpx_amount_to_sell : asset;
  lpx_min_to_receive : asset;
}.

Definition liquidity_pool_create_validate (op : liquidity_pool_create_operation) : result unit :=
  assert! 0 <=? amount (lpc_fee op) @ "Fee should not be negative" in
  assert! lpc_asset_a op <? lpc_asset_b op
    @ "ID of the first asset should be smaller than ID of the second asset" in
  assert! negb (lpc_asset_a op =? lpc_share_asset op) && negb (lpc_asset_b op =? lpc_share_asset op)
    @ "Share asset can not be the same as one of the assets in the pool" in
  assert! lpc_taker_fee_percent op <=? GRAPHENE_100_PERCENT
    @ "Taker fee percent should not exceed 100%" in
  assert! lpc_withdrawal_fee_percent op <=? GRAPHENE_100_PERCENT
    @ "Withdrawal fee percent should not exceed 100%" in
  Ok tt.

Definition liquidity_pool_delete_validate (op : liquidity_pool_delete_operation) : result unit :=
  assert! 0 <=? amount (lpd_fee op) @ "Fee should not be negative" in Ok tt.

Definition liquidity_pool_update_validate (op : liquidity_pool_update_operation) : result unit :=
  assert! 0 <=? amount (lpu_fee op) @ "Fee should not be negative" in
  assert! bool_decide (is_Some (lpu_taker_fee_percent op))
          || bool_decide (is_Some (lpu_withdrawal_fee_percent op)) @ "Should update something" in
  do! match lpu_taker_fee_percent op with
      | Some p => assert! p <=? GRAPHENE_100_PERCENT
                    @ "Taker fee percent should not exceed 100%" in Ok tt
      | None => Ok tt
      end in
  match lpu_withdrawal_fee_percent op with
  | Some p => assert! 0 =? p @ "Withdrawal fee percent can only be updated to zero" in Ok tt
  | None => Ok tt
  end.

Definition liquidity_pool_deposit_validate (op : liquidity_pool_deposit_operation) : result unit :=
  assert! 0 <=? amount (lpi_fee op) @ "Fee should not be negative" in
  assert! (0 <? amount (lpi_amount_a op)) && (0 <? amount (lpi_amount_b op))
    @ "Both amounts of the assets should be positive" in
  assert! asset_id (lpi_amount_a op) <? asset_id (lpi_amount_b op)
    @ "ID of the first asset should be smaller than ID of the second asset" in
  Ok tt.

Definition liquidity_pool_withdraw_validate (op : liquidity_pool_withdraw_operation) : result unit :=
  assert! 0 <=? amount (lpo_fee op) @ "Fee should not be negative" in
  assert! 0 <? amount (lpo_share_amount op) @ "Amount of the share asset should be positive" in
  Ok tt.

Definition liquidity_pool_exchange_validate (op : liquidity_pool_exchange_operation) : result unit :=
  assert! 0 <=? amount (lpx_fee op) @ "Fee should not be negative" in
  assert! 0 <? amount (lpx_amount_to_sell op) @ "Amount to sell should be positive" in
  assert! 0 <? amount (lpx_min_to_receive op) @ "Minimum amount to receive should be positive" in
  assert! negb (asset_id (lpx_amount_to_sell op) =? asset_id (lpx_min_to_receive op))
    @ "ID of the two assets should not be the same" in
  Ok tt.

(** ** Arithmetic of the pool *)

Definition get_pool (d : database) (id : Z) : result liquidity_pool_object :=
  of_option "liquidity pool" (tfind (pools d) id).

Definition update_virtual_value (p : liquidity_pool_object) : liquidity_pool_object :=
  p <| lp_virtual_value := u128 (u128 (lp_balance_a p) * u128 (lp_balance_b p)) |>.

(** What a deposit into a funded pool does: the amounts the pool receives and the
    shares it issues, given the share supply and its maximum. *)
Definition deposit_amounts `{SafeInt64} (p : liquidity_pool_object) (supply max_supply : share_type)
    (amount_a amount_b : share_type) : result (Z * Z * Z) :=
  let! max_new_supply := safe_sub max_supply supply in
  let supply128 := u128 supply in
  let new_supply_if_a := u128 (supply128 * u128 amount_a) / u128 (lp_balance_a p) in
  let new_supply_if_b := u128 (supply128 * u128 amount_b) / u128 (lp_balance_b p) in
  let new_supply := Z.min (Z.min new_supply_if_a new_supply_if_b) (u128 max_new_supply) in
  assert! 0 <? new_supply @ "Aborting due to zero outcome" in
  let a128 := u128 (u128 (u128 (new_supply * u128 (lp_balance_a p)) + supply128) - 1) / supply128 in
  assert! a128 <=? u128 amount_a @ "Internal error" in
  let b128 := u128 (u128 (u128 (new_supply * u128 (lp_balance_b p)) + supply128) - 1) / supply128 in
  assert! b128 <=? u128 amount_b @ "Internal error" in
  Ok (to_int64 a128, to_int64 b128, to_int64 new_supply).

(** One side of a partial withdrawal: what the pool pays and the fee it keeps. *)
Definition withdraw_side (share supply balance fee_percent : Z) : result (Z * Z) :=
  let x128 := u128 (u128 share * u128 balance) / u128 supply in
  assert! x128 <? u128 balance @ "Internal error" in
  let fee := u128 (x128 * fee_percent) / GRAPHENE_100_PERCENT in
  assert! fee <=? x128 @ "Withdrawal fee percent of the pool is too high" in
  Ok (u128 (x128 - fee), fee).

(** What the pool gives up for [receives]: the drop of the other balance that keeps
    the virtual value, the new balance being rounded up. *)
Definition exchange_delta `{SafeInt64} (virtual_value balance_in balance_out receives : Z) : result Z :=
  let! new_in := safe_add balance_in receives in
  let new_out := u128 (u128 (virtual_value + u128 new_in) - 1) / u128 new_in in
  assert! new_out <=? u128 balance_out @ "Internal error" in
  Ok (u128 (u128 balance_out - new_out)).

(** ** Evaluators *)

Section Pools.
Context `{SafeInt64}.

Definition liquidity_pool_create_do_evaluate (d : database) (op : liquidity_pool_create_operation)
    : result unit :=
  assert! HARDFORK_LIQUIDITY_POOL_PASSED (head_block_time d) @ "Not allowed until the LP hardfork" in
  let! _ := get_asset d (lpc_asset_a op) in
  let! _ := get_asset d (lpc_asset_b op) in
  let! share := get_asset d (lpc_share_asset op) in
  assert! as_issuer share =? lpc_account op
    @ "Only the asset owner can set an asset as the share asset of a liquidity pool" in
  assert! negb (as_market_issued share)
    @ "Can not specify a market-issued asset as the share asset of a liquidity pool" in
  assert! negb (is_liquidity_pool_share_asset share)
    @ "The share asset is already bound to another liquidity pool" in
  let! dyn := get_dyn d (lpc_share_asset op) in
  assert! dd_current_supply dyn =? 0 @ "Current supply of the share asset needs to be zero" in
  Ok tt.

Definition liquidity_pool_create_do_apply (d : database) (op : liquidity_pool_create_operation)
    (ctx : unit) : result (database * generic_operation_result) :=
  let id := next_id (pools d) in
  let pool := LiquidityPool (lpc_asset_a op) (lpc_asset_b op) 0 0 (lpc_share_asset op)
                (lpc_taker_fee_percent op) (lpc_withdrawal_fee_percent op) 0 in
  let d := d <| pools := tcreate (pools d) pool |> in
  let! share := get_asset d (lpc_share_asset op) in
  Ok (d <| assets := tmodify (assets d) (lpc_share_asset op) (share <| as_for_liquidity_pool := Some id |>) |>,
      GenericResult {[pool_ref id]} {[asset_ref (lpc_share_asset op)]} ∅).

Definition liquidity_pool_delete_do_evaluate (d : database) (op : liquidity_pool_delete_operation)
    : result unit :=
  let! pool := get_pool d (lpd_pool op) in
  assert! (lp_balance_a pool =? 0) && (lp_balance_b pool =? 0) @ "Can not delete a non-empty pool" in
  let! share := get_asset d (lp_share_asset pool) in
  assert! as_issuer share =? lpd_account op @ "The account is not the owner of the liquidity pool" in
  Ok tt.

Definition liquidity_pool_delete_do_apply (d : database) (op : liquidity_pool_delete_operation)
    (ctx : unit) : result (database * generic_operation_result) :=
  let! pool := get_pool d (lpd_pool op) in
  let! share := get_asset d (lp_share_asset pool) in
  let d := d <| assets := tmodify (assets d) (lp_share_asset pool)
                            (share <| as_for_liquidity_pool := None |>) |> in
  Ok (d <| pools := tremove (pools d) (lpd_pool op) |>,
      GenericResult ∅ {[asset_ref (lp_share_asset pool)]} {[pool_ref (lpd_pool op)]}).

Definition liquidity_pool_update_do_evaluate (d : database) (op : liquidity_pool_update_operation)
    : result unit :=
  assert! HARDFORK_CORE_2604_PASSED (head_block_time d) @ "Not allowed until the core-2604 hardfork" in
  let! pool := get_pool d (lpu_pool op) in
  let! share := get_asset d (lp_share_asset pool) in
  assert! as_issuer share =? lpu_account op @ "The account is not the owner of the liquidity pool" in
  match lpu_taker_fee_percent op with
  | Some _ =>
      assert! (0 =? lp_withdrawal_fee_percent pool)
              || match lpu_withdrawal_fee_percent op with Some p => 0 =? p | None => false end
        @ "Taker fee percent can only be updated if withdrawal fee percent is zero" in Ok tt
  | None => Ok tt
  end.

Definition liquidity_pool_update_do_apply (d : database) (op : liquidity_pool_update_operation)
    (ctx : unit) : result (database * unit) :=
  let! pool := get_pool d (lpu_pool op) in
  let pool := match lpu_taker_fee_percent op with
              | Some p => pool <| lp_taker_fee_percent := p |> | None => pool end in
  let pool := match lpu_withdrawal_fee_percent op with
              | Some p => pool <| lp_withdrawal_fee_percent := p |> | None => pool end in
  Ok (d <| pools := tmodify (pools d) (lpu_pool op) pool |>, tt).

(** The account must be authorized to deal in the shares and in both assets. *)
Definition check_authorized_for (d : database) (acc : account_id_type) (ids : list asset_id_type)
    : result unit :=
  let! acct := get_account d acc in
  rforeach (fun id => let! a := get_asset d id in
              assert! is_authorized_asset d acc acct id a @ "The account is unauthorized" in Ok tt) ids.

(** [_pool_receives_a], [_pool_receives_b], [_account_receives] *)
Definition liquidity_pool_deposit_do_evaluate (d : database) (op : liquidity_pool_deposit_operation)
    : result (asset * asset * asset) :=
  let! pool := get_pool d (lpi_pool op) in
  assert! asset_id (lpi_amount_a op) =? lp_asset_a pool @ "Asset type A mismatch" in
  assert! asset_id (lpi_amount_b op) =? lp_asset_b pool @ "Asset type B mismatch" in
  assert! eqb (lp_balance_a pool =? 0) (lp_balance_b pool =? 0) @ "Internal error" in
  let! share := get_asset d (lp_share_asset pool) in
  assert! can_create_new_supply share @ "Can not create new supply for the share asset" in
  do! (if lp_balance_a pool =? 0 then
         assert! as_issuer share =? lpi_account op
           @ "The initial deposit can only be done by the pool owner" in Ok tt
       else Ok tt) in
  let! dyn := get_dyn d (lp_share_asset pool) in
  assert! eqb (lp_balance_a pool =? 0) (dd_current_supply dyn =? 0) @ "Internal error" in
  let max_supply := ao_max_supply (as_options share) in
  assert! dd_current_supply dyn <? max_supply @ "Can not create new supply for the share asset" in
  do! check_authorized_for d (lpi_account op) [lp_share_asset pool; lp_asset_a pool; lp_asset_b pool] in
  if lp_balance_a pool =? 0 then
    let share_amount := Z.max (amount (lpi_amount_a op)) (amount (lpi_amount_b op)) in
    assert! share_amount <=? max_supply @ "For initial deposit, each amount of the two assets in the pool should not be greater than the maximum supply of the share asset" in
    Ok (lpi_amount_a op, lpi_amount_b op, Asset share_amount (lp_share_asset pool))
  else
    let! (a, b, s) := deposit_amounts pool (dd_current_supply dyn) max_supply
                        (amount (lpi_amount_a op)) (amount (lpi_amount_b op)) in
    Ok (Asset a (lp_asset_a pool), Asset b (lp_asset_b pool), Asset s (lp_share_asset pool)).

(** [current_supply += n] *)
Definition add_supply (d : database) (id : asset_id_type) (n : Z) : result database :=
  let! dyn := get_dyn d id in
  let! s := safe_add (dd_current_supply dyn) n in
  Ok (set_dyn d id (dyn <| dd_current_supply := s |>)).

Definition liquidity_pool_deposit_do_apply (d : database) (op : liquidity_pool_deposit_operation)
    (ctx : asset * asset * asset) : result (database * generic_exchange_operation_result) :=
  let '(pool_receives_a, pool_receives_b, account_receives) := ctx in
  let! minus_a := asset_neg pool_receives_a in
  let! d := adjust_balance d (lpi_account op) minus_a in
  let! minus_b := asset_neg pool_receives_b in
  let! d := adjust_balance d (lpi_account op) minus_b in
  let! d := adjust_balance d (lpi_account op) account_receives in
  let! pool := get_pool d (lpi_pool op) in
  let! a := safe_add (lp_balance_a pool) (amount pool_receives_a) in
  let! b := safe_add (lp_balance_b pool) (amount pool_receives_b) in
  let pool := update_virtual_value (pool <| lp_balance_a := a |> <| lp_balance_b := b |>) in
  let d := d <| pools := tmodify (pools d) (lpi_pool op) pool |> in
  let! d := add_supply d (lp_share_asset pool) (amount account_receives) in
  assert! (0 <? lp_balance_a pool) && (0 <? lp_balance_b pool) @ "Internal error" in
  let! dyn := get_dyn d (lp_share_asset pool) in
  assert! 0 <? dd_current_supply dyn @ "Internal error" in
  Ok (d, ExchangeResult [pool_receives_a; pool_receives_b] [account_receives] []).

(** [_pool_pays_a], [_pool_pays_b], [_fee_a], [_fee_b] *)
Definition liquidity_pool_withdraw_do_evaluate (d : database) (op : liquidity_pool_withdraw_operation)
    : result (asset * asset * asset * asset) :=
  let! pool := get_pool d (lpo_pool op) in
  assert! asset_id (lpo_share_amount op) =? lp_share_asset pool @ "Share asset type mismatch" in
  assert! (0 <? lp_balance_a pool) && (0 <? lp_balance_b pool) @ "The pool has not been initialized" in
  do! check_authorized_for d (lpo_account op) [lp_share_asset pool; lp_asset_a pool; lp_asset_b pool] in
  let! dyn := get_dyn d (lp_share_asset pool) in
  let n := amount (lpo_share_amount op) in
  assert! dd_current_supply dyn >=? n
    @ "Can not withdraw an amount that is more than the current supply" in
  if dd_current_supply dyn =? n then
    Ok (Asset (lp_balance_a pool) (lp_asset_a pool), Asset (lp_balance_b pool) (lp_asset_b pool),
        Asset 0 (lp_asset_a pool), Asset 0 (lp_asset_b pool))
  else
    let! (a, fee_a) := withdraw_side n (dd_current_supply dyn) (lp_balance_a pool)
                         (lp_withdrawal_fee_percent pool) in
    let! (b, fee_b) := withdraw_side n (dd_current_supply dyn) (lp_balance_b pool)
                         (lp_withdrawal_fee_percent pool) in
    assert! (0 <? a) || (0 <? b) @ "Aborting due to zero outcome" in
    Ok (Asset (to_int64 a) (lp_asset_a pool), Asset (to_int64 b) (lp_asset_b pool),
        Asset (to_int64 fee_a) (lp_asset_a pool), Asset (to_int64 fee_b) (lp_asset_b pool)).

Definition pay_positive (d : database) (acc : account_id_type) (x : asset) : result database :=
  if 0 <? amount x then adjust_balance d acc x else Ok d.

Definition liquidity_pool_withdraw_do_apply (d : database) (op : liquidity_pool_withdraw_operation)
    (ctx : asset * asset * asset * asset) : result (database * generic_exchange_operation_result) :=
  let '(pool_pays_a, pool_pays_b, fee_a, fee_b) := ctx in
  let! minus := asset_neg (lpo_share_amount op) in
  let! d := adjust_balance d (lpo_account op) minus in
  let! d := pay_positive d (lpo_account op) pool_pays_a in
  let! d := pay_positive d (lpo_account op) pool_pays_b in
  let! pool := get_pool d (lpo_pool op) in
  let! dyn := get_dyn d (lp_share_asset pool) in
  let! s := safe_sub (dd_current_supply dyn) (amount (lpo_share_amount op)) in
  let d := set_dyn d (lp_share_asset pool) (dyn <| dd_current_supply := s |>) in
  let! a := safe_sub (lp_balance_a pool) (amount pool_pays_a) in
  let! b := safe_sub (lp_balance_b pool) (amount pool_pays_b) in
  let pool := update_virtual_value (pool <| lp_balance_a := a |> <| lp_balance_b := b |>) in
  let d := d <| pools := tmodify (pools d) (lpo_pool op) pool |> in
  assert! eqb (lp_balance_a pool =? 0) (lp_balance_b pool =? 0) @ "Internal error" in
  assert! eqb (lp_balance_a pool =? 0) (s =? 0) @ "Internal error" in
  Ok (d, ExchangeResult [lpo_share_amount op] [pool_pays_a; pool_pays_b] [fee_a; fee_b]).

(** The members of [liquidity_pool_exchange_evaluator]. *)
Record exchange_context := ExchangeContext {
  xc_pool_pays : asset;
  xc_pool_receives : asset;
  xc_account_receives : asset;
  xc_maker_market_fee : asset;
  xc_taker_market_fee : asset;
  xc_pool_taker_fee : asset;
}.

(** The market of two assets must be allowed by the lists of the first. *)
Definition check_market (a : asset_object) (other : asset_id_type) : result unit :=
  assert! bool_decide (ao_whitelist_markets (as_options a) = ∅)
          || bool_decide (other ∈ ao_whitelist_markets (as_options a))
    @ "The market has not been whitelisted" in
  assert! bool_decide (ao_blacklist_markets (as_options a) = ∅)
          || negb (bool_decide (other ∈ ao_blacklist_markets (as_options a)))
    @ "The market has been blacklisted" in
  Ok tt.

Definition liquidity_pool_exchange_do_evaluate (d : database) (op : liquidity_pool_exchange_operation)
    : result exchange_context :=
  let! pool := get_pool d (lpx_pool op) in
  assert! (0 <? lp_balance_a pool) && (0 <? lp_balance_b pool) @ "The pool has not been initialized" in
  let sell := lpx_amount_to_sell op in
  let sell_id := asset_id sell in
  let receive_id := asset_id (lpx_min_to_receive op) in
  assert! (sell_id =? lp_asset_a pool) && (receive_id =? lp_asset_b pool)
          || (sell_id =? lp_asset_b pool) && (receive_id =? lp_asset_a pool) @ "Asset type mismatch" in
  do! check_authorized_for d (lpx_account op) [lp_asset_a pool; lp_asset_b pool] in
  let! asset_obj_a := get_asset d (lp_asset_a pool) in
  let! asset_obj_b := get_asset d (lp_asset_b pool) in
  do! (if HARDFORK_CORE_2350_PASSED (head_block_time d) then
         do! check_market asset_obj_a (lp_asset_b pool) in check_market asset_obj_b (lp_asset_a pool)
       else Ok tt) in
  let sells_a := sell_id =? lp_asset_a pool in
  let! maker_market_fee := calculate_market_fee sell_id (if sells_a then asset_obj_a else asset_obj_b)
                             sell true in
  let! ok := asset_lt maker_market_fee sell in
  assert! ok @ "Aborting since the maker market fee of the selling asset is too high" in
  let! pool_receives := asset_sub sell maker_market_fee in
  let! delta := if sells_a
    then exchange_delta (lp_virtual_value pool) (lp_balance_a pool) (lp_balance_b pool) (amount pool_receives)
    else exchange_delta (lp_virtual_value pool) (lp_balance_b pool) (lp_balance_a pool) (amount pool_receives) in
  let pool_taker_fee := u128 (delta * lp_taker_fee_percent pool) / GRAPHENE_100_PERCENT in
  assert! pool_taker_fee <=? delta @ "Taker fee percent of the pool is too high" in
  let pool_pays := Asset (to_int64 (u128 (delta - pool_taker_fee))) receive_id in
  let! taker_market_fee := calculate_market_fee receive_id (if sells_a then asset_obj_b else asset_obj_a)
                             pool_pays false in
  let! ok := asset_le taker_market_fee pool_pays in
  assert! ok @ "Market fee should not be greater than the amount to receive" in
  let! account_receives := asset_sub pool_pays taker_market_fee in
  do! (if amount account_receives >=? amount (lpx_min_to_receive op) then Ok tt
       else Err (thrown "Unable to exchange at expected price")) in
  Ok (ExchangeContext pool_pays pool_receives account_receives maker_market_fee taker_market_fee
        (Asset (to_int64 pool_taker_fee) receive_id)).

Definition liquidity_pool_exchange_do_apply (d : database) (op : liquidity_pool_exchange_operation)
    (ctx : exchange_context) : result (database * generic_exchange_operation_result) :=
  let sell := lpx_amount_to_sell op in
  let! minus := asset_neg sell in
  let! d := adjust_balance d (lpx_account op) minus in
  let! d := adjust_balance d (lpx_account op) (xc_account_receives ctx) in
  let! pool := get_pool d (lpx_pool op) in
  let! share := get_asset d (lp_share_asset pool) in
  let! share_owner := get_account d (as_issuer share) in
  let! receives_asset := get_asset d (asset_id sell) in
  let! (d, _) := pay_market_fees d (Some share_owner) (asset_id sell) receives_asset sell true
                   (Some (xc_maker_market_fee ctx)) in
  let! payer := get_account d (lpx_account op) in
  let! pays_asset := get_asset d (asset_id (xc_pool_pays ctx)) in
  let! (d, _) := pay_market_fees d (Some payer) (asset_id (xc_pool_pays ctx)) pays_asset
                   (xc_pool_pays ctx) false (Some (xc_taker_market_fee ctx)) in
  let! pool := get_pool d (lpx_pool op) in
  let sells_a := asset_id sell =? lp_asset_a pool in
  let! a := if sells_a then safe_add (lp_balance_a pool) (amount (xc_pool_receives ctx))
            else safe_sub (lp_balance_a pool) (amount (xc_pool_pays ctx)) in
  let! b := if sells_a then safe_sub (lp_balance_b pool) (amount (xc_pool_pays ctx))
            else safe_add (lp_balance_b pool) (amount (xc_pool_receives ctx)) in
  let pool' := update_virtual_value (pool <| lp_balance_a := a |> <| lp_balance_b := b |>) in
  let d := d <| pools := tmodify (pools d) (lpx_pool op) pool' |> in
  assert! (0 <? lp_balance_a pool') && (0 <? lp_balance_b pool') @ "Internal error" in
  assert! lp_virtual_value pool' >=? lp_virtual_value pool @ "Internal error" in
  Ok (d, ExchangeResult [sell] [xc_account_receives ctx]
           [xc_maker_market_fee ctx; xc_taker_market_fee ctx; xc_pool_taker_fee ctx]).

#[export] Instance liquidity_pool_create_evaluator :
    Evaluator liquidity_pool_create_operation unit generic_operation_result := {
  fee_payer := lpc_account;
  op_fee := lpc_fee;
  validate := liquidity_pool_create_validate;
  do_evaluate := liquidity_pool_create_do_evaluate;
  do_apply := liquidity_pool_create_do_apply;
}.

#[export] Instance liquidity_pool_delete_evaluator :
    Evaluator liquidity_pool_delete_operation unit generic_operation_result := {
  fee_payer := lpd_account;
  op_fee := lpd_fee;
  validate := liquidity_pool_delete_validate;
  do_evaluate := liquidity_pool_delete_do_evaluate;
  do_apply := liquidity_pool_delete_do_apply;
}.

#[export] Instance liquidity_pool_update_evaluator :
    Evaluator liquidity_pool_update_operation unit unit := {
  fee_payer := lpu_account;
  op_fee := lpu_fee;
  validate := liquidity_pool_update_validate;
  do_evaluate := liquidity_pool_update_do_evaluate;
  do_apply := liquidity_pool_update_do_apply;
}.

#[export] Instance liquidity_pool_deposit_evaluator :
    Evaluator liquidity_pool_deposit_operation (asset * asset * asset) generic_exchange_operation_result := {
  fee_payer := lpi_account;
  op_fee := lpi_fee;
  validate := liquidity_pool_deposit_validate;
  do_evaluate := liquidity_pool_deposit_do_evaluate;
  do_apply := liquidity_pool_deposit_do_apply;
}.

#[export] Instance liquidity_pool_withdraw_evaluator :
    Evaluator liquidity_pool_withdraw_operation (asset * asset * asset * asset)
      generic_exchange_operation_result := {
  fee_payer := lpo_account;
  op_fee := lpo_fee;
  validate := liquidity_pool_withdraw_validate;
  do_evaluate := liquidity_pool_withdraw_do_evaluate;
  do_apply := liquidity_pool_withdraw_do_apply;
}.

#[export] Instance liquidity_pool_exchange_evaluator :
    Evaluator liquidity_pool_exchange_operation exchange_context generic_exchange_operation_result := {
  fee_payer := lpx_account;
  op_fee := lpx_fee;
  validate := liquidity_pool_exchange_validate;
  do_evaluate := liquidity_pool_exchange_do_evaluate;
  do_apply := liquidity_pool_exchange_do_apply;
}.
End Pools.

(** ** Laws of the arithmetic *)

Section PoolLemmas.
Context `{SafeInt64Laws}.

(** Rounding up in 128 bits is exact on amounts. *)
Lemma round_up_exact n b s :
  amount_ok n -> amount_ok b -> amount_ok s -> 0 < s ->
  u128 (u128 (u128 (n * b) + u128 s) - 1) / u128 s = ceil_div (n * b) s.
Proof.
  intros Hn Hb Hs Hpos. pose proof (amount_ok_mul n b Hn Hb). unfold ceil_div.
  rewrite (u128_amount s Hs). unfold amount_ok, INT64_MAX in Hs.
  rewrite (u128_small (n * b)) by lia.
  rewrite (u128_small (n * b + s)) by lia. by rewrite u128_small by lia.
Qed.

Lemma deposit_amounts_exact p supply max_supply a b :
  amount_ok (lp_balance_a p) -> amount_ok (lp_balance_b p) -> 0 < lp_balance_a p -> 0 < lp_balance_b p ->
  0 < supply -> supply < max_supply <= INT64_MAX -> amount_ok a -> amount_ok b ->
  let n := Z.min (Z.min (supply * a / lp_balance_a p) (supply * b / lp_balance_b p)) (max_supply - supply) in
  deposit_amounts p supply max_supply a b
    = if 0 <? n then Ok (ceil_div (n * lp_balance_a p) supply, ceil_div (n * lp_balance_b p) supply, n)
      else Err (assert_exception "Aborting due to zero outcome").
Proof.
  intros HA HB PA PB PS Hm Ha Hb n. unfold deposit_amounts.
  assert (amount_ok supply) as Hs by (unfold amount_ok, INT64_MAX in *; lia).
  rewrite safe_sub_exact by (unfold amount_ok in *; unfold_int64; lia). cbn [rbind].
  rewrite !u128_amount_mul, (u128_amount (lp_balance_a p)), (u128_amount (lp_balance_b p)) by done.
  rewrite (u128_amount (max_supply - supply)) by (unfold amount_ok, INT64_MAX in *; lia). fold n.
  destruct (Z.ltb_spec 0 n) as [Hn|Hn]; [|done]. cbn [fc_assert rbind].
  assert (amount_ok n) as Hnok by (subst n; unfold amount_ok, INT64_MAX in *; lia).
  rewrite !round_up_exact by done.
  assert (ceil_div (n * lp_balance_a p) supply <= a) as La.
  { apply ceil_div_least; [done|]. pose proof (div_mul_le (supply * a) (lp_balance_a p) PA).
    assert (n <= supply * a / lp_balance_a p) by lia. nia. }
  assert (ceil_div (n * lp_balance_b p) supply <= b) as Lb.
  { apply ceil_div_least; [done|]. pose proof (div_mul_le (supply * b) (lp_balance_b p) PB).
    assert (n <= supply * b / lp_balance_b p) by lia. nia. }
  rewrite (u128_amount a), (u128_amount b) by done.
  rewrite (proj2 (Z.leb_le _ _) La). cbn [fc_assert rbind].
  rewrite (proj2 (Z.leb_le _ _) Lb). cbn [fc_assert rbind].
  pose proof (ceil_div_nonneg (n * lp_balance_a p) supply PS ltac:(nia)).
  pose proof (ceil_div_nonneg (n * lp_balance_b p) supply PS ltac:(nia)).
  unfold amount_ok in *. by rewrite !to_int64_small by (unfold_int64; lia).
Qed.

Lemma withdraw_side_exact share supply balance pct :
  0 <= share < supply -> amount_ok supply -> amount_ok balance -> 0 < balance ->
  0 <= pct <= GRAPHENE_100_PERCENT ->
  let x := share * balance / supply in
  let f := x * pct / GRAPHENE_100_PERCENT in
  withdraw_side share supply balance pct = Ok (x - f, f) /\ 0 <= f <= x /\ x < balance.
Proof.
  intros Hsh Hs Hb Pb Hp x f. unfold withdraw_side, GRAPHENE_100_PERCENT in *.
  assert (amount_ok share) as Hsh' by (unfold amount_ok in *; lia).
  assert (0 <= x < balance) as Hx.
  { subst x. split; [apply Z.div_pos; nia|]. apply Z.div_lt_upper_bound; nia. }
  assert (0 <= f <= x) as Hf.
  { subst f. split; [apply Z.div_pos; nia|]. apply Z.div_le_upper_bound; nia. }
  split; [|lia]. rewrite u128_amount_mul, (u128_amount supply), (u128_amount balance) by done. fold x.
  rewrite (proj2 (Z.ltb_lt _ _)) by lia. cbn [fc_assert rbind].
  unfold amount_ok, INT64_MAX in *. rewrite (u128_small (x * pct)) by nia. fold f.
  rewrite (proj2 (Z.leb_le _ _)) by lia. cbn [fc_assert rbind]. by rewrite u128_small by lia.
Qed.

Lemma exchange_delta_exact bin bout r :
  amount_ok bin -> amount_ok bout -> 0 < bin -> 0 < bout -> 0 <= r -> bin + r <= INT64_MAX ->
  let new_out := ceil_div (bin * bout) (bin + r) in
  exchange_delta (bin * bout) bin bout r = Ok (bout - new_out) /\ 0 < new_out <= bout.
Proof.
  intros Hi Ho Pi Po Hr Hm new_out. pose proof (amount_ok_mul bin bout Hi Ho).
  assert (0 < new_out <= bout) as Hn.
  { split; [apply ceil_div_pos; nia|]. apply ceil_div_least; nia. }
  split; [|done]. unfold exchange_delta.
  rewrite safe_add_exact by (unfold amount_ok in *; unfold_int64; lia). cbn [rbind].
  rewrite (u128_amount (bin + r)) by (unfold amount_ok in *; lia).
  unfold amount_ok, INT64_MAX in *. rewrite (u128_small (bin * bout + (bin + r))) by lia.
  rewrite (u128_small (bin * bout + (bin + r) - 1)) by lia. fold (ceil_div (bin * bout) (bin + r)). fold new_out.
  rewrite (u128_amount bout) by done. rewrite (proj2 (Z.leb_le _ _)) by lia. cbn [fc_assert rbind].
  by rewrite u128_small by lia.
Qed.

(** ** Conservation *)

Ltac start_pool :=
  cbn;
  unfold liquidity_pool_create_do_apply, liquidity_pool_delete_do_apply, liquidity_pool_update_do_apply,
    liquidity_pool_deposit_do_apply, liquidity_pool_withdraw_do_apply, liquidity_pool_exchange_do_apply,
    get_pool, get_asset, get_dyn, tfind;
  intros d0 d op ctx d' r Hval Heval Hfees Hwf E; mon; asset_ints.

#[export] Instance liquidity_pool_create_laws :
  EvaluatorLaws liquidity_pool_create_operation unit generic_operation_result.
Proof.
  split. start_pool. cbn in *. split; [conserve|].
  pose proof (tall_lookup _ _ _ _ (wf_asset_options _ Hwf) Hr). destruct Hwf. wf.
  apply tall_create; [|done]. split; unfold amount_ok, INT64_MAX; cbn; lia.
Qed.

#[export] Instance liquidity_pool_delete_laws :
  EvaluatorLaws liquidity_pool_delete_operation unit generic_operation_result.
Proof.
  split. start_pool. revert Heval. unfold liquidity_pool_delete_do_evaluate, get_pool, tfind, get_asset.
  intros Heval. mon. after_fees. same_rows.
  split; [conserve|]. pose proof (tall_lookup _ _ _ _ (wf_asset_options _ Hwf) Hr0). destruct Hwf. wf.
Qed.

#[export] Instance liquidity_pool_update_laws :
  EvaluatorLaws liquidity_pool_update_operation unit unit.
Proof.
  split. start_pool. destruct (lpu_taker_fee_percent op), (lpu_withdrawal_fee_percent op);
  (split; [conserve|]; pose proof (tall_lookup _ _ _ _ (wf_pool_balances _ Hwf) Hr); destruct Hwf; wf).
Qed.

(** What the contexts say about the pool they were computed from. *)
Lemma deposit_context d op ra rb rs :
  liquidity_pool_deposit_do_evaluate d op = Ok (ra, rb, rs) ->
  exists p, rows (pools d) !! lpi_pool op = Some p
    /\ asset_id ra = lp_asset_a p /\ asset_id rb = lp_asset_b p /\ asset_id rs = lp_share_asset p.
Proof.
  unfold liquidity_pool_deposit_do_evaluate, get_pool, tfind. intros E. mon.
  match goal with R : rows (pools d) !! _ = Some ?p |- _ => exists p; split; [done|] end.
  destruct (lp_balance_a _ =? 0); mon; [done|].
  match goal with q : (Z * Z * Z)%type |- _ => destruct q as [[? ?] ?] end. by mon.
Qed.

Lemma withdraw_side_bounds sh s b pct x f :
  withdraw_side sh s b pct = Ok (x, f) -> amount_ok b -> 0 <= x /\ 0 <= f /\ x + f < b.
Proof.
  unfold withdraw_side, GRAPHENE_100_PERCENT. intros E Hb. mon.
  rewrite (u128_amount b) in * by done.
  set (q := u128 (u128 sh * b) / u128 s) in *. set (g := u128 (q * pct) / 10000) in *.
  assert (0 <= q).
  { subst q. pose proof (u128_bound s). pose proof (u128_bound (u128 sh * b)).
    destruct (Z.eq_dec (u128 s) 0) as [->|]; [by rewrite Z.div_0_r | apply Z.div_pos; lia]. }
  assert (0 <= g) by (subst g; pose proof (u128_bound (q * pct)); apply Z.div_pos; lia).
  unfold amount_ok, INT64_MAX in Hb. rewrite u128_small by lia. lia.
Qed.

Lemma withdraw_context d op pa pb fa fb :
  tall pool_balances_ok (pools d) ->
  liquidity_pool_withdraw_do_evaluate d op = Ok (pa, pb, fa, fb) ->
  exists p, rows (pools d) !! lpo_pool op = Some p
    /\ asset_id pa = lp_asset_a p /\ asset_id pb = lp_asset_b p
    /\ asset_id (lpo_share_amount op) = lp_share_asset p
    /\ amount (lpo_share_amount op) <= supply (lp_share_asset p) d
    /\ 0 <= amount pa <= lp_balance_a p /\ 0 <= amount pb <= lp_balance_b p.
Proof.
  unfold liquidity_pool_withdraw_do_evaluate, get_pool, get_dyn, tfind. intros Hok E. mon.
  match goal with R : dyn_data d !! _ = Some ?y |- _ =>
    assert (supply (lp_share_asset r) d = dd_current_supply y) as Es by (unfold supply, supply_in; by rewrite R) end.
  match goal with R : rows (pools d) !! _ = Some ?p |- _ =>
    exists p; split; [done|]; destruct (tall_lookup _ _ _ _ Hok R) as [Ha Hb] end.
  destruct (dd_current_supply _ =? amount _); mon; [cbn; unfold amount_ok in *; lia|].
  do 2 (match goal with q : (Z * Z)%type |- _ => destruct q as [? ?] end; mon).
  repeat match goal with W : withdraw_side _ _ _ _ = Ok _ |- _ =>
    apply withdraw_side_bounds in W as (? & ? & ?); [|done] end.
  cbn. unfold amount_ok in *. rewrite !to_int64_small by (unfold_int64; lia). split_and!; (done || lia).
Qed.

Lemma pay_positive_excess d acc x d' :
  pay_positive d acc x = Ok d' -> 0 <= amount x ->
  exists m, d' = d <| balances := m |> /\ forall a, bal_sum a m = bal_sum a (balances d) + asset_in a x.
Proof.
  unfold pay_positive. intros E Hx. destruct (Z.ltb_spec 0 (amount x)).
  - destruct (adjust_balance_frame _ _ _ _ E) as (m & -> & Hm & _). by exists m.
  - mon. exists (balances d'). split; [by destruct d'|]. intros a. unfold asset_in.
    replace (amount x) with 0 by lia. lia.
Qed.

#[export] Instance liquidity_pool_deposit_laws :
  EvaluatorLaws liquidity_pool_deposit_operation (asset * asset * asset) generic_exchange_operation_result.
Proof.
  split. start_pool. unfold add_supply, get_dyn in *. destruct ctx as [[ra rb] rs].
  apply deposit_context in Heval as (p & Hp & Ia & Ib & Is). mon. asset_ints. adjust_steps.
  after_fees. safe_ints. subst. cbn in *. mon. same_rows.
  split; [conserve|]. unfold_int64. destruct Hwf. wf.
  apply tall_modify; [|done]. split; unfold amount_ok, INT64_MAX; cbn; lia.
Qed.

#[export] Instance liquidity_pool_withdraw_laws :
  EvaluatorLaws liquidity_pool_withdraw_operation (asset * asset * asset * asset)
    generic_exchange_operation_result.
Proof.
  split. start_pool. unfold add_supply, get_dyn in *. destruct ctx as [[[pa pb] fa] fb].
  assert (tall pool_balances_ok (pools d0)) as Hok
    by (pose proof (wf_pool_balances _ Hwf); by after_fees).
  apply withdraw_context in Heval as (p & Hp & Ia & Ib & Is & _ & Na & Nb); [|done].
  mon. asset_ints. adjust_steps.
  repeat match goal with E : pay_positive _ _ _ = Ok _ |- _ =>
    apply pay_positive_excess in E as (? & -> & ?); [|lia] end.
  after_fees. safe_ints. subst. cbn in *. mon. same_rows.
  split; [conserve|]. unfold_int64. destruct Hwf. wf.
  destruct (tall_lookup _ _ _ _ Hok Hp). unfold amount_ok in *.
  apply tall_modify; [|done]. split; unfold amount_ok; cbn; lia.
Qed.

(** What the context of an exchange says: the trade is between the two assets of the
    pool, the fees come out of the amounts traded, and what the pool pays is the drop
    of its balance less the taker fee. *)
Record exchanges (p : liquidity_pool_object) (op : liquidity_pool_exchange_operation)
    (ctx : exchange_context) (sells_a : bool) : Prop := {
  ex_side : sells_a = (asset_id (lpx_amount_to_sell op) =? lp_asset_a p);
  ex_sell : asset_id (lpx_amount_to_sell op) = if sells_a then lp_asset_a p else lp_asset_b p;
  ex_receive : asset_id (lpx_min_to_receive op) = if sells_a then lp_asset_b p else lp_asset_a p;
  ex_pays_id : asset_id (xc_pool_pays ctx) = asset_id (lpx_min_to_receive op);
  ex_account_id : asset_id (xc_account_receives ctx) = asset_id (lpx_min_to_receive op);
  ex_maker_id : asset_id (xc_maker_market_fee ctx) = asset_id (lpx_amount_to_sell op);
  ex_taker_id : asset_id (xc_taker_market_fee ctx) = asset_id (lpx_min_to_receive op);
  ex_maker : 0 <= amount (xc_maker_market_fee ctx) < amount (lpx_amount_to_sell op);
  ex_taker : 0 <= amount (xc_taker_market_fee ctx) <= amount (xc_pool_pays ctx);
  ex_receives : amount (xc_pool_receives ctx)
    = amount (lpx_amount_to_sell op) - amount (xc_maker_market_fee ctx);
  ex_account : amount (xc_account_receives ctx)
    = amount (xc_pool_pays ctx) - amount (xc_taker_market_fee ctx);
  ex_minimum : amount (lpx_min_to_receive op) <= amount (xc_account_receives ctx);
  ex_delta : exists delta,
    exchange_delta (lp_virtual_value p) (if sells_a then lp_balance_a p else lp_balance_b p)
      (if sells_a then lp_balance_b p else lp_balance_a p) (amount (xc_pool_receives ctx)) = Ok delta
    /\ let fee := u128 (delta * lp_taker_fee_percent p) / GRAPHENE_100_PERCENT in
       fee <= delta /\ amount (xc_pool_pays ctx) = to_int64 (u128 (delta - fee));
}.

Lemma calculate_market_fee_ok d i id ra x mk f :
  tall asset_options_ok (assets d) -> rows (assets d) !! i = Some ra ->
  calculate_market_fee id ra x mk = Ok f -> asset_id f = id /\ 0 <= amount f.
Proof.
  intros Hok Hra E. split.
  - unfold calculate_market_fee in E. repeat case_match; mon; done.
  - eapply calculate_market_fee_nonneg; [exact E|]. by apply (tall_lookup _ _ _ _ Hok Hra).
Qed.

Lemma exchange_context_ok d op ctx :
  tall asset_options_ok (assets d) -> liquidity_pool_exchange_validate op = Ok tt ->
  liquidity_pool_exchange_do_evaluate d op = Ok ctx ->
  exists p, rows (pools d) !! lpx_pool op = Some p
    /\ exchanges p op ctx (asset_id (lpx_amount_to_sell op) =? lp_asset_a p).
Proof.
  unfold liquidity_pool_exchange_validate, liquidity_pool_exchange_do_evaluate, get_pool, get_asset, tfind.
  intros Hok Hv E. mon.
  match goal with R : rows (pools d) !! _ = Some ?p |- _ => exists p; split; [done|] end.
  match goal with M : (_ && _) || _ = true |- _ => apply orb_true_iff in M end.
  set (pays := to_int64 _) in *.
  destruct (Z.eqb_spec (asset_id (lpx_amount_to_sell op)) (lp_asset_a r)) as [Side|Side].
  all: repeat match goal with
    | E : calculate_market_fee _ _ _ _ = Ok _ |- _ =>
        eapply calculate_market_fee_ok in E as [? ?]; [| exact Hok | eassumption]
    end.
  all: asset_ints; cbn in *.
  all: match goal with E : (if ?b then Ok tt else Err _) = Ok tt |- _ => destruct b eqn:Hmin end; mon.
  - assert (asset_id (lpx_min_to_receive op) = lp_asset_b r).
    { destruct Hr1 as [Hr1|Hr1]; reflect_bools; congruence. }
    split; cbn; try (done || lia). exists r10. done.
  - assert (asset_id (lpx_amount_to_sell op) = lp_asset_b r
            /\ asset_id (lpx_min_to_receive op) = lp_asset_a r) as [? ?].
    { destruct Hr1 as [Hr1|Hr1]; [done|]. by reflect_bools. }
    split; cbn; try (done || lia). exists r10. done.
Qed.

(** The effect of paying market fees on the excess and on everything else. *)
Lemma pay_market_fees_step d seller id ra receives mk f d' fees :
  pay_market_fees d seller id ra receives mk (Some f) = Ok (d', fees) ->
  db_wf d -> 0 <= amount f -> asset_id receives = id -> 0 <= ao_max_market_fee (as_options ra) ->
  fees_frame d d' /\ db_wf d' /\ forall a, excess a d' = excess a d + asset_in a f.
Proof.
  intros E Hwf Hf Hid Hmax. pose proof (pay_market_fees_frame _ _ _ _ _ _ _ _ _ E) as Hfr.
  pose proof (pay_market_fees_returns _ _ _ _ _ _ _ _ _ E) as ->.
  eapply pay_market_fees_ok in E as (_ & _ & Hwf' & Ex); [done | done | by intros ? [= <-] | done..].
Qed.

Lemma adjust_balance_pools d acc x d' : adjust_balance d acc x = Ok d' -> pools d' = pools d.
Proof. intros E. by destruct (adjust_balance_frame _ _ _ _ E) as (m & -> & _). Qed.

Lemma fees_frame_pools d d' : fees_frame d d' -> pools d' = pools d.
Proof. by intros (t & dd & -> & _). Qed.

(** Replacing the balances of a pool. *)
Lemma pool_modify_excess d id p p' :
  rows (pools d) !! id = Some p -> lp_asset_a p' = lp_asset_a p -> lp_asset_b p' = lp_asset_b p ->
  pool_balances_ok p' -> db_wf d ->
  let d' := d <| pools := tmodify (pools d) id p' |> in
  db_wf d' /\ forall a, excess a d' = excess a d
    + ind a (lp_asset_a p) * (lp_balance_a p' - lp_balance_a p)
    + ind a (lp_asset_b p) * (lp_balance_b p' - lp_balance_b p).
Proof.
  intros Hp Ha Hb Hok Hwf d'. split.
  - destruct Hwf. wf.
  - intros a. unfold excess, holdings, supply, pool_sum. cbn. erewrite tsum_modify by exact Hp.
    rewrite Ha, Hb. lia.
Qed.

#[export] Instance liquidity_pool_exchange_laws :
  EvaluatorLaws liquidity_pool_exchange_operation exchange_context generic_exchange_operation_result.
Proof.
  split. start_pool. unfold get_account, tfind in *.
  assert (tall asset_options_ok (assets d0) /\ pools d0 = pools d) as [Hok Hpools]
    by (pose proof (wf_asset_options _ Hwf); by after_fees).
  apply exchange_context_ok in Heval as (p & Hp & X); [|done..]. clear Hfees.
  pose proof (adjust_balance_pools _ _ _ _ Hr0) as P1. pose proof (adjust_balance_pools _ _ _ _ Hr1) as P2.
  apply adjust_balance_excess in Hr0 as [W1 E1]; [|done].
  apply adjust_balance_excess in Hr1 as [W2 E2]; [|done].
  destruct r7 as [d3 mf]. destruct X.
  pose proof (proj1 (tall_lookup _ _ _ _ (wf_asset_options _ W2) Hr5)).
  apply pay_market_fees_step in Hr6 as (F3 & W3 & E3); [|done || lia..]. mon.
  match goal with p : (database * asset)%type |- _ => destruct p as [d4 tf] end. mon.
  match goal with P : pay_market_fees d3 _ _ ?ra _ _ _ = Ok _, R : rows (assets d3) !! _ = Some ?ra |- _ =>
    pose proof (proj1 (tall_lookup _ _ _ _ (wf_asset_options _ W3) R));
    apply pay_market_fees_step in P as (F4 & W4 & E4); [|done || lia..] end.
  assert (pools d4 = pools d0) as P4
    by (rewrite (fees_frame_pools _ _ F4), (fees_frame_pools _ _ F3); congruence).
  rewrite P4, Hp in *. mon. rewrite <- P4 in *.
  match goal with A : (if _ then safe_add (lp_balance_a ?q) _ else _) = Ok ?x,
                  B : (if _ then safe_sub (lp_balance_b ?q) _ else _) = Ok ?y |- _ =>
    edestruct (pool_modify_excess d4 (lpx_pool op) q
      (update_virtual_value (q <| lp_balance_a := x |> <| lp_balance_b := y |>))) as [Wf Ex];
    [exact Hp | reflexivity | reflexivity | | exact W4 |] end.
  - cbn in *. unfold pool_balances_ok, amount_ok. destruct (_ =? _); safe_ints; unfold_int64; cbn; lia.
  - split; [|exact Wf]. intros a. etrans; [exact (Ex a)|]. rewrite E4, E3, E2, E1.
    unfold asset_in. cbn. destruct (_ =? _); safe_ints; subst;
      repeat match goal with E : asset_id _ = _ |- _ => rewrite E in *; clear E end; lia.
Qed.
(** ** The invariant of the pools *)

Record pool_wf (d : database) (id : Z) (p : liquidity_pool_object) : Prop := {
  pw_balances : pool_balances_ok p;
  pw_funded : lp_balance_a p = 0 <-> lp_balance_b p = 0;
  pw_shares : lp_balance_a p = 0 <-> supply (lp_share_asset p) d = 0;
  pw_supply : amount_ok (supply (lp_share_asset p) d);
  pw_value : lp_virtual_value p = lp_balance_a p * lp_balance_b p;
  pw_share_asset : exists so, rows (assets d) !! lp_share_asset p = Some so
    /\ as_for_liquidity_pool so = Some id;
}.

(** Both balances of a pool are zero, or neither, and then there are no shares; its
    virtual value is the product of the balances; its share asset is bound to it. *)
Definition pools_wf (d : database) : Prop :=
  table_wf (pools d) /\ forall id p, rows (pools d) !! id = Some p -> pool_wf d id p.

(** What matters for a pool: its row, its share asset and the supply of it. *)
Lemma pool_wf_ext d d' id p :
  supply (lp_share_asset p) d' = supply (lp_share_asset p) d ->
  rows (assets d') !! lp_share_asset p = rows (assets d) !! lp_share_asset p ->
  pool_wf d id p -> pool_wf d' id p.
Proof. intros Es Ea []. split; rewrite ?Es, ?Ea; done. Qed.

(** Two pools never have the same share asset. *)
Lemma pool_share_unique d i j p q :
  pool_wf d i p -> pool_wf d j q -> lp_share_asset p = lp_share_asset q -> i = j.
Proof.
  intros [_ _ _ _ _ (x & Hx & Hi)] [_ _ _ _ _ (y & Hy & Hj)] E. rewrite E in Hx. congruence.
Qed.

(** A pool is replaced and nothing but its share supply and balances changes. *)
Lemma pools_wf_modify d d' id p p' :
  pools_wf d -> rows (pools d) !! id = Some p ->
  pools d' = tmodify (pools d) id p' -> assets d' = assets d ->
  lp_share_asset p' = lp_share_asset p ->
  (forall i, i <> lp_share_asset p -> supply i d' = supply i d) ->
  (pool_wf d id p -> pool_wf d' id p') -> pools_wf d'.
Proof.
  intros [Ht Hwf] Hp Ep Ea Eq Hs Hp'. split; [rewrite Ep; eauto with dfs|].
  intros j q. rewrite Ep. destruct (decide (j = id)) as [->|Hne].
  - rewrite lookup_tmodify. intros [= <-]. by apply Hp', Hwf.
  - rewrite lookup_tmodify_ne by done. intros Hq. apply (pool_wf_ext d); [| by rewrite Ea | by apply Hwf].
    apply Hs. intros E. apply Hne. eapply pool_share_unique; eauto.
Qed.

Lemma update_virtual_value_exact p :
  pool_balances_ok p -> lp_virtual_value (update_virtual_value p) = lp_balance_a p * lp_balance_b p.
Proof. intros [Ha Hb]. unfold update_virtual_value. cbn. by apply u128_amount_mul. Qed.

Lemma only_fees_supply d0 d a : only_fees d0 d -> supply a d = supply a d0.
Proof. intros (dd & st & -> & E). apply E. Qed.

Lemma only_fees_pools d0 d : only_fees d0 d -> pools d = pools d0 /\ assets d = assets d0.
Proof. by intros (dd & st & -> & _). Qed.
Definition set_balances (p : liquidity_pool_object) (a b : share_type) : liquidity_pool_object :=
  update_virtual_value (p <| lp_balance_a := a |> <| lp_balance_b := b |>).

(** What a successful application does to the pool and to the share supply. *)
Record pool_effect (d d' : database) (id : Z) (p : liquidity_pool_object) (a b shares : Z) : Prop := {
  pe_pools : pools d' = tmodify (pools d) id (set_balances p a b);
  pe_assets : assets d' = assets d;
  pe_supply : forall i, supply i d' = supply i d + ind i (lp_share_asset p) * shares;
  pe_a : int64_range a;
  pe_b : int64_range b;
  pe_range : shares <> 0 -> int64_range (supply (lp_share_asset p) d');
}.

Lemma supply_in_set d id y n i :
  dyn_data d !! id = Some y ->
  supply_in i (<[id := y <| dd_current_supply := n |>]> (dyn_data d))
    = supply_in i (dyn_data d) + ind i id * (n - dd_current_supply y).
Proof. intros Hy. by rewrite (supply_in_insert _ _ _ _ _ Hy). Qed.

Lemma ind_self i : ind i i = 1.
Proof. unfold ind. by rewrite Z.eqb_refl. Qed.

Lemma supply_in_lookup i m y : m !! i = Some y -> supply_in i m = dd_current_supply y.
Proof. unfold supply_in. by intros ->. Qed.

Lemma deposit_effect d op ra rb rs d' r p :
  liquidity_pool_deposit_do_apply d op (ra, rb, rs) = Ok (d', r) ->
  rows (pools d) !! lpi_pool op = Some p ->
  pool_effect d d' (lpi_pool op) p (lp_balance_a p + amount ra) (lp_balance_b p + amount rb) (amount rs)
  /\ 0 < lp_balance_a p + amount ra /\ 0 < lp_balance_b p + amount rb
  /\ 0 < supply (lp_share_asset p) d'.
Proof.
  unfold liquidity_pool_deposit_do_apply, get_pool, tfind, add_supply, get_dyn. intros E Hp.
  mon. asset_ints. adjust_steps. safe_ints. subst. cbn in *. mon. same_rows. rewrite lookup_insert_eq in *.
  simplify_eq. cbn in *. split; [split|]; cbn; try done.
  - intros i. unfold supply, set_dyn. cbn. rewrite (supply_in_insert _ _ _ _ _ ltac:(eassumption)). cbn. lia.
  - unfold supply, set_dyn. cbn. unfold supply_in. rewrite lookup_insert_eq. by cbn.
  - unfold supply, set_dyn. cbn. unfold supply_in. rewrite lookup_insert_eq. by cbn.
Qed.

Lemma withdraw_effect d op pa pb fa fb d' r p :
  liquidity_pool_withdraw_do_apply d op (pa, pb, fa, fb) = Ok (d', r) ->
  rows (pools d) !! lpo_pool op = Some p -> 0 <= amount pa -> 0 <= amount pb ->
  pool_effect d d' (lpo_pool op) p (lp_balance_a p - amount pa) (lp_balance_b p - amount pb)
    (- amount (lpo_share_amount op))
  /\ (lp_balance_a p - amount pa = 0 <-> lp_balance_b p - amount pb = 0)
  /\ (lp_balance_a p - amount pa = 0 <-> supply (lp_share_asset p) d' = 0).
Proof.
  unfold liquidity_pool_withdraw_do_apply, get_pool, tfind, get_dyn. intros E Hp Ha Hb.
  mon. asset_ints. adjust_steps.
  repeat match goal with E : pay_positive _ _ _ = Ok _ |- _ =>
    apply pay_positive_excess in E as (? & -> & _); [|lia] end.
  safe_ints. subst. cbn in *. same_rows. simplify_eq.
  assert (forall x y : Z, eqb (x =? 0) (y =? 0) = true -> x = 0 <-> y = 0) as Heqb.
  { intros ? ? Hxy%eqb_prop. by rewrite <- !Z.eqb_eq, Hxy. }
  repeat match goal with R : eqb _ _ = true |- _ => apply Heqb in R end.
  split; [split|]; cbn; try done.
  - intros i. unfold supply, set_dyn. cbn. rewrite (supply_in_insert _ _ _ _ _ ltac:(eassumption)). cbn. lia.
  - unfold supply, set_dyn. cbn. unfold supply_in. rewrite lookup_insert_eq. by cbn.
  - unfold supply, set_dyn. cbn. unfold supply_in. rewrite lookup_insert_eq. by cbn.
Qed.

Lemma fees_frame_rest d d' :
  fees_frame d d' -> pools d' = pools d /\ assets d' = assets d /\ forall i, supply i d' = supply i d.
Proof. by intros (t & dd & -> & E). Qed.

Lemma adjust_balance_rest d acc x d' :
  adjust_balance d acc x = Ok d' ->
  pools d' = pools d /\ assets d' = assets d /\ forall i, supply i d' = supply i d.
Proof. intros E. by destruct (adjust_balance_frame _ _ _ _ E) as (m & -> & _). Qed.

(** Collects what the successful adjustments and fee payments leave alone. *)
Ltac rest_steps :=
  repeat match goal with
  | E : adjust_balance _ _ _ = Ok _ |- _ => apply adjust_balance_rest in E as (? & ? & ?)
  | E : pay_market_fees _ _ _ _ _ _ _ = Ok (_, _) |- _ =>
      apply pay_market_fees_frame, fees_frame_rest in E as (? & ? & ?)
  end.

Lemma exchange_effect d op ctx d' r p :
  liquidity_pool_exchange_do_apply d op ctx = Ok (d', r) ->
  rows (pools d) !! lpx_pool op = Some p ->
  let sells_a := asset_id (lpx_amount_to_sell op) =? lp_asset_a p in
  let a := if sells_a then lp_balance_a p + amount (xc_pool_receives ctx)
           else lp_balance_a p - amount (xc_pool_pays ctx) in
  let b := if sells_a then lp_balance_b p - amount (xc_pool_pays ctx)
           else lp_balance_b p + amount (xc_pool_receives ctx) in
  pool_effect d d' (lpx_pool op) p a b 0 /\ 0 < a /\ 0 < b
  /\ lp_virtual_value p <= lp_virtual_value (set_balances p a b).
Proof.
  unfold liquidity_pool_exchange_do_apply, get_pool, tfind. intros E Hp. mon.
  match goal with q : (database * asset)%type |- _ => destruct q as [d3 f3] end. mon.
  match goal with q : (database * asset)%type |- _ => destruct q as [d4 f4] end. mon. asset_ints.
  rest_steps.
  assert (pools d4 = pools d) as P4 by congruence. rewrite P4, Hp in *. mon.
  destruct (_ =? _); safe_ints; subst; cbn in *.
  all: split; [|done].
  all: split; [done | cbn; congruence | | done | done | done].
  all: intros i; match goal with |- _ = _ + ind i ?s * 0 => change (supply i d4 = supply i d + ind i s * 0) end.
  all: repeat match goal with E : forall _, supply _ _ = _ |- _ => specialize (E i) end; lia.
Qed.

(** The state of the pool after an effect, if the asserted conditions hold. *)
Lemma pool_effect_wf d d' id p a b n :
  pool_effect d d' id p a b n -> pools_wf d -> rows (pools d) !! id = Some p ->
  0 <= a -> 0 <= b -> (a = 0 <-> b = 0) -> (a = 0 <-> supply (lp_share_asset p) d' = 0) ->
  0 <= supply (lp_share_asset p) d' -> pools_wf d'.
Proof.
  intros [] Hwf Hp Ha Hb Hab Hs Hs0. eapply pools_wf_modify; [exact Hwf | exact Hp | done | done | done | |].
  - intros i Hi. rewrite pe_supply0. unfold ind. destruct (Z.eqb_spec (lp_share_asset p) i); [congruence | lia].
  - intros []. unfold amount_ok, int64_range in *.
    assert (pool_balances_ok (set_balances p a b)) as Hok by (split; unfold amount_ok; cbn; lia).
    split; cbn; try done.
    + destruct (Z.eq_dec n 0) as [->|Hn]; [|specialize (pe_range0 Hn); unfold amount_ok; lia].
      rewrite pe_supply0. unfold amount_ok. lia.
    + by apply update_virtual_value_exact in Hok.
    + by rewrite pe_assets0.
Qed.
Lemma pools_wf_tall d : pools_wf d -> tall pool_balances_ok (pools d).
Proof. intros [_ Hwf] id p Hp. apply (Hwf id p Hp). Qed.

Lemma pools_wf_create d op :
  pools_wf d -> next_id (pools d) = next_id (pools d) ->
  forall share, rows (assets d) !! lpc_share_asset op = Some share ->
  as_for_liquidity_pool share = None -> supply (lpc_share_asset op) d = 0 ->
  forall d' r, liquidity_pool_create_do_apply d op tt = Ok (d', r) -> pools_wf d'.
Proof.
  intros [Ht Hwf] _ share Hs Hn H0s d' r E. unfold liquidity_pool_create_do_apply, get_asset, tfind in E. mon.
  cbn in *. same_rows. split; cbn; [eauto with dfs|]. intros i q Hq.
  destruct (decide (i = next_id (pools d))) as [->|Hne].
  - rewrite lookup_tcreate in Hq. injection Hq as <-. split; cbn; try done.
    + change (amount_ok (supply (lpc_share_asset op) d)). by rewrite H0s.
    + eexists. by rewrite lookup_tmodify.
  - rewrite lookup_tcreate_ne in Hq by done. apply Hwf in Hq. apply (pool_wf_ext d); [done | | done].
    cbn. apply lookup_tmodify_ne. intros E. destruct Hq as [_ _ _ _ _ (x & Hx & Hb)]. congruence.
Qed.

Lemma pools_wf_delete d op d' r :
  pools_wf d -> liquidity_pool_delete_do_apply d op tt = Ok (d', r) -> pools_wf d'.
Proof.
  intros [Ht Hwf] E. unfold liquidity_pool_delete_do_apply, get_pool, get_asset, tfind in E. mon.
  split; cbn; [eauto with dfs|]. intros i q Hq. unfold tremove in Hq. cbn in Hq.
  apply lookup_delete_Some in Hq as [Hne Hq]. apply (pool_wf_ext d); [done | | by apply Hwf].
  cbn. apply lookup_tmodify_ne. intros Eq. apply Hne. eapply pool_share_unique; eauto.
Qed.

Lemma pools_wf_update d op d' r :
  pools_wf d -> liquidity_pool_update_do_apply d op tt = Ok (d', r) -> pools_wf d'.
Proof.
  intros Hwf E. unfold liquidity_pool_update_do_apply, get_pool, tfind in E. mon.
  eapply pools_wf_modify; [exact Hwf | eassumption | done | done | | done |].
  - by destruct (lpu_taker_fee_percent op), (lpu_withdrawal_fee_percent op).
  - intros []. by destruct (lpu_taker_fee_percent op), (lpu_withdrawal_fee_percent op); split.
Qed.

(** C17: The pools stay consistent: each of the six operations, applied after its
    checks, preserves that both balances of a pool are zero or neither is, that there
    are shares exactly when it is funded, that the virtual value is the product of the
    balances and that every pool has a share asset of its own. *)
Theorem pools_consistent :
  preserves pools_wf liquidity_pool_create_operation
  /\ preserves pools_wf liquidity_pool_delete_operation
  /\ preserves pools_wf liquidity_pool_update_operation
  /\ preserves pools_wf liquidity_pool_deposit_operation
  /\ preserves pools_wf liquidity_pool_withdraw_operation
  /\ preserves pools_wf liquidity_pool_exchange_operation.
Proof.
  split_and!; intros d0 d op ctx d' r Hv He Hf Hwf E; cbn in *;
    destruct (only_fees_pools _ _ Hf) as [Hp Ha].
  - destruct ctx. unfold liquidity_pool_create_do_evaluate, get_asset, get_dyn, tfind in He. mon.
    eapply pools_wf_create; [exact Hwf | done | rewrite Ha; eassumption | | | exact E].
    + by destruct (as_for_liquidity_pool _) eqn:Hb; [unfold is_liquidity_pool_share_asset in *; rewrite Hb in *|].
    + rewrite (only_fees_supply _ _ _ Hf). unfold supply. by erewrite supply_in_lookup by eassumption.
  - destruct ctx. by eapply pools_wf_delete.
  - destruct ctx. by eapply pools_wf_update.
  - destruct ctx as [[ra rb] rs]. apply deposit_context in He as (p & Hrow & _). rewrite <- Hp in Hrow.
    eapply deposit_effect in E as (Heff & Pa & Pb & Ps); [|exact Hrow].
    eapply pool_effect_wf; [exact Heff | done..| lia | lia | lia | lia | lia].
  - destruct ctx as [[[pa pb] fa] fb]. apply withdraw_context in He as (p & Hrow & _ & _ & _ & Hn & Na & Nb);
      [|rewrite <- Hp; by apply pools_wf_tall].
    rewrite <- Hp in Hrow. eapply withdraw_effect in E as (Heff & Iab & Ias); [|exact Hrow | lia | lia].
    eapply pool_effect_wf; [exact Heff | done.. | lia | lia | done | done |].
    rewrite (pe_supply _ _ _ _ _ _ _ Heff), ind_self, (only_fees_supply _ _ _ Hf). lia.
  - unfold liquidity_pool_exchange_do_evaluate, get_pool, tfind in He. mon. rewrite <- Hp in *.
    edestruct exchange_effect as (Heff & Pa & Pb & _); [exact E | eassumption |].
    pose proof (proj2 Hwf _ _ ltac:(eassumption)) as [_ _ Ps Pr _ _]. unfold amount_ok in Pr.
    eapply pool_effect_wf; [exact Heff | done | eassumption | lia | lia | lia | |];
      rewrite (pe_supply _ _ _ _ _ _ _ Heff), Z.mul_0_r, Z.add_0_r; lia.
Qed.
(** ** The value of a share *)

(** What a deposit into a funded pool computes. *)
Lemma deposit_context_funded d op ra rb rs p :
  liquidity_pool_deposit_do_evaluate d op = Ok (ra, rb, rs) ->
  rows (pools d) !! lpi_pool op = Some p -> lp_balance_a p <> 0 ->
  exists so, rows (assets d) !! lp_share_asset p = Some so
    /\ supply (lp_share_asset p) d < ao_max_supply (as_options so)
    /\ deposit_amounts p (supply (lp_share_asset p) d) (ao_max_supply (as_options so))
         (amount (lpi_amount_a op)) (amount (lpi_amount_b op)) = Ok (amount ra, amount rb, amount rs).
Proof.
  unfold liquidity_pool_deposit_do_evaluate, get_pool, get_asset, get_dyn, tfind. intros E Hp Hne. mon.
  same_rows. match goal with R : rows (assets d) !! _ = Some ?so |- _ => exists so; split; [done|] end.
  match goal with R : dyn_data d !! ?i = Some ?y |- _ =>
    assert (supply i d = dd_current_supply y) as -> by (by apply supply_in_lookup) end.
  rewrite (proj2 (Z.eqb_neq _ _) Hne) in E. mon. split; [done|].
  match goal with q : (Z * Z * Z)%type |- _ => destruct q as [[? ?] ?] end. by mon.
Qed.

Lemma withdraw_side_le sh s b pct x f :
  withdraw_side sh s b pct = Ok (x, f) -> amount_ok sh -> amount_ok s -> amount_ok b -> 0 < s ->
  x <= sh * b / s.
Proof.
  intros E Hsh Hs Hb Hpos. pose proof (withdraw_side_bounds _ _ _ _ _ _ E Hb) as (Hx & Hf & _).
  unfold withdraw_side in E. mon. rewrite u128_amount_mul, (u128_amount s) in * by done.
  set (q := sh * b / s) in *. set (g := u128 (q * pct) / _) in *.
  pose proof (amount_ok_mul sh b Hsh Hb).
  assert (0 <= q <= sh * b) as Hq by (subst q; split; [apply Z.div_pos | apply div_le_self]; lia).
  rewrite u128_small by lia. lia.
Qed.

Lemma withdraw_context_partial d op pa pb fa fb p :
  tall pool_balances_ok (pools d) ->
  liquidity_pool_withdraw_do_evaluate d op = Ok (pa, pb, fa, fb) ->
  rows (pools d) !! lpo_pool op = Some p -> amount_ok (supply (lp_share_asset p) d) ->
  0 < amount (lpo_share_amount op) < supply (lp_share_asset p) d ->
  amount pa <= amount (lpo_share_amount op) * lp_balance_a p / supply (lp_share_asset p) d
  /\ amount pb <= amount (lpo_share_amount op) * lp_balance_b p / supply (lp_share_asset p) d.
Proof.
  intros Hok E Hp Hs Hn. destruct (tall_lookup _ _ _ _ Hok Hp) as [Ha Hb].
  unfold liquidity_pool_withdraw_do_evaluate, get_pool, get_dyn, tfind in E. rewrite Hp in E. mon.
  match goal with R : dyn_data d !! ?i = Some ?y |- _ =>
    assert (supply i d = dd_current_supply y) as Ey by (by apply supply_in_lookup);
    rewrite Ey in *; clear Ey; rename y into dyn end.
  rewrite (proj2 (Z.eqb_neq (dd_current_supply dyn) (amount (lpo_share_amount op)))) in E by lia. mon.
  do 2 (match goal with q : (Z * Z)%type |- _ => destruct q as [? ?] end; mon).
  repeat match goal with W : withdraw_side _ _ _ _ = Ok _ |- _ =>
    pose proof (withdraw_side_bounds _ _ _ _ _ _ W ltac:(assumption)) as (? & ? & ?);
    apply withdraw_side_le in W; [|unfold amount_ok in *; (lia || done)..] end.
  cbn. unfold amount_ok in *. rewrite !to_int64_small by (unfold_int64; lia). done.
Qed.

(** Each share is worth at least as much of either asset as before. *)
Definition not_diluted (id : Z) (p : liquidity_pool_object) (d d' : database) : Prop :=
  exists p', rows (pools d') !! id = Some p' /\ lp_share_asset p' = lp_share_asset p
    /\ lp_balance_a p * supply (lp_share_asset p) d' <= lp_balance_a p' * supply (lp_share_asset p) d
    /\ lp_balance_b p * supply (lp_share_asset p) d' <= lp_balance_b p' * supply (lp_share_asset p) d.

Lemma pool_effect_row d d' id p a b n :
  pool_effect d d' id p a b n -> rows (pools d') !! id = Some (set_balances p a b).
Proof. intros []. rewrite pe_pools0. apply lookup_tmodify. Qed.

Lemma deposit_not_diluted d0 d op ctx d' r p :
  pools_wf d0 -> tall asset_options_ok (assets d0) -> only_fees d0 d ->
  amount_ok (amount (lpi_amount_a op)) -> amount_ok (amount (lpi_amount_b op)) ->
  liquidity_pool_deposit_do_evaluate d0 op = Ok ctx ->
  liquidity_pool_deposit_do_apply d op ctx = Ok (d', r) ->
  rows (pools d0) !! lpi_pool op = Some p -> 0 < supply (lp_share_asset p) d0 ->
  not_diluted (lpi_pool op) p d0 d'.
Proof.
  intros [_ Hwf] Hopt Hf Hoa Hob He E Hp Hs. destruct ctx as [[ra rb] rs].
  destruct (Hwf _ _ Hp) as [[Ha Hb] Hfund Hsh Hsup _ _].
  destruct (deposit_context_funded _ _ _ _ _ _ He Hp ltac:(lia)) as (so & Hso & Hlt & Hd).
  pose proof (tall_lookup _ _ _ _ Hopt Hso) as [_ Hmax].
  unfold GRAPHENE_MAX_SHARE_SUPPLY, amount_ok in *.
  rewrite deposit_amounts_exact in Hd by (unfold amount_ok, INT64_MAX in *; lia).
  set (n := Z.min _ _) in *. destruct (Z.ltb_spec 0 n); [|done]. injection Hd as Ea Eb En.
  destruct (only_fees_pools _ _ Hf) as [Hpp _]. rewrite <- Hpp in Hp.
  eapply deposit_effect in E as (Heff & _); [|exact Hp].
  eexists. split; [by eapply pool_effect_row|]. split; [done|].
  rewrite (pe_supply _ _ _ _ _ _ _ Heff), ind_self, (only_fees_supply _ _ _ Hf), <- Ea, <- Eb, <- En. cbn.
  pose proof (ceil_div_ge (n * lp_balance_a p) _ Hs). pose proof (ceil_div_ge (n * lp_balance_b p) _ Hs).
  split; nia.
Qed.

Lemma withdraw_not_diluted d0 d op ctx d' r p :
  pools_wf d0 -> only_fees d0 d -> 0 < amount (lpo_share_amount op) ->
  liquidity_pool_withdraw_do_evaluate d0 op = Ok ctx ->
  liquidity_pool_withdraw_do_apply d op ctx = Ok (d', r) ->
  rows (pools d0) !! lpo_pool op = Some p -> not_diluted (lpo_pool op) p d0 d'.
Proof.
  intros Hwf Hf Hn He E Hp. destruct ctx as [[[pa pb] fa] fb].
  destruct (proj2 Hwf _ _ Hp) as [[Ha Hb] Hfund Hsh Hsup _ _]. pose proof (pools_wf_tall _ Hwf) as Hok.
  destruct (withdraw_context _ _ _ _ _ _ Hok He) as (p' & Hp' & _ & _ & _ & Hle & Na & Nb).
  assert (p' = p) as -> by congruence.
  destruct (only_fees_pools _ _ Hf) as [Hpp _]. pose proof Hp as Hp2. rewrite <- Hpp in Hp2.
  eapply withdraw_effect in E as (Heff & _); [|exact Hp2 | lia | lia].
  eexists. split; [by eapply pool_effect_row|]. split; [done|].
  rewrite (pe_supply _ _ _ _ _ _ _ Heff), ind_self, (only_fees_supply _ _ _ Hf). cbn.
  set (s := supply (lp_share_asset p) d0) in *. set (n := amount (lpo_share_amount op)) in *.
  destruct (Z.eq_dec n s) as [En|Hne]; [unfold amount_ok in *; nia|].
  destruct (withdraw_context_partial _ _ _ _ _ _ _ Hok He Hp Hsup ltac:(lia)) as [La Lb].
  fold s n in La, Lb. assert (0 < s) as Ps by lia.
  pose proof (div_mul_le (n * lp_balance_a p) s Ps). pose proof (div_mul_le (n * lp_balance_b p) s Ps).
  split; nia.
Qed.
(** The parts of a complete operation the pools depend on. *)
Lemma run_pools {Op Ctx Res} `{!Evaluator Op Ctx Res} calc skip d (op : Op) d' (r : Res) :
  apply_operation calc skip d op = Ok (d', r) ->
  exists d1 ctx d2, validate op = Ok tt /\ do_evaluate d op = Ok ctx /\ only_fees d d1
    /\ do_apply d1 op ctx = Ok (d2, r) /\ pools d' = pools d2 /\ dyn_data d' = dyn_data d2.
Proof.
  intros E. unfold apply_operation in E. mon.
  destruct (start_evaluate_inv _ _ _ _ _ _ E) as (d1 & ctx & d2 & m & He & Hf & Ha & ->).
  by exists d1, ctx, d2.
Qed.

Lemma not_diluted_ext id p d d1 d2 :
  pools d2 = pools d1 -> dyn_data d2 = dyn_data d1 -> not_diluted id p d d1 -> not_diluted id p d d2.
Proof.
  intros Ep Ed (p' & Hp & Hs & Ha & Hb). exists p'. unfold supply in *. by rewrite Ep, Ed.
Qed.

(** C16: The holders of a pool's shares are never diluted: across a complete deposit
    into a funded pool or a complete withdrawal, the amount of each asset per share
    does not fall, and across an exchange the number of shares is unchanged while the
    product of the balances does not fall, whatever the rounding. *)
Theorem pool_shares_not_diluted d (id : Z) p :
  pools_wf d -> tall asset_options_ok (assets d) -> rows (pools d) !! id = Some p ->
  0 < supply (lp_share_asset p) d ->
  (forall calc skip (op : liquidity_pool_deposit_operation) d' r, lpi_pool op = id ->
     amount_ok (amount (lpi_amount_a op)) -> amount_ok (amount (lpi_amount_b op)) ->
     apply_operation calc skip d op = Ok (d', r) -> not_diluted id p d d')
  /\ (forall calc skip (op : liquidity_pool_withdraw_operation) d' r, lpo_pool op = id ->
     apply_operation calc skip d op = Ok (d', r) -> not_diluted id p d d')
  /\ (forall calc skip (op : liquidity_pool_exchange_operation) d' r, lpx_pool op = id ->
     apply_operation calc skip d op = Ok (d', r) ->
     supply (lp_share_asset p) d' = supply (lp_share_asset p) d
     /\ exists p', rows (pools d') !! id = Some p'
          /\ lp_balance_a p * lp_balance_b p <= lp_balance_a p' * lp_balance_b p').
Proof.
  intros Hwf Hopt Hp Hs. split_and!.
  - intros calc skip op d' r <- Ha Hb (d1 & ctx & d2 & _ & He & Hf & E & Ep & Ed)%run_pools.
    eapply not_diluted_ext; [exact Ep | exact Ed |]. by eapply deposit_not_diluted.
  - intros calc skip op d' r <- (d1 & ctx & d2 & Hv & He & Hf & E & Ep & Ed)%run_pools.
    eapply not_diluted_ext; [exact Ep | exact Ed |]. cbn in Hv. unfold liquidity_pool_withdraw_validate in Hv. mon.
    by eapply withdraw_not_diluted.
  - intros calc skip op d' r <- (d1 & ctx & d2 & _ & He & Hf & E & Ep & Ed)%run_pools.
    destruct (only_fees_pools _ _ Hf) as [Hpp _]. pose proof Hp as Hp1. rewrite <- Hpp in Hp1.
    eapply exchange_effect in E as (Heff & Pa & Pb & Hv); [|exact Hp1].
    cbn zeta in Heff, Hv.
    match type of Heff with pool_effect _ _ _ _ ?x ?y _ => set (a := x) in *; set (b := y) in * end.
    split.
    + unfold supply at 1. rewrite Ed. fold (supply (lp_share_asset p) d2).
      rewrite (pe_supply _ _ _ _ _ _ _ Heff), (only_fees_supply _ _ _ Hf). lia.
    + exists (set_balances p a b). rewrite Ep. split; [by eapply pool_effect_row|].
      destruct (proj2 Hwf _ _ Hp) as [_ _ _ _ Hvv _]. rewrite <- Hvv. etrans; [exact Hv|].
      pose proof (pe_a _ _ _ _ _ _ _ Heff). pose proof (pe_b _ _ _ _ _ _ _ Heff).
      unfold int64_range, amount_ok in *.
      unfold set_balances. rewrite update_virtual_value_exact by (split; unfold amount_ok; cbn; lia). done.
Qed.

(** C18: The 128-bit computations of the pool give the exact rounded quotients: on the
    balances and supplies of the chain nothing wraps around, so none of the "Internal
    error" assertions they contain can fail. A deposit issues the largest number of
    shares either asset pays for and takes the amounts rounded up; a partial
    withdrawal pays the proportional part rounded down less its fee; an exchange takes
    the other balance down to the product over the new balance, rounded up. *)
Theorem pool_amounts_exact p (supply max_supply a b share r : Z) :
  pool_balances_ok p -> 0 < lp_balance_a p -> 0 < lp_balance_b p ->
  0 <= lp_withdrawal_fee_percent p <= GRAPHENE_100_PERCENT ->
  0 < supply < max_supply -> max_supply <= INT64_MAX -> amount_ok a -> amount_ok b ->
  0 <= share < supply -> 0 <= r -> lp_balance_a p + r <= INT64_MAX ->
  let n := Z.min (Z.min (supply * a / lp_balance_a p) (supply * b / lp_balance_b p)) (max_supply - supply) in
  deposit_amounts p supply max_supply a b
    = (if 0 <? n then Ok (ceil_div (n * lp_balance_a p) supply, ceil_div (n * lp_balance_b p) supply, n)
       else Err (assert_exception "Aborting due to zero outcome"))
  /\ (let x := share * lp_balance_a p / supply in
      let f := x * lp_withdrawal_fee_percent p / GRAPHENE_100_PERCENT in
      withdraw_side share supply (lp_balance_a p) (lp_withdrawal_fee_percent p) = Ok (x - f, f))
  /\ exchange_delta (lp_balance_a p * lp_balance_b p) (lp_balance_a p) (lp_balance_b p) r
     = Ok (lp_balance_b p - ceil_div (lp_balance_a p * lp_balance_b p) (lp_balance_a p + r)).
Proof.
  intros [Ha Hb] Pa Pb Hf Hs Hm Hoa Hob Hsh Hr Hmax n. split_and!.
  - apply deposit_amounts_exact; (done || lia).
  - apply withdraw_side_exact; unfold amount_ok in *; (done || lia).
  - by apply exchange_delta_exact.
Qed.

(** C21: Depositing and withdrawing again is never profitable: withdrawing all the
    shares a deposit has issued, straight after it, pays back (with the withdrawal
    fee even added) at most what the deposit took of each asset. *)
Theorem pool_round_trip p (supply max_supply a b ra rb n : Z) (pa fa pb fb : Z) :
  pool_balances_ok p -> 0 < lp_balance_a p -> 0 < lp_balance_b p ->
  0 <= lp_withdrawal_fee_percent p <= GRAPHENE_100_PERCENT ->
  0 < supply < max_supply -> max_supply <= INT64_MAX -> amount_ok a -> amount_ok b ->
  lp_balance_a p + a <= INT64_MAX -> lp_balance_b p + b <= INT64_MAX ->
  deposit_amounts p supply max_supply a b = Ok (ra, rb, n) ->
  let p' := set_balances p (lp_balance_a p + ra) (lp_balance_b p + rb) in
  withdraw_side n (supply + n) (lp_balance_a p') (lp_withdrawal_fee_percent p') = Ok (pa, fa) ->
  withdraw_side n (supply + n) (lp_balance_b p') (lp_withdrawal_fee_percent p') = Ok (pb, fb) ->
  pa + fa <= ra <= a /\ pb + fb <= rb <= b.
Proof.
  intros [Ha Hb] Pa Pb Hf Hs Hm Hoa Hob Hma Hmb Hd p' Wa Wb. cbn in Wa, Wb.
  unfold amount_ok in *. rewrite deposit_amounts_exact in Hd by (unfold amount_ok; lia).
  set (k := Z.min _ _) in *. destruct (Z.ltb_spec 0 k) as [Hk|]; [|done]. injection Hd as <- <- <-.
  assert (forall bal x y z : Z, 0 < bal -> 0 <= x -> bal + x <= INT64_MAX -> k <= supply * x / bal ->
    withdraw_side k (supply + k) (bal + ceil_div (k * bal) supply) (lp_withdrawal_fee_percent p) = Ok (y, z) ->
    y + z <= ceil_div (k * bal) supply <= x) as Hside.
  { intros bal x y z Pbal Hx Hbx Hkx W.
    assert (0 < ceil_div (k * bal) supply <= x) as Hc.
    { split; [apply ceil_div_pos; nia|]. apply ceil_div_least; [lia|].
      pose proof (div_mul_le (supply * x) bal Pbal). nia. }
    destruct (withdraw_side_exact k (supply + k) (bal + ceil_div (k * bal) supply) (lp_withdrawal_fee_percent p))
      as (E & _ & _); [lia | unfold amount_ok; lia | unfold amount_ok; lia | lia | done |].
    rewrite E in W. injection W as <- <-. split; [|lia].
    pose proof (ceil_div_ge (k * bal) supply ltac:(lia)).
    set (q := k * (bal + _) / _). assert (q <= ceil_div (k * bal) supply); [|lia].
    apply Z.div_le_upper_bound; nia. }
  split; [eapply (Hside (lp_balance_a p) a pa fa) | eapply (Hside (lp_balance_b p) b pb fb)];
    (done || lia).
Qed.
End PoolLemmas.

(** ** A funded pool *)

Definition sample_pool : liquidity_pool_object := LiquidityPool 0 1 50000 80000 2 30 20 4000000000.

(** Account 5 holds the 1000 shares of a pool of 50000 of the core asset and 80000
    of asset 1. *)
Definition sample_pool_db : database :=
  sample_db <| pools := table_from [sample_pool] |>
    <| assets := table_from [sample_asset "DFS" 3 0 1 None; sample_asset "USD" 5 1 1 None;
                             sample_asset "LP" 5 0 2 (Some 0)] |>
    <| dyn_data ::= <[2 := AssetDynamicData 1000 0 0 0 0]> |>
    <| balances ::= <[(5, 2) := AccountBalance 1000 false]> |>.

Lemma sample_pools_wf : pools_wf sample_pool_db.
Proof.
  split; [apply table_from_wf|]. intros id p Hp.
  change (rows (tcreate empty_table sample_pool) !! id = Some p) in Hp.
  destruct (decide (id = 0)) as [->|Hne].
  - injection Hp as <-. split; try done. eexists. split; reflexivity.
  - rewrite lookup_tcreate_ne in Hp by done. unfold empty_table in Hp. cbn in Hp.
    by rewrite lookup_empty in Hp.
Qed.

Lemma sample_pool_options : tall asset_options_ok (assets sample_pool_db).
Proof.
  apply table_from_all. repeat constructor; unfold asset_options_ok, GRAPHENE_MAX_SHARE_SUPPLY; cbn; lia.
Qed.

Definition sample_exchange : liquidity_pool_exchange_operation :=
  LiquidityPoolExchange (Asset 100 CORE) 7 0 (Asset 5000 CORE) (Asset 6000 1).

(** Selling 5000 of the core asset: the pool pays 7272 less its taker fee. *)
Lemma pools_consistent_witness :
  exists ctx d' r, do_evaluate sample_pool_db sample_exchange = Ok ctx
    /\ amount (xc_pool_pays ctx) = 7251
    /\ do_apply sample_pool_db sample_exchange ctx = Ok (d', r) /\ pools_wf d'.
Proof.
  do 3 eexists.
  assert (do_evaluate sample_pool_db sample_exchange = Ok _) as He by (vm_compute; reflexivity).
  split; [exact He|]. split; [reflexivity|].
  match goal with |- do_apply ?d ?op ?ctx = _ /\ _ =>
    assert (do_apply d op ctx = Ok (_, _)) as Ha by (vm_compute; reflexivity) end.
  split; [exact Ha|]. destruct pools_consistent as (_ & _ & _ & _ & _ & Hx).
  refine (Hx sample_pool_db sample_pool_db sample_exchange _ _ _ _ He _ sample_pools_wf Ha);
    [by vm_compute|].
  exists (dyn_data sample_pool_db), (account_stats sample_pool_db). by split.
Defined.

Lemma pool_shares_not_diluted_witness :
  exists d' r, apply_operation (fun _ _ => Ok 90) false sample_pool_db sample_exchange = Ok (d', r)
    /\ exists p', rows (pools d') !! 0 = Some p' /\ 50000 * 80000 <= lp_balance_a p' * lp_balance_b p'.
Proof.
  do 2 eexists.
  assert (apply_operation (fun _ _ => Ok 90) false sample_pool_db sample_exchange = Ok (_, _)) as E
    by (vm_compute; reflexivity).
  split; [exact E|].
  destruct (pool_shares_not_diluted sample_pool_db 0 sample_pool sample_pools_wf sample_pool_options
              eq_refl eq_refl) as (_ & _ & Hx).
  apply (Hx _ _ sample_exchange _ _ eq_refl E).
Defined.

Lemma pool_amounts_exact_witness :
  withdraw_side 100 1000 50000 20 = Ok (4990, 10)
  /\ exchange_delta (50000 * 80000) 50000 80000 5000 = Ok 7272.
Proof.
  destruct (pool_amounts_exact sample_pool 1000 1000000 5000 8000 100 5000) as (_ & Hw & Hx);
    [evaluate_goal .. | split; [exact Hw | exact Hx]].
Defined.

Lemma pool_round_trip_witness :
  deposit_amounts sample_pool 1000 1000000 5033 8999 = Ok (5000, 8000, 100)
  /\ withdraw_side 100 1100 55000 20 = Ok (4990, 10)
  /\ 4990 + 10 <= 5000 <= 5033 /\ 7984 + 16 <= 8000 <= 8999.
Proof.
  split; [vm_compute; reflexivity|]. split; [vm_compute; reflexivity|].
  destruct (pool_round_trip sample_pool 1000 1000000 5033 8999 5000 8000 100 4990 10 7984 16)
    as [Ra Rb]; [evaluate_goal .. | split; [exact Ra | exact Rb]].
Defined.
