(* ===== verification/Htlc.v ===== *)
(** Hashed time-lock contracts: [htlc_evaluator.cpp], [protocol/htlc.cpp] and
    [database::clear_expired_htlcs] of [db_update.cpp]. *)
From S2P Require Import Prelude Records Fc Asset Objects Vesting Database Holdings Sample Fees Evaluator.
From Stdlib Require Import Strings.Byte.

#[export] Instance byte_eq_dec : EqDecision byte := Byte.byte_eq_dec.

(** The hash functions ([fc::ripemd160], [fc::sha1], [fc::sha256], [fc::hash160]). *)
Class HtlcHash := htlc_digest : htlc_hash_type -> list byte -> list byte.

(** ** Operations *)

Record htlc_create_operation := HtlcCreate {
  hc_fee : asset;
  hc_from : account_id_type;
  hc_to : account_id_type;
  hc_amount : asset;
  hc_preimage_hash : htlc_hash;
  hc_preimage_size : Z;
  hc_claim_period_seconds : Z;
  hc_memo : option (list byte);
}.

Record htlc_redeem_operation := HtlcRedeem {
  hr_fee : asset;
  hr_htlc_id : Z;
  hr_redeemer : account_id_type;
  hr_preimage : list byte;
}.

Record htlc_extend_operation := HtlcExtend {
  hx_fee : asset;
  hx_htlc_id : Z;
  hx_update_issuer : account_id_type;
  hx_seconds_to_add : Z;
}.

Definition htlc_create_validate (op : htlc_create_operation) : result unit :=
  assert! 0 <=? amount (hc_fee op) @ "Fee amount should not be negative" in
  assert! 0 <? amount (hc_amount op) @ "HTLC amount should be greater than zero" in
  Ok tt.

Definition htlc_redeem_validate (op : htlc_redeem_operation) : result unit :=
  assert! 0 <=? amount (hr_fee op) @ "Fee amount should not be negative" in
  Ok tt.

Definition htlc_extend_validate (op : htlc_extend_operation) : result unit :=
  assert! 0 <=? amount (hx_fee op) @ "Fee amount should not be negative" in
  Ok tt.

(** ** Fees *)

Definition SECONDS_PER_DAY : Z := 86400.

(** [( s + SECONDS_PER_DAY - 1 ) / SECONDS_PER_DAY] on 32-bit integers. *)
Definition days_charged (s : Z) : Z := u32 (u32 (s + SECONDS_PER_DAY) - 1) / SECONDS_PER_DAY.

Definition calculate_data_fee (bytes price_per_kbyte : Z) : result Z :=
  let result := u128 (bytes * price_per_kbyte) / 1024 in
  assert! result <=? GRAPHENE_MAX_SHARE_SUPPLY @ "result <= GRAPHENE_MAX_SHARE_SUPPLY" in
  Ok (u64 result).

(** [memo_size] is the packed size of the memo, when there is one. *)
Definition htlc_create_calculate_fee `{SafeInt64} (fee fee_per_day fee_per_kb : Z)
    (op : htlc_create_operation) (memo_size : list byte -> Z) : result share_type :=
  let! days_fee := safe_mul (to_int64 fee_per_day) (days_charged (hc_claim_period_seconds op)) in
  let! total_fee := safe_add (to_int64 fee) days_fee in
  match hc_memo op with
  | Some memo => let! data_fee := calculate_data_fee (memo_size memo) fee_per_kb in
                 safe_add total_fee (to_int64 data_fee)
  | None => Ok total_fee
  end.

Definition htlc_redeem_calculate_fee (fee fee_per_kb : Z) (op : htlc_redeem_operation)
    : result share_type :=
  let kb := u64 (Z.of_nat (length (hr_preimage op)) + 1023) / 1024 in
  let product := u64 (kb * fee_per_kb) in
  assert! (kb =? 0) || (product / kb =? fee_per_kb) @ "Fee calculation overflow" in
  Ok (to_int64 (u64 (fee + product))).

Definition htlc_extend_calculate_fee (fee fee_per_day : Z) (op : htlc_extend_operation)
    : result share_type :=
  let days := days_charged (hx_seconds_to_add op) in
  let per_day_fee := u64 (fee_per_day * days) in
  assert! (days =? 0) || (per_day_fee / days =? fee_per_day) @ "Fee calculation overflow" in
  Ok (to_int64 (u64 (fee + per_day_fee))).

(** ** Evaluators *)

Definition get_htlc (d : database) (id : Z) : result htlc_object :=
  of_option "HTLC" (tfind (htlcs d) id).

Definition check_htlc_create_hf_bsip64 (block_time : time_point_sec) (op : htlc_create_operation)
    (asset_to_transfer : asset_object) : result unit :=
  if block_time <? HARDFORK_CORE_BSIP64_TIME then
    assert! bool_decide (hc_memo op = None) @ "Memo unavailable until after HARDFORK BSIP64" in
    assert! negb (bool_decide (fst (hc_preimage_hash op) = hash_hash160))
      @ "HASH160 unavailable until after HARDFORK BSIP64" in
    Ok tt
  else
    assert! negb (is_transfer_restricted asset_to_transfer)
            || (hc_from op =? as_issuer asset_to_transfer) || (hc_to op =? as_issuer asset_to_transfer)
      @ "Asset cannot be transfered." in
    Ok tt.

Definition check_htlc_redeem_hf_bsip64 (block_time : time_point_sec) (op : htlc_redeem_operation)
    (h : htlc_object) : result unit :=
  if (0 <? ht_preimage_size h) || (block_time <? HARDFORK_CORE_BSIP64_TIME) then
    assert! Z.of_nat (length (hr_preimage op)) =? ht_preimage_size h @ "Preimage size mismatch." in
    Ok tt
  else Ok tt.

Definition htlc_create_do_evaluate (d : database) (op : htlc_create_operation) : result unit :=
  let! options := of_option "HTLC Committee options are not set." (cp_updatable_htlc_options (params d)) in
  assert! hc_claim_period_seconds op <=? hto_max_timeout_secs options
    @ "HTLC Timeout exceeds allowed length" in
  assert! hc_preimage_size op <=? hto_max_preimage_size options
    @ "HTLC preimage length exceeds allowed length" in
  let id := asset_id (hc_amount op) in
  let! ok := asset_ge (get_balance d (hc_from op) id) (hc_amount op) in
  assert! ok @ "Insufficient funds" in
  let! asset_to_transfer := get_asset d id in
  let! from_account := get_account d (hc_from op) in
  let! to_account := get_account d (hc_to op) in
  do! check_htlc_create_hf_bsip64 (head_block_time d) op asset_to_transfer in
  assert! is_authorized_asset d (hc_from op) from_account id asset_to_transfer
    @ "Asset is not authorized for account" in
  assert! is_authorized_asset d (hc_to op) to_account id asset_to_transfer
    @ "Asset is not authorized for account" in
  Ok tt.

(** [htlc_redeem_visitor]: the digest is computed with the algorithm of the stored hash. *)
Definition preimage_matches `{HtlcHash} (preimage : list byte) (h : htlc_hash) : bool :=
  bool_decide (htlc_digest (fst h) preimage = snd h).

Definition htlc_redeem_do_evaluate `{HtlcHash} (d : database) (op : htlc_redeem_operation) : result unit :=
  let! h := get_htlc d (hr_htlc_id op) in
  do! check_htlc_redeem_hf_bsip64 (head_block_time d) op h in
  assert! preimage_matches (hr_preimage op) (ht_preimage_hash h)
    @ "Provided preimage does not generate correct hash." in
  Ok tt.

(** Reading the timeout of options that are not set is undefined. *)
Definition htlc_extend_do_evaluate (d : database) (op : htlc_extend_operation) : result unit :=
  let! h := get_htlc d (hx_htlc_id op) in
  assert! hx_update_issuer op =? ht_from h @ "HTLC may only be extended by its creator." in
  assert! ht_expiration h + hx_seconds_to_add op <? 2 ^ 32 - 1
    @ "Extension would cause an invalid date" in
  let! options := of_option "undefined behaviour: empty optional" (cp_updatable_htlc_options (params d)) in
  assert! tps_add (ht_expiration h) (hx_seconds_to_add op)
          <=? tps_add (head_block_time d) (hto_max_timeout_secs options)
    @ "Extension pushes contract too far into the future" in
  Ok tt.

Section Htlc.
Context `{SafeInt64} `{HtlcHash}.

Definition htlc_create_do_apply (d : database) (op : htlc_create_operation) (ctx : unit)
    : result (database * Z) :=
  let! minus := asset_neg (hc_amount op) in
  let! d := adjust_balance d (hc_from op) minus in
  let h := HtlcObject (hc_from op) (hc_to op) (amount (hc_amount op)) (asset_id (hc_amount op))
             (hc_preimage_hash op) (hc_preimage_size op)
             (tps_add (head_block_time d) (hc_claim_period_seconds op)) (hc_memo op) in
  Ok (d <| htlcs := tcreate (htlcs d) h |>, next_id (htlcs d)).

Definition htlc_redeem_do_apply (d : database) (op : htlc_redeem_operation) (ctx : unit)
    : result (database * unit) :=
  let! h := get_htlc d (hr_htlc_id op) in
  let x := Asset (ht_amount h) (ht_asset_id h) in
  let! d := adjust_balance d (ht_to h) x in
  let d := d <| applied_ops ::= cons (vop_htlc_redeemed (hr_htlc_id op) (ht_from h) (ht_to h)
             (hr_redeemer op) x (ht_preimage_hash h) (ht_preimage_size h) (hr_preimage op)) |> in
  Ok (d <| htlcs := tremove (htlcs d) (hr_htlc_id op) |>, tt).

Definition htlc_extend_do_apply (d : database) (op : htlc_extend_operation) (ctx : unit)
    : result (database * unit) :=
  let! h := get_htlc d (hx_htlc_id op) in
  let h' := h <| ht_expiration := tps_add (ht_expiration h) (hx_seconds_to_add op) |> in
  Ok (d <| htlcs := tmodify (htlcs d) (hx_htlc_id op) h' |>, tt).

#[export] Instance htlc_create_evaluator : Evaluator htlc_create_operation unit Z := {
  fee_payer := hc_from;
  op_fee := hc_fee;
  validate := htlc_create_validate;
  do_evaluate := htlc_create_do_evaluate;
  do_apply := htlc_create_do_apply;
}.

#[export] Instance htlc_redeem_evaluator : Evaluator htlc_redeem_operation unit unit := {
  fee_payer := hr_redeemer;
  op_fee := hr_fee;
  validate := htlc_redeem_validate;
  do_evaluate := htlc_redeem_do_evaluate;
  do_apply := htlc_redeem_do_apply;
}.

#[export] Instance htlc_extend_evaluator : Evaluator htlc_extend_operation unit unit := {
  fee_payer := hx_update_issuer;
  op_fee := hx_fee;
  validate := htlc_extend_validate;
  do_evaluate := htlc_extend_do_evaluate;
  do_apply := htlc_extend_do_apply;
}.

(** ** Expiry *)

(** One round of the loop: the locked amount goes back to the creator. *)
Definition refund_htlc (d : database) (id : Z) (h : htlc_object) : result database :=
  let x := Asset (ht_amount h) (ht_asset_id h) in
  let! d := adjust_balance d (ht_from h) x in
  let d := d <| applied_ops ::= cons (vop_htlc_refund id (ht_from h) (ht_to h) x
             (ht_preimage_hash h) (ht_preimage_size h)) |> in
  Ok (d <| htlcs := tremove (htlcs d) id |>).

(** The [while] loop over the [by_expiration] index; [None] when the fuel is used up. *)
Fixpoint clear_expired_loop (fuel : nat) (d : database) : option (result database) :=
  match tfirst_due ht_expiration (head_block_time d) (htlcs d) with
  | None => Some (Ok d)
  | Some (id, h) =>
      match fuel with
      | O => None
      | S fuel' => match refund_htlc d id h with
                   | Ok d' => clear_expired_loop fuel' d'
                   | Err e => Some (Err e)
                   end
      end
  end.

Definition clear_expired_htlcs (d : database) : option (result database) :=
  clear_expired_loop (size (rows (htlcs d))) d.
End Htlc.

(** ** Laws *)

Section HtlcLaws.
Context `{SafeInt64Laws} `{HtlcHash}.

#[export] Instance htlc_create_laws : EvaluatorLaws htlc_create_operation unit Z.
Proof.
  split. cbn. unfold htlc_create_do_apply. intros d0 d op ctx d' r _ _ _ Hwf E. mon. asset_ints.
  adjust_steps. split; [conserve | destruct Hwf; wf].
Qed.

#[export] Instance htlc_redeem_laws : EvaluatorLaws htlc_redeem_operation unit unit.
Proof.
  split. cbn. unfold htlc_redeem_do_apply, get_htlc, tfind. intros d0 d op ctx d' r _ _ _ Hwf E. mon.
  adjust_steps. split; [conserve | destruct Hwf; wf].
Qed.

#[export] Instance htlc_extend_laws : EvaluatorLaws htlc_extend_operation unit unit.
Proof.
  split. cbn. unfold htlc_extend_do_apply, get_htlc, tfind. intros d0 d op ctx d' r _ _ _ Hwf E. mon.
  split; [conserve | destruct Hwf; wf].
Qed.
End HtlcLaws.

(** ** A contract is settled once *)

(** What the parties have agreed on. *)
Record htlc_terms := HtlcTerms {
  tm_from : account_id_type;
  tm_to : account_id_type;
  tm_amount : asset;
  tm_hash : htlc_hash;
}.

Definition terms_of (h : htlc_object) : htlc_terms :=
  HtlcTerms (ht_from h) (ht_to h) (Asset (ht_amount h) (ht_asset_id h)) (ht_preimage_hash h).

(** Does the operation settle the contract? *)
Definition settles (id : Z) (op : virtual_op) : bool :=
  match op with
  | vop_htlc_redeemed i _ _ _ _ _ _ _ => i =? id
  | vop_htlc_refund i _ _ _ _ _ => i =? id
  | _ => false
  end.

Definition settlements (id : Z) (log : list virtual_op) : list virtual_op := filter (settles id) log.

(** Settled by the terms: paid to the recipient against a preimage of the agreed hash,
    or back to the creator. *)
Definition settled_as_agreed `{HtlcHash} (id : Z) (t : htlc_terms) (op : virtual_op) : Prop :=
  (exists redeemer size preimage, op = vop_htlc_redeemed id (tm_from t) (tm_to t) redeemer (tm_amount t) (tm_hash t) size preimage
     /\ preimage_matches preimage (tm_hash t) = true)
  \/ (exists size, op = vop_htlc_refund id (tm_from t) (tm_to t) (tm_amount t) (tm_hash t) size).

(** The contract is either live with its terms and unsettled, or gone and settled by
    exactly one operation. *)
Definition htlc_honoured `{HtlcHash} (id : Z) (t : htlc_terms) (d : database) : Prop :=
  table_wf (htlcs d) /\ 0 <= id < next_id (htlcs d) /\
  match rows (htlcs d) !! id with
  | Some h => terms_of h = t /\ settlements id (applied_ops d) = []
  | None => exists op, settlements id (applied_ops d) = [op] /\ settled_as_agreed id t op
  end.

Section Settlement.
Context `{SafeInt64Laws} `{HtlcHash}.
Implicit Types (d : database) (id : Z) (t : htlc_terms).

Lemma settlements_cons_ne id op log : settles id op = false -> settlements id (op :: log) = settlements id log.
Proof. intros E. apply filter_cons_False. rewrite E. auto. Qed.

Lemma settlements_cons id op log : settles id op = true -> settlements id (op :: log) = op :: settlements id log.
Proof. intros E. apply filter_cons_True. by rewrite E. Qed.

(** Removing a contract together with the operation that settles it. *)
Lemma honoured_settle id t i d d' h op :
  htlc_honoured id t d -> rows (htlcs d) !! i = Some h ->
  htlcs d' = tremove (htlcs d) i -> applied_ops d' = op :: applied_ops d ->
  (forall j, settles j op = (i =? j)) -> settled_as_agreed i (terms_of h) op ->
  htlc_honoured id t d'.
Proof.
  intros (Hwf & Hid & Hm) Hi Et El Hs Ha. unfold htlc_honoured. rewrite Et, El.
  split; [by apply tremove_wf|]. split; [done|]. destruct (decide (i = id)) as [->|Hne].
  - rewrite lookup_tremove. rewrite Hi in Hm. destruct Hm as [<- Hm]. exists op.
    rewrite settlements_cons, Hm by (by rewrite Hs, Z.eqb_refl). done.
  - change (rows (tremove (htlcs d) i)) with (delete i (rows (htlcs d))). rewrite lookup_delete_ne by done.
    rewrite settlements_cons_ne; [done|]. rewrite Hs. by apply Z.eqb_neq.
Qed.

(** Changes that leave the contracts and the log alone. *)
Lemma honoured_frame id t d d' :
  htlcs d' = htlcs d -> applied_ops d' = applied_ops d -> htlc_honoured id t d -> htlc_honoured id t d'.
Proof. unfold htlc_honoured. by intros -> ->. Qed.

Lemma refund_htlc_honoured id t i d h d' :
  htlc_honoured id t d -> rows (htlcs d) !! i = Some h -> refund_htlc d i h = Ok d' -> htlc_honoured id t d'.
Proof.
  unfold refund_htlc. intros Hh Hi E. mon.
  match goal with E : adjust_balance _ _ _ = Ok _ |- _ => destruct (adjust_balance_frame _ _ _ _ E) as (m & -> & _) end.
  eapply (honoured_settle id t i d _ h); [done | done | done | done | done |].
  right. by eexists.
Qed.

Lemma clear_expired_honoured id t fuel : forall d d',
  htlc_honoured id t d -> clear_expired_loop fuel d = Some (Ok d') -> htlc_honoured id t d'.
Proof.
  induction fuel as [|fuel IH]; cbn; intros d d' Hh E; destruct (tfirst_due _ _ _) as [[i h]|] eqn:Hf;
    try done; try (by injection E as <-).
  apply tfirst_due_Some in Hf as [Hi _]. destruct (refund_htlc d i h) as [d1|] eqn:E1; [|done].
  apply (IH d1); [by eapply refund_htlc_honoured | done].
Qed.

(** ** Expiry is exact *)

(** The contracts still there after clearing. *)
Definition unexpired (now : time_point_sec) (h : htlc_object) : bool := now <? ht_expiration h.

(** What a contract owes an account in an asset once it has expired. *)
Definition refund_due (now : time_point_sec) (o : account_id_type) (a : asset_id_type) (h : htlc_object) : Z :=
  if negb (unexpired now h) && (ht_from h =? o) && (ht_asset_id h =? a) then ht_amount h else 0.

Definition htlc_amount_ok (h : htlc_object) : Prop := amount_ok (ht_amount h).

Lemma refund_htlc_exact d i h d' : balances_ok d -> htlc_amount_ok h -> ht_expiration h <= head_block_time d ->
  refund_htlc d i h = Ok d' ->
  balances_ok d' /\ htlcs d' = tremove (htlcs d) i /\ head_block_time d' = head_block_time d
  /\ forall o a, balance_of d' o a = balance_of d o a + refund_due (head_block_time d) o a h.
Proof.
  unfold refund_htlc. intros Hok Ha He E. mon.
  match goal with E : adjust_balance _ _ _ = Ok _ |- _ =>
    pose proof (adjust_balance_exact _ _ _ _ Hok E) as F; destruct (adjust_balance_frame _ _ _ _ E) as (m & -> & _) end.
  destruct F as (Fb & Fo & Fk); [unfold htlc_amount_ok, amount_ok in Ha; unfold_int64; cbn; lia|].
  split_and!; [done.. |]. intros o a. unfold refund_due, unexpired. cbn in Fb, Fo.
  destruct (Z.ltb_spec (head_block_time d) (ht_expiration h)); [lia|]. cbn.
  destruct (Z.eqb_spec (ht_from h) o) as [<-|?], (Z.eqb_spec (ht_asset_id h) a) as [<-|?]; cbn;
    [exact Fb | etrans; [apply Fo; congruence | lia] ..].
Qed.

Lemma clear_expired_loop_exact fuel : forall d,
  balances_ok d -> tall htlc_amount_ok (htlcs d) -> (size (rows (htlcs d)) <= fuel)%nat ->
  exists r, clear_expired_loop fuel d = Some r /\ forall d', r = Ok d' ->
    balances_ok d' /\ rows (htlcs d') = filter (fun kv => unexpired (head_block_time d) kv.2) (rows (htlcs d))
    /\ forall o a, balance_of d' o a
         = balance_of d o a + tsum (fun _ h => refund_due (head_block_time d) o a h) (htlcs d).
Proof.
  assert (forall d, tfirst_due ht_expiration (head_block_time d) (htlcs d) = None ->
    rows (htlcs d) = filter (fun kv => unexpired (head_block_time d) kv.2) (rows (htlcs d))
    /\ forall o a, tsum (fun _ h => refund_due (head_block_time d) o a h) (htlcs d) = 0) as Hend.
  { intros d E. assert (forall i h, rows (htlcs d) !! i = Some h -> unexpired (head_block_time d) h = true) as Hu.
    { intros i h Hi. by apply Z.ltb_lt, (tfirst_due_None _ _ _ _ _ E Hi). }
    split.
    - symmetry. apply map_filter_id. intros i h Hi. cbn. by rewrite (Hu _ _ Hi).
    - intros o a. unfold tsum. rewrite (msum_ext _ (fun _ _ => 0)); [apply msum_zero|].
      intros i h Hi. unfold refund_due. by rewrite (Hu _ _ Hi). }
  induction fuel as [|fuel IH]; intros d Hok Ha Hfuel; cbn;
    (destruct (tfirst_due _ _ _) as [[i h]|] eqn:E; [apply tfirst_due_Some in E as [Hi He] |
       eexists; split; [done|]; intros d' [= <-]; destruct (Hend _ E) as [Er Es]; split_and!;
         [done | done | intros o a; rewrite Es; lia]]).
  - assert (size (rows (htlcs d)) <> 0%nat) by (apply map_size_ne_0_lookup; eauto). lia.
  - destruct (refund_htlc d i h) as [d1|e] eqn:E1; [|by eexists].
    apply refund_htlc_exact in E1 as (Hok1 & Et & Eh & Hb); [|done | exact (tall_lookup _ _ _ _ Ha Hi) | done].
    destruct (IH d1) as (r & Er & Hr); [done | rewrite Et; by apply tall_remove | |].
    { rewrite Et, tremove_size by eauto. lia. }
    exists r. split; [done|]. intros d' Hd'. destruct (Hr d' Hd') as (Hok' & Hrows & Hb').
    rewrite Eh, Et in *. split; [done|]. split.
    + rewrite Hrows. unfold tremove. cbn. rewrite map_filter_delete, delete_id; [done|].
      apply map_lookup_filter_None. right. intros x Hx. rewrite Hi in Hx. injection Hx as <-.
      cbn. unfold unexpired. rewrite (proj2 (Z.ltb_ge _ _)) by done. auto.
    + intros o a. rewrite Hb', Hb, (tsum_remove _ _ _ _ Hi). lia.
Qed.

(** What an amount adds to the balance of [o] in [i] when [to] is paid. *)
Definition paid_to (to : account_id_type) (x : asset) (o : account_id_type) (i : asset_id_type) : Z :=
  if o =? to then asset_in i x else 0.

Definition locks (t : htlc_terms) (d d' : database) : Prop :=
  forall o i, balance_of d' o i = balance_of d o i - paid_to (tm_from t) (tm_amount t) o i.

Definition pays (to : account_id_type) (x : asset) (d d' : database) : Prop :=
  forall o i, balance_of d' o i = balance_of d o i + paid_to to x o i.

Lemma htlc_create_locks d (op : htlc_create_operation) ctx d' id :
  table_wf (htlcs d) -> settlements (next_id (htlcs d)) (applied_ops d) = [] ->
  htlc_create_do_apply d op ctx = Ok (d', id) ->
  let t := HtlcTerms (hc_from op) (hc_to op) (hc_amount op) (hc_preimage_hash op) in
  htlc_honoured id t d' /\ locks t d d'.
Proof.
  unfold htlc_create_do_apply. intros Hwf Hlog E. mon. asset_ints.
  match goal with E : adjust_balance _ _ _ = Ok _ |- _ =>
    pose proof (adjust_balance_value _ _ _ _ E) as V; destruct (adjust_balance_frame _ _ _ _ E) as (m & -> & _) end.
  split.
  - split; [by apply tcreate_wf|]. unfold tcreate. cbn -[settlements]. split; [destruct Hwf; lia|].
    rewrite lookup_insert_eq. split; [by destruct (hc_amount op) | done].
  - intros o i. etrans; [exact (V o i)|]. unfold paid_to, asset_in. cbn. destruct (o =? hc_from op); lia.
Qed.

Lemma htlc_redeem_pays d (op : htlc_redeem_operation) ctx d' r h :
  rows (htlcs d) !! hr_htlc_id op = Some h -> htlc_redeem_do_apply d op ctx = Ok (d', r) ->
  rows (htlcs d') !! hr_htlc_id op = None /\ pays (ht_to h) (Asset (ht_amount h) (ht_asset_id h)) d d'.
Proof.
  unfold htlc_redeem_do_apply, get_htlc, tfind. intros Hh E. rewrite Hh in E. cbn [of_option rbind] in E. mon.
  match goal with E : adjust_balance _ _ _ = Ok _ |- _ =>
    pose proof (adjust_balance_value _ _ _ _ E) as V; destruct (adjust_balance_frame _ _ _ _ E) as (m & -> & _) end.
  split; [apply lookup_tremove|]. intros o i. exact (V o i).
Qed.

Lemma htlc_extend_pays_nothing d (op : htlc_extend_operation) ctx d' r :
  htlc_extend_do_apply d op ctx = Ok (d', r) -> forall o i, balance_of d' o i = balance_of d o i.
Proof. unfold htlc_extend_do_apply, get_htlc, tfind. intros E o i. by mon. Qed.

(** C31: A hashed time-lock contract is settled exactly once and as agreed. Creating it
    takes its amount from the creator and from nobody else. From then on, through
    creations, redemptions and extensions and the clearing of expired contracts, it is
    either live with the terms it was created with and no settlement of it has been
    recorded, or it is gone after exactly one settlement recorded by the chain, to the
    recipient against a preimage of the agreed hash or back to the creator; its id is not
    used again. The money follows the record: redeeming a contract removes it and pays its
    whole amount to its recipient, no other balance changes; extending one changes no
    balance; clearing removes exactly the contracts whose expiration has been reached and
    pays every account exactly what it has locked in those (for stored balances and
    locked amounts that are non-negative 64-bit numbers). Fees, which the framework takes
    around these changes, apart. *)
Theorem htlc_settled_once :
  (forall d0 d (op : htlc_create_operation) ctx d' id, validate op = Ok tt -> only_fees d0 d ->
     table_wf (htlcs d) -> settlements (next_id (htlcs d)) (applied_ops d) = [] ->
     do_apply d op ctx = Ok (d', id) ->
     let t := HtlcTerms (hc_from op) (hc_to op) (hc_amount op) (hc_preimage_hash op) in
     htlc_honoured id t d' /\ locks t d d')
  /\ (forall id t, preserves (htlc_honoured id t) htlc_create_operation
        /\ preserves (htlc_honoured id t) htlc_redeem_operation
        /\ preserves (htlc_honoured id t) htlc_extend_operation
        /\ forall d d', htlc_honoured id t d -> clear_expired_htlcs d = Some (Ok d') -> htlc_honoured id t d')
  /\ (forall d (op : htlc_redeem_operation) ctx d' r h,
        rows (htlcs d) !! hr_htlc_id op = Some h -> do_apply d op ctx = Ok (d', r) ->
        rows (htlcs d') !! hr_htlc_id op = None /\ pays (ht_to h) (Asset (ht_amount h) (ht_asset_id h)) d d')
  /\ (forall d (op : htlc_extend_operation) ctx d' r,
        do_apply d op ctx = Ok (d', r) -> forall o i, balance_of d' o i = balance_of d o i)
  /\ (forall d, balances_ok d -> tall htlc_amount_ok (htlcs d) ->
        exists r, clear_expired_htlcs d = Some r /\ forall d', r = Ok d' -> balances_ok d' /\
          rows (htlcs d') = filter (fun kv => unexpired (head_block_time d) kv.2) (rows (htlcs d))
          /\ forall o i, balance_of d' o i
               = balance_of d o i + tsum (fun _ h => refund_due (head_block_time d) o i h) (htlcs d)).
Proof.
  split; [|split; [|split_and!]].
  - intros d0 d op ctx d' id _ _. apply htlc_create_locks.
  - intros id t. split_and!.
    + intros d0 d op ctx d' r _ _ _ (Hwf & Hid & Hm) E. cbn in E. unfold htlc_create_do_apply in E. mon.
      match goal with E : adjust_balance _ _ _ = Ok _ |- _ => destruct (adjust_balance_frame _ _ _ _ E) as (m & -> & _) end.
      split; [by apply tcreate_wf|]. unfold tcreate. cbn -[settlements]. split; [lia|]. by rewrite lookup_insert_ne by lia.
    + intros d0 d op ctx d' r _ Hev Ho Hh E. cbn in E, Hev.
      unfold htlc_redeem_do_evaluate, get_htlc, tfind in Hev. unfold htlc_redeem_do_apply, get_htlc, tfind in E.
      after_fees. mon.
      match goal with E : adjust_balance _ _ _ = Ok _ |- _ => destruct (adjust_balance_frame _ _ _ _ E) as (m & -> & _) end.
      same_rows. eapply (honoured_settle id t (hr_htlc_id op) _ _); [exact Hh | eassumption | done | done | done |].
      left. eauto 10.
    + intros d0 d op ctx d' r _ _ _ (Hwf & Hid & Hm) E. cbn in E. unfold htlc_extend_do_apply, get_htlc, tfind in E. mon.
      split; [by eapply tmodify_wf|]. unfold tmodify. cbn -[settlements]. split; [done|]. destruct (decide (hx_htlc_id op = id)) as [Ei|Hne].
      * rewrite Ei in *. rewrite lookup_insert_eq. match goal with R : rows _ !! _ = Some _ |- _ => by rewrite R in Hm end.
      * by rewrite lookup_insert_ne.
    + intros d d' Hh. by apply clear_expired_honoured.
  - intros d op ctx d' r h. apply htlc_redeem_pays.
  - intros d op ctx d' r. apply htlc_extend_pays_nothing.
  - intros d Hok Ha. destruct (clear_expired_loop_exact (size (rows (htlcs d))) d Hok Ha) as (r & E & Hr); [done|].
    exists r. split; [exact E|]. intros d' Hd'. exact (Hr d' Hd').
Qed.

End Settlement.

(** ** Fees *)

Section HtlcFees.
Context `{SafeInt64Laws}.

Lemma days_charged_exact s : 0 <= s <= 2 ^ 32 - SECONDS_PER_DAY -> days_charged s = ceil_div s SECONDS_PER_DAY.
Proof.
  unfold days_charged, ceil_div, SECONDS_PER_DAY, u32. intros Hs.
  destruct (decide (s = 2 ^ 32 - 86400)) as [->|Hne]; [by vm_compute|].
  rewrite (Z.mod_small (s + 86400)) by lia. by rewrite Z.mod_small by lia.
Qed.

(** Within a day of the largest period the 32-bit sum wraps and no day is charged. *)
Lemma days_charged_wraps s : 2 ^ 32 - SECONDS_PER_DAY < s < 2 ^ 32 -> days_charged s = 0.
Proof.
  unfold days_charged, SECONDS_PER_DAY, u32. intros Hs.
  replace (s + 86400) with (s + 86400 - 2 ^ 32 + 1 * 2 ^ 32) by lia.
  rewrite Z.mod_add, (Z.mod_small (s + 86400 - 2 ^ 32)) by lia.
  rewrite Z.mod_small by lia. apply Z.div_small. lia.
Qed.

(** The fees of a contract's period are exact or refused: creating or extending
    for a period costs the flat fee and the daily fee for every started day, as long
    as the period stays a day below the 32-bit maximum and the total is a 64-bit
    amount (shown for creating without a memo, whose fee comes on top); for extending, a
    product that does not fit in 64 bits is detected. *)
Theorem htlc_period_fee_exact (fee per_day fee_per_kb s : Z) (create : htlc_create_operation)
    (extend : htlc_extend_operation) (memo_size : list byte -> Z) :
  0 <= fee -> 0 <= per_day < 2 ^ 64 -> 0 <= s <= 2 ^ 32 - SECONDS_PER_DAY ->
  hc_claim_period_seconds create = s -> hc_memo create = None -> hx_seconds_to_add extend = s ->
  let days := ceil_div s SECONDS_PER_DAY in
  (fee + per_day * days <= INT64_MAX -> per_day <= INT64_MAX ->
     htlc_create_calculate_fee fee per_day fee_per_kb create memo_size = Ok (fee + per_day * days)
     /\ htlc_extend_calculate_fee fee per_day extend = Ok (fee + per_day * days))
  /\ (2 ^ 64 <= per_day * days -> is_ok (htlc_extend_calculate_fee fee per_day extend) = false).
Proof.
  intros Hf Hp Hs Hc Hm Hx days. unfold htlc_create_calculate_fee, htlc_extend_calculate_fee.
  rewrite Hc, Hm, Hx, days_charged_exact by done. fold days.
  assert (0 <= days <= s) as Hd.
  { split; [by apply ceil_div_nonneg; [|lia]|]. apply ceil_div_least; [done|]. unfold SECONDS_PER_DAY. lia. }
  unfold SECONDS_PER_DAY in Hs. split.
  - unfold_int64. intros Ht Hpi. assert (0 <= per_day * days) by nia.
    rewrite !to_int64_small by (unfold_int64; lia). rewrite safe_mul_exact by (unfold_int64; lia). cbn [rbind].
    rewrite safe_add_exact by (unfold_int64; lia). split; [done|].
    unfold u64. rewrite (Z.mod_small (per_day * days)) by lia.
    assert ((days =? 0) || (per_day * days / days =? per_day) = true) as ->.
    { apply orb_true_iff. destruct (Z.eqb_spec days 0); [by left | right]. apply Z.eqb_eq. by apply Z.div_mul. }
    cbn [fc_assert rbind]. rewrite Z.mod_small by lia. by rewrite to_int64_small by (unfold_int64; lia).
  - intros Ho. assert (days <> 0) as Hnz by nia. rewrite (proj2 (Z.eqb_neq days 0)) by done. cbn [orb].
    assert (u64 (per_day * days) / days < per_day) as Hlt.
    { apply Z.div_lt_upper_bound; [lia|]. unfold u64. pose proof (Z.mod_pos_bound (per_day * days) (2 ^ 64)). nia. }
    rewrite (proj2 (Z.eqb_neq _ _)) by lia. done.
Qed.
End HtlcFees.

(** ** A sample contract *)

(** The length of the preimage in one byte stands for every hash function. *)
#[local] Instance sample_hash : HtlcHash := fun _ preimage =>
  match Byte.of_nat (length preimage) with Some b => [b] | None => [] end.

Definition sample_htlc : htlc_create_operation :=
  HtlcCreate (Asset 10 CORE) 5 6 (Asset 700 CORE) (hash_sha256, [x03]) 3 1000 None.

(** Contract 0 expired ten seconds ago, contract 1 is live. *)
Definition sample_htlc_db : database :=
  sample_db <| htlcs := table_from
    [HtlcObject 5 6 700 CORE (hash_sha256, [x03]) 3 1799999990 None;
     HtlcObject 6 7 50 1 (hash_sha1, [x02]) 2 1800000500 None] |>.

Lemma htlc_settled_once_witness :
  exists d1 d2 d3, do_apply sample_db sample_htlc tt = Ok (d1, 0)
    /\ do_evaluate d1 (HtlcRedeem (Asset 1 CORE) 0 7 [x61; x62; x63]) = Ok tt
    /\ do_apply d1 (HtlcRedeem (Asset 1 CORE) 0 7 [x61; x62; x63]) tt = Ok (d2, tt)
    /\ clear_expired_htlcs d2 = Some (Ok d3)
    /\ htlc_honoured 0 (HtlcTerms 5 6 (Asset 700 CORE) (hash_sha256, [x03])) d3
    /\ rows (htlcs d3) !! 0 = None
    /\ balance_of d1 5 CORE = balance_of sample_db 5 CORE - 700
    /\ balance_of d2 6 CORE = balance_of d1 6 CORE + 700 /\ balance_of d2 5 CORE = balance_of d1 5 CORE.
Proof.
  destruct htlc_settled_once as (Hc & Hp & Hpay & _).
  eassert (do_apply sample_db sample_htlc tt = Ok (_, 0)) as E1 by (vm_compute; reflexivity).
  match type of E1 with _ = Ok (?d, _) => set (d1 := d) in E1 end.
  eassert (do_apply d1 (HtlcRedeem (Asset 1 CORE) 0 7 [x61; x62; x63]) tt = Ok (_, tt)) as E2
    by (vm_compute; reflexivity).
  match type of E2 with _ = Ok (?d, _) => set (d2 := d) in E2 end.
  eassert (clear_expired_htlcs d2 = Some (Ok _)) as E3 by (vm_compute; reflexivity).
  match type of E3 with _ = Some (Ok ?d) => set (d3 := d) in E3 end.
  assert (do_evaluate d1 (HtlcRedeem (Asset 1 CORE) 0 7 [x61; x62; x63]) = Ok tt) as Ev by (vm_compute; reflexivity).
  pose proof only_fees_refl as Hof.
  exists d1, d2, d3. split; [exact E1|]. split; [exact Ev|]. split; [exact E2|]. split; [exact E3|].
  destruct (Hc sample_db sample_db sample_htlc tt d1 0) as [Hh Hl];
    [by vm_compute | apply Hof | apply sample_db_wf | by vm_compute | exact E1|].
  destruct (Hpay d1 (HtlcRedeem (Asset 1 CORE) 0 7 [x61; x62; x63]) tt d2 tt
              (HtlcObject 5 6 700 CORE (hash_sha256, [x03]) 3 1800001000 None)) as [_ Hd];
    [by vm_compute | exact E2|].
  destruct (Hp 0 (HtlcTerms 5 6 (Asset 700 CORE) (hash_sha256, [x03]))) as (_ & Hr & _ & Hx).
  split_and!.
  - apply (Hx d2); [|exact E3]. refine (Hr d1 d1 _ _ _ _ _ Ev (Hof d1) Hh E2). by vm_compute.
  - by vm_compute.
  - exact (Hl 5 CORE).
  - exact (Hd 6 CORE).
  - exact (eq_trans (Hd 5 CORE) (Z.add_0_r _)).
Defined.

(** Clearing the two sample contracts refunds the expired one. *)
Example clear_expired_sample :
  exists d', clear_expired_htlcs sample_htlc_db = Some (Ok d')
    /\ balance_of d' 5 CORE = balance_of sample_htlc_db 5 CORE + 700.
Proof. eexists. split; vm_compute; reflexivity. Qed.

Lemma htlc_period_fee_exact_witness :
  htlc_extend_calculate_fee 100 7 (HtlcExtend (Asset 0 CORE) 0 5 86401) = Ok 114.
Proof.
  refine (proj2 (proj1 (htlc_period_fee_exact 100 7 0 86401 (HtlcCreate (Asset 0 CORE) 5 6 (Asset 1 CORE)
    (hash_sha1, []) 0 86401 None) (HtlcExtend (Asset 0 CORE) 0 5 86401) (fun _ => 0) _ _ _ _ _ _) _ _));
    try reflexivity; evaluate_goal.
Defined.
