(* ===== verification/Ticket.v ===== *)
(** Tickets: [ticket_object.cpp], [ticket_evaluator.cpp], [protocol/ticket.cpp] and
    [database::process_tickets] of [db_update.cpp]. *)
From S2P Require Import Prelude Records Fc Asset Objects Vesting Database Holdings Sample Fees Evaluator.

(** ** Ticket types and their configuration *)

Definition ticket_number (t : ticket_type) : Z :=
  match t with liquid => 0 | lock_180_days => 1 | lock_360_days => 2 | lock_720_days => 3 | lock_forever => 4 end.

Definition TICKET_TYPE_COUNT : Z := 5.

(** [static_cast<ticket_type>]; other numbers are undefined. *)
Definition ticket_type_of (n : Z) : result ticket_type :=
  if n =? 0 then Ok liquid else if n =? 1 then Ok lock_180_days else if n =? 2 then Ok lock_360_days
  else if n =? 3 then Ok lock_720_days else if n =? 4 then Ok lock_forever
  else Err (thrown "undefined behaviour: invalid enumerator").

Inductive ticket_version := ticket_v1 | ticket_v2.

Definition lock_forever_update_steps : Z := 4.
Definition seconds_per_lock_forever_update_step : Z := 180 * 86400.
Definition seconds_per_charging_step : Z := 15 * 86400.
Definition seconds_to_cancel_charging : Z := 7 * 86400.

(** The array has three elements. *)
Definition seconds_to_downgrade (t : ticket_type) : result Z :=
  match t with
  | liquid => Ok (180 * 86400)
  | lock_180_days => Ok (180 * 86400)
  | lock_360_days => Ok (360 * 86400)
  | _ => Err (thrown "undefined behaviour: array index")
  end.

Definition value_multiplier (t : ticket_type) (version : ticket_version) : Z :=
  match version, t with
  | ticket_v1, liquid => 1
  | ticket_v2, liquid => 0
  | _, lock_180_days => 2
  | _, lock_360_days => 4
  | _, lock_720_days => 8
  | _, lock_forever => 8
  end.

(** [time_point_sec::maximum()] *)
Definition time_maximum : time_point_sec := 2 ^ 32 - 1.

Section TicketObject.
Context `{SafeInt64}.

Definition update_value (version : ticket_version) (t : ticket_object) : result ticket_object :=
  if negb (ticket_number (tk_current_type t) =? ticket_number lock_forever) then
    let! v := safe_mul (amount (tk_amount t)) (value_multiplier (tk_current_type t) version) in
    Ok (t <| tk_value := v |>)
  else Ok t.

Definition init_new (now : time_point_sec) (new_account : account_id_type) (new_target_type : ticket_type)
    (new_amount : asset) (version : ticket_version) : result ticket_object :=
  update_value version
    (TicketObject new_account new_target_type new_amount liquid charging 0
       (tps_add now seconds_per_charging_step) time_maximum).

(** [static_cast<ticket_type>( static_cast<uint8_t>( t ) - 1 )] *)
Definition type_below (t : ticket_type) : result ticket_type := ticket_type_of (ticket_number t - 1).
Definition type_above (t : ticket_type) : result ticket_type := ticket_type_of (ticket_number t + 1).

Definition update_target_type (now : time_point_sec) (new_target_type : ticket_type)
    (version : ticket_version) (t : ticket_object) : result ticket_object :=
  let! t :=
    if ticket_number (tk_current_type t) <? ticket_number new_target_type then
      if negb (bool_decide (tk_status t = charging)) then
        Ok (t <| tk_status := charging |>
              <| tk_next_auto_update_time := tps_add now seconds_per_charging_step |>)
      else Ok t
    else
      let t := t <| tk_status := withdrawing |> in
      let! t :=
        if tk_next_type_downgrade_time t =? time_maximum then
          if ticket_number (tk_current_type t) =? ticket_number new_target_type then
            Ok (t <| tk_next_type_downgrade_time := tps_add now seconds_to_cancel_charging |>)
          else
            let! c := type_below (tk_current_type t) in
            let! s := seconds_to_downgrade c in
            Ok (t <| tk_current_type := c |> <| tk_next_type_downgrade_time := tps_add now s |>)
        else Ok t in
      Ok (t <| tk_next_auto_update_time := tk_next_type_downgrade_time t |>) in
  update_value version (t <| tk_target_type := new_target_type |>).

Definition init_split (now : time_point_sec) (old_ticket : ticket_object) (new_target_type : ticket_type)
    (new_amount : asset) (version : ticket_version) : result ticket_object :=
  update_target_type now new_target_type version
    (TicketObject (tk_account old_ticket) (tk_target_type old_ticket) new_amount
       (tk_current_type old_ticket) (tk_status old_ticket) 0
       (tk_next_auto_update_time old_ticket) (tk_next_type_downgrade_time old_ticket)).

Definition adjust_amount (delta_amount : asset) (version : ticket_version) (t : ticket_object)
    : result ticket_object :=
  let! a := asset_add (tk_amount t) delta_amount in
  update_value version (t <| tk_amount := a |>).

Definition auto_update (version : ticket_version) (t : ticket_object) : result ticket_object :=
  let! t :=
    if bool_decide (tk_status t = charging) then
      let! c := type_above (tk_current_type t) in
      let t := t <| tk_current_type := c |> <| tk_next_type_downgrade_time := time_maximum |> in
      if ticket_number c <? ticket_number (tk_target_type t) then
        Ok (t <| tk_next_auto_update_time ::= fun x => tps_add x seconds_per_charging_step |>)
      else if negb (ticket_number c =? ticket_number lock_forever) then
        Ok (t <| tk_status := stable |> <| tk_next_auto_update_time := time_maximum |>)
      else
        let! v := safe_mul (amount (tk_amount t)) (value_multiplier c version) in
        Ok (t <| tk_status := withdrawing |>
              <| tk_next_auto_update_time ::= fun x => tps_add x seconds_per_lock_forever_update_step |>
              <| tk_value := v |>)
    else if ticket_number (tk_current_type t) =? ticket_number lock_forever then
      let! v := safe_mul (amount (tk_amount t)) (value_multiplier (tk_current_type t) version) in
      let! delta := safe_div v lock_forever_update_steps in
      let delta_value := if delta <=? 0 then 1 else delta in
      if tk_value t <=? delta_value then
        Ok (t <| tk_value := 0 |> <| tk_status := stable |> <| tk_next_auto_update_time := time_maximum |>)
      else
        let! v := safe_sub (tk_value t) delta_value in
        Ok (t <| tk_value := v |>
              <| tk_next_auto_update_time ::= fun x => tps_add x seconds_per_lock_forever_update_step |>)
    else if ticket_number (tk_current_type t) =? ticket_number (tk_target_type t) then
      Ok (t <| tk_status := stable |> <| tk_next_type_downgrade_time := time_maximum |>
            <| tk_next_auto_update_time := time_maximum |>)
    else
      let! c := type_below (tk_current_type t) in
      let! s := seconds_to_downgrade c in
      let t := t <| tk_current_type := c |>
                 <| tk_next_type_downgrade_time ::= fun x => tps_add x s |> in
      Ok (t <| tk_next_auto_update_time := tk_next_type_downgrade_time t |>) in
  update_value version t.
End TicketObject.

(** ** Operations *)

Record ticket_create_operation := TicketCreate {
  tkc_fee : asset;
  tkc_account : account_id_type;
  tkc_target_type : Z;
  tkc_amount : asset;
}.

Record ticket_update_operation := TicketUpdate {
  tku_fee : asset;
  tku_ticket : Z;
  tku_account : account_id_type;
  tku_target_type : Z;
  tku_amount_for_new_target : option asset;
}.

Definition ticket_create_validate (op : ticket_create_operation) : result unit :=
  assert! 0 <=? amount (tkc_fee op) @ "Fee should not be negative" in
  assert! negb (tkc_target_type op =? ticket_number liquid) @ "Target type can not be liquid" in
  assert! tkc_target_type op <? TICKET_TYPE_COUNT @ "Invalid target type" in
  assert! 0 <? amount (tkc_amount op) @ "A positive amount is needed for creating a ticket" in
  assert! asset_id (tkc_amount op) =? CORE @ "Amount must be in BTS so far" in
  Ok tt.

Definition ticket_update_validate (op : ticket_update_operation) : result unit :=
  assert! 0 <=? amount (tku_fee op) @ "Fee should not be negative" in
  assert! tku_target_type op <? TICKET_TYPE_COUNT @ "Invalid target type" in
  match tku_amount_for_new_target op with
  | Some x =>
      assert! 0 <? amount x @ "A positive amount is needed" in
      assert! asset_id x =? CORE @ "Amount must be in BTS so far" in
      Ok tt
  | None => Ok tt
  end.

Definition ticket_create_do_evaluate (d : database) (op : ticket_create_operation) : result unit :=
  assert! HARDFORK_CORE_2103_PASSED (head_block_time d) @ "Not allowed until hardfork 2103" in
  Ok tt.

Definition version_of (d : database) : ticket_version :=
  if HARDFORK_CORE_2262_PASSED (next_maintenance_time d) then ticket_v2 else ticket_v1.

Definition get_ticket (d : database) (id : Z) : result ticket_object :=
  of_option "ticket" (tfind (tickets d) id).

Section Tickets.
Context `{SafeInt64}.

Definition set_stats (d : database) (o : account_id_type) (s : account_statistics_object) : database :=
  d <| account_stats ::= <[o := s]> |>.

Definition ticket_create_do_apply (d : database) (op : ticket_create_operation) (ctx : unit)
    : result (database * Z) :=
  let version := version_of d in
  let! minus := asset_neg (tkc_amount op) in
  let! d := adjust_balance d (tkc_account op) minus in
  let! target := ticket_type_of (tkc_target_type op) in
  let! t := init_new (head_block_time d) (tkc_account op) target (tkc_amount op) version in
  let id := next_id (tickets d) in
  let d := d <| tickets := tcreate (tickets d) t |> in
  let! aso := get_stats d (tkc_account op) in
  let! pol := safe_add (st_total_core_pol aso) (amount (tkc_amount op)) in
  let! value := safe_add (st_total_pol_value aso) (tk_value t) in
  Ok (set_stats d (tkc_account op) (aso <| st_total_core_pol := pol |> <| st_total_pol_value := value |>), id).

Definition ticket_update_do_evaluate (d : database) (op : ticket_update_operation) : result unit :=
  let! t := get_ticket d (tku_ticket op) in
  assert! tk_account t =? tku_account op @ "Ticket is not owned by the account" in
  assert! negb (ticket_number (tk_current_type t) =? ticket_number lock_forever)
    @ "Can not to update a ticket that is locked forever" in
  assert! negb (ticket_number (tk_target_type t) =? tku_target_type op) @ "Target type does not change" in
  match tku_amount_for_new_target op with
  | Some x => let! ok := asset_le x (tk_amount t) in
              assert! ok @ "Insufficient amount in ticket to be updated" in Ok tt
  | None => Ok tt
  end.

(** *** [database::process_tickets] *)

(** The changes to the statistics of the owner when a ticket is updated automatically
    from [old] to [t], and those to the global totals. *)
Definition auto_update_stats (old t : ticket_object) (aso : account_statistics_object)
    : result (account_statistics_object * Z * Z) :=
  let n := amount (tk_amount t) in
  let! (inactive_amount, forever_amount, forever_value, other_amount, other_value) :=
    if ticket_number (tk_current_type old) =? ticket_number lock_forever then
      let! dv := safe_sub (tk_value t) (tk_value old) in
      if tk_value t =? 0 then let! m := safe_neg n in Ok (n, m, dv, 0, 0)
      else Ok (0, 0, dv, 0, 0)
    else if ticket_number (tk_current_type t) =? ticket_number lock_forever then
      let! m := safe_neg n in
      let! mv := safe_neg (tk_value old) in
      Ok (0, n, tk_value t, m, mv)
    else
      let! dv := safe_sub (tk_value t) (tk_value old) in Ok (0, 0, 0, 0, dv) in
  let! inactive := safe_add (st_total_core_inactive aso) inactive_amount in
  let! pob := safe_add (st_total_core_pob aso) forever_amount in
  let! pol := safe_add (st_total_core_pol aso) other_amount in
  let! pob_value := safe_add (st_total_pob_value aso) forever_value in
  let! pol_value := safe_add (st_total_pol_value aso) other_value in
  Ok (aso <| st_total_core_inactive := inactive |> <| st_total_core_pob := pob |>
          <| st_total_core_pol := pol |> <| st_total_pob_value := pob_value |>
          <| st_total_pol_value := pol_value |>, forever_amount, inactive_amount).

(** What the loop accumulates. *)
Record ticket_progress := TicketProgress {
  tp_result : generic_operation_result;
  tp_delta_pob : share_type;
  tp_delta_inactive : share_type;
}.

(** One round of the loop. *)
Definition process_ticket (d : database) (acc : ticket_progress) (id : Z) (t : ticket_object)
    : result (database * ticket_progress) :=
  if bool_decide (tk_status t = withdrawing) && (ticket_number (tk_current_type t) =? ticket_number liquid) then
    let! _ := get_stats d (tk_account t) in
    let! d := adjust_balance d (tk_account t) (tk_amount t) in
    let! aso := get_stats d (tk_account t) in
    let! pol := safe_sub (st_total_core_pol aso) (amount (tk_amount t)) in
    let! value := safe_sub (st_total_pol_value aso) (tk_value t) in
    let d := set_stats d (tk_account t) (aso <| st_total_core_pol := pol |> <| st_total_pol_value := value |>) in
    let r := tp_result acc in
    Ok (d <| tickets := tremove (tickets d) id |>,
        TicketProgress (r <| removed_objects := removed_objects r ∪ {[ticket_ref id]} |>)
          (tp_delta_pob acc) (tp_delta_inactive acc))
  else
    let! aso := get_stats d (tk_account t) in
    let! t' := auto_update (version_of d) t in
    let d := d <| tickets := tmodify (tickets d) id t' |> in
    let r := tp_result acc in
    let! (aso, pob, inactive) := auto_update_stats t t' aso in
    let! delta_pob := safe_add (tp_delta_pob acc) pob in
    let! delta_inactive := safe_add (tp_delta_inactive acc) inactive in
    Ok (set_stats d (tk_account t) aso,
        TicketProgress (r <| updated_objects := updated_objects r ∪ {[ticket_ref id]} |>)
          delta_pob delta_inactive).

(** The loop over the tickets that are due; [None] when the fuel is used up. *)
Fixpoint process_tickets_loop (fuel : nat) (d : database) (acc : ticket_progress)
    : option (result (database * ticket_progress)) :=
  match tfirst_due tk_next_auto_update_time (head_block_time d) (tickets d) with
  | None => Some (Ok (d, acc))
  | Some (id, t) =>
      match fuel with
      | O => None
      | S fuel' =>
          match process_ticket d acc id t with
          | Ok (d', acc') => process_tickets_loop fuel' d' acc'
          | Err e => Some (Err e)
          end
      end
  end.

(** The rounds a ticket can take: charging up to [lock_forever] and losing its value
    in four steps. *)
Definition rounds_per_ticket : nat := 8.

Definition process_tickets (d : database) : option (result (database * generic_operation_result)) :=
  match process_tickets_loop (rounds_per_ticket * size (rows (tickets d))) d
          (TicketProgress (GenericResult ∅ ∅ ∅) 0 0) with
  | None => None
  | Some r => Some (
      let! (d, acc) := r in
      if negb (tp_delta_pob acc =? 0) || negb (tp_delta_inactive acc =? 0) then
        let! pob := safe_add (total_pob d) (tp_delta_pob acc) in
        let! inactive := safe_add (total_inactive d) (tp_delta_inactive acc) in
        Ok (d <| total_pob := pob |> <| total_inactive := inactive |>, tp_result acc)
      else Ok (d, tp_result acc))
  end.

(** Running out of fuel would be a loop that does not end. *)
Definition process_tickets_now (d : database) : result (database * generic_operation_result) :=
  match process_tickets d with Some r => r | None => Err (thrown "out of fuel") end.

(** *** [ticket_update] *)

(** The change to the ticket (or its splitting), without the statistics: the new
    database, the new object if any and the change of the total value. *)
Definition retarget_ticket (d : database) (op : ticket_update_operation) (t : ticket_object)
    (target : ticket_type) : result (database * gset object_ref * share_type) :=
  let now := head_block_time d in
  let version := version_of d in
  let! split := match tku_amount_for_new_target op with
                | Some x => asset_lt x (tk_amount t)
                | None => Ok false
                end in
  match tku_amount_for_new_target op, split with
  | Some x, true =>
      let id := next_id (tickets d) in
      let! new := init_split now t target x version in
      let d := d <| tickets := tcreate (tickets d) new |> in
      let! minus := asset_neg x in
      let! t' := adjust_amount minus version t in
      let d := d <| tickets := tmodify (tickets d) (tku_ticket op) t' |> in
      let! v := safe_add (tk_value new) (tk_value t') in
      let! delta := safe_sub v (tk_value t) in
      Ok (d, {[ticket_ref id]}, delta)
  | _, _ =>
      let! t' := update_target_type now target version t in
      let d := d <| tickets := tmodify (tickets d) (tku_ticket op) t' |> in
      let! delta := safe_sub (tk_value t') (tk_value t) in
      Ok (d, ∅, delta)
  end.

Definition ticket_update_do_apply (d : database) (op : ticket_update_operation) (ctx : unit)
    : result (database * generic_operation_result) :=
  let! t := get_ticket d (tku_ticket op) in
  let! target := ticket_type_of (tku_target_type op) in
  let! (d, new, delta_value) := retarget_ticket d op t target in
  let! d :=
    if negb (delta_value =? 0) then
      let! aso := get_stats d (tku_account op) in
      let! v := safe_add (st_total_pol_value aso) delta_value in
      Ok (set_stats d (tku_account op) (aso <| st_total_pol_value := v |>))
    else Ok d in
  let! (d, process_result) := process_tickets_now d in
  let removed := removed_objects process_result in
  let updated := (({[ticket_ref (tku_ticket op)]} ∪ updated_objects process_result) ∖ new) ∖ removed in
  Ok (d, GenericResult new updated removed).

#[export] Instance ticket_create_evaluator : Evaluator ticket_create_operation unit Z := {
  fee_payer := tkc_account;
  op_fee := tkc_fee;
  validate := ticket_create_validate;
  do_evaluate := ticket_create_do_evaluate;
  do_apply := ticket_create_do_apply;
}.

#[export] Instance ticket_update_evaluator : Evaluator ticket_update_operation unit generic_operation_result := {
  fee_payer := tku_account;
  op_fee := tku_fee;
  validate := ticket_update_validate;
  do_evaluate := ticket_update_do_evaluate;
  do_apply := ticket_update_do_apply;
}.
End Tickets.

(** ** Conservation *)

Section TicketLaws.
Context `{SafeInt64Laws}.

Lemma update_value_kept version t t' : update_value version t = Ok t' ->
  exists v, t' = t <| tk_value := v |> /\ (tk_current_type t = lock_forever -> v = tk_value t)
    /\ (tk_current_type t <> lock_forever -> v = amount (tk_amount t) * value_multiplier (tk_current_type t) version).
Proof.
  unfold update_value. intros E. destruct t as [ac tt am ct st v na nd]. cbn in *.
  destruct ct; cbn in E; mon; safe_ints; subst; eexists; (split; [done|]; split; [done|]; cbn; done || (intros; lia)).
Qed.

(** The fields no update touches. *)
Definition same_deposit (t t' : ticket_object) : Prop :=
  tk_account t' = tk_account t /\ tk_amount t' = tk_amount t.

Lemma update_target_type_deposit now target version t t' :
  update_target_type now target version t = Ok t' -> same_deposit t t'.
Proof.
  unfold update_target_type. intros E. mon.
  match goal with E : update_value _ _ = Ok _ |- _ => apply update_value_kept in E as (v & -> & _) end.
  unfold same_deposit. cbn.
  repeat first [progress mon | case_match; try done | match goal with E : context [if _ then _ else _] |- _ => case_match end];
    cbn; done.
Qed.

Lemma auto_update_deposit version t t' : auto_update version t = Ok t' -> same_deposit t t'.
Proof.
  unfold auto_update. intros E. mon.
  match goal with E : update_value _ _ = Ok _ |- _ => apply update_value_kept in E as (v & -> & _) end.
  unfold same_deposit. cbn.
  repeat first [progress mon | match goal with E : context [if _ then _ else _] |- _ => case_match end];
    cbn; done.
Qed.

(** Statistics that differ in the ticket totals only. *)
Definition same_pending (s s' : account_statistics_object) : Prop :=
  st_pending_fees s' = st_pending_fees s /\ st_pending_vested_fees s' = st_pending_vested_fees s.

Lemma set_stats_conserves d o s s' : db_wf d -> account_stats d !! o = Some s -> same_pending s s' ->
  conserves d (set_stats d o s') /\ db_wf (set_stats d o s').
Proof.
  intros Hwf Ho [E1 E2]. split; [|destruct Hwf; wf]. intros a. unfold excess, holdings, supply, set_stats. cbn.
  rewrite (pend_sum_insert _ _ _ _ _ Ho). lia.
Qed.

Lemma auto_update_stats_pending old t aso aso' pob inactive :
  auto_update_stats old t aso = Ok (aso', pob, inactive) -> same_pending aso aso'.
Proof.
  unfold auto_update_stats. intros E. mon. destruct r as [[[[a b] c] e] f]. mon. by split.
Qed.

Lemma tickets_modify_conserves d id t t' : db_wf d -> rows (tickets d) !! id = Some t -> same_deposit t t' ->
  conserves d (d <| tickets := tmodify (tickets d) id t' |>) /\ db_wf (d <| tickets := tmodify (tickets d) id t' |>).
Proof.
  intros Hwf Hid [_ Eb]. split; [|destruct Hwf; wf]. intros a. unfold excess, holdings, supply. cbn. unfold ticket_sum.
  rewrite (tsum_modify _ _ _ _ _ Hid), Eb. lia.
Qed.

Lemma process_ticket_conserves d acc id t d' acc' :
  process_ticket d acc id t = Ok (d', acc') -> rows (tickets d) !! id = Some t -> db_wf d ->
  conserves d d' /\ db_wf d'.
Proof.
  unfold process_ticket, get_stats. intros E Hid Hwf. destruct (_ && _); mon.
  - adjust_steps. same_rows. safe_ints. subst. unfold set_stats. split; [|destruct Hwf; wf].
    intros a. unfold excess, holdings, supply. cbn. erewrite pend_sum_insert by eassumption. cbn.
    specialize (Em a). unfold ticket_sum in *. rewrite (tsum_remove _ _ _ _ Hid). lia.
  - repeat match goal with p : (_ * _)%type |- _ => destruct p end. mon.
    match goal with E : auto_update _ _ = Ok _ |- _ => apply auto_update_deposit in E as [Ea Eb] end.
    match goal with E : auto_update_stats _ _ _ = Ok _ |- _ => apply auto_update_stats_pending in E end.
    match goal with E : same_pending ?x ?y |- _ =>
      destruct (tickets_modify_conserves d id t r0 Hwf Hid) as [Hc Hw]; [by split|];
      destruct (set_stats_conserves _ (tk_account t) x y Hw) as [Hc' Hw']; [cbn; congruence | exact E |] end.
    split; [by etrans | exact Hw'].
Qed.

Lemma process_loop_conserves fuel : forall d acc d' acc',
  process_tickets_loop fuel d acc = Some (Ok (d', acc')) -> db_wf d -> conserves d d' /\ db_wf d'.
Proof.
  induction fuel as [|fuel IH]; cbn; intros d acc d' acc' E Hwf;
    destruct (tfirst_due _ _ _) as [[id t]|] eqn:Ef; try done; try (by injection E as <- <-).
  destruct (process_ticket d acc id t) as [[d1 acc1]|] eqn:E1; [|done].
  apply tfirst_due_Some in Ef as [Hid _].
  apply process_ticket_conserves in E1 as [Hc Hw]; [|done..].
  apply IH in E as [Hc' Hw']; [|done]. split; [by etrans | done].
Qed.

Lemma process_tickets_conserves d d' r : process_tickets_now d = Ok (d', r) -> db_wf d ->
  conserves d d' /\ db_wf d'.
Proof.
  unfold process_tickets_now, process_tickets. intros E Hwf.
  destruct (process_tickets_loop _ _ _) as [[[d1 acc]|]|] eqn:El; cbn in E; try done.
  apply process_loop_conserves in El as [Hc Hw]; [|done].
  destruct (_ || _); mon; [|done]. split; [|destruct Hw; wf].
  etrans; [exact Hc|]. intros a. unfold excess, holdings, supply. cbn. lia.
Qed.

#[export] Instance ticket_create_laws : EvaluatorLaws ticket_create_operation unit Z.
Proof.
  split. cbn. unfold ticket_create_do_apply, get_stats, init_new. intros d0 d op ctx d' r _ _ _ Hwf E. mon. asset_ints.
  match goal with E : update_value _ _ = Ok _ |- _ => apply update_value_kept in E as (v & -> & _) end.
  adjust_steps. unfold set_stats. split; [|destruct Hwf; wf].
  intros a. unfold excess, holdings, supply. cbn. erewrite pend_sum_insert by eassumption. cbn.
  specialize (Em a). unfold ticket_sum in *. rewrite tsum_create by (destruct Hwf; done).
  unfold asset_in in *. cbn in *. lia.
Qed.

Lemma retarget_conserves d op t target d' new delta :
  retarget_ticket d op t target = Ok (d', new, delta) -> rows (tickets d) !! tku_ticket op = Some t ->
  (forall x, tku_amount_for_new_target op = Some x -> asset_id x = asset_id (tk_amount t)) -> db_wf d ->
  conserves d d' /\ db_wf d' /\ account_stats d' = account_stats d.
Proof.
  unfold retarget_ticket. intros E Hid Hx Hwf. mon.
  destruct (tku_amount_for_new_target op) as [x|] eqn:Eo; [destruct r|]; mon.
  2,3: match goal with E : update_target_type _ _ _ _ = Ok _ |- _ => apply update_target_type_deposit in E as [Ea Eb] end;
    (split; [|split; [destruct Hwf; wf | done]]; intros a; unfold excess, holdings, supply; cbn; unfold ticket_sum;
     rewrite (tsum_modify _ _ _ _ _ Hid), Eb; lia).
  asset_ints. unfold init_split, adjust_amount in *. mon. asset_ints.
  match goal with E : update_target_type _ _ _ _ = Ok _ |- _ => apply update_target_type_deposit in E as [Ea Eb] end.
  match goal with E : update_value _ _ = Ok _ |- _ => apply update_value_kept in E as (v & -> & _) end.
  assert (tku_ticket op <> next_id (tickets d)) as Hne.
  { pose proof (table_fresh (tickets d) (wf_tickets _ Hwf)). congruence. }
  split; [|split; [|done]].
  - intros a. unfold excess, holdings, supply. cbn. unfold ticket_sum.
    erewrite tsum_modify by (rewrite lookup_tcreate_ne; eassumption).
    rewrite tsum_create by apply Hwf. rewrite Eb. unfold asset_in. cbn. rewrite (Hx x eq_refl). lia.
  - destruct Hwf; split; cbn; eauto 3 with dfs. apply (tmodify_wf _ _ _ t); [by rewrite lookup_tcreate_ne|].
    by apply tcreate_wf.
Qed.

(** The change of the owner's total value and the processing that follows. *)
Lemma value_and_process_conserves d o delta d1 d' r : db_wf d ->
  (if negb (delta =? 0) then
     let! aso := get_stats d o in
     let! v := safe_add (st_total_pol_value aso) delta in
     Ok (set_stats d o (aso <| st_total_pol_value := v |>))
   else Ok d) = Ok d1 ->
  process_tickets_now d1 = Ok (d', r) -> conserves d d' /\ db_wf d'.
Proof.
  unfold get_stats. intros Hwf E1 E2.
  enough (conserves d d1 /\ db_wf d1) as [Hc Hw].
  { apply process_tickets_conserves in E2 as [Hc' Hw']; [|done]. split; [by etrans | done]. }
  destruct (negb _); mon; [|done]. eapply set_stats_conserves; [done | eassumption | done].
Qed.

#[export] Instance ticket_update_laws :
  EvaluatorLaws ticket_update_operation unit generic_operation_result.
Proof.
  split. cbn -[get_stats]. unfold ticket_update_do_apply, ticket_update_do_evaluate, ticket_update_validate, get_ticket, tfind.
  intros d0 d op ctx d' r Hv Hev Ho Hwf E.
  assert (tickets d0 = tickets d) as Et by (by destruct Ho as (? & ? & -> & _)). rewrite Et in Hev. clear Ho Et.
  mon. repeat match goal with p : (_ * _)%type |- _ => destruct p end. mon.
  repeat match goal with p : (_ * _)%type |- _ => destruct p end. mon. same_rows.
  match goal with E : retarget_ticket _ _ _ _ = Ok _ |- _ =>
    eapply retarget_conserves in E as (Hc1 & Hw1 & _); [| eassumption | | done] end.
  2:{ intros x Ex. rewrite Ex in *. mon. asset_ints. congruence. }
  match goal with E1 : (if _ then _ else _) = Ok ?d1, E2 : process_tickets_now ?d1 = Ok _ |- _ =>
    destruct (value_and_process_conserves _ _ _ _ _ _ Hw1 E1 E2) as [Hc2 Hw2] end.
  split; [by etrans | done].
Qed.
End TicketLaws.

(** ** What the tickets of an account add up to *)

(** The statistics an account keeps of its tickets: the amounts and values that are
    locked (proof of loyalty), locked forever (proof of belief), and the amounts
    locked forever whose value is used up. *)
Inductive stat := pol_amount | pol_value | pob_amount | pob_value | inactive_amount.

Definition stat_of (k : stat) (s : account_statistics_object) : Z :=
  match k with
  | pol_amount => st_total_core_pol s
  | pol_value => st_total_pol_value s
  | pob_amount => st_total_core_pob s
  | pob_value => st_total_pob_value s
  | inactive_amount => st_total_core_inactive s
  end.

Definition is_forever (t : ticket_object) : bool := ticket_number (tk_current_type t) =? ticket_number lock_forever.

Definition contribution (k : stat) (t : ticket_object) : Z :=
  match k, is_forever t with
  | pol_amount, false => amount (tk_amount t)
  | pol_value, false => tk_value t
  | pob_amount, true => if tk_value t =? 0 then 0 else amount (tk_amount t)
  | pob_value, true => tk_value t
  | inactive_amount, true => if tk_value t =? 0 then amount (tk_amount t) else 0
  | _, _ => 0
  end.

(** The same for the accounts in [p]: one of them, or all. *)
Definition counted (p : account_id_type -> bool) (k : stat) (t : ticket_object) : Z :=
  if p (tk_account t) then contribution k t else 0.

Definition everyone : account_id_type -> bool := fun _ => true.

(** The life of a ticket: it charges towards a higher target, is stable and not due
    any more, or withdraws: towards a lower target, or its value when locked forever. *)
Definition ticket_ok (t : ticket_object) : Prop :=
  0 < amount (tk_amount t)
  /\ match tk_status t with
     | charging => ticket_number (tk_current_type t) < ticket_number (tk_target_type t)
     | stable => tk_next_auto_update_time t = time_maximum
     | withdrawing =>
         if is_forever t then 0 < tk_value t <= 8 * amount (tk_amount t)
         else ticket_number (tk_target_type t) <= ticket_number (tk_current_type t)
     end.

(** The automatic updates a ticket still has to go through, its removal included. *)
Definition rounds_left (t : ticket_object) : Z :=
  match tk_status t with
  | charging => ticket_number (tk_target_type t) - ticket_number (tk_current_type t)
                + (if ticket_number (tk_target_type t) =? ticket_number lock_forever then 4 else 0)
  | stable => 0
  | withdrawing =>
      if is_forever t then ceil_div (tk_value t) (2 * amount (tk_amount t))
      else ticket_number (tk_current_type t) - ticket_number (tk_target_type t) + 1
  end.

Record tickets_accounted (d : database) (delta_pob delta_inactive : Z) : Prop := {
  ta_wf : table_wf (tickets d);
  ta_ok : tall ticket_ok (tickets d);
  ta_time : head_block_time d < time_maximum;
  ta_stats : forall o s k, account_stats d !! o = Some s -> stat_of k s = tsum (fun _ => counted (Z.eqb o) k) (tickets d);
  ta_pob : total_pob d + delta_pob = tsum (fun _ => counted everyone pob_amount) (tickets d);
  ta_inactive : total_inactive d + delta_inactive = tsum (fun _ => counted everyone inactive_amount) (tickets d);
}.

Section Accounting.
Context `{SafeInt64Laws}.

Lemma quot_8_4 n : Z.quot (n * 8) 4 = 2 * n.
Proof. replace (n * 8) with (2 * n * 4) by lia. by rewrite Z.quot_mul. Qed.

Lemma rounds_left_bounds t : ticket_ok t -> 0 <= rounds_left t <= Z.of_nat rounds_per_ticket
  /\ (tk_status t <> stable -> 0 < rounds_left t).
Proof.
  unfold ticket_ok, rounds_left, is_forever. intros [Hn Hs].
  assert (forall c, 0 <= ticket_number c <= 4) as Hb by (intros []; cbn; lia).
  pose proof (Hb (tk_current_type t)). pose proof (Hb (tk_target_type t)).
  change (Z.of_nat rounds_per_ticket) with 8. change (ticket_number lock_forever) with 4 in *.
  destruct (tk_status t); [destruct (_ =? 4); lia | done |].
  destruct (_ =? 4); [|lia]. pose proof (ceil_div_pos (tk_value t) (2 * amount (tk_amount t))).
  pose proof (ceil_div_least (tk_value t) (2 * amount (tk_amount t)) 4). lia.
Qed.

(** The value of a ticket locked forever is used up in steps of a fourth. *)
Lemma value_step n v : 0 < n -> 0 < v -> 2 * n < v -> ceil_div (v - 2 * n) (2 * n) < ceil_div v (2 * n).
Proof.
  intros Hn Hv Hlt. unfold ceil_div. replace (v - 2 * n + 2 * n - 1) with (v + 2 * n - 1 + (-1) * (2 * n)) by lia.
  rewrite Z.div_add by lia. lia.
Qed.

Lemma type_above_ok c c' : type_above c = Ok c' -> ticket_number c' = ticket_number c + 1.
Proof. destruct c; intros E; cbv in E; by simplify_eq. Qed.

Lemma type_below_ok c c' : type_below c = Ok c' -> ticket_number c' = ticket_number c - 1.
Proof. destruct c; intros E; cbv in E; by simplify_eq. Qed.

Lemma ticket_number_bounds c : 0 <= ticket_number c <= 4.
Proof. destruct c; cbn; lia. Qed.

Lemma ticket_number_forever c : ticket_number c = 4 -> c = lock_forever.
Proof. by destruct c. Qed.

Lemma ticket_type_of_ok n c : ticket_type_of n = Ok c -> ticket_number c = n.
Proof. unfold ticket_type_of. intros E. repeat case_match; mon; done. Qed.

(** One automatic update of a ticket that is not stable. *)
Lemma auto_update_round version t t' : auto_update version t = Ok t' -> ticket_ok t -> tk_status t <> stable ->
  ticket_ok t' /\ rounds_left t' < rounds_left t
  /\ (is_forever t = true -> is_forever t' = true /\ 0 < tk_value t)
  /\ (is_forever t = false -> is_forever t' = true -> 0 < tk_value t').
Proof.
  intros E Hok Hst. pose proof (rounds_left_bounds t Hok) as [_ Hr]. specialize (Hr Hst).
  destruct Hok as [Hn Hs], t as [ac tg [am ai] ct st va na nd]. unfold auto_update in E. cbn in *. mon.
  match goal with E : update_value _ _ = Ok _ |- _ => apply update_value_kept in E as (v & -> & Hv & _) end.
  unfold ticket_ok, rounds_left, is_forever in *. change (ticket_number lock_forever) with 4 in *.
  pose proof (ticket_number_bounds tg). pose proof (ticket_number_bounds ct). cbn in *.
  destruct st; [change (bool_decide (charging = charging)) with true in * | done
    | change (bool_decide (withdrawing = charging)) with false in * ]; cbn iota in *.
  - mon. match goal with E : type_above _ = Ok _ |- _ => apply type_above_ok in E end.
    repeat case_match; mon; cbn in *; reflect_bools; try (split_and!; intros; reflect_bools; (done || lia)).
    assert (r0 = lock_forever) as -> by (by apply ticket_number_forever). cbn in *. rewrite Hv by done.
    replace (value_multiplier lock_forever version) with 8 in * by (by destruct version). safe_ints. subst.
    pose proof (ceil_div_least (am * 8) (2 * am) 4). split_and!; intros; reflect_bools; (done || lia).
  - destruct (ticket_number ct =? 4) eqn:Ef; mon.
    + apply ticket_number_forever in Ef as ->. cbn in *. unfold lock_forever_update_steps in *.
      replace (value_multiplier lock_forever version) with 8 in * by (by destruct version).
      safe_ints. subst. rewrite quot_8_4 in *. rewrite (proj2 (Z.leb_gt (2 * am) 0)) in * by lia.
      destruct (va <=? 2 * am) eqn:Ev; mon; cbn in *; rewrite Hv by done; [split_and!; (done || lia)|].
      safe_ints. subst. pose proof (value_step am va). split_and!; (done || lia).
    + destruct (ticket_number ct =? ticket_number tg) eqn:Ee; mon; cbn in *; [split_and!; (done || lia)|].
      match goal with E : type_below _ = Ok _ |- _ => apply type_below_ok in E end.
      rewrite (proj2 (Z.eqb_neq (ticket_number r0) 4)) by lia. split_and!; (done || lia).
Qed.

(** *** The statistics of the owner *)

Lemma auto_update_stats_exact t t' aso aso' pob inactive :
  auto_update_stats t t' aso = Ok (aso', pob, inactive) -> same_deposit t t' ->
  (is_forever t = true -> is_forever t' = true /\ 0 < tk_value t) ->
  (is_forever t = false -> is_forever t' = true -> 0 < tk_value t') ->
  (forall k, stat_of k aso' = stat_of k aso + (contribution k t' - contribution k t))
  /\ pob = contribution pob_amount t' - contribution pob_amount t
  /\ inactive = contribution inactive_amount t' - contribution inactive_amount t.
Proof.
  unfold auto_update_stats, same_deposit. fold (is_forever t) (is_forever t'). intros E [_ Ea] Hf Hn. mon.
  destruct r as [[[[ia fa] fv] oa] ov]. mon. safe_ints. subst.
  unfold contribution in *. rewrite Ea in *.
  destruct (is_forever t); [destruct Hf as [-> Hf]; [done|] | destruct (is_forever t'); [specialize (Hn eq_refl eq_refl)|]];
    repeat case_match; mon; safe_ints; subst; split_and!; try intros []; cbn; lia.
Qed.

(** One change to the tickets of an owner and to its statistics. *)
Lemma accounted_step d d' o p p' i i' (delta : stat -> Z) :
  tickets_accounted d p i -> head_block_time d' = head_block_time d ->
  table_wf (tickets d') -> tall ticket_ok (tickets d') ->
  (forall o' s', account_stats d' !! o' = Some s' -> exists s, account_stats d !! o' = Some s
     /\ forall k, stat_of k s' = stat_of k s + (if o' =? o then delta k else 0)) ->
  (forall q k, tsum (fun _ => counted q k) (tickets d')
     = tsum (fun _ => counted q k) (tickets d) + (if q o then delta k else 0)) ->
  total_pob d' + p' = total_pob d + p + delta pob_amount ->
  total_inactive d' + i' = total_inactive d + i + delta inactive_amount ->
  tickets_accounted d' p' i'.
Proof.
  intros [Hwf Hok Ht Hs Hp Hi] Et Hwf' Hok' Hd Hsum Ep Ei. split; [done | done | by rewrite Et | | |].
  - intros o' s' k Hx. destruct (Hd _ _ Hx) as (s & Hs' & Ek). rewrite Ek, Hsum. by rewrite (Hs _ _ _ Hs').
  - by rewrite Ep, Hp, Hsum.
  - by rewrite Ei, Hi, Hsum.
Qed.

Lemma stats_insert (m : gmap account_id_type account_statistics_object) o s s' (delta : stat -> Z) :
  m !! o = Some s -> (forall k, stat_of k s' = stat_of k s + delta k) ->
  forall o' x', <[o := s']> m !! o' = Some x' -> exists x, m !! o' = Some x
    /\ forall k, stat_of k x' = stat_of k x + (if o' =? o then delta k else 0).
Proof.
  intros Ho Hd o' x' Hx. destruct (Z.eqb_spec o' o) as [->|Hne].
  - rewrite lookup_insert_eq in Hx. injection Hx as <-. eauto.
  - rewrite lookup_insert_ne in Hx by done. exists x'. split; [done | intros; lia].
Qed.

Lemma counted_modify q k ts id t t' : rows ts !! id = Some t -> tk_account t' = tk_account t ->
  tsum (fun _ => counted q k) (tmodify ts id t')
    = tsum (fun _ => counted q k) ts + (if q (tk_account t) then contribution k t' - contribution k t else 0).
Proof. intros Hid Ea. rewrite (tsum_modify _ _ _ _ _ Hid). unfold counted. rewrite Ea. destruct (q _); lia. Qed.

Lemma counted_create q k ts t : table_wf ts -> tsum (fun _ => counted q k) (tcreate ts t)
  = tsum (fun _ => counted q k) ts + (if q (tk_account t) then contribution k t else 0).
Proof. intros Hwf. by rewrite tsum_create. Qed.

Lemma process_ticket_accounted d acc id t d' acc' :
  process_ticket d acc id t = Ok (d', acc') -> rows (tickets d) !! id = Some t -> tk_status t <> stable ->
  tickets_accounted d (tp_delta_pob acc) (tp_delta_inactive acc) ->
  tickets_accounted d' (tp_delta_pob acc') (tp_delta_inactive acc').
Proof.
  unfold process_ticket, get_stats. intros E Hid Hst Ha. pose proof (tall_lookup _ _ _ _ (ta_ok _ _ _ Ha) Hid) as Hok.
  destruct (bool_decide _ && _) eqn:Eb; mon.
  - adjust_steps. safe_ints. subst.
    assert (is_forever t = false) as Hnf by (unfold is_forever; apply Z.eqb_neq; cbn; lia).
    eapply (accounted_step d _ (tk_account t) _ _ _ _ (fun k => - contribution k t) Ha); cbn -[contribution];
      [done | apply tremove_wf, Ha | apply tall_remove, Ha | | | |].
    + eapply stats_insert; [eassumption|]. intros []; cbn; rewrite Hnf; cbn; lia.
    + intros q k. rewrite (tsum_remove _ _ _ _ Hid). unfold counted. destruct (q _); lia.
    + cbn. rewrite Hnf. lia.
    + cbn. rewrite Hnf. lia.
  - repeat match goal with p : (_ * _)%type |- _ => destruct p end. mon. safe_ints. subst.
    match goal with E : auto_update _ _ = Ok _ |- _ =>
      pose proof (auto_update_deposit _ _ _ E) as Hsd; apply auto_update_round in E as (Hok' & _ & Hf & Hn); [|done..] end.
    match goal with E : auto_update_stats _ _ _ = Ok _ |- _ =>
      apply auto_update_stats_exact in E as (Hs & -> & ->); [|done..] end.
    eapply (accounted_step d _ (tk_account t) _ _ _ _ (fun k => contribution k r0 - contribution k t) Ha);
      cbn -[contribution]; [done | eapply tmodify_wf; [done | apply Ha] | apply tall_modify; [done | apply Ha] | | | lia | lia].
    + by eapply stats_insert.
    + intros q k. by apply counted_modify; [|apply Hsd].
Qed.

(** The tickets that are due are not stable. *)
Lemma due_not_stable d id t : tall ticket_ok (tickets d) -> head_block_time d < time_maximum ->
  tfirst_due tk_next_auto_update_time (head_block_time d) (tickets d) = Some (id, t) ->
  rows (tickets d) !! id = Some t /\ ticket_ok t /\ tk_status t <> stable.
Proof.
  intros Ha Ht E. apply tfirst_due_Some in E as [Hid Hd]. pose proof (tall_lookup _ _ _ _ Ha Hid) as Hok.
  split_and!; [done..|]. intros Es. destruct Hok as [_ Hok]. rewrite Es in Hok. cbn in *. lia.
Qed.

Lemma process_loop_accounted fuel : forall d acc d' acc',
  process_tickets_loop fuel d acc = Some (Ok (d', acc')) ->
  tickets_accounted d (tp_delta_pob acc) (tp_delta_inactive acc) ->
  tickets_accounted d' (tp_delta_pob acc') (tp_delta_inactive acc').
Proof.
  induction fuel as [|fuel IH]; cbn; intros d acc d' acc' E Ha;
    destruct (tfirst_due _ _ _) as [[id t]|] eqn:Ef; try done; try (by injection E as <- <-).
  destruct (process_ticket d acc id t) as [[d1 acc1]|] eqn:E1; [|done].
  apply due_not_stable in Ef as (Hid & _ & Hst); [| apply Ha..].
  apply (IH _ _ _ _ E). by eapply process_ticket_accounted.
Qed.

Lemma process_tickets_accounted d d' r : process_tickets_now d = Ok (d', r) ->
  tickets_accounted d 0 0 -> tickets_accounted d' 0 0.
Proof.
  unfold process_tickets_now, process_tickets. intros E Ha.
  destruct (process_tickets_loop _ _ _) as [[[d1 acc]|]|] eqn:El; cbn in E; try done.
  apply process_loop_accounted in El as [Hwf Hok Ht Hs Hp Hi]; [|done].
  destruct (_ || _) eqn:Ez; mon; split; cbn; try done; safe_ints; subst; lia.
Qed.

(** *** The operations *)

Lemma update_target_type_ok now target version t t' :
  update_target_type now target version t = Ok t' -> 0 < amount (tk_amount t) -> is_forever t = false ->
  ticket_ok t' /\ is_forever t' = false.
Proof.
  unfold update_target_type. intros E Hn Hf. mon.
  match goal with E : update_value _ _ = Ok _ |- _ => apply update_value_kept in E as (v & -> & _) end.
  destruct t as [ac tg [am ai] ct st va na nd].
  unfold ticket_ok, is_forever in *. change (ticket_number lock_forever) with 4 in *. cbn in *.
  destruct (ticket_number ct <? ticket_number target) eqn:El.
  - destruct st; [change (bool_decide (charging = charging)) with true in *
      | change (bool_decide (stable = charging)) with false in *
      | change (bool_decide (withdrawing = charging)) with false in * ]; cbn in *; mon; cbn; split_and!; (done || lia).
  - mon. destruct (nd =? time_maximum), (ticket_number ct =? ticket_number target) eqn:Ee; mon; cbn in *;
      try match goal with E : type_below _ = Ok _ |- _ => apply type_below_ok in E end;
      pose proof (ticket_number_bounds ct);
      match goal with |- context [ticket_number ?c =? 4] => rewrite (proj2 (Z.eqb_neq (ticket_number c) 4)) by lia end;
      split_and!; (done || lia).
Qed.

Lemma init_new_ok now o target x version t : init_new now o target x version = Ok t ->
  0 < amount x -> ticket_number target <> 0 ->
  ticket_ok t /\ is_forever t = false /\ tk_account t = o /\ tk_amount t = x.
Proof.
  unfold init_new. intros E Hn Ht. apply update_value_kept in E as (v & -> & _).
  pose proof (ticket_number_bounds target). unfold ticket_ok, is_forever. cbn. split_and!; (done || lia).
Qed.

Lemma loyal_contribution k t : is_forever t = false ->
  contribution k t = match k with pol_amount => amount (tk_amount t) | pol_value => tk_value t | _ => 0 end.
Proof. unfold contribution. intros ->. by destruct k. Qed.

Lemma update_value_ok version t x t' : update_value version (t <| tk_amount := x |>) = Ok t' ->
  ticket_ok t -> is_forever t = false -> 0 < amount x ->
  ticket_ok t' /\ is_forever t' = false /\ tk_account t' = tk_account t /\ tk_amount t' = x.
Proof.
  intros E [_ Hs] Hf Hx. apply update_value_kept in E as (v & -> & _). unfold ticket_ok, is_forever in *. cbn in *.
  by rewrite Hf in *.
Qed.

(** Retargeting changes the value that is locked and nothing else. *)
Lemma retarget_accounted d op t target d1 new dv :
  retarget_ticket d op t target = Ok (d1, new, dv) -> rows (tickets d) !! tku_ticket op = Some t ->
  is_forever t = false -> table_wf (tickets d) -> tall ticket_ok (tickets d) ->
  (forall x, tku_amount_for_new_target op = Some x -> 0 < amount x) ->
  table_wf (tickets d1) /\ tall ticket_ok (tickets d1) /\ head_block_time d1 = head_block_time d
  /\ account_stats d1 = account_stats d /\ total_pob d1 = total_pob d /\ total_inactive d1 = total_inactive d
  /\ forall q k, tsum (fun _ => counted q k) (tickets d1) = tsum (fun _ => counted q k) (tickets d)
       + (if q (tk_account t) then match k with pol_value => dv | _ => 0 end else 0).
Proof.
  unfold retarget_ticket. intros E Hid Hf Hwf Hok Hx. pose proof (tall_lookup _ _ _ _ Hok Hid) as [Hn _]. mon.
  destruct (tku_amount_for_new_target op) as [x|] eqn:Eo; [destruct r|]; mon.
  2,3: match goal with E : update_target_type _ _ _ _ = Ok _ |- _ =>
      pose proof (update_target_type_deposit _ _ _ _ _ E) as [Ea Eb];
      apply update_target_type_ok in E as [Hok' Hf']; [|done..] end; safe_ints; subst; cbn;
    (split_and!; [by eapply tmodify_wf | by apply tall_modify | done..|]);
    intros q k; rewrite (counted_modify _ _ _ _ _ _ Hid) by done; rewrite !loyal_contribution by done; rewrite Eb;
    destruct (q _), k; lia.
  asset_ints. unfold init_split, adjust_amount in *. mon. asset_ints.
  match goal with E : update_target_type _ _ _ _ = Ok _ |- _ =>
      pose proof (update_target_type_deposit _ _ _ _ _ E) as [Ea Eb]; cbn in Ea, Eb;
      apply update_target_type_ok in E as [Hok1 Hf1]; [| cbn; by apply Hx | exact Hf] end.
  match goal with E : update_value _ _ = Ok _ |- _ =>
    apply update_value_ok in E as (Hok2 & Hf2 & Ec & Ed); [| by eapply tall_lookup | done | cbn; lia] end.
  assert (tku_ticket op <> next_id (tickets d)) as Hne by (intros Eq; rewrite Eq, table_fresh in Hid; done).
  assert (rows (tcreate (tickets d) r) !! tku_ticket op = Some t) as Hid' by (by rewrite lookup_tcreate_ne).
  subst. cbn. split_and!; [by eapply tmodify_wf; [|apply tcreate_wf] | by apply tall_modify, tall_create | done..|].
  intros q k. rewrite (counted_modify _ _ _ _ _ _ Hid') by done. rewrite counted_create by done.
  rewrite !loyal_contribution, Ea by done. rewrite Ed. cbn. destruct (q _), k; lia.
Qed.

Lemma update_stats_accounted d op t target d1 new dv d2 :
  retarget_ticket d op t target = Ok (d1, new, dv) -> rows (tickets d) !! tku_ticket op = Some t ->
  is_forever t = false -> (forall x, tku_amount_for_new_target op = Some x -> 0 < amount x) ->
  (if negb (dv =? 0) then
     let! aso := get_stats d1 (tk_account t) in
     let! v := safe_add (st_total_pol_value aso) dv in
     Ok (set_stats d1 (tk_account t) (aso <| st_total_pol_value := v |>))
   else Ok d1) = Ok d2 ->
  tickets_accounted d 0 0 -> tickets_accounted d2 0 0.
Proof.
  intros E Hid Hf Hx E2 Ha.
  apply retarget_accounted in E as (Hwf & Hok & Et & Es & Ep & Ei & Hsum); [| done | done | apply Ha | apply Ha | done].
  eapply (accounted_step d _ (tk_account t) _ _ _ _ (fun k => match k with pol_value => dv | _ => 0 end) Ha).
  all: unfold get_stats in E2; destruct (Z.eqb_spec dv 0); cbn in E2; mon; safe_ints; subst; cbn;
    rewrite ?Ep, ?Ei; try (done || lia).
  - rewrite Es. intros o' s' Hs'. exists s'. split; [done|]. intros []; destruct (_ =? _); lia.
  - rewrite Es in *. eapply stats_insert; [eassumption|]. intros []; cbn; lia.
Qed.

(** C32: The tickets account for what the accounts have locked: every account's totals
    of locked amounts and values, and the totals of the chain, are at all times the
    sums over its tickets, through creating, retargeting and splitting tickets and
    through their automatic charging, downgrading and withdrawal; and every ticket
    stays in one of the states of its life cycle. *)
Theorem tickets_stay_accounted :
  preserves (fun d => tickets_accounted d 0 0) ticket_create_operation
  /\ preserves (fun d => tickets_accounted d 0 0) ticket_update_operation
  /\ forall d d' r, process_tickets d = Some (Ok (d', r)) -> tickets_accounted d 0 0 -> tickets_accounted d' 0 0.
Proof.
  split_and!.
  - intros d0 d op ctx d' r Hv _ _ Ha E. cbn in Hv, E. unfold ticket_create_validate in Hv.
    unfold ticket_create_do_apply, get_stats in E. mon.
    match goal with E : ticket_type_of ?n = Ok _ |- _ => apply ticket_type_of_ok in E end.
    match goal with E : init_new _ _ _ _ _ = Ok _ |- _ =>
      apply init_new_ok in E as (Hok & Hf & Ea & Eb); [| done | cbn in *; lia] end.
    match goal with T : ticket_ok ?x |- _ => rename x into t end. adjust_steps. safe_ints. subst.
    eapply (accounted_step d _ (tk_account t) _ _ _ _ (fun k => contribution k t) Ha);
      cbn -[contribution]; [done | apply tcreate_wf, Ha | apply tall_create; [done | apply Ha] | | | |].
    + rewrite Ea. eapply stats_insert; [eassumption|]. intros k. rewrite loyal_contribution, Eb by done. destruct k; cbn; lia.
    + intros q k. apply counted_create, Ha.
    + rewrite loyal_contribution by done. lia.
    + rewrite loyal_contribution by done. lia.
  - intros d0 d op ctx d' r Hv Hev Ho Ha E. cbn in Hv, Hev, E.
    assert (tickets d0 = tickets d) as Et by (by destruct Ho as (? & ? & -> & _)).
    unfold ticket_update_do_evaluate, ticket_update_validate, ticket_update_do_apply, get_ticket, tfind in *.
    rewrite Et in Hev. clear Ho Et.
    mon. repeat match goal with p : (_ * _)%type |- _ => destruct p end. mon.
    repeat match goal with p : (_ * _)%type |- _ => destruct p end. mon. same_rows.
    eapply process_tickets_accounted; [eassumption|].
    match goal with Eo : tk_account ?t = tku_account op |- _ => rewrite <- Eo in * end.
    eapply update_stats_accounted; [eassumption | eassumption | | | eassumption | done].
    + by apply Z.eqb_neq.
    + intros x Ex. rewrite Ex in *. by mon.
  - intros d d' r E. apply process_tickets_accounted with (r := r). unfold process_tickets_now. by rewrite E.
Qed.

(** *** The loop ends *)

(** What an account has deposited in tickets, in asset [a]. *)
Definition deposited (o : account_id_type) (a : asset_id_type) (t : ticket_object) : Z :=
  if tk_account t =? o then asset_in a (tk_amount t) else 0.

Definition wealth (o : account_id_type) (a : asset_id_type) (d : database) : Z :=
  balance_of d o a + tsum (fun _ => deposited o a) (tickets d).

Definition ticket_amount_ok (t : ticket_object) : Prop := amount (tk_amount t) <= INT64_MAX.

Record processable (d : database) : Prop := {
  pr_ok : tall ticket_ok (tickets d);
  pr_amounts : tall ticket_amount_ok (tickets d);
  pr_time : head_block_time d < time_maximum;
  pr_balances : balances_ok d;
}.

Lemma balance_of_same d d' o a : balances d' = balances d -> balance_of d' o a = balance_of d o a.
Proof. intros E. by rewrite !balance_of_lookup, E. Qed.

Lemma process_ticket_progress d acc id t d' acc' :
  process_ticket d acc id t = Ok (d', acc') -> rows (tickets d) !! id = Some t -> tk_status t <> stable ->
  processable d ->
  processable d' /\ (forall o a, wealth o a d' = wealth o a d) /\ head_block_time d' = head_block_time d
  /\ tsum (fun _ => rounds_left) (tickets d') < tsum (fun _ => rounds_left) (tickets d).
Proof.
  unfold process_ticket, get_stats. intros E Hid Hst [Hok Hao Ht Hb].
  pose proof (tall_lookup _ _ _ _ Hok Hid) as Htok. pose proof (tall_lookup _ _ _ _ Hao Hid) as Hta.
  pose proof (rounds_left_bounds t Htok) as [_ Hr]. specialize (Hr Hst). destruct Htok as [Hn _].
  unfold ticket_amount_ok in Hta. unfold wealth. destruct (_ && _); mon.
  - match goal with E : adjust_balance _ _ _ = Ok _ |- _ =>
      pose proof (adjust_balance_exact _ _ _ _ Hb E) as Hx; destruct (adjust_balance_frame _ _ _ _ E) as (m & -> & _) end.
    destruct Hx as (Hx & Hxo & Hxb); [unfold_int64; lia|]. cbn.
    split_and!; [split; cbn; by try apply tall_remove | | done | rewrite (tsum_remove _ _ _ _ Hid); lia].
    intros o a. rewrite (tsum_remove _ _ _ _ Hid).
    rewrite (balance_of_same (d <| balances := m |>) _ o a) by done.
    enough (balance_of (d <| balances := m |>) o a = balance_of d o a + deposited o a t) by lia.
    unfold deposited, asset_in, ind.
    destruct (Z.eqb_spec (tk_account t) o) as [<-|?], (Z.eqb_spec (asset_id (tk_amount t)) a) as [<-|?];
      [rewrite Hx; lia | rewrite Hxo by congruence; lia ..].
  - repeat match goal with p : (_ * _)%type |- _ => destruct p end. mon.
    match goal with E : auto_update _ _ = Ok _ |- _ =>
      pose proof (auto_update_deposit _ _ _ E) as [Ea Eb];
      apply auto_update_round in E as (Hok' & Hlt & _); [| by eapply tall_lookup | done] end.
    cbn. split_and!; [split; cbn; try done; apply tall_modify; try done | | done | rewrite (tsum_modify _ _ _ _ _ Hid); lia].
    + unfold ticket_amount_ok. by rewrite Eb.
    + intros o i. rewrite (tsum_modify _ _ _ _ _ Hid). rewrite (balance_of_same d _ o i) by done.
      unfold deposited. rewrite Ea, Eb. lia.
Qed.

Lemma process_loop_terminates fuel : forall d acc, processable d ->
  tsum (fun _ => rounds_left) (tickets d) <= Z.of_nat fuel ->
  exists r, process_tickets_loop fuel d acc = Some r /\ forall d' acc', r = Ok (d', acc') ->
    processable d' /\ head_block_time d' = head_block_time d
    /\ tfirst_due tk_next_auto_update_time (head_block_time d) (tickets d') = None
    /\ forall o a, wealth o a d' = wealth o a d.
Proof.
  induction fuel as [|fuel IH]; intros d acc Hp Hfuel; cbn;
    (destruct (tfirst_due _ _ _) as [[id t]|] eqn:Ef;
      [| eexists; split; [done|]; intros d' acc' E; by simplify_eq]);
    apply due_not_stable in Ef as (Hid & Hok & Hst); try apply Hp.
  - assert (0 < tsum (fun _ => rounds_left) (tickets d)); [|lia].
    pose proof (rounds_left_bounds t Hok) as [_ Hr]. specialize (Hr Hst).
    enough (rounds_left t <= tsum (fun _ => rounds_left) (tickets d)) by lia.
    apply (msum_lookup_le (fun _ => rounds_left) _ id); [|done]. intros i x Hx.
    by apply rounds_left_bounds, (tall_lookup _ _ _ _ (pr_ok _ Hp) Hx).
  - destruct (process_ticket d acc id t) as [[d1 acc1]|e] eqn:E1; [|by eexists].
    apply process_ticket_progress in E1 as (Hp1 & Hw & Et & Hlt); [|done..].
    destruct (IH d1 acc1) as (r & Er & Hr); [done | lia|]. exists r. split; [done|].
    intros d' acc' E. destruct (Hr _ _ E) as (Hp' & Et' & Hdue & Hw'). rewrite Et in *.
    split_and!; [done.. |]. intros o a. by rewrite Hw'.
Qed.

(** Processing the tickets ends: a ticket goes through at most eight automatic
    updates, so the loop stops within eight rounds for each ticket; then no ticket is
    due any more, every ticket is in its life cycle, and each account has exactly
    what it had, in its balance and in its tickets together. *)
Theorem process_tickets_ends d : processable d ->
  exists r, process_tickets d = Some r /\ forall d' res, r = Ok (d', res) ->
    processable d' /\ head_block_time d' = head_block_time d
    /\ tfirst_due tk_next_auto_update_time (head_block_time d') (tickets d') = None
    /\ forall o a, balance_of d' o a + tsum (fun _ => deposited o a) (tickets d')
         = balance_of d o a + tsum (fun _ => deposited o a) (tickets d).
Proof.
  intros Hp. unfold process_tickets.
  destruct (process_loop_terminates (rounds_per_ticket * size (rows (tickets d))) d
              (TicketProgress (GenericResult ∅ ∅ ∅) 0 0) Hp) as (r & -> & Hr).
  { rewrite Nat2Z.inj_mul. apply msum_le_size. intros i t Ht.
    by apply rounds_left_bounds, (tall_lookup _ _ _ _ (pr_ok _ Hp) Ht). }
  eexists. split; [done|]. intros d' res E.
  destruct r as [[d1 acc]|e]; [|done]. destruct (Hr _ _ eq_refl) as (Hp1 & Et & Hdue & Hw). cbn in E.
  destruct (_ || _); mon.
  - split_and!; [by destruct Hp1 | done | cbn; by rewrite Et | apply Hw].
  - rewrite Et. done.
Qed.
End Accounting.

(** ** Sample tickets *)

Definition sample_ticket : ticket_create_operation :=
  TicketCreate (Asset 1 CORE) 5 4 (Asset 700 CORE).

Definition sample_split : ticket_update_operation :=
  TicketUpdate (Asset 1 CORE) 0 5 2 (Some (Asset 300 CORE)).

Lemma sample_db_accounted : tickets_accounted sample_db 0 0.
Proof.
  split; try (cbn; first [apply empty_table_wf | apply empty_tall | done]).
  intros o s k Hs. cbn -[list_to_map] in Hs. apply elem_of_list_to_map_2 in Hs. cbn in Hs.
  assert (s = sample_stats) as -> by (set_unfold in Hs; destruct_or!; by simplify_eq).
  unfold tsum. cbn [tickets sample_db]. etrans; [|symmetry; apply msum_empty]. by destruct k.
Qed.

Lemma tickets_stay_accounted_witness :
  exists d1 d2 r, do_apply sample_db sample_ticket tt = Ok (d1, 0)
    /\ do_apply d1 sample_split tt = Ok (d2, r)
    /\ tickets_accounted d2 0 0 /\ size (rows (tickets d2)) = 2%nat.
Proof.
  destruct tickets_stay_accounted as (Hc & Hu & _).
  eassert (do_apply sample_db sample_ticket tt = Ok (_, 0)) as E1 by (vm_compute; reflexivity).
  match type of E1 with _ = Ok (?d, _) => set (d1 := d) in E1 end.
  eassert (do_apply d1 sample_split tt = Ok (_, _)) as E2 by (vm_compute; reflexivity).
  match type of E2 with _ = Ok (?d, ?r) => set (d2 := d) in E2; set (r2 := r) in E2 end.
  assert (do_evaluate d1 sample_split = Ok tt) as Ev by (vm_compute; reflexivity).
  assert (forall d, only_fees d d) as Hof by (intros d; exists (dyn_data d), (account_stats d); by destruct d).
  exists d1, d2, r2. split; [exact E1|]. split; [exact E2|]. split; [|vm_compute; reflexivity].
  refine (Hu d1 d1 sample_split tt d2 r2 _ Ev (Hof d1) _ E2); [by vm_compute|].
  refine (Hc sample_db sample_db sample_ticket tt d1 0 _ _ (Hof _) sample_db_accounted E1); by vm_compute.
Defined.

(** Ticket 0 is to be withdrawn, ticket 1 has been due for charging for 100 days. *)
Definition sample_ticket_db : database :=
  sample_db <| tickets := table_from
    [TicketObject 5 liquid (Asset 700 CORE) liquid withdrawing 0 1799999990 1799999990;
     TicketObject 6 lock_forever (Asset 50 CORE) liquid charging 0 1791360000 time_maximum] |>
  <| account_stats := list_to_map
    [(5, sample_stats <| st_total_core_pol := 700 |>); (6, sample_stats <| st_total_core_pol := 50 |>)] |>.

Lemma sample_ticket_db_processable : processable sample_ticket_db.
Proof.
  split; [ | | done | exact sample_db_balances]; apply table_from_all; repeat constructor; try done;
    unfold ticket_amount_ok, INT64_MAX; cbn; lia.
Qed.

Lemma process_tickets_ends_witness :
  exists d' res, process_tickets sample_ticket_db = Some (Ok (d', res))
    /\ balance_of d' 5 CORE = balance_of sample_ticket_db 5 CORE + 700
    /\ tk_value <$> rows (tickets d') !! 1 = Some 400 /\ rows (tickets d') !! 0 = None.
Proof.
  destruct (process_tickets_ends sample_ticket_db sample_ticket_db_processable) as (r & E & Hr).
  eassert (process_tickets sample_ticket_db = Some (Ok (_, _))) as E' by (vm_compute; reflexivity).
  rewrite E' in E. injection E as <-. destruct (Hr _ _ eq_refl) as (_ & _ & _ & Hb).
  eexists _, _. split; [exact E'|]. split; [|split; vm_compute; reflexivity].
  specialize (Hb 5 CORE).
  etrans; [|etrans; [exact (f_equal (fun n => n - 0) Hb)|]]; vm_compute; reflexivity.
Defined.
