(* ===== verification/Feed.v ===== *)
(** Price feeds: the median of the published feeds
    ([asset_bitasset_data_object] of [asset_object.cpp]) and the feed policy of
    [defishares_feed.cpp], with the automatic price of GOLD and the largest debt a
    reserve can carry. *)
From S2P Require Import Prelude Records Fc Asset Objects Vesting Database Holdings Sample.

#[export] Instance eta_price_feed : Eta price_feed :=
  fun f => PriceFeed (settlement_price f) (core_exchange_rate f) (maintenance_collateral_ratio f)
    (maximum_short_squeeze_ratio f).

Abbreviation feed_price f := (settlement_price (pf_feed f)).
Abbreviation feed_cer f := (core_exchange_rate (pf_feed f)).
Abbreviation feed_mcr f := (maintenance_collateral_ratio (pf_feed f)).
Abbreviation feed_mssr f := (maximum_short_squeeze_ratio (pf_feed f)).

Definition default_feed_with_icr : price_feed_with_icr :=
  PriceFeedIcr default_feed GRAPHENE_DEFAULT_MAINTENANCE_COLLATERAL_RATIO.

Definition set_prices (p : price) (f : price_feed_with_icr) : price_feed_with_icr :=
  f <| pf_feed ::= fun x => x <| settlement_price := p |> <| core_exchange_rate := p |> |>.

(** ** Which assets the policy manages *)

Definition DEFISHARES_GOLD_SYMBOL : string := "GOLD".
Definition DEFISHARES_GOLD_FEED_UPDATE_BLOCKS : Z := 9600.
Definition DEFISHARES_FEED_FACTOR_SCALE : Z := 1000000000.
Definition DEFISHARES_FIXED_INITIAL_COLLATERAL_RATIO : Z := 2000.
Definition HARDFORK_CORE_1270_TIME : Z := 1556028120.

Definition is_gold_asset (a : asset_object) : bool :=
  as_market_issued a && bool_decide (as_symbol a = DEFISHARES_GOLD_SYMBOL).

Definition manages_margin_positions (b : asset_bitasset_data_object) : bool :=
  negb (ba_is_prediction_market b).
Definition settlements_disabled (b : asset_bitasset_data_object) : bool := manages_margin_positions b.
Definition margin_calls_disabled (b : asset_bitasset_data_object) : bool := manages_margin_positions b.

Definition margin_call_settlement_price (b : asset_bitasset_data_object) (prefer_median_feed : bool) : price :=
  let median_price := feed_price (ba_median_feed b) in
  let backing := bo_short_backing_asset (ba_options b) in
  if prefer_median_feed && negb (price_is_null median_price)
     && ((asset_id (base median_price) =? ba_asset_id b) && (asset_id (quote median_price) =? backing)
         || (asset_id (quote median_price) =? ba_asset_id b) && (asset_id (base median_price) =? backing))
  then median_price
  else feed_price (ba_current_feed b).

Definition find_gold_asset (d : database) : option (asset_id_type * asset_object) :=
  match tsearch (fun a => bool_decide (as_symbol a = DEFISHARES_GOLD_SYMBOL)) (assets d) with
  | Some (id, a) => if as_market_issued a then Some (id, a) else None
  | None => None
  end.

Definition accepts_gold_quote_feed (d : database) (id : asset_id_type) (a : asset_object)
    (b : asset_bitasset_data_object) (f : price_feed) : bool :=
  if price_is_null (settlement_price f) then false
  else match find_gold_asset d with
       | None => false
       | Some (gold, _) =>
           negb (is_gold_asset a) && (bo_short_backing_asset (ba_options b) =? CORE)
           && (asset_id (base (settlement_price f)) =? id)
           && (asset_id (quote (settlement_price f)) =? gold)
       end.

(** ** The growth of the GOLD price *)

(** The factor [10 ^ (2 sqrt years)] for a number of blocks, times the scale and
    rounded, as the C library computes it in [long double]; [None] when it is infinite. *)
Class LongDouble := scaled_growth : Z -> option Z.

Definition UINT64_MAX : Z := 2 ^ 64 - 1.

Definition gold_feed_growth_factor_scaled `{LongDouble} (elapsed_blocks : Z) : Z :=
  if elapsed_blocks =? 0 then DEFISHARES_FEED_FACTOR_SCALE
  else match scaled_growth elapsed_blocks with
       | None => UINT64_MAX
       | Some f => if UINT64_MAX <=? f then UINT64_MAX else Z.max 1 f
       end.

Definition gold_feed_elapsed_blocks (d : database) (gold : asset_object) : Z :=
  if head_block_num d <=? as_creation_block_num gold then 0
  else u32 (u32 (head_block_num d - as_creation_block_num gold) / DEFISHARES_GOLD_FEED_UPDATE_BLOCKS
            * DEFISHARES_GOLD_FEED_UPDATE_BLOCKS).

(** When [refresh_scheduled_feeds] updates the feeds. *)
Definition feeds_scheduled (d : database) : bool :=
  match find_gold_asset d with
  | None => false
  | Some (_, gold) =>
      negb (head_block_num d <=? as_creation_block_num gold)
      && (u32 (head_block_num d - as_creation_block_num gold) mod DEFISHARES_GOLD_FEED_UPDATE_BLOCKS =? 0)
  end.

Section FeedPrices.
Context `{Rational}.

Definition make_price_from_rational (numerator denominator : Z) (base_id quote_id : asset_id_type)
    : result price :=
  assert! (0 <? numerator) && (0 <? denominator) @ "numerator > 0 && denominator > 0" in
  let! value := rat_make numerator denominator in
  let! value := halve_loop half_round_up 128 value in
  asset_div (Asset (to_int64 (rat_num value)) base_id) (Asset (to_int64 (rat_den value)) quote_id).

Definition multiply_feed_prices (target_per_gold gold_per_core : price) : result price :=
  assert! negb (price_is_null target_per_gold) && negb (price_is_null gold_per_core)
    @ "!target_per_gold.is_null() && !gold_per_core.is_null()" in
  assert! asset_id (quote target_per_gold) =? asset_id (base gold_per_core)
    @ "target_per_gold.quote.asset_id == gold_per_core.base.asset_id" in
  make_price_from_rational
    (u128 (u128 (amount (base target_per_gold)) * u128 (amount (base gold_per_core))))
    (u128 (u128 (amount (quote target_per_gold)) * u128 (amount (quote gold_per_core))))
    (asset_id (base target_per_gold)) (asset_id (quote gold_per_core)).

Definition calculate_gold_settlement_price `{LongDouble} (d : database) (gold_id : asset_id_type)
    (gold : asset_object) : result price :=
  assert! is_gold_asset gold @ "DefiShares automatic GOLD feed can only be calculated for GOLD" in
  let! core := get_asset d CORE in
  let bts := cp_initial_bts_price_usd_scaled (params d) in
  let usd := cp_initial_gold_price_usd_scaled (params d) in
  let growth_factor := gold_feed_growth_factor_scaled (gold_feed_elapsed_blocks d gold) in
  let! gold_precision := scaled_precision (as_precision gold) in
  let gold_amount := u128 (u128 (gold_precision * bts) * growth_factor) in
  let! core_precision := scaled_precision (as_precision core) in
  let core_amount := u128 (u128 (core_precision * usd) * DEFISHARES_FEED_FACTOR_SCALE) in
  assert! 0 <? bts @ "initial_bts_price_usd_scaled > 0" in
  assert! 0 <? usd @ "initial_gold_price_usd_scaled > 0" in
  make_price_from_rational gold_amount core_amount gold_id CORE.

(** The largest amount of GOLD the collateral covers at the ratio. *)
Definition calculate_gold_debt_for_cr (dfs_collateral : share_type) (gold_per_dfs : price)
    (collateral_ratio : Z) : result share_type :=
  assert! 0 <=? dfs_collateral @ "dfs_collateral >= 0" in
  assert! GRAPHENE_COLLATERAL_RATIO_DENOM <=? collateral_ratio @ "Collateral ratio must be at least 1.0" in
  assert! negb (price_is_null gold_per_dfs) @ "!gold_per_dfs.is_null()" in
  assert! (0 <? amount (base gold_per_dfs)) && (0 <? amount (quote gold_per_dfs))
    @ "gold_per_dfs.base.amount > 0 && gold_per_dfs.quote.amount > 0" in
  let debt := u128 (u128 (u128 dfs_collateral * u128 (amount (base gold_per_dfs)))
                    * GRAPHENE_COLLATERAL_RATIO_DENOM)
              / amount (quote gold_per_dfs) / collateral_ratio in
  Ok (Z.min debt GRAPHENE_MAX_SHARE_SUPPLY).

(** ** Derived data *)

Definition get_initial_collateralization (f : price_feed_with_icr) : result price :=
  if price_is_null (feed_price f) then Ok null_price
  else let! r := rat_make (pf_initial_collateral_ratio f) GRAPHENE_COLLATERAL_RATIO_DENOM in
       price_mul_ratio (price_inv (feed_price f)) r.

Definition refresh_cache (b : asset_bitasset_data_object) : result asset_bitasset_data_object :=
  let current := ba_current_feed b in
  let! mc := maintenance_collateralization (pf_feed current) in
  let! ic :=
    if manages_margin_positions b then
      get_initial_collateralization
        (current <| pf_initial_collateral_ratio := DEFISHARES_FIXED_INITIAL_COLLATERAL_RATIO |>)
    else if pf_initial_collateral_ratio current >? feed_mcr current then get_initial_collateralization current
    else Ok mc in
  Ok (b <| ba_current_maintenance_collateralization := mc |>
        <| ba_current_initial_collateralization := ic |>).

Definition set_mcr (o : option Z) (f : price_feed_with_icr) : price_feed_with_icr :=
  match o with
  | Some x => f <| pf_feed ::= fun p => p <| maintenance_collateral_ratio := x |> |>
  | None => f
  end.

Definition set_mssr (o : option Z) (f : price_feed_with_icr) : price_feed_with_icr :=
  match o with
  | Some x => f <| pf_feed ::= fun p => p <| maximum_short_squeeze_ratio := x |> |>
  | None => f
  end.

Definition set_icr (o : option Z) (f : price_feed_with_icr) : price_feed_with_icr :=
  match o with Some x => f <| pf_initial_collateral_ratio := x |> | None => f end.

(** The ratios the options of the asset prescribe. *)
Definition override_ratios (b : asset_bitasset_data_object) (f : price_feed_with_icr) : price_feed_with_icr :=
  let o := ba_options b in
  let f := set_mssr (bo_maximum_short_squeeze_ratio o) (set_mcr (bo_maintenance_collateral_ratio o) f) in
  if manages_margin_positions b then set_icr (Some DEFISHARES_FIXED_INITIAL_COLLATERAL_RATIO) f
  else set_icr (bo_initial_collateral_ratio o) f.

Definition apply_option_overrides (b : asset_bitasset_data_object) : asset_bitasset_data_object :=
  b <| ba_median_feed ::= override_ratios b |>.

Definition apply_feed_policy `{LongDouble} (d : database) (b : asset_bitasset_data_object)
    : result asset_bitasset_data_object :=
  let! a := get_asset d (ba_asset_id b) in
  let gold := find_gold_asset d in
  if is_gold_asset a then
    let! p := calculate_gold_settlement_price d (ba_asset_id b) a in
    let b := b <| ba_median_feed ::= set_prices p |>
               <| ba_current_feed_publication_time := head_block_time d |> in
    let b := apply_option_overrides b in
    refresh_cache (b <| ba_current_feed := ba_median_feed b |>)
  else
    let fix_icr (f : price_feed_with_icr) :=
      if manages_margin_positions b
      then f <| pf_initial_collateral_ratio := DEFISHARES_FIXED_INITIAL_COLLATERAL_RATIO |> else f in
    let median := ba_median_feed b in
    match gold with
    | Some (gold_id, gold) =>
        if price_is_null (feed_price median) then refresh_cache (b <| ba_current_feed := fix_icr median |>)
        else
          let! current :=
            if (asset_id (base (feed_price median)) =? ba_asset_id b)
               && (asset_id (quote (feed_price median)) =? gold_id)
               && (bo_short_backing_asset (ba_options b) =? CORE)
            then
              let! gold_per_core := calculate_gold_settlement_price d gold_id gold in
              let! target_per_core := multiply_feed_prices (feed_price median) gold_per_core in
              Ok (set_prices target_per_core median)
            else Ok median in
          refresh_cache (b <| ba_current_feed := fix_icr current |>)
    | None => refresh_cache (b <| ba_current_feed := fix_icr median |>)
    end.
End FeedPrices.

Definition max_force_settlement_volume `{SafeInt64} (b : asset_bitasset_data_object) (current_supply : share_type)
    : result share_type :=
  let m := bo_maximum_force_settlement_volume (ba_options b) in
  if 0 =? m then Ok 0
  else if GRAPHENE_100_PERCENT =? m then safe_add current_supply (ba_force_settled_volume b)
  else Ok (to_int64 (u64 (u128 (u128 (u128 current_supply + u128 (ba_force_settled_volume b)) * m)
                          / GRAPHENE_100_PERCENT))).

(** ** The median of the feeds *)

(** [std::nth_element] rearranges a range; among equivalent elements the order is
    left to the library. *)
Class NthElement := nth_element : forall {A : Type}, (A -> A -> bool) -> nat -> list A -> list A.

Class NthElementLaws `{!NthElement} : Prop := {
  nth_element_perm {A} (lt : A -> A -> bool) n l : nth_element lt n l ≡ₚ l;
  (** For a strict weak order on the elements, nothing before the place is above its
      element, nothing after it below. *)
  nth_element_before {A} (lt : A -> A -> bool) n l x i y : strict_weak lt l ->
    nth_element lt n l !! n = Some x -> nth_element lt n l !! i = Some y -> (i < n)%nat -> lt x y = false;
  nth_element_after {A} (lt : A -> A -> bool) n l x i y : strict_weak lt l ->
    nth_element lt n l !! n = Some x -> nth_element lt n l !! i = Some y -> (n < i)%nat -> lt y x = false;
}.

Section Median.
Context `{Rational} `{NthElement}.

(** The feeds that were alive at [now] and the publication time of the oldest. *)
Definition feed_alive (now lifetime : Z) (f : account_id_type * (time_point_sec * price_feed_with_icr)) : bool :=
  (now - fst (snd f) <? lifetime) && negb (fst (snd f) =? 0).

Definition effective_feeds (now : time_point_sec) (b : asset_bitasset_data_object) :=
  filter (fun f => feed_alive now (bo_feed_lifetime_sec (ba_options b)) f = true) (ba_feeds b).

Definition publication_time (now : time_point_sec) (b : asset_bitasset_data_object) : time_point_sec :=
  foldl (fun t f => Z.min t (fst (snd f))) now (effective_feeds now b).

(** [CALCULATE_MEDIAN_VALUE]: the rearranged feeds and the value in the middle. *)
Definition median_by {F} (lt : F -> F -> bool) (field : price_feed_with_icr -> F)
    (feeds : list price_feed_with_icr) : list price_feed_with_icr * F :=
  let n := Nat.div (length feeds) 2 in
  let feeds := nth_element (fun a b => lt (field a) (field b)) n feeds in
  (feeds, field (nth n feeds default_feed_with_icr)).

(** [CHECK_AND_CALCULATE_MEDIAN_VALUE]: an option replaces the median. *)
Definition median_or (o : option Z) (field : price_feed_with_icr -> Z) (feeds : list price_feed_with_icr)
    : list price_feed_with_icr * Z :=
  match o with Some x => (feeds, x) | None => median_by Z.ltb field feeds end.

Definition median_of (o : bitasset_options) (feeds : list price_feed_with_icr) : price_feed_with_icr :=
  let '(feeds, price) := median_by price_lt (fun f => feed_price f) feeds in
  let '(feeds, cer) := median_by price_lt (fun f => feed_cer f) feeds in
  let '(feeds, mcr) := median_or (bo_maintenance_collateral_ratio o) (fun f => feed_mcr f) feeds in
  let '(feeds, mssr) := median_or (bo_maximum_short_squeeze_ratio o) (fun f => feed_mssr f) feeds in
  let '(_, icr) := median_or (bo_initial_collateral_ratio o) pf_initial_collateral_ratio feeds in
  PriceFeedIcr (PriceFeed price cer mcr mssr) icr.

Definition refresh_after_1270 (next_maintenance_time : time_point_sec) (b : asset_bitasset_data_object)
    : result asset_bitasset_data_object :=
  if next_maintenance_time >? HARDFORK_CORE_1270_TIME then refresh_cache b else Ok b.

Definition update_median_feeds (now next_maintenance_time : time_point_sec) (b : asset_bitasset_data_object)
    : result asset_bitasset_data_object :=
  let feeds := effective_feeds now b in
  let b := b <| ba_current_feed_publication_time := publication_time now b |> in
  if Z.of_nat (length feeds) <? bo_minimum_feeds (ba_options b) then
    refresh_after_1270 next_maintenance_time
      (b <| ba_feed_cer_updated := false |> <| ba_current_feed_publication_time := now |>
         <| ba_median_feed := default_feed_with_icr |>)
  else
    match map (fun f => snd (snd f)) feeds with
    | [] => Err (thrown "undefined behaviour: the median of no feeds")
    | [f] =>
        let b := if negb (price_eq (feed_cer (ba_median_feed b)) (feed_cer f))
                 then b <| ba_feed_cer_updated := true |> else b in
        if next_maintenance_time >? HARDFORK_CORE_1270_TIME then
          refresh_cache (b <| ba_median_feed := override_ratios b f |>)
        else Ok (b <| ba_median_feed := f |>)
    | fs =>
        let m := median_of (ba_options b) fs in
        let b := if negb (price_eq (feed_cer (ba_median_feed b)) (feed_cer m))
                 then b <| ba_feed_cer_updated := true |> else b in
        let m := if manages_margin_positions b
                 then m <| pf_initial_collateral_ratio := DEFISHARES_FIXED_INITIAL_COLLATERAL_RATIO |> else m in
        refresh_after_1270 next_maintenance_time (b <| ba_median_feed := m |>)
    end.
End Median.

(** ** Prices are well-formed *)

Section FeedPriceLaws.
Context `{RationalLaws}.

(** Every positive fraction becomes a valid price with both sides within the largest
    supply; one whose reduced parts fit keeps its value. *)
Lemma make_price_total n d b q : 0 < n < 2 ^ 128 -> 0 < d < 2 ^ 128 -> b <> q ->
  exists p, make_price_from_rational n d b q = Ok p /\ price_ok p
    /\ asset_id (base p) = b /\ asset_id (quote p) = q
    /\ amount (base p) <= GRAPHENE_MAX_SHARE_SUPPLY /\ amount (quote p) <= GRAPHENE_MAX_SHARE_SUPPLY
    /\ (n <= GRAPHENE_MAX_SHARE_SUPPLY -> d <= GRAPHENE_MAX_SHARE_SUPPLY -> amount (base p) * d = n * amount (quote p)).
Proof.
  intros Hn Hd Hbq. unfold make_price_from_rational.
  rewrite (proj2 (Z.ltb_lt 0 n)), (proj2 (Z.ltb_lt 0 d)) by lia. cbn [andb fc_assert rbind].
  destruct (rat_make_pos n d) as (r & -> & Er & Hrn & Hrd); [done..|]. cbn [rbind].
  destruct (halve_loop_total half_round_up 128 r) as (c & Ec & Hcn & Hcd);
    [intros; by apply half_round_up_bounds | change (Z.of_nat 128 + 49) with 177; lia .. |].
  rewrite Ec. cbn [rbind]. unfold asset_div. cbn [asset_id].
  rewrite (proj2 (Z.eqb_neq b q)) by done. cbn [negb fc_assert rbind].
  rewrite !to_int64_small by (unfold_int64; unfold GRAPHENE_MAX_SHARE_SUPPLY in *; lia).
  eexists. split; [done|]. cbn. split; [split; cbn; [unfold INT64_MAX, GRAPHENE_MAX_SHARE_SUPPLY in *; lia..|done]|].
  split_and!; [done | done | lia | lia |]. intros Hn' Hd'.
  cbn [halve_loop] in Ec. rewrite !Z.gtb_ltb in Ec.
  rewrite (proj2 (Z.ltb_ge _ (rat_num r))), (proj2 (Z.ltb_ge _ (rat_den r))) in Ec by lia. by injection Ec as <-.
Qed.
End FeedPriceLaws.

(** ** The debt a collateral covers *)

(** Prices within the largest supply, as every feed of the policy is. *)
Definition price_small (p : price) : Prop :=
  price_ok p /\ amount (base p) <= GRAPHENE_MAX_SHARE_SUPPLY /\ amount (quote p) <= GRAPHENE_MAX_SHARE_SUPPLY.

(** A debt is covered when the value of the collateral is at least the ratio times it. *)
Definition covered (collateral debt : Z) (p : price) (ratio : Z) : Prop :=
  debt * ratio * amount (quote p) <= collateral * GRAPHENE_COLLATERAL_RATIO_DENOM * amount (base p).

Lemma gold_debt_exact c p ratio n : calculate_gold_debt_for_cr c p ratio = Ok n ->
  c <= GRAPHENE_MAX_SHARE_SUPPLY -> price_small p ->
  0 <= n <= GRAPHENE_MAX_SHARE_SUPPLY /\ covered c n p ratio
  /\ forall m, m <= GRAPHENE_MAX_SHARE_SUPPLY -> covered c m p ratio -> m <= n.
Proof.
  unfold calculate_gold_debt_for_cr. intros E Hc (Hp & Hb & Hq). mon.
  destruct Hp as [[Hb0 _] [Hq0 _] _]. unfold covered, GRAPHENE_COLLATERAL_RATIO_DENOM, GRAPHENE_MAX_SHARE_SUPPLY in *.
  set (B := amount (base p)) in *. set (Q := amount (quote p)) in *.
  assert (0 <= c * B <= 10 ^ 30) by nia.
  rewrite (u128_small c), (u128_small B), (u128_small (c * B)), (u128_small (c * B * 1000)) by lia.
  assert (0 < Q * ratio) by nia. rewrite Z.div_div by lia.
  set (x := c * B * 1000 / (Q * ratio)). assert (0 <= x) by (apply Z.div_pos; lia).
  pose proof (div_mul_le (c * B * 1000) (Q * ratio) ltac:(lia)) as Hle. fold x in Hle.
  split_and!; [lia | lia | |].
  - assert (Z.min x 1000000000000000 * (Q * ratio) <= x * (Q * ratio)) by (apply Z.mul_le_mono_nonneg_r; lia). lia.
  - intros m Hm Hcov. apply Z.min_glb; [|done]. unfold x. apply Z.div_le_lower_bound; [done|]. lia.
Qed.

(** ** The median *)

Section MedianLaws.
Context `{NthElementLaws}.

Lemma filter_nil_length {A} (P : A -> bool) (l1 l2 : list A) : (forall x, x ∈ l1 -> P x = false) ->
  (length (filter (fun x => P x = true) (l1 ++ l2)) <= length l2)%nat.
Proof.
  intros Hl. rewrite filter_app. replace (filter _ l1) with (@nil A); [apply length_filter|].
  symmetry. induction l1 as [|x l1 IH]; [done|]. rewrite filter_cons_False.
  - apply IH. intros y Hy. apply Hl. by right.
  - rewrite (Hl x); [done | left].
Qed.

(** The value in the middle lies between any two bounds more than half of the values
    lie between. *)
Lemma median_by_between {F} (lt : F -> F -> bool) field feeds feeds' m lo hi :
  median_by lt field feeds = (feeds', m) -> strict_weak lt (lo :: hi :: map field feeds) ->
  (length feeds < 2 * length (filter (fun f => negb (lt (field f) lo) && negb (lt hi (field f)) = true) feeds))%nat ->
  feeds' ≡ₚ feeds /\ (exists f, f ∈ feeds /\ m = field f) /\ lt m lo = false /\ lt hi m = false.
Proof.
  unfold median_by. intros [= <- Em] [Hasym Htrans] Hmaj.
  set (n := Nat.div (length feeds) 2) in *. set (ltf := fun a b => lt (field a) (field b)) in *.
  set (L := nth_element ltf n feeds) in *. pose proof (nth_element_perm ltf n feeds) as Hperm. fold L in Hperm.
  assert (strict_weak ltf feeds) as Hsw.
  { split; unfold ltf; intros; [apply Hasym | eapply Htrans]; try eassumption; rewrite !elem_of_cons; right; right;
      by apply list_elem_of_fmap_2. }
  assert (n < length feeds)%nat as Hn.
  { unfold n. destruct feeds as [|f fs]; [cbn in Hmaj; lia|]. apply Nat.div_lt; cbn; lia. }
  pose proof (Permutation_length Hperm) as Hlen.
  destruct (lookup_lt_is_Some_2 L n ltac:(lia)) as [x Hx].
  assert (m = field x) as -> by (rewrite <- Em; by rewrite (nth_lookup_Some _ _ _ _ Hx)).
  assert (forall y, y ∈ L -> y ∈ feeds) as Hin by (intros y; by rewrite Hperm).
  assert (forall y, y ∈ L -> field y ∈ lo :: hi :: map field feeds) as Hin'
    by (intros y Hy; rewrite !elem_of_cons; right; right; by apply list_elem_of_fmap_2, Hin).
  assert (x ∈ L) as HxL by (by eapply list_elem_of_lookup_2).
  split; [done|]. split; [exists x; by split; [apply Hin|]|].
  pose proof (Nat.div_mod_eq (length feeds) 2) as Hdm. pose proof (Nat.mod_upper_bound (length feeds) 2 ltac:(lia)).
  fold n in Hdm.
  pose (P := fun f => negb (lt (field f) lo) && negb (lt hi (field f))).
  change (length feeds < 2 * length (filter (fun f => P f = true) feeds))%nat in Hmaj.
  assert (length (filter (fun f => P f = true) feeds) = length (filter (fun f => P f = true) L)) as Ek
    by (by rewrite Hperm).
  split.
  - destruct (lt (field x) lo) eqn:Elo; [exfalso|done].
    assert (length (filter (fun f => P f = true) (take (S n) L ++ drop (S n) L)) <= length (drop (S n) L))%nat as Hk.
    { apply filter_nil_length. intros y [i Hi]%list_elem_of_lookup. apply lookup_take_Some in Hi as [Hi Hin_i].
      assert (y ∈ L) as HyL by (by eapply list_elem_of_lookup_2).
      assert (lt (field x) (field y) = false) as Hxy.
      { destruct (decide (i = n)) as [->|]; [|by apply (nth_element_before ltf n feeds x i y); [..|lia]].
        rewrite Hx in Hi. injection Hi as <-. destruct (lt (field x) (field x)) eqn:E; [|done].
        by rewrite (Hasym _ _ (Hin' _ HxL) (Hin' _ HxL) E) in E. }
      unfold P. destruct (lt (field y) lo) eqn:Ey; [done|].
      rewrite (Htrans (field x) (field y) lo) in Elo; [done | by apply Hin' .. | left | done | done]. }
    rewrite take_drop, length_drop in Hk. lia.
  - destruct (lt hi (field x)) eqn:Ehi; [exfalso|done].
    assert (length (filter (fun f => P f = true) (drop n L ++ take n L)) <= length (take n L))%nat as Hk.
    { apply filter_nil_length. intros y [i Hi]%list_elem_of_lookup. rewrite lookup_drop in Hi.
      assert (y ∈ L) as HyL by (by eapply list_elem_of_lookup_2).
      assert (lt (field y) (field x) = false) as Hyx.
      { destruct (decide (i = 0%nat)) as [->|].
        - rewrite Nat.add_0_r, Hx in Hi. injection Hi as <-. destruct (lt (field x) (field x)) eqn:E; [|done].
          by rewrite (Hasym _ _ (Hin' _ HxL) (Hin' _ HxL) E) in E.
        - apply (nth_element_after ltf n feeds x (n + i) y); [done..|lia]. }
      unfold P. destruct (lt hi (field y)) eqn:Ey; [by rewrite andb_false_r|].
      rewrite (Htrans hi (field y) (field x)) in Ehi; [done | right; left | by apply Hin' .. | done | done]. }
    rewrite (Permutation_app_comm (drop n L)), take_drop, length_take in Hk. lia.
Qed.

(** Valid prices of one market are strictly weakly ordered. *)
Lemma price_lt_neg_trans a b c : price_ok a -> price_ok b -> price_ok c ->
  price_lt a b = false -> price_lt b c = false -> price_lt a c = false.
Proof.
  intros Ha Hb Hc Hab Hbc. destruct (price_lt a c) eqn:E; [|done].
  destruct (price_trichotomy a b Ha Hb) as [?|[Heq|Hba]]; [congruence| |].
  - apply price_eq_spec in Heq as (E1 & E2 & E3); [|done..].
    enough (price_lt b c = true) by congruence. apply price_lt_spec in E; [|done..]. apply price_lt_spec; [done..|].
    destruct E as [?|(? & [?|(? & E)])]; [left; lia | right; split; [lia | left; lia] |].
    right. split; [lia|]. right. split; [lia|]. destruct Ha, Hb, Hc. nia.
  - enough (price_lt b c = true) by congruence. by apply (price_lt_trans b a c).
Qed.

Lemma prices_strict_weak ps : Forall price_ok ps -> strict_weak price_lt ps.
Proof.
  rewrite Forall_forall. intros Hok. split.
  - intros x y Hx Hy E. destruct (price_lt y x) eqn:E'; [|done].
    pose proof (price_lt_trans x y x (Hok _ Hx) (Hok _ Hy) (Hok _ Hx) E E') as Hxx.
    by rewrite price_lt_irrefl in Hxx by auto.
  - intros x y z Hx Hy Hz. apply price_lt_neg_trans; auto.
Qed.

Lemma median_by_perm {F} (lt : F -> F -> bool) field fs : fst (median_by lt field fs) ≡ₚ fs.
Proof. apply nth_element_perm. Qed.

Lemma median_or_perm o field fs : fst (median_or o field fs) ≡ₚ fs.
Proof. destruct o; [done|]. apply median_by_perm. Qed.

(** Every field of the median is the median of a rearrangement of the feeds. *)
Lemma median_of_fields o fs : exists fs2 fs3, fs2 ≡ₚ fs /\ fs3 ≡ₚ fs
  /\ feed_price (median_of o fs) = snd (median_by price_lt (fun f => feed_price f) fs)
  /\ feed_mcr (median_of o fs) = snd (median_or (bo_maintenance_collateral_ratio o) (fun f => feed_mcr f) fs2)
  /\ feed_mssr (median_of o fs) = snd (median_or (bo_maximum_short_squeeze_ratio o) (fun f => feed_mssr f) fs3).
Proof.
  unfold median_of.
  pose proof (median_by_perm price_lt (fun f => feed_price f) fs) as H1.
  destruct (median_by _ _ fs) as [fs1 p]. cbn in H1.
  pose proof (median_by_perm price_lt (fun f => feed_cer f) fs1) as H2.
  destruct (median_by _ _ fs1) as [fs2 c]. cbn in H2.
  pose proof (median_or_perm (bo_maintenance_collateral_ratio o) (fun f => feed_mcr f) fs2) as H3.
  destruct (median_or _ _ fs2) as [fs3 r] eqn:E3. cbn in H3.
  destruct (median_or _ _ fs3) as [fs4 s] eqn:E4. destruct (median_or _ _ fs4) as [fs5 i].
  exists fs2, fs3. cbn. rewrite E3, E4. split_and!; [by rewrite H2 | by rewrite H3, H2 | done..].
Qed.

(** How many feeds have a value between two bounds. *)
Definition agreeing {F} (lt : F -> F -> bool) (field : price_feed_with_icr -> F) (lo hi : F)
    (fs : list price_feed_with_icr) : nat :=
  length (filter (fun f => negb (lt (field f) lo) && negb (lt hi (field f)) = true) fs).

Lemma agreeing_perm {F} (lt : F -> F -> bool) field lo hi fs fs' :
  fs ≡ₚ fs' -> agreeing lt field lo hi fs = agreeing lt field lo hi fs'.
Proof. intros E. unfold agreeing. by rewrite E. Qed.

Lemma median_or_between field fs fs' lo hi : fs' ≡ₚ fs ->
  (length fs < 2 * agreeing Z.ltb field lo hi fs)%nat ->
  lo <= snd (median_or None field fs') <= hi.
Proof.
  intros Hp Hmaj. cbn [median_or]. destruct (median_by Z.ltb field fs') as [l m] eqn:E. cbn [snd].
  rewrite <- (Permutation_length Hp), <- (agreeing_perm _ _ _ _ _ _ Hp) in Hmaj.
  destruct (median_by_between Z.ltb field fs' l m lo hi E (Z_ltb_strict_weak _) Hmaj) as (_ & _ & H1 & H2).
  apply Z.ltb_ge in H1, H2. lia.
Qed.

(** What a median taken from the feeds must be. *)
Definition median_ok (fs : list price_feed_with_icr) (lo hi : price) (m : price_feed_with_icr) : Prop :=
  (exists f, f ∈ fs /\ feed_price m = feed_price f)
  /\ price_lt (feed_price m) lo = false /\ price_lt hi (feed_price m) = false.

Lemma single_feed_agrees {F} (lt : F -> F -> bool) field lo hi f : (1 < 2 * agreeing lt field lo hi [f])%nat ->
  lt (field f) lo = false /\ lt hi (field f) = false.
Proof.
  unfold agreeing. destruct (negb (lt (field f) lo) && negb (lt hi (field f))) eqn:E.
  - intros _. by apply andb_true_iff in E as [?%negb_true_iff ?%negb_true_iff].
  - rewrite filter_cons_False by (by rewrite E). cbn. lia.
Qed.

Lemma override_ratios_price b f : feed_price (override_ratios b f) = feed_price f.
Proof.
  unfold override_ratios. by destruct (manages_margin_positions b), (bo_initial_collateral_ratio (ba_options b)),
    (bo_maximum_short_squeeze_ratio (ba_options b)), (bo_maintenance_collateral_ratio (ba_options b)).
Qed.

Lemma override_ratios_mcr b f : bo_maintenance_collateral_ratio (ba_options b) = None ->
  feed_mcr (override_ratios b f) = feed_mcr f.
Proof.
  unfold override_ratios. intros ->. by destruct (manages_margin_positions b), (bo_initial_collateral_ratio (ba_options b)),
    (bo_maximum_short_squeeze_ratio (ba_options b)).
Qed.

Lemma refresh_cache_feeds `{Rational} b b' : refresh_cache b = Ok b' ->
  ba_median_feed b' = ba_median_feed b /\ ba_current_feed b' = ba_current_feed b.
Proof. unfold refresh_cache. intros E. by mon. Qed.

Lemma refresh_after_1270_median `{Rational} t b b' : refresh_after_1270 t b = Ok b' -> ba_median_feed b' = ba_median_feed b.
Proof. unfold refresh_after_1270. case_match; intros E; [by apply refresh_cache_feeds in E as [? _] | by mon]. Qed.

(** C28: the median feed withstands a minority: whatever the other feeds say, the median
    settlement price is a price some live feed published, and when more than half of the
    live feeds lie between two prices so does the median; a maintenance collateral ratio
    the options leave open lies between any bounds that more than half of the feeds
    respect, at every number of feeds. *)
Theorem median_robust `{Rational} now mt b b' lo hi :
  let fs := map (fun f => snd (snd f)) (effective_feeds now b) in
  update_median_feeds now mt b = Ok b' -> bo_minimum_feeds (ba_options b) <= Z.of_nat (length fs) ->
  Forall (fun f => price_ok (feed_price f)) fs -> price_ok lo -> price_ok hi ->
  (length fs < 2 * agreeing price_lt (fun f => feed_price f) lo hi fs)%nat ->
  median_ok fs lo hi (ba_median_feed b')
  /\ forall mlo mhi, bo_maintenance_collateral_ratio (ba_options b) = None ->
     (length fs < 2 * agreeing Z.ltb (fun f => feed_mcr f) mlo mhi fs)%nat ->
     mlo <= feed_mcr (ba_median_feed b') <= mhi.
Proof.
  intros fs E Hmin Hok Hlo Hhi Hmaj. unfold update_median_feeds in E. fold fs in E.
  rewrite (proj2 (Z.ltb_ge _ _)) in E by (unfold fs in Hmin; by rewrite length_map in Hmin).
  clearbody fs. destruct fs as [|f [|f2 rest]]; [done| |].
  - assert (exists g, ba_median_feed b' = override_ratios b g /\ g = f \/ ba_median_feed b' = f) as [g Hg].
    { exists f. destruct (mt >? _); [left|right].
      - apply refresh_cache_feeds in E as [-> _]. cbn. by destruct (negb _).
      - by mon. }
    assert (feed_price (ba_median_feed b') = feed_price f) as Ep
      by (destruct Hg as [[-> ->]| ->]; [apply override_ratios_price | done]).
    apply single_feed_agrees in Hmaj. split.
    + split; [exists f; split; [left|done]|]. by rewrite Ep.
    + intros mlo mhi Ho [Ha Hb]%single_feed_agrees. apply Z.ltb_ge in Ha, Hb.
      destruct Hg as [[-> ->]| ->]; [rewrite override_ratios_mcr by done|]; lia.
  - set (m := median_of (ba_options b) (f :: f2 :: rest)) in *.
    assert (feed_price (ba_median_feed b') = feed_price m /\ feed_mcr (ba_median_feed b') = feed_mcr m) as [Ep Em].
    { apply refresh_after_1270_median in E. rewrite E. cbn. by destruct (manages_margin_positions _). }
    destruct (median_of_fields (ba_options b) (f :: f2 :: rest)) as (fs2 & fs3 & Hp2 & _ & E1 & E2 & _). fold m in E1, E2.
    split.
    + unfold median_ok. rewrite Ep, E1.
      destruct (median_by price_lt (fun f => feed_price f) (f :: f2 :: rest)) as [l p] eqn:Eb.
      apply (median_by_between _ _ _ _ _ lo hi) in Eb as (_ & Hex & Ha & Hb); [done| |done].
      apply prices_strict_weak. do 2 (apply Forall_cons; split; [done|]). rewrite Forall_fmap. apply Hok.
    + intros mlo mhi Ho Hm. rewrite Em, E2, Ho. by apply (median_or_between _ _ _ _ _ Hp2).
Qed.
End MedianLaws.

(** ** A concrete [nth_element]: sorting *)

Module SampleNthElement.
#[export] Instance sample_nth_element : NthElement := fun A lt n l => insertion_sort lt l.
End SampleNthElement.

Section SampleNth.
Import SampleNthElement.

Lemma sample_nth_laws : NthElementLaws.
Proof.
  split; unfold nth_element, sample_nth_element.
  - intros. apply insertion_sort_perm.
  - intros A lt n l x i y Hsw Hn Hi Hlt. by apply (insertion_sort_ascending lt l Hsw i n y x).
  - intros A lt n l x i y Hsw Hn Hi Hlt. by apply (insertion_sort_ascending lt l Hsw n i x y).
Qed.

Definition usd_price (n d : Z) : price := Price (Asset n 1) (Asset d CORE).

Definition sample_feed (n d mcr : Z) : price_feed_with_icr :=
  PriceFeedIcr (PriceFeed (usd_price n d) (usd_price n d) mcr 1100) 2000.

(** Three feeds, the last far away from the others. *)
Definition sample_bitasset : asset_bitasset_data_object :=
  BitassetData 1 (BitassetOptions 86400 1 86400 0 2000 CORE None None None None None None)
    [(5, (1799999000, sample_feed 100 1000 1750)); (6, (1799999100, sample_feed 101 1000 1800));
     (7, (1799999200, sample_feed 1 1000000 32000))]
    default_feed_with_icr default_feed_with_icr 0 null_price null_price false 0 null_price 0 0 0 false false.

Lemma median_robust_witness : exists b',
  update_median_feeds 1800000000 1800003600 sample_bitasset = Ok b'
  /\ feed_price (ba_median_feed b') = usd_price 100 1000
  /\ median_ok (map (fun f => snd (snd f)) (effective_feeds 1800000000 sample_bitasset))
       (usd_price 100 1000) (usd_price 101 1000) (ba_median_feed b')
  /\ 1750 <= feed_mcr (ba_median_feed b') <= 1800.
Proof.
  eexists. eassert (update_median_feeds 1800000000 1800003600 sample_bitasset = Ok _) as E by (vm_compute; reflexivity).
  split; [exact E|]. split; [reflexivity|].
  pose proof sample_nth_laws.
  destruct (median_robust 1800000000 1800003600 sample_bitasset _ (usd_price 100 1000) (usd_price 101 1000) E)
    as [Hm Hr].
  - evaluate_goal.
  - repeat constructor; evaluate_goal.
  - split; evaluate_goal.
  - split; evaluate_goal.
  - vm_compute. lia.
  - split; [exact Hm|]. apply Hr; [reflexivity|]. vm_compute. lia.
Defined.
End SampleNth.
