(* ===== verification/Vault.v ===== *)
(** The GOLD treasury of the chain: [gold_reserve_vault.cpp], the pay of the witness
    that signed a block ([db_update.cpp], [db_balance.cpp]) and the step at the end of
    [update_global_dynamic_data] that opens and rebalances the treasury. *)
From S2P Require Import Prelude Records Fc Asset Objects Vesting Database Holdings Sample Feed.

Definition HARDFORK_DEFISHARES_GOLD_RESERVE_REWARD_PASSED (now : Z) : bool := now >=? 1787589600.

Definition budget_day (when : time_point_sec) : Z := u32 (when / 86400).

(** An asset that can still be issued. *)
Definition reserved `{SafeInt64} (d : database) (id : asset_id_type) : result share_type :=
  let! a := get_asset d id in
  let! dyn := get_dyn d id in
  safe_sub (ao_max_supply (as_options a)) (dd_current_supply dyn).

Section Vault.
Context `{SafeInt64}.

(** The single vault has the first instance of its class. *)
Definition find_gold_reserve_vault (d : database) : option gold_reserve_vault_object := vault d.

Definition vault_active (v : gold_reserve_vault_object) : bool :=
  negb (negb (gv_enabled v) || gv_issuance_paused v || gv_emergency_mode v).

(** What every rebalance records. *)
Definition record_rebalance (d : database) (current_reserve : share_type) (p : price)
    (v : gold_reserve_vault_object) : gold_reserve_vault_object :=
  v <| gv_dfs_locked_collateral := current_reserve |>
    <| gv_last_rebalance_price := p |>
    <| gv_last_rebalance_time := head_block_time d |>
    <| gv_last_feed_epoch := head_block_num d |>.

(** The price of the collateral, if the feed has one. *)
Definition vault_price (d : database) (v : gold_reserve_vault_object) (gold : asset_id_type) : result (option price) :=
  let! bitasset := of_option "bitasset data" (bitassets d !! gold) in
  let gold_per_dfs := feed_price (ba_current_feed bitasset) in
  if price_is_null gold_per_dfs || negb (asset_id (base gold_per_dfs) =? gold)
     || negb (asset_id (quote gold_per_dfs) =? gv_collateral_asset v)
  then Ok None else Ok (Some gold_per_dfs).

Definition issue_gold (d : database) (v : gold_reserve_vault_object) (gold_id : asset_id_type) (gold : asset_object)
    (gold_per_dfs : price) (current_reserve max_debt : share_type) : result database :=
  let! gold_dynamic := get_dyn d gold_id in
  let! headroom := safe_sub (ao_max_supply (as_options gold)) (dd_current_supply gold_dynamic) in
  assert! 0 <=? headroom @ "GOLD current supply exceeds max supply" in
  let! room := safe_sub max_debt (gv_gold_debt v) in
  let issue_amount := Z.min room headroom in
  let! d1 := if 0 <? issue_amount then
               let! s := safe_add (dd_current_supply gold_dynamic) issue_amount in
               Ok (set_dyn d gold_id (gold_dynamic <| dd_current_supply := s |>))
             else Ok d in
  let! debt := safe_add (gv_gold_debt v) issue_amount in
  let! pool := safe_add (gv_gold_pool_balance v) issue_amount in
  Ok (d1 <| vault := Some (record_rebalance d current_reserve gold_per_dfs
                             (v <| gv_gold_debt := debt |> <| gv_gold_pool_balance := pool |>)) |>).

Definition rebalance_gold_reserve_vault (d : database) : result database :=
  match find_gold_reserve_vault d with
  | None => Ok d
  | Some v =>
      if negb (vault_active v) then Ok d
      else match find_gold_asset d with
      | None => Ok d
      | Some (gold_id, gold) =>
          if negb (gold_id =? gv_debt_asset v) then Ok d
          else
            let! op := vault_price d v gold_id in
            match op with
            | None => Ok d
            | Some gold_per_dfs =>
                let! current_reserve := reserved d CORE in
                let! max_debt :=
                  calculate_gold_debt_for_cr current_reserve gold_per_dfs (gv_target_collateral_ratio v) in
                if max_debt <? gv_gold_debt v then
                  Ok (d <| vault := Some (record_rebalance d current_reserve gold_per_dfs
                                           (v <| gv_issuance_paused := true |> <| gv_emergency_mode := true |>)) |>)
                else issue_gold d v gold_id gold gold_per_dfs current_reserve max_debt
            end
      end
  end.

(** A new vault, with the defaults of [gold_reserve_vault_object.hpp]. *)
Definition new_gold_reserve_vault (d : database) (gold : asset_id_type) (collateral : share_type)
    : gold_reserve_vault_object :=
  let today := budget_day (head_block_time d) in
  GoldReserveVault CORE gold collateral 0 0 0 0 0 2000 2608 0 (if today =? 0 then 0 else u32 (today - 1))
    null_price 0 true false false.

Definition initialize_gold_reserve_vault (d : database) : result database :=
  match find_gold_reserve_vault d with
  | Some _ => Ok d
  | None =>
      let! core := get_asset d CORE in
      match find_gold_asset d with
      | None => Ok d
      | Some (gold_id, _) =>
          let! collateral := reserved d CORE in
          assert! 0 <=? collateral @ "Core reserve cannot be negative" in
          rebalance_gold_reserve_vault (d <| vault := Some (new_gold_reserve_vault d gold_id collateral) |>)
      end
  end.

(** The limit of the day and what it has already seen spent. *)
Definition spending_window (d : database) (v : gold_reserve_vault_object) : result (share_type * share_type) :=
  if negb (gv_last_budget_day v =? budget_day (head_block_time d)) then
    let! limit := safe_div (gv_gold_pool_balance v) (gv_daily_spending_divisor v) in
    Ok (limit, 0)
  else Ok (gv_gold_daily_spending_limit v, gv_gold_spent_today v).

Definition available_gold_reserve_spending (d : database) : result share_type :=
  match find_gold_reserve_vault d with
  | None => Ok 0
  | Some v =>
      if negb (vault_active v) then Ok 0
      else
        let! (daily_limit, spent_today) := spending_window d v in
        if spent_today >=? daily_limit then Ok 0
        else let! rest := safe_sub daily_limit spent_today in Ok (Z.min (gv_gold_pool_balance v) rest)
  end.

Definition open_budget_day (d : database) (daily_limit : share_type) (v : gold_reserve_vault_object)
    : gold_reserve_vault_object :=
  if negb (gv_last_budget_day v =? budget_day (head_block_time d)) then
    v <| gv_last_budget_day := budget_day (head_block_time d) |> <| gv_gold_spent_today := 0 |>
      <| gv_gold_daily_spending_limit := daily_limit |>
  else v.

Definition spend_gold_reserve (d : database) (n : share_type) : result (database * bool) :=
  assert! 0 <=? n @ "Cannot spend a negative GOLD amount" in
  if n =? 0 then Ok (d, true)
  else match find_gold_reserve_vault d with
  | None => Ok (d, false)
  | Some v =>
      if negb (vault_active v) then Ok (d, false)
      else
        let! (daily_limit, spent_today) := spending_window d v in
        let! rest := safe_sub daily_limit spent_today in
        if (n >? gv_gold_pool_balance v) || (n >? rest) then Ok (d, false)
        else
          let v := open_budget_day d daily_limit v in
          let! pool := safe_sub (gv_gold_pool_balance v) n in
          let! spent := safe_add (gv_gold_spent_today v) n in
          let! committed := safe_add (gv_gold_committed_rewards v) n in
          Ok (d <| vault := Some (v <| gv_gold_pool_balance := pool |> <| gv_gold_spent_today := spent |>
                                    <| gv_gold_committed_rewards := committed |>) |>, true)
  end.

(** ** The pay of witnesses *)

Definition deposit_witness_pay (d : database) (id : Z) (wit : witness_object) (n : share_type) : result database :=
  if n =? 0 then Ok d
  else
    let! (d1, new_vbid) := deposit_lazy_vesting d (wi_pay_vb wit) (Asset n CORE)
      (cp_witness_pay_vesting_seconds (params d)) vb_witness (wi_witness_account wit) true in
    match new_vbid with
    | Some vb => Ok (d1 <| witnesses := tmodify (witnesses d1) id (wit <| wi_pay_vb := Some vb |>) |>)
    | None => Ok d1
    end.

Definition deposit_gold_witness_pay (d : database) (id : Z) (wit : witness_object) (a : asset) : result database :=
  if amount a =? 0 then Ok d
  else
    let! (d1, new_vbid) := deposit_lazy_vesting d (wi_gold_pay_vb wit) a
      (cp_witness_pay_vesting_seconds (params d)) vb_witness (wi_witness_account wit) true in
    match new_vbid with
    | Some vb => Ok (d1 <| witnesses := tmodify (witnesses d1) id (wit <| wi_gold_pay_vb := Some vb |>) |>)
    | None => Ok d1
    end.

(** The pay of the witness of a block, before and after the treasury exists. *)
Definition pay_signing_witness (d : database) (id : Z) (wit : witness_object) : result database :=
  if HARDFORK_DEFISHARES_GOLD_RESERVE_REWARD_PASSED (head_block_time d) then
    match find_gold_asset d with
    | None => Ok d
    | Some (gold_id, gold) =>
        if as_precision gold >=? 5 then
          let! scale := scaled_precision (as_precision gold) in
          let gold_witness_pay := scale / 100000 in
          let! (d1, spent) := spend_gold_reserve d gold_witness_pay in
          if spent then deposit_gold_witness_pay d1 id wit (Asset gold_witness_pay gold_id) else Ok d1
        else Ok d
    end
  else
    let witness_pay := Z.min (cp_witness_pay_per_block (params d)) (witness_budget d) in
    let! rest := safe_sub (witness_budget d) witness_pay in
    deposit_witness_pay (d <| witness_budget := rest |>) id wit witness_pay.

(** [new_block_aslot] is the absolute slot of the block, [block_num] its number. *)
Definition update_signing_witness (d : database) (id : Z) (new_block_aslot block_num : Z) : result database :=
  let! wit := of_option "witness" (tfind (witnesses d) id) in
  let! d1 := pay_signing_witness d id wit in
  let! wit1 := of_option "witness" (tfind (witnesses d1) id) in
  Ok (d1 <| witnesses := tmodify (witnesses d1) id
              (wit1 <| wi_last_aslot := new_block_aslot |> <| wi_last_confirmed_block_num := block_num |>) |>).

(** The end of [update_global_dynamic_data]; [gold_feed_updated] says whether the feeds
    have just been refreshed. *)
Definition update_gold_reserve (d : database) (gold_feed_updated : bool) : result database :=
  if HARDFORK_DEFISHARES_GOLD_RESERVE_REWARD_PASSED (head_block_time d) then
    let! d1 := initialize_gold_reserve_vault d in
    if gold_feed_updated then rebalance_gold_reserve_vault d1 else Ok d1
  else Ok d.
End Vault.

(** ** What the vault keeps true *)

(** Every unit of the debt is in the pool or has been paid out, and no day's spending
    exceeds its limit. *)
Record vault_ok (v : gold_reserve_vault_object) : Prop := {
  vault_debt : gv_gold_debt v = gv_gold_pool_balance v + gv_gold_committed_rewards v;
  vault_debt_max : gv_gold_debt v <= GRAPHENE_MAX_SHARE_SUPPLY;
  vault_pool : 0 <= gv_gold_pool_balance v;
  vault_committed : 0 <= gv_gold_committed_rewards v;
  vault_spent : 0 <= gv_gold_spent_today v <= gv_gold_daily_spending_limit v;
  vault_divisor : 0 < gv_daily_spending_divisor v;
}.

(** The debt of the vault is in the asset that is called GOLD. *)
Definition reserve_ok (d : database) : Prop :=
  match vault d with
  | Some v => vault_ok v /\ forall id a, find_gold_asset d = Some (id, a) -> gv_debt_asset v = id
  | None => True
  end.

(** An operation of the treasury keeps the books. *)
Definition keeps_reserve (d d' : database) : Prop :=
  db_wf d -> reserve_ok d -> db_wf d' /\ reserve_ok d' /\ conserves d d'.

#[export] Instance keeps_reserve_preorder : PreOrder keeps_reserve.
Proof.
  split.
  - intros d Hwf Hr. split_and!; [done | done|]. reflexivity.
  - intros d0 d1 d2 H1 H2 Hwf Hr. destruct (H1 Hwf Hr) as (Hwf1 & Hr1 & Hc1).
    destruct (H2 Hwf1 Hr1) as (Hwf2 & Hr2 & Hc2). split_and!; [done | done|]. by transitivity d1.
Qed.

Section VaultLaws.
Context `{SafeInt64Laws}.

Lemma set_vault_wf d v : db_wf d -> db_wf (d <| vault := v |>).
Proof. intros Hwf. destruct Hwf. wf. Qed.

Lemma set_vault_excess a d v :
  excess a (d <| vault := v |>) = excess a d + vault_sum a v - vault_sum a (vault d).
Proof. unfold excess, holdings, supply. cbn. lia. Qed.

Lemma gold_debt_bounds c p ratio n : calculate_gold_debt_for_cr c p ratio = Ok n -> 0 <= n <= GRAPHENE_MAX_SHARE_SUPPLY.
Proof.
  unfold calculate_gold_debt_for_cr, GRAPHENE_COLLATERAL_RATIO_DENOM. intros E. mon.
  assert (0 <= u128 (u128 (u128 c * u128 (amount (base p))) * 1000) / amount (quote p) / ratio); [|unfold GRAPHENE_MAX_SHARE_SUPPLY; lia].
  apply Z.div_pos; [apply Z.div_pos; [apply u128_bound|] |]; lia.
Qed.

(** Issuing to the vault: the new debt, the new supply and the books. *)
Lemma issue_gold_exact d v gid gold p r m d' : issue_gold d v gid gold p r m = Ok d' ->
  vault d = Some v -> gv_gold_debt v <= m ->
  exists dyn n, dyn_data d !! gid = Some dyn /\ 0 <= n
    /\ n = Z.min (m - gv_gold_debt v) (ao_max_supply (as_options gold) - dd_current_supply dyn)
    /\ d' = (set_dyn d gid (dyn <| dd_current_supply := dd_current_supply dyn + n |>))
              <| vault := Some (record_rebalance d r p
                   (v <| gv_gold_debt := gv_gold_debt v + n |> <| gv_gold_pool_balance := gv_gold_pool_balance v + n |>)) |>.
Proof.
  unfold issue_gold, get_dyn. intros E Hv Hm. mon. safe_ints. subst.
  exists r0. eexists. split; [done|]. split; [|split; [reflexivity|]]; [lia|].
  destruct (0 <? Z.min _ _) eqn:Hpos; mon; safe_ints; subst; [done|].
  set (n := Z.min _ _) in *. assert (n = 0) as -> by lia.
  unfold set_dyn. rewrite insert_id; [by destruct r4|]. rewrite Hr. f_equal. rewrite Z.add_0_r. by destruct r0.
Qed.

Lemma issue_gold_keeps d v gid gold p r m d' : issue_gold d v gid gold p r m = Ok d' ->
  vault d = Some v -> gv_debt_asset v = gid -> gv_gold_debt v <= m <= GRAPHENE_MAX_SHARE_SUPPLY -> keeps_reserve d d'.
Proof.
  intros E Hv Hgid Hm Hwf Hr. apply issue_gold_exact in E as (dyn & n & Hdyn & Hn & Hmin & ->); [|done|lia].
  unfold reserve_ok in Hr. rewrite Hv in Hr. destruct Hr as [Hok Hgold].
  destruct (set_dyn_excess d gid (dyn <| dd_current_supply := dd_current_supply dyn + n |>) dyn)
    as [Hwf1 Hex]; [done..|].
  split; [by apply set_vault_wf|]. split.
  - split; [|done]. destruct Hok. split; cbn; lia.
  - intros a. rewrite set_vault_excess, Hex. cbn. rewrite Hv. cbn. rewrite Hgid. lia.
Qed.

(** An update of the vault that leaves its pool and its asset alone. *)
Lemma set_vault_keeps d v v' : vault d = Some v -> (vault_ok v -> vault_ok v') ->
  gv_debt_asset v' = gv_debt_asset v -> gv_gold_pool_balance v' = gv_gold_pool_balance v ->
  keeps_reserve d (d <| vault := Some v' |>).
Proof.
  intros Hv Hok Ha Hp Hwf Hr. unfold reserve_ok in *. rewrite Hv in Hr. destruct Hr as [Hv_ok Hgold].
  split; [by apply set_vault_wf|]. split.
  - cbn. split; [by apply Hok|]. rewrite Ha. exact Hgold.
  - intros a. rewrite set_vault_excess, Hv. cbn. rewrite Ha, Hp. lia.
Qed.

Lemma rebalance_keeps d d' : rebalance_gold_reserve_vault d = Ok d' -> keeps_reserve d d'.
Proof.
  unfold rebalance_gold_reserve_vault, find_gold_reserve_vault. intros E.
  destruct (vault d) as [v|] eqn:Hv; [|by mon]. destruct (negb (vault_active v)); [by mon|].
  destruct (find_gold_asset d) as [[gid gold]|]; [|by mon]. destruct (negb (gid =? _)) eqn:Hid; [by mon|].
  mon. destruct r as [p|]; [|by mon]. mon. pose proof (gold_debt_bounds _ _ _ _ Hr1).
  destruct (r0 <? _) eqn:Hlt; mon.
  - eapply set_vault_keeps; [done | | done..]. intros []. by split.
  - eapply issue_gold_keeps; [done.. | lia].
Qed.

Lemma initialize_keeps d d' : initialize_gold_reserve_vault d = Ok d' -> keeps_reserve d d'.
Proof.
  unfold initialize_gold_reserve_vault, find_gold_reserve_vault. intros E.
  destruct (vault d) as [v|] eqn:Hv; [by mon|]. mon.
  destruct (find_gold_asset d) as [[gid gold]|] eqn:Hg; [|by mon]. mon.
  apply rebalance_keeps in E. etrans; [|exact E].
  intros Hwf Hres. split; [by apply set_vault_wf|]. split.
  - split; [split; cbn; unfold GRAPHENE_MAX_SHARE_SUPPLY; lia|]. cbn. intros i a. unfold find_gold_asset in *. cbn. rewrite Hg. congruence.
  - intros a. rewrite set_vault_excess, Hv. cbn. lia.
Qed.

(** ** Spending *)

(** The limit of today and what today has seen spent so far. *)
Definition day_limit (d : database) (v : gold_reserve_vault_object) : Z :=
  if gv_last_budget_day v =? budget_day (head_block_time d) then gv_gold_daily_spending_limit v
  else gv_gold_pool_balance v / gv_daily_spending_divisor v.

Definition day_spent (d : database) (v : gold_reserve_vault_object) : Z :=
  if gv_last_budget_day v =? budget_day (head_block_time d) then gv_gold_spent_today v else 0.

Lemma spending_window_exact d v l s : spending_window d v = Ok (l, s) -> vault_ok v ->
  l = day_limit d v /\ s = day_spent d v /\ 0 <= s <= l.
Proof.
  unfold spending_window, day_limit, day_spent. intros E []. destruct (_ =? _); cbn in E; mon; safe_ints; subst.
  - lia.
  - rewrite Z.quot_div_nonneg by lia. split_and!; [done..| lia | apply Z.div_pos; lia].
Qed.

(** The vault after a payment today. *)
Definition spent_vault (d : database) (v : gold_reserve_vault_object) (n : Z) : gold_reserve_vault_object :=
  v <| gv_last_budget_day := budget_day (head_block_time d) |>
    <| gv_gold_spent_today := day_spent d v + n |>
    <| gv_gold_daily_spending_limit := day_limit d v |>
    <| gv_gold_pool_balance := gv_gold_pool_balance v - n |>
    <| gv_gold_committed_rewards := gv_gold_committed_rewards v + n |>.

Lemma open_budget_day_eq d v : open_budget_day d (day_limit d v) v =
  v <| gv_last_budget_day := budget_day (head_block_time d) |> <| gv_gold_spent_today := day_spent d v |>
    <| gv_gold_daily_spending_limit := day_limit d v |>.
Proof.
  unfold open_budget_day, day_limit, day_spent. destruct (Z.eqb_spec (gv_last_budget_day v) (budget_day (head_block_time d))) as [E|]; [|done].
  cbn. rewrite <- E. by destruct v.
Qed.

Lemma spent_vault_ok d v n : vault_ok v -> 0 <= n <= gv_gold_pool_balance v ->
  0 <= day_spent d v -> day_spent d v + n <= day_limit d v -> vault_ok (spent_vault d v n).
Proof. intros [] ???. split; cbn; lia. Qed.

(** A payment out of the vault: refused, or within the pool and what is left of the
    limit of the day. *)
Lemma spend_exact d n d' b : spend_gold_reserve d n = Ok (d', b) -> reserve_ok d ->
  0 <= n /\ (b = false -> d' = d)
  /\ (b = true -> n = 0 /\ d' = d \/ exists v, vault d = Some v /\ vault_active v = true
       /\ 0 < n <= gv_gold_pool_balance v /\ 0 <= day_spent d v /\ day_spent d v + n <= day_limit d v
       /\ d' = d <| vault := Some (spent_vault d v n) |>).
Proof.
  unfold spend_gold_reserve, find_gold_reserve_vault, reserve_ok. intros E Hr. mon.
  destruct (n =? 0) eqn:Hn; [mon; split_and!; [done..|]; intros _; by left|].
  destruct (vault d) as [v|] eqn:Hv; [|by mon]. destruct Hr as [Hok _].
  destruct (vault_active v) eqn:Ha; cbn in E; [|by mon]. mon.
  destruct r as [l s]. mon. apply spending_window_exact in Hr as (-> & -> & Hs); [|done].
  destruct ((n >? _) || _) eqn:Hle; mon; [by split_and!|]. safe_ints. split_and!; [done | done|]. intros _. right.
  exists v. split_and!; [done | done | lia | lia | lia | lia |]. subst. by rewrite open_budget_day_eq.
Qed.

(** What a payment takes out of the vault. *)
Lemma spend_keeps d n d' b : spend_gold_reserve d n = Ok (d', b) -> db_wf d -> reserve_ok d ->
  db_wf d' /\ reserve_ok d' /\ head_block_time d' = head_block_time d /\ (forall i, find_gold_asset d' = i <-> find_gold_asset d = i)
  /\ (b = true -> forall gid g a, find_gold_asset d = Some (gid, g) -> excess a d' = excess a d - ind a gid * n)
  /\ (b = false -> d' = d).
Proof.
  intros E Hwf Hr. apply spend_exact in E as (Hn & Hf & Ht); [|done]. destruct b.
  - clear Hf. destruct (Ht eq_refl) as [[-> ->]|(v & Hv & _ & Hp & Hs0 & Hs & ->)].
    + split_and!; [done..| |done]. intros. lia.
    + unfold reserve_ok in *. rewrite Hv in Hr. destruct Hr as [Hok Hg].
      split_and!; [by apply set_vault_wf | | done | done | | done].
      * cbn. split; [apply spent_vault_ok; [done | lia..]|]. exact Hg.
      * intros _ gid g a Hga. rewrite set_vault_excess, Hv. cbn. rewrite (Hg _ _ Hga). lia.
  - rewrite Hf by done. by split_and!.
Qed.

Lemma vested_reserve d x d' : vested d x d' -> reserve_ok d -> reserve_ok d'.
Proof. by intros (t & -> & _). Qed.

Lemma set_witnesses_paid d x d1 t : paid d x d1 -> paid d x (d1 <| witnesses := t |>).
Proof.
  intros Hp Hwf. destruct (Hp Hwf) as [Hwf1 E]. split.
  - destruct Hwf1. wf.
  - intros a. rewrite <- E. unfold excess, holdings, supply. cbn. lia.
Qed.

Lemma deposit_gold_witness_pay_paid d id wit x d' : deposit_gold_witness_pay d id wit x = Ok d' ->
  paid d x d' /\ (reserve_ok d -> reserve_ok d').
Proof.
  unfold deposit_gold_witness_pay. intros E. case_match; reflect_bools; mon.
  { split; [|done]. by apply vested_paid, vested_zero. }
  destruct r as [d1 vb]. apply deposit_lazy_vested in Hr.
  pose proof (vested_paid _ _ _ Hr). pose proof (vested_reserve _ _ _ Hr).
  destruct vb; mon; [|done]. split; [by apply set_witnesses_paid | done].
Qed.

Lemma deposit_witness_pay_paid d id wit n d' : deposit_witness_pay d id wit n = Ok d' ->
  paid d (Asset n CORE) d' /\ (reserve_ok d -> reserve_ok d').
Proof.
  unfold deposit_witness_pay. intros E. case_match; reflect_bools; mon.
  { split; [|done]. by apply vested_paid, vested_zero. }
  destruct r as [d1 vb]. apply deposit_lazy_vested in Hr.
  pose proof (vested_paid _ _ _ Hr). pose proof (vested_reserve _ _ _ Hr).
  destruct vb; mon; [|done]. split; [by apply set_witnesses_paid | done].
Qed.

(** A payment out of the vault that is deposited somewhere conserves the assets. *)
Lemma spend_and_pay d n d1 gid g d' : spend_gold_reserve d n = Ok (d1, true) ->
  find_gold_asset d = Some (gid, g) -> paid d1 (Asset n gid) d' -> (reserve_ok d1 -> reserve_ok d') -> keeps_reserve d d'.
Proof.
  intros E Hg Hp Hres Hwf Hr. destruct (spend_keeps _ _ _ _ E Hwf Hr) as (Hwf1 & Hr1 & _ & _ & Hex & _).
  destruct (Hp Hwf1) as [Hwf' Hex']. split_and!; [done | by apply Hres|]. intros a.
  rewrite Hex', (Hex eq_refl _ _ _ Hg). unfold asset_in. cbn. lia.
Qed.

Lemma pay_signing_witness_keeps d id wit d' : pay_signing_witness d id wit = Ok d' -> keeps_reserve d d'.
Proof.
  unfold pay_signing_witness. intros E. destruct (HARDFORK_DEFISHARES_GOLD_RESERVE_REWARD_PASSED _).
  - destruct (find_gold_asset d) as [[gid g]|] eqn:Hg; [|by mon]. destruct (_ >=? 5); [|by mon]. mon.
    destruct r0 as [d1 b]. destruct b.
    + apply deposit_gold_witness_pay_paid in E as [Hp Hres]. by eapply spend_and_pay.
    + mon. intros Hwf Hres. destruct (spend_keeps _ _ _ _ Hr0 Hwf Hres) as (Hwf1 & Hr1 & _ & _ & _ & Hd).
      split_and!; [done..|]. by rewrite (Hd eq_refl).
  - mon. safe_ints. apply deposit_witness_pay_paid in E as [Hp Hres]. intros Hwf Hr.
    assert (db_wf (d <| witness_budget := r |>)) as Hwf1 by (destruct Hwf; wf).
    destruct (Hp Hwf1) as [Hwf' Hex]. split_and!; [done | by apply Hres|]. intros a. rewrite Hex. subst r.
    unfold excess, holdings, supply, asset_in. cbn. lia.
Qed.

Lemma set_witnesses_keeps d t : keeps_reserve d (d <| witnesses := t |>).
Proof.
  intros Hwf Hr. split_and!; [destruct Hwf; wf | done|]. intros a. unfold excess, holdings, supply. cbn. lia.
Qed.

Lemma update_signing_witness_keeps d id aslot num d' : update_signing_witness d id aslot num = Ok d' -> keeps_reserve d d'.
Proof.
  unfold update_signing_witness. intros E. mon.
  match goal with E : pay_signing_witness _ _ _ = Ok _ |- _ => apply pay_signing_witness_keeps in E as Hk end.
  etrans; [exact Hk|]. apply set_witnesses_keeps.
Qed.

Lemma update_gold_reserve_keeps d u d' : update_gold_reserve d u = Ok d' -> keeps_reserve d d'.
Proof.
  unfold update_gold_reserve. intros E. destruct (HARDFORK_DEFISHARES_GOLD_RESERVE_REWARD_PASSED _); [|by mon]. mon.
  apply initialize_keeps in Hr. destruct u; [|by mon]. apply rebalance_keeps in E. by etrans.
Qed.

(** C25: the GOLD debt is always backed when it grows: a rebalance either finds the debt
    no longer covered by the unissued core supply at the target ratio, then it stops
    the treasury and issues nothing, or leaves a debt that is covered, issues exactly
    the difference into the pool, and could not have issued one unit more unless the
    maximum supply is reached. *)
Theorem gold_debt_backed d v gid g p r d' :
  find_gold_reserve_vault d = Some v -> vault_ok v -> vault_active v = true ->
  find_gold_asset d = Some (gid, g) -> gv_debt_asset v = gid -> vault_price d v gid = Ok (Some p) -> price_small p ->
  reserved d CORE = Ok r -> r <= GRAPHENE_MAX_SHARE_SUPPLY ->
  rebalance_gold_reserve_vault d = Ok d' ->
  exists v', find_gold_reserve_vault d' = Some v' /\ gv_dfs_locked_collateral v' = r
  /\ (vault_active v' = false /\ gv_gold_debt v' = gv_gold_debt v /\ dyn_data d' = dyn_data d
        /\ ~ covered r (gv_gold_debt v) p (gv_target_collateral_ratio v)
      \/ vault_active v' = true /\ gv_gold_debt v <= gv_gold_debt v'
        /\ covered r (gv_gold_debt v') p (gv_target_collateral_ratio v)
        /\ gv_gold_pool_balance v' = gv_gold_pool_balance v + (gv_gold_debt v' - gv_gold_debt v)
        /\ (exists x, dyn_data d !! gid = Some x /\ supply gid d' = dd_current_supply x + (gv_gold_debt v' - gv_gold_debt v))
        /\ (supply gid d' = ao_max_supply (as_options g)
            \/ forall m, m <= GRAPHENE_MAX_SHARE_SUPPLY -> covered r m p (gv_target_collateral_ratio v) -> m <= gv_gold_debt v')).
Proof.
  unfold find_gold_reserve_vault. intros Hv Hok Ha Hg Hid Hp Hps Hr Hrm E.
  unfold rebalance_gold_reserve_vault, find_gold_reserve_vault in E. rewrite Hv, Ha, Hg in E. cbn in E.
  rewrite (proj2 (Z.eqb_eq _ _)) in E by done. cbn in E. rewrite Hp in E. cbn in E. rewrite Hr in E. cbn in E. mon.
  destruct (gold_debt_exact _ _ _ _ Hr0 Hrm Hps) as (Hb & Hc & Hmax). rename r0 into m.
  destruct (m <? _) eqn:Hlt; mon.
  - eexists. split; [reflexivity|]. split; [done|]. left. split; [|split; [done|]; split; [done|]].
    + unfold vault_active. cbn. by rewrite orb_true_r.
    + intros Hcov. apply Hmax in Hcov; [lia|]. apply Hok.
  - pose proof E as E'. apply issue_gold_exact in E as (x & n & Hx & Hn & Hmin & ->); [|done|lia].
    eexists. split; [reflexivity|]. split; [done|]. right. cbn.
    assert (supply gid ((set_dyn d gid (x <| dd_current_supply := dd_current_supply x + n |>))
              <| vault := Some (record_rebalance d r p
                   (v <| gv_gold_debt := gv_gold_debt v + n |> <| gv_gold_pool_balance := gv_gold_pool_balance v + n |>)) |>)
            = dd_current_supply x + n) as Hs.
    { unfold supply, supply_in. cbn. by rewrite lookup_insert_eq. }
    split; [done|]. split; [lia|]. split; [|split; [lia|]; split].
    + unfold covered in *. destruct Hps as ([] & _ & _).
      assert (0 <= gv_target_collateral_ratio v).
      { unfold calculate_gold_debt_for_cr, GRAPHENE_COLLATERAL_RATIO_DENOM in Hr0. mon. lia. }
      assert ((gv_gold_debt v + n) * gv_target_collateral_ratio v * amount (quote p) <= m * gv_target_collateral_ratio v * amount (quote p));
        [|lia]. apply Z.mul_le_mono_nonneg_r; [lia|]. apply Z.mul_le_mono_nonneg_r; lia.
    + exists x. split; [done|]. etrans; [exact Hs|]. lia.
    + match goal with |- supply ?i ?e = _ \/ _ => replace (supply i e) with (dd_current_supply x + n) by (symmetry; exact Hs) end.
      destruct (Z.le_gt_cases (m - gv_gold_debt v) (ao_max_supply (as_options g) - dd_current_supply x)).
      * right. intros k Hk Hcov. specialize (Hmax k Hk Hcov). lia.
      * left. lia.
Qed.

(** ** The days of the treasury *)

(** What can happen to the treasury within one day: payments, rebalances, and anything
    that leaves the vault alone. The total that has been paid is carried along. *)
Inductive gold_day (day : Z) : database -> Z -> database -> Prop :=
  | day_start d : budget_day (head_block_time d) = day -> gold_day day d 0 d
  | day_spend d0 s d n d' b : gold_day day d0 s d -> spend_gold_reserve d n = Ok (d', b) ->
      gold_day day d0 (if b then s + n else s) d'
  | day_rebalance d0 s d d' : gold_day day d0 s d -> rebalance_gold_reserve_vault d = Ok d' -> gold_day day d0 s d'
  | day_other d0 s d d' : gold_day day d0 s d -> vault d' = vault d -> reserve_ok d' ->
      budget_day (head_block_time d') = day -> gold_day day d0 s d'.

Lemma rebalance_vault d d' : rebalance_gold_reserve_vault d = Ok d' ->
  head_block_time d' = head_block_time d /\ (reserve_ok d -> reserve_ok d') /\
  (vault d' = vault d \/ exists v v', vault d = Some v /\ vault d' = Some v'
    /\ gv_last_budget_day v' = gv_last_budget_day v /\ gv_gold_spent_today v' = gv_gold_spent_today v
    /\ gv_gold_daily_spending_limit v' = gv_gold_daily_spending_limit v
    /\ gv_daily_spending_divisor v' = gv_daily_spending_divisor v
    /\ gv_gold_pool_balance v <= gv_gold_pool_balance v').
Proof.
  unfold rebalance_gold_reserve_vault, find_gold_reserve_vault. intros E.
  destruct (vault d) as [v|] eqn:Hv; [|mon; by split_and!; [..|left]].
  destruct (negb (vault_active v)); [mon; by split_and!; [..|left]|].
  destruct (find_gold_asset d) as [[gid gold]|] eqn:Hg; [|mon; by split_and!; [..|left]].
  destruct (negb (gid =? _)) eqn:Hid; [mon; by split_and!; [..|left]|].
  mon. destruct r as [p|]; [|mon; by split_and!; [..|left]]. mon. pose proof (gold_debt_bounds _ _ _ _ Hr1).
  destruct (r0 <? _) eqn:Hlt; mon.
  - split; [done|]. split.
    + unfold reserve_ok. rewrite Hv. cbn. intros [[] Hd]. split; [by split | exact Hd].
    + right. exists v. eexists. split; [done|]. split; [reflexivity|]. by cbn.
  - apply issue_gold_exact in E as (x & n & Hx & Hn & Hmin & ->); [|done|lia]. split; [done|]. split.
    + unfold reserve_ok. rewrite Hv. cbn. intros [[] Hd]. split; [split; cbn; lia | exact Hd].
    + right. exists v. eexists. split; [done|]. split; [reflexivity|]. cbn. split_and!; [done..|lia].
Qed.

(** What the vault of a day remembers of the day's payments. *)
Definition day_books (day s : Z) (v : gold_reserve_vault_object) : Prop :=
  if gv_last_budget_day v =? day
  then gv_gold_spent_today v = s /\ gv_gold_daily_spending_limit v * gv_daily_spending_divisor v <= gv_gold_pool_balance v + s
  else s = 0.

Lemma day_books_spent d v n s : vault_ok v -> day_books (budget_day (head_block_time d)) s v ->
  day_books (budget_day (head_block_time d)) (s + n) (spent_vault d v n).
Proof.
  unfold day_books. cbn. rewrite Z.eqb_refl. unfold day_spent, day_limit. intros []. destruct (_ =? _).
  - intros [-> ?]. split; [done | lia].
  - intros ->. split; [lia|]. pose proof (div_mul_le (gv_gold_pool_balance v) (gv_daily_spending_divisor v)). lia.
Qed.

Lemma gold_day_books day d0 s d : gold_day day d0 s d ->
  reserve_ok d0 -> (forall v, vault d0 = Some v -> gv_last_budget_day v <> day) ->
  0 <= s /\ budget_day (head_block_time d) = day /\ reserve_ok d
  /\ (vault d = None -> s = 0) /\ (forall v, vault d = Some v -> day_books day s v).
Proof.
  induction 1 as [d Ht | d0 s d n d' b Hday IH E | d0 s d d' Hday IH E | d0 s d d' Hday IH Hv Hres Ht]; intros Hr Hfresh.
  - split_and!; [done..|]. intros v Hv. unfold day_books. by rewrite (proj2 (Z.eqb_neq _ _)) by auto.
  - destruct IH as (Hs & Ht & Hres & Hnone & Hbooks); [done..|]. subst day.
    apply spend_exact in E as (Hn & Hf & Hb); [|done]. destruct b.
    + destruct (Hb eq_refl) as [[-> ->]|(v & Hv & _ & Hp & H1 & H2 & ->)]; [rewrite Z.add_0_r; by split_and!|].
      unfold reserve_ok in Hres. rewrite Hv in Hres. destruct Hres as [Hok Hg].
      split; [lia|]. split; [done|]. split; [split; [apply spent_vault_ok; [done | lia..] | exact Hg]|].
      split; [done|]. intros v' [= <-]. apply day_books_spent; auto.
    + rewrite Hf by done. by split_and!.
  - destruct IH as (Hs & Ht & Hres & Hnone & Hbooks); [done..|].
    apply rebalance_vault in E as (-> & Hres' & [->|(v & v' & Hv & Hv' & E1 & E2 & E3 & E4 & Hp)]); [by split_and!; auto|].
    split_and!; [done | done | auto | by rewrite Hv' |]. intros w Hw. rewrite Hv' in Hw. injection Hw as <-.
    specialize (Hbooks v Hv). unfold day_books in *. rewrite E1, E2, E3, E4. destruct (_ =? day); [|done].
    destruct Hbooks. split; [done | lia].
  - destruct IH as (Hs & _ & _ & Hnone & Hbooks); [done..|]. rewrite Hv. by split_and!.
Qed.

(** C26: the treasury cannot be drained: whatever payments are asked for within one day,
    in whatever order and with whatever rebalances in between, all that is paid out is
    at most one part in [daily_spending_divisor] of what the pool held (what is left and
    what was paid), no more than the pool, and the vault's own record of the day's
    spending is the amount that really left it. *)
Theorem daily_spending_limited day d0 s d :
  reserve_ok d0 -> (forall v, vault d0 = Some v -> gv_last_budget_day v <> day) -> gold_day day d0 s d ->
  match find_gold_reserve_vault d with
  | Some v => s * gv_daily_spending_divisor v <= gv_gold_pool_balance v + s
              /\ (0 < s -> gv_gold_spent_today v = s /\ gv_last_budget_day v = day)
  | None => s = 0
  end.
Proof.
  intros Hr Hfresh Hday. destruct (gold_day_books _ _ _ _ Hday Hr Hfresh) as (Hs & Ht & Hres & Hnone & Hbooks).
  unfold find_gold_reserve_vault, reserve_ok in *. destruct (vault d) as [v|]; [|auto].
  specialize (Hbooks v eq_refl). destruct Hres as [[] _]. unfold day_books in Hbooks.
  destruct (Z.eqb_spec (gv_last_budget_day v) day).
  - destruct Hbooks as [<- ?]. split; [|done]. nia.
  - subst s. split; [lia|]. lia.
Qed.
End VaultLaws.

(** ** A concrete treasury *)

Definition gold_asset : asset_object := AssetObject "GOLD" 5 3 (sample_options 0 3) true None 1.

(** One unit of GOLD for a hundred of the core asset. *)
Definition gold_price : price := Price (Asset 1 3) (Asset 100 CORE).

Definition gold_feed : price_feed_with_icr := PriceFeedIcr (PriceFeed gold_price gold_price 1750 1100) 2000.

Definition gold_bitasset : asset_bitasset_data_object :=
  BitassetData 3 (BitassetOptions 86400 1 86400 0 2000 CORE None None None None None None)
    [] gold_feed gold_feed 0 null_price null_price false 0 null_price 0 0 0 false false.

Definition gold_db : database :=
  sample_db <| assets := table_from [sample_asset "DFS" 3 0 1 None; sample_asset "USD" 5 1 1 None;
                                     sample_asset "LP" 5 0 2 None; gold_asset] |>
    <| dyn_data ::= <[3 := AssetDynamicData 0 0 0 0 0]> |>
    <| bitassets := <[3 := gold_bitasset]> ∅ |>
    <| witnesses := table_from [Witness 5 0 None None 0] |>
    <| last_budget_time := 1799990000 |>.

Lemma gold_db_wf : db_wf gold_db.
Proof.
  destruct sample_db_wf. split; cbn -[table_from]; try assumption; first [ apply table_from_wf | idtac ].
  apply table_from_all. repeat constructor; unfold asset_options_ok, GRAPHENE_MAX_SHARE_SUPPLY; cbn; lia.
Qed.

(** The treasury after its initialization. *)
Definition gold_vault : gold_reserve_vault_object :=
  GoldReserveVault CORE 3 999997000000 4999985000 4999985000 0 0 0 2000 2608 1000 20832
    gold_price 1800000000 true false false.

Definition treasury_db : database :=
  gold_db <| dyn_data ::= <[3 := AssetDynamicData 4999985000 0 0 0 0]> |> <| vault := Some gold_vault |>.

Example treasury_initialized : initialize_gold_reserve_vault gold_db = Ok treasury_db.
Proof. vm_compute. reflexivity. Qed.

Lemma gold_vault_ok : vault_ok gold_vault.
Proof. split; vm_compute; intuition discriminate. Qed.

Lemma treasury_db_ok : reserve_ok treasury_db.
Proof.
  split; [exact gold_vault_ok|]. intros id a E.
  assert (find_gold_asset treasury_db = Some (3, gold_asset)) as E' by (vm_compute; reflexivity).
  rewrite E' in E. by injection E as <- <-.
Qed.

(** The core supply shrinks by ten coins: the treasury issues more. *)
Definition burned_db : database :=
  treasury_db <| dyn_data ::= <[0 := AssetDynamicData 2000000 0 0 0 0]> |>.

Lemma gold_debt_backed_witness : exists d' v',
  rebalance_gold_reserve_vault burned_db = Ok d' /\ find_gold_reserve_vault d' = Some v'
  /\ gv_gold_debt v' = 4999990000 /\ covered 999998000000 (gv_gold_debt v') gold_price 2000.
Proof.
  eexists. eassert (rebalance_gold_reserve_vault burned_db = Ok _) as E by (vm_compute; reflexivity).
  destruct (gold_debt_backed burned_db gold_vault 3 gold_asset gold_price 999998000000 _
              eq_refl gold_vault_ok ltac:(vm_compute; reflexivity) ltac:(vm_compute; reflexivity)
              ltac:(vm_compute; reflexivity) ltac:(vm_compute; reflexivity)
              ltac:(repeat split; vm_compute; first [reflexivity | discriminate])
              ltac:(vm_compute; reflexivity) ltac:(vm_compute; discriminate) E)
    as (v' & Hv' & _ & [(Ha & _)|(_ & _ & Hc & _)]).
  - vm_compute in Hv'. injection Hv' as <-. vm_compute in Ha. discriminate.
  - exists v'. split; [exact E|]. split; [exact Hv'|]. split; [|exact Hc].
    vm_compute in Hv'. by injection Hv' as <-.
Defined.

Lemma daily_spending_limited_witness : exists d,
  gold_day 20833 treasury_db 1900000 d
  /\ match find_gold_reserve_vault d with
     | Some v => 1900000 * gv_daily_spending_divisor v <= gv_gold_pool_balance v + 1900000
     | None => False
     end.
Proof.
  eassert (spend_gold_reserve treasury_db 1000000 = Ok (_, true)) as E1 by (vm_compute; reflexivity).
  match type of E1 with _ = Ok (?d1, _) =>
    eassert (spend_gold_reserve d1 900000 = Ok (_, true)) as E2 by (vm_compute; reflexivity);
    eassert (spend_gold_reserve d1 918000 = Ok (_, false)) as E3 by (vm_compute; reflexivity) end.
  pose proof (day_start 20833 treasury_db eq_refl) as H0.
  pose proof (day_spend _ _ _ _ _ _ _ H0 E1) as H1. pose proof (day_spend _ _ _ _ _ _ _ H1 E3) as H2.
  pose proof (day_spend _ _ _ _ _ _ _ H2 E2) as H3. cbn in H3.
  eexists. split; [exact H3|].
  pose proof (daily_spending_limited 20833 treasury_db 1900000 _ treasury_db_ok
                ltac:(intros v [= <-]; vm_compute; discriminate) H3) as Ht.
  cbn in Ht. destruct Ht as [Ht _]. exact Ht.
Defined.
