(* ===== verification/Budget.v ===== *)
(** The budget of a maintenance interval ([db_maint.cpp]): how much of the reserve may
    be spent, the pay of the workers in the core asset ([worker_evaluator.cpp]) or in
    GOLD out of the treasury, and the new core supply. *)
From S2P Require Import Prelude Records Fc Asset Objects Vesting Database Holdings Sample Feed Vault.

Definition GRAPHENE_CORE_ASSET_CYCLE_RATE : Z := 17.
Definition GRAPHENE_CORE_ASSET_CYCLE_RATE_BITS : Z := 32.

(** [fc::microseconds] in a day and between two times. *)
Definition day_count : Z := 86400 * 1000000.
Definition microseconds_between (a b : time_point_sec) : Z := (b - a) * 1000000.

(** ** The workers in the order of their pay *)

Definition worker_is_active (w : worker_object) (now : time_point_sec) : bool :=
  (now >=? wk_work_begin_date w) && (now <=? wk_work_end_date w).

Definition approving_stake (w : worker_object) : share_type :=
  to_int64 (to_int64 (wk_total_votes_for w) - to_int64 (wk_total_votes_against w)).

Definition worker_before (a b : Z * worker_object) : bool :=
  if negb (approving_stake (snd a) =? approving_stake (snd b))
  then approving_stake (snd a) >? approving_stake (snd b) else fst a <? fst b.

Definition active_workers (d : database) : list (Z * worker_object) :=
  insertion_sort worker_before
    (filter (fun w => worker_is_active (snd w) (head_block_time d) && (approving_stake (snd w) >? 0) = true)
       (map_to_list (rows (workers d)))).

Section Budget.
Context `{SafeInt64}.

(** ** Pay in the core asset *)

(** [pay_worker] of the three kinds of worker. *)
Definition refund_pay_worker (d : database) (total_burned pay : share_type) : result (database * share_type) :=
  let! total := safe_add total_burned pay in
  let! dyn := get_dyn d CORE in
  let! s := safe_sub (dd_current_supply dyn) pay in
  Ok (set_dyn d CORE (dyn <| dd_current_supply := s |>), total).

Definition vesting_pay_worker (d : database) (balance : Z) (pay : share_type) : result database :=
  let! vbo := of_option "vesting balance" (tfind (vestings d) balance) in
  let! vbo' := vbo_deposit vbo (head_block_time d) (Asset pay CORE) in
  Ok (d <| vestings := tmodify (vestings d) balance vbo' |>).

Definition burn_pay_worker (d : database) (total_burned pay : share_type) : result (database * share_type) :=
  let! total := safe_add total_burned pay in
  let! d1 := adjust_balance d GRAPHENE_NULL_ACCOUNT (Asset pay CORE) in
  Ok (d1, total).

Definition pay_worker (d : database) (w : worker_type) (pay : share_type) : result (database * worker_type) :=
  match w with
  | refund_worker_type n =>
      let! (d1, total) := refund_pay_worker d n pay in Ok (d1, refund_worker_type total)
  | vesting_balance_worker_type balance => let! d1 := vesting_pay_worker d balance pay in Ok (d1, w)
  | burn_worker_type n =>
      let! (d1, total) := burn_pay_worker d n pay in Ok (d1, burn_worker_type total)
  end.

(** What a worker asks for the time since the last budget. *)
Definition requested_pay (d : database) (w : worker_object) : share_type :=
  to_int64 (u64 (u128 (u128 (wk_daily_pay w)
                       * u128 (microseconds_between (last_budget_time d) (head_block_time d))) / day_count)).

Fixpoint pay_workers_loop (d : database) (ws : list (Z * worker_object)) (budget : share_type)
    : result (database * share_type) :=
  match ws with
  | [] => Ok (d, budget)
  | (id, w) :: ws =>
      if budget >? 0 then
        let actual_pay := Z.min budget (requested_pay d w) in
        let! (d1, k) := pay_worker d (wk_worker w) actual_pay in
        let! budget := safe_sub budget actual_pay in
        pay_workers_loop (d1 <| workers := tmodify (workers d1) id (w <| wk_worker := k |>) |>) ws budget
      else Ok (d, budget)
  end.

Definition pay_workers (d : database) (budget : share_type) : result (database * share_type) :=
  pay_workers_loop d (active_workers d) budget.

(** ** Pay in GOLD *)

(** The vesting balance of a worker's first reward takes over the policy of the one in
    the core asset. *)
Definition open_gold_vesting (d : database) (gold id : Z) (w : worker_object) (reward : share_type)
    (core_vbo : vesting_balance_object) : database :=
  let new_vbo := VestingBalance (wk_worker_account w) (Asset reward gold) (vb_policy core_vbo) vb_worker in
  d <| vestings := tcreate (vestings d) new_vbo |>
    <| workers := tmodify (workers d) id (w <| wk_gold_pay_vb := Some (next_id (vestings d)) |>) |>.

(** The pay of one worker out of the treasury; returns what remains of the budget. *)
Definition pay_gold_worker (d : database) (gold id : Z) (w : worker_object) (reward remaining : share_type)
    : result (database * share_type) :=
  match wk_worker w with
  | refund_worker_type _ => Ok (d, remaining)
  | vesting_balance_worker_type balance =>
      let! (d1, spent) := spend_gold_reserve d reward in
      if negb spent then Ok (d1, remaining)
      else
        let! remaining := safe_sub remaining reward in
        match wk_gold_pay_vb w with
        | Some vb =>
            let! vbo := of_option "vesting balance" (tfind (vestings d1) vb) in
            assert! (vb_owner vbo =? wk_worker_account w) && (asset_id (vb_balance vbo) =? gold)
              @ "Invalid GOLD worker vesting balance" in
            let! vbo' := vbo_deposit vbo (head_block_time d1) (Asset reward gold) in
            Ok (d1 <| vestings := tmodify (vestings d1) vb vbo' |>, remaining)
        | None =>
            let! core_vbo := of_option "vesting balance" (tfind (vestings d1) balance) in
            Ok (open_gold_vesting d1 gold id w reward core_vbo, remaining)
        end
  | burn_worker_type _ =>
      let! (d1, spent) := spend_gold_reserve d reward in
      if negb spent then Ok (d1, remaining)
      else
        let! remaining := safe_sub remaining reward in
        let! d2 := adjust_balance d1 GRAPHENE_NULL_ACCOUNT (Asset reward gold) in
        Ok (d2, remaining)
  end.

(** What a refund worker keeps back of the rest of the budget. *)
Definition refund_threshold (remaining : share_type) (ratio : Z) : result share_type :=
  let rejected := u128 (u128 remaining * ratio) / GRAPHENE_100_PERCENT in
  assert! rejected <=? u128 remaining @ "rejected <= worker_budget_remaining" in
  safe_sub remaining (to_int64 (u64 rejected)).

Definition requested_gold (d : database) (pay : share_type) : Z :=
  u128 (u128 pay * u64 (microseconds_between (last_budget_time d) (head_block_time d))) / day_count.

Fixpoint pay_gold_workers_loop (d : database) (gold : asset_id_type) (ws : list (Z * worker_object))
    (remaining : share_type) : result database :=
  match ws with
  | [] => Ok d
  | (id, w) :: ws =>
      match wk_worker w, wk_gold_refund_budget_ratio w with
      | refund_worker_type _, Some ratio =>
          let! remaining := refund_threshold remaining ratio in
          if remaining <=? 0 then Ok d else pay_gold_workers_loop d gold ws remaining
      | _, _ =>
          match wk_gold_daily_pay w with
          | None => pay_gold_workers_loop d gold ws remaining
          | Some pay =>
              let requested := requested_gold d pay in
              if (requested =? 0) || (requested >? GRAPHENE_MAX_SHARE_SUPPLY)
              then pay_gold_workers_loop d gold ws remaining
              else
                let! spendable := available_gold_reserve_spending d in
                let available := Z.min remaining spendable in
                let reward_amount := Z.min requested available in
                if reward_amount <=? 0 then Ok d
                else
                  let! (d1, remaining) := pay_gold_worker d gold id w reward_amount remaining in
                  pay_gold_workers_loop d1 gold ws remaining
          end
      end
  end.

Definition pay_workers_from_gold_reserve (d : database) : result database :=
  match find_gold_asset d with
  | None => Ok d
  | Some (gold, _) =>
      let! budget := available_gold_reserve_spending d in
      pay_gold_workers_loop d gold (active_workers d) budget
  end.

(** ** The budget *)

(** The reserve the core budget starts from: without the collateral of the treasury. *)
Definition initial_reserve (d : database) (now : time_point_sec) : result share_type :=
  let! reserve := reserved d CORE in
  if HARDFORK_DEFISHARES_GOLD_RESERVE_REWARD_PASSED now then
    match find_gold_reserve_vault d with
    | Some v =>
        if gv_enabled v then
          if reserve >? gv_dfs_locked_collateral v then safe_sub reserve (gv_dfs_locked_collateral v) else Ok 0
        else Ok reserve
    | None => Ok reserve
    end
  else Ok reserve.

(** The part of the reserve that may be released after [dt] seconds. *)
Definition released (reserve : share_type) (dt : Z) : share_type :=
  let budget := Z.shiftr (u128 (u128 (u128 (u128 reserve * u64 dt) * GRAPHENE_CORE_ASSET_CYCLE_RATE)
                                + (Z.shiftl 1 GRAPHENE_CORE_ASSET_CYCLE_RATE_BITS - 1)))
                         GRAPHENE_CORE_ASSET_CYCLE_RATE_BITS in
  if budget <? u128 reserve then to_int64 (u64 budget) else reserve.

Definition initialize_budget_record (d : database) (now : time_point_sec) : result budget_record :=
  let! core := get_asset d CORE in
  let! core_dd := get_dyn d CORE in
  let! initial := initial_reserve d now in
  let rec := BudgetRecord 0 initial (dd_accumulated_fees core_dd) (witness_budget d) 0 0 0 0 0 0
               (ao_max_supply (as_options core)) 0 in
  if (last_budget_time d =? 0) || (now <=? last_budget_time d) then Ok rec
  else
    let dt := now - last_budget_time d in
    let! reserve := safe_add initial (dd_accumulated_fees core_dd) in
    let! reserve := safe_add reserve (witness_budget d) in
    Ok (rec <| br_time_since_last_budget := dt |> <| br_total_budget := released reserve dt |>).

(** What the witnesses are meant to get until the next maintenance. *)
Definition requested_witness_budget (d : database) (now : time_point_sec) : result share_type :=
  let interval := cp_block_interval (params d) in
  if interval =? 0 then Err (thrown "undefined behaviour: division by a block interval of zero")
  else
    let blocks_to_maint := u64 (u64 (next_maintenance_time d - now) + interval - 1) / interval in
    Ok (if HARDFORK_DEFISHARES_GOLD_RESERVE_REWARD_PASSED now then 0
        else to_int64 (u64 (cp_witness_pay_per_block (params d) * blocks_to_maint))).

Definition worker_budget_of (d : database) (now : time_point_sec) (available_funds : share_type) : share_type :=
  if HARDFORK_DEFISHARES_GOLD_RESERVE_REWARD_PASSED now then 0
  else
    let budget := u128 (u128 (cp_worker_budget_per_day (params d)) * u64 (next_maintenance_time d - now)) / 86400 in
    if budget >=? u128 available_funds then available_funds else to_int64 (u64 budget).

(** The pay of the workers and what is left of their budget. *)
Definition pay_all_workers (d : database) (now : time_point_sec) (worker_budget : share_type)
    : result (database * share_type) :=
  if HARDFORK_DEFISHARES_GOLD_RESERVE_REWARD_PASSED now then
    let! d1 := pay_workers_from_gold_reserve d in Ok (d1, worker_budget)
  else pay_workers d worker_budget.

Definition process_budget (d : database) : result database :=
  let now := head_block_time d in
  let! requested := requested_witness_budget d now in
  let! rec := initialize_budget_record d now in
  let available_funds := br_total_budget rec in
  let witness_budget := Z.min requested available_funds in
  let! available_funds := safe_sub available_funds witness_budget in
  let worker_budget := worker_budget_of d now available_funds in
  let! available_funds := safe_sub available_funds worker_budget in
  let! (d1, leftover_worker_funds) := pay_all_workers d now worker_budget in
  let! available_funds := safe_add available_funds leftover_worker_funds in
  let! delta := safe_add witness_budget worker_budget in
  let! delta := safe_sub delta leftover_worker_funds in
  let! delta := safe_sub delta (br_from_accumulated_fees rec) in
  let! delta := safe_sub delta (br_from_unused_witness_budget rec) in
  let! core := get_dyn d1 CORE in
  let! supply := safe_add (dd_current_supply core) delta in
  let rec := rec <| br_requested_witness_budget := requested |> <| br_witness_budget := witness_budget |>
               <| br_worker_budget := worker_budget |> <| br_leftover_worker_funds := leftover_worker_funds |>
               <| br_supply_delta := delta |> <| br_current_supply := supply |> in
  Ok ((set_dyn d1 CORE (core <| dd_current_supply := supply |> <| dd_accumulated_fees := 0 |>))
        <| Database.witness_budget := witness_budget |> <| last_budget_time := now |>
        <| budget_records ::= fun l => l ++ [(now, rec)] |>).
End Budget.

(** ** Where the money goes *)

(** What the pay of workers leaves alone. *)
Record budget_frame (d d1 : database) : Prop := {
  bf_witness_budget : witness_budget d1 = witness_budget d;
  bf_time : head_block_time d1 = head_block_time d;
  bf_last : last_budget_time d1 = last_budget_time d;
  bf_assets : assets d1 = assets d;
  bf_fees : dd_accumulated_fees <$> (dyn_data d1 !! CORE) = dd_accumulated_fees <$> (dyn_data d !! CORE);
  bf_reserve : reserve_ok d -> reserve_ok d1;
}.

#[export] Instance budget_frame_preorder : PreOrder budget_frame.
Proof.
  split; [by split|]. intros d0 d1 d2 [E1 E2 E3 E4 E5 E6] [F1 F2 F3 F4 F5 F6].
  split; [by rewrite F1 | by rewrite F2 | by rewrite F3 | by rewrite F4 | by rewrite F5 | auto].
Qed.

Section BudgetLaws.
Context `{SafeInt64Laws}.

Lemma vested_budget_frame d x d1 : vested d x d1 -> budget_frame d d1 /\ dyn_data d1 = dyn_data d.
Proof. by intros (t & -> & _). Qed.

Lemma set_workers_paid d x d1 t : paid d x d1 -> paid d x (d1 <| workers := t |>).
Proof.
  intros Hp Hwf. destruct (Hp Hwf) as [Hwf1 E]. split.
  - destruct Hwf1. wf.
  - intros a. rewrite <- E. unfold excess, holdings, supply. cbn. lia.
Qed.

Lemma set_workers_frame d d1 t : budget_frame d d1 -> budget_frame d (d1 <| workers := t |>).
Proof. by intros []. Qed.

Lemma adjust_balance_paid d acc x d' : adjust_balance d acc x = Ok d' ->
  paid d x d' /\ budget_frame d d' /\ dyn_data d' = dyn_data d.
Proof.
  intros E. apply adjust_balance_frame in E as (m & -> & Hsum & _). split; [|by split_and!].
  intros Hwf. split; [destruct Hwf; wf|]. intros a. unfold excess, holdings, supply. cbn. rewrite Hsum. lia.
Qed.

Lemma vbo_deposit_paid d id v v' x : tfind (vestings d) id = Some v ->
  vbo_deposit v (head_block_time d) x = Ok v' ->
  vested d x (d <| vestings := tmodify (vestings d) id v' |>).
Proof. intros Hv E. eapply vested_modify; [done|]. intros a. eapply vbo_deposit_balance. by left. Qed.

Lemma pay_worker_paid d w pay d1 k : pay_worker d w pay = Ok (d1, k) ->
  paid d (Asset pay CORE) d1 /\ budget_frame d d1.
Proof.
  destruct w; cbn; unfold refund_pay_worker, vesting_pay_worker, burn_pay_worker, get_dyn; intros E; mon; safe_ints.
  - split.
    + intros Hwf. destruct (set_dyn_excess d CORE (r1 <| dd_current_supply := r2 |>) r1) as [Hwf1 Hex]; [done..|].
      split; [done|]. intros a. rewrite Hex. unfold asset_in. cbn. subst. lia.
    + split; try done. cbn. by rewrite lookup_insert_eq, Hr1.
  - match goal with E1 : tfind _ _ = Some _, E2 : vbo_deposit _ _ _ = Ok _ |- _ =>
      pose proof (vbo_deposit_paid _ _ _ _ _ E1 E2) as Hv end. split; [by apply vested_paid | by eapply vested_budget_frame].
  - by match goal with E : adjust_balance _ _ _ = Ok _ |- _ => apply adjust_balance_paid in E as (? & ? & _) end.
Qed.

Lemma pay_workers_loop_paid ws d budget d' left : pay_workers_loop d ws budget = Ok (d', left) ->
  paid d (Asset (budget - left) CORE) d' /\ budget_frame d d'.
Proof.
  revert d budget. induction ws as [|[id w] ws IH]; cbn; intros d budget E.
  - mon. rewrite Z.sub_diag. split; [apply paid_nothing | done].
  - destruct (budget >? 0).
    2:{ mon. rewrite Z.sub_diag. split; [apply paid_nothing | done]. }
    mon. destruct r as [d1 k]. mon. safe_ints. apply pay_worker_paid in Hr as [Hp Hf].
    apply IH in E as [Hp' Hf']. split.
    + eapply paid_trans; [by apply set_workers_paid | exact Hp' | lia].
    + etrans; [|exact Hf']. by apply set_workers_frame.
Qed.

(** ** GOLD *)

(** A payment in GOLD conserves the assets and leaves every supply alone. *)
Definition gold_frame (d d' : database) : Prop := budget_frame d d' /\ dyn_data d' = dyn_data d.

#[export] Instance gold_frame_preorder : PreOrder gold_frame.
Proof. split; [by intros d|]. intros d0 d1 d2 [F1 E1] [F2 E2]. split; [by transitivity d1 | by rewrite E2]. Qed.

Definition gold_paid (d d' : database) : Prop :=
  db_wf d -> reserve_ok d -> db_wf d' /\ reserve_ok d' /\ conserves d d' /\ gold_frame d d'.

Lemma spend_frame d n d' b : spend_gold_reserve d n = Ok (d', b) -> db_wf d -> reserve_ok d ->
  gold_frame d d'.
Proof.
  intros E Hwf Hr. pose proof (spend_keeps _ _ _ _ E Hwf Hr) as (_ & Hr1 & _).
  apply spend_exact in E as (_ & Hf & Ht); [|done]. destruct b; [|by rewrite Hf by done].
  destruct (Ht eq_refl) as [[_ ->]|(v & _ & _ & _ & _ & _ & ->)]; by split.
Qed.

#[export] Instance gold_paid_preorder : PreOrder gold_paid.
Proof.
  split; [intros d Hwf Hr; split_and!; [done | done | reflexivity | reflexivity]|].
  intros d0 d1 d2 H1 H2 Hwf Hr. destruct (H1 Hwf Hr) as (Hwf1 & Hr1 & Hc1 & Hf1).
  destruct (H2 Hwf1 Hr1) as (Hwf2 & Hr2 & Hc2 & Hf2). split_and!; [done | done | by transitivity d1 | by transitivity d1].
Qed.

Lemma spend_then_pay d n d1 gid g d' : spend_gold_reserve d n = Ok (d1, true) -> find_gold_asset d = Some (gid, g) ->
  paid d1 (Asset n gid) d' -> gold_frame d1 d' -> gold_paid d d'.
Proof.
  intros E Hg Hp Hf Hwf Hr. pose proof (spend_frame _ _ _ _ E Hwf Hr) as Hf1.
  destruct (spend_and_pay _ _ _ _ _ _ E Hg Hp (bf_reserve _ _ (proj1 Hf)) Hwf Hr) as (? & ? & ?).
  split_and!; [done..|]. by transitivity d1.
Qed.

Lemma spend_refused d n d1 : spend_gold_reserve d n = Ok (d1, false) -> gold_paid d d1.
Proof.
  intros E Hwf Hr. apply spend_exact in E as (_ & -> & _); [|done|done].
  split_and!; [done | done | reflexivity | reflexivity].
Qed.

Lemma open_gold_vesting_paid d gid id w n v : paid d (Asset n gid) (open_gold_vesting d gid id w n v)
  /\ gold_frame d (open_gold_vesting d gid id w n v).
Proof.
  unfold open_gold_vesting. set (x := VestingBalance _ _ _ _).
  assert (vested d (Asset n gid) (d <| vestings := tcreate (vestings d) x |>)) as Hv by by apply vested_create.
  split; [by apply set_workers_paid, vested_paid|]. apply vested_budget_frame in Hv as [Hf Hd].
  split; [by apply set_workers_frame | done].
Qed.

Lemma pay_gold_worker_paid d gid g id w n rem d' rem' : pay_gold_worker d gid id w n rem = Ok (d', rem') ->
  find_gold_asset d = Some (gid, g) -> gold_paid d d'.
Proof.
  unfold pay_gold_worker. intros E Hg. destruct (wk_worker w) as [|bal|]; [by mon| |].
  - mon. destruct r as [d1 b]. destruct b; cbn [negb] in E; [|mon; by apply spend_refused in Hr]. mon.
    destruct (wk_gold_pay_vb w); mon.
    + eapply spend_then_pay; [done..| |]; [apply vested_paid | eapply vested_budget_frame]; by eapply vbo_deposit_paid.
    + eapply spend_then_pay; [done..| |]; apply open_gold_vesting_paid.
  - mon. destruct r as [d1 b]. destruct b; cbn [negb] in E; [|mon; by apply spend_refused in Hr]. mon.
    match goal with E : adjust_balance _ _ _ = Ok _ |- _ => apply adjust_balance_paid in E as [Hp Hf] end.
    by eapply spend_then_pay.
Qed.

Lemma pay_gold_workers_loop_paid g gid ws d rem d' : pay_gold_workers_loop d gid ws rem = Ok d' ->
  find_gold_asset d = Some (gid, g) -> db_wf d -> reserve_ok d -> db_wf d' /\ reserve_ok d' /\ conserves d d' /\ gold_frame d d'.
Proof.
  revert d rem. induction ws as [|[id w] ws IH]; cbn [pay_gold_workers_loop]; intros d rem E Hg Hwf Hr.
  { mon. split_and!; [done | done | reflexivity | reflexivity]. }
  assert (match wk_gold_daily_pay w with
          | None => pay_gold_workers_loop d gid ws rem
          | Some pay =>
              if (requested_gold d pay =? 0) || (requested_gold d pay >? GRAPHENE_MAX_SHARE_SUPPLY)
              then pay_gold_workers_loop d gid ws rem
              else
                let! spendable := available_gold_reserve_spending d in
                if Z.min (requested_gold d pay) (Z.min rem spendable) <=? 0 then Ok d
                else
                  let! (d1, remaining) := pay_gold_worker d gid id w
                     (Z.min (requested_gold d pay) (Z.min rem spendable)) rem in
                  pay_gold_workers_loop d1 gid ws remaining
          end = Ok d' -> db_wf d' /\ reserve_ok d' /\ conserves d d' /\ gold_frame d d') as Hpay.
  { clear E. intros E. destruct (wk_gold_daily_pay w) as [pay|]; [|by eapply IH].
    destruct (_ || _); [by eapply IH|]. mon. destruct (_ <=? 0).
    { mon. split_and!; [done | done | reflexivity | reflexivity]. }
    mon. destruct r0 as [d1 rem1]. pose proof (pay_gold_worker_paid _ _ _ _ _ _ _ _ _ Hr1 Hg Hwf Hr) as (Hwf1 & Hres1 & Hc1 & Hf1).
    assert (find_gold_asset d1 = Some (gid, g)) as Hg1 by (unfold find_gold_asset in *; by rewrite (bf_assets _ _ (proj1 Hf1))).
    destruct (IH _ _ E Hg1 Hwf1 Hres1) as (? & ? & ? & ?). split_and!; [done | done | by transitivity d1 | by transitivity d1]. }
  destruct (wk_worker w) as [burned|bal|burned]; [|by apply Hpay..].
  destruct (wk_gold_refund_budget_ratio w); [|by apply Hpay]. mon. destruct (_ <=? 0).
  - mon. split_and!; [done | done | reflexivity | reflexivity].
  - by eapply IH.
Qed.

Lemma pay_all_workers_paid d now budget d' left : pay_all_workers d now budget = Ok (d', left) ->
  db_wf d -> reserve_ok d -> db_wf d' /\ budget_frame d d'
  /\ forall a, excess a d' = excess a d + ind a CORE * (budget - left).
Proof.
  unfold pay_all_workers, pay_workers_from_gold_reserve, pay_workers. intros E Hwf Hr.
  destruct (HARDFORK_DEFISHARES_GOLD_RESERVE_REWARD_PASSED now).
  - mon. destruct (find_gold_asset d) as [[gid g]|] eqn:Hg; mon.
    + apply (pay_gold_workers_loop_paid g) in Hr0 as (? & ? & Hc & [? _]); [|done..]. split_and!; [done..|].
      intros a. rewrite Hc. lia.
    + split_and!; [done..|]. intros a. lia.
  - apply pay_workers_loop_paid in E as [Hp Hf]. destruct (Hp Hwf) as [Hwf' Hex]. split_and!; [done..|].
    intros a. rewrite Hex. unfold asset_in. cbn. lia.
Qed.

(** The fields of the record that the rest of the budget is computed from. *)
Lemma initialize_budget_record_exact d now rec : initialize_budget_record d now = Ok rec ->
  exists core dyn, get_asset d CORE = Ok core /\ dyn_data d !! CORE = Some dyn
    /\ br_from_accumulated_fees rec = dd_accumulated_fees dyn
    /\ br_from_unused_witness_budget rec = witness_budget d
    /\ initial_reserve d now = Ok (br_from_initial_reserve rec)
    /\ (br_total_budget rec = 0 \/ exists dt, 0 < dt /\ dt = now - last_budget_time d
        /\ int64_range (br_from_initial_reserve rec + dd_accumulated_fees dyn + witness_budget d)
        /\ br_total_budget rec
           = released (br_from_initial_reserve rec + dd_accumulated_fees dyn + witness_budget d) dt).
Proof.
  unfold initialize_budget_record, get_dyn. intros E. mon. exists r, r0.
  destruct ((last_budget_time d =? 0) || _) eqn:Hdt; mon.
  - split_and!; [done..|by left].
  - safe_ints. split_and!; [done..|]. right. eexists. split; [|split; [reflexivity|]]; [lia|]. subst. by split.
Qed.

Lemma process_budget_exact d d' : process_budget d = Ok d' -> db_wf d -> reserve_ok d ->
  exists rec wb leftover d1 core, initialize_budget_record d (head_block_time d) = Ok rec
    /\ wb <= br_total_budget rec /\ int64_range (br_total_budget rec - wb)
    /\ (HARDFORK_DEFISHARES_GOLD_RESERVE_REWARD_PASSED (head_block_time d) = true -> wb = Z.min 0 (br_total_budget rec))
    /\ pay_all_workers d (head_block_time d) (worker_budget_of d (head_block_time d) (br_total_budget rec - wb)) = Ok (d1, leftover)
    /\ dyn_data d1 !! CORE = Some core /\ dd_accumulated_fees core = br_from_accumulated_fees rec
    /\ (exists l, d' = (set_dyn d1 CORE (core <| dd_current_supply := dd_current_supply core
           + (wb + worker_budget_of d (head_block_time d) (br_total_budget rec - wb) - leftover
              - br_from_accumulated_fees rec - witness_budget d) |> <| dd_accumulated_fees := 0 |>))
         <| Database.witness_budget := wb |> <| last_budget_time := head_block_time d |> <| budget_records := l |>).
Proof.
  unfold process_budget, get_dyn. intros E Hwf Hres. mon. rename r0 into rec.
  match goal with E : pay_all_workers _ _ _ = Ok ?p |- _ => destruct p as [d1 leftover] end. mon. safe_ints.
  destruct (initialize_budget_record_exact _ _ _ Hr0) as (core & dyn & _ & Hdyn & Eacc & Ewb & _).
  match goal with E : pay_all_workers _ _ _ = Ok _ |- _ => pose proof E as Hpay; apply pay_all_workers_paid in E as (_ & Hf & _); [|done..] end.
  match goal with E : dyn_data d1 !! CORE = Some ?c |- _ => rename c into core1; rename E into Hc end.
  exists rec, (Z.min r (br_total_budget rec)), leftover, d1, core1. subst.
  split_and!; [done | lia | done | | done | done | |].
  - intros Hhf. unfold requested_witness_budget in Hr. rewrite Hhf in Hr. destruct (_ =? 0); [done|]. by mon.
  - pose proof (bf_fees _ _ Hf) as Hfees. rewrite Hc, Hdyn in Hfees. cbn in Hfees. injection Hfees as ->. done.
  - eexists. rewrite <- Ewb. reflexivity.
Qed.

(** ** The books of the payments of the protocol *)

(** The payments the protocol makes by itself. *)
Inductive protocol_payment (d d' : database) : Prop :=
  | payment_budget : process_budget d = Ok d' -> protocol_payment d d'
  | payment_witness id aslot num : update_signing_witness d id aslot num = Ok d' -> protocol_payment d d'
  | payment_reserve updated : update_gold_reserve d updated = Ok d' -> protocol_payment d d'.

Lemma finish_budget_excess a d w t l :
  excess a (d <| witness_budget := w |> <| last_budget_time := t |> <| budget_records := l |>)
  = excess a d + ind a CORE * (w - witness_budget d).
Proof. unfold excess, holdings, supply. cbn. lia. Qed.

Lemma set_dyn_witness_budget d i x : witness_budget (set_dyn d i x) = witness_budget d.
Proof. done. Qed.

Lemma process_budget_keeps d d' : process_budget d = Ok d' -> keeps_reserve d d'.
Proof.
  intros E Hwf Hres.
  destruct (process_budget_exact _ _ E Hwf Hres) as (rec & wb & left & d1 & core & Hrec & Hwb & Hrange & Hgold & Hpay & Hc & Hacc & l & ->).
  destruct (pay_all_workers_paid _ _ _ _ _ Hpay Hwf Hres) as (Hwf1 & Hf & Hex).
  set (delta := wb + _ - left - _ - _) in *.
  destruct (set_dyn_excess d1 CORE (core <| dd_current_supply := dd_current_supply core + delta |>
      <| dd_accumulated_fees := 0 |>) core) as [Hwf2 Hex2]; [done..|].
  split_and!; [destruct Hwf2; wf | by apply (bf_reserve _ _ Hf) |].
  intros a. rewrite finish_budget_excess, set_dyn_witness_budget, Hex2, Hex.
  rewrite (bf_witness_budget _ _ Hf). cbn. unfold delta. rewrite Hacc. lia.
Qed.

(** C24: the payments the protocol makes by itself keep the books: the budget of a
    maintenance interval, in the core asset as in GOLD, the pay of every block's witness,
    and the opening and rebalancing of the treasury neither create nor destroy anything
    but what they add to the supplies, the treasury's debt stays the sum of its pool and
    of the rewards it has paid, and the state stays well-formed. *)
Theorem protocol_payments_accounted d d' : db_wf d -> reserve_ok d -> protocol_payment d d' ->
  db_wf d' /\ reserve_ok d' /\ conserves d d'.
Proof.
  intros Hwf Hres [E|id aslot num E|u E].
  - by apply (process_budget_keeps d d').
  - by apply (update_signing_witness_keeps d id aslot num d').
  - by apply (update_gold_reserve_keeps d u d').
Qed.

(** ** How much the supply can grow *)

Definition workers_ok (ws : list (Z * worker_object)) : Prop :=
  Forall (fun w => 0 <= wk_daily_pay (snd w) <= GRAPHENE_MAX_SHARE_SUPPLY) ws.

Lemma requested_pay_nonneg d w : 0 <= wk_daily_pay w <= GRAPHENE_MAX_SHARE_SUPPLY ->
  0 <= head_block_time d - last_budget_time d <= 9000 * 86400 -> 0 <= requested_pay d w.
Proof.
  unfold requested_pay, microseconds_between, day_count, GRAPHENE_MAX_SHARE_SUPPLY. intros Hp Ht.
  set (t := head_block_time d - last_budget_time d) in *. set (p := wk_daily_pay w) in *.
  assert (0 <= p * (t * 1000000) <= 10 ^ 15 * (9000 * 86400 * 1000000)) by nia.
  rewrite (u128_small p), (u128_small (t * 1000000)), u128_small by lia.
  set (x := _ / _). assert (0 <= x <= 9000 * 10 ^ 15) as Hx.
  { unfold x. split; [apply Z.div_pos; lia|]. apply Z.div_le_upper_bound; lia. }
  unfold u64. rewrite Z.mod_small by lia. rewrite to_int64_small; [lia|]. unfold_int64. lia.
Qed.

Lemma pay_worker_supply d w pay d1 k : pay_worker d w pay = Ok (d1, k) -> 0 <= pay -> supply CORE d1 <= supply CORE d.
Proof.
  destruct w; cbn; unfold refund_pay_worker, vesting_pay_worker, burn_pay_worker, get_dyn; intros E Hp; mon; safe_ints.
  - unfold supply, supply_in. cbn. rewrite lookup_insert_eq, Hr1. cbn. lia.
  - done.
  - match goal with E : adjust_balance _ _ _ = Ok _ |- _ => apply adjust_balance_paid in E as (_ & _ & Edyn) end.
    unfold supply. by rewrite Edyn.
Qed.

Lemma pay_workers_loop_supply ws d budget d' left : pay_workers_loop d ws budget = Ok (d', left) -> workers_ok ws ->
  0 <= head_block_time d - last_budget_time d <= 9000 * 86400 -> 0 <= budget ->
  supply CORE d' <= supply CORE d /\ 0 <= left.
Proof.
  revert d budget. induction ws as [|[id w] ws IH]; cbn [pay_workers_loop]; intros d budget E Hok Ht Hb; [mon; lia|].
  destruct (budget >? 0); [|mon; lia]. mon. destruct r as [d1 k]. mon. safe_ints.
  apply Forall_cons in Hok as [Hw Hok]. pose proof (requested_pay_nonneg d w Hw Ht).
  pose proof (pay_worker_supply _ _ _ _ _ Hr ltac:(lia)) as Hs. apply pay_worker_paid in Hr as [_ []].
  apply IH in E as [Hs' Hl]; [| done | cbn; lia | lia]. split; [|done]. etrans; [exact Hs'|]. exact Hs.
Qed.

Lemma gold_workers_supply d now budget d' left : pay_all_workers d now budget = Ok (d', left) ->
  HARDFORK_DEFISHARES_GOLD_RESERVE_REWARD_PASSED now = true -> db_wf d -> reserve_ok d ->
  supply CORE d' = supply CORE d /\ left = budget.
Proof.
  unfold pay_all_workers, pay_workers_from_gold_reserve. intros E Hf Hwf Hres. rewrite Hf in E. mon. split; [|done].
  destruct (find_gold_asset d) as [[gid g]|] eqn:Hg; mon; [|done].
  match goal with E : pay_gold_workers_loop _ _ _ _ = Ok _ |- _ =>
    apply (pay_gold_workers_loop_paid g) in E as (_ & _ & _ & [_ E]); [|done..]; unfold supply; by rewrite E end.
Qed.

(** The released budget is the fraction 17 / 2^32 of the reserve for every second,
    rounded up, and at most the reserve. *)
Lemma released_exact r dt : 0 <= r < 2 ^ 63 -> 0 < dt < 2 ^ 32 ->
  released r dt = Z.min r (ceil_div (r * dt * 17) (2 ^ 32)).
Proof.
  unfold released, ceil_div, GRAPHENE_CORE_ASSET_CYCLE_RATE, GRAPHENE_CORE_ASSET_CYCLE_RATE_BITS. intros Hr Hd.
  assert (0 <= r * dt <= 2 ^ 95) by nia.
  set (x := (r * dt * 17 + 2 ^ 32 - 1) / 2 ^ 32).
  assert (Z.shiftr (u128 (u128 (u128 (u128 r * u64 dt) * 17) + (Z.shiftl 1 32 - 1))) 32 = x) as ->.
  { unfold u64. rewrite (Z.mod_small dt) by lia. rewrite (u128_small r), (u128_small (r * dt)), (u128_small (r * dt * 17)) by lia.
    change (Z.shiftl 1 32) with (2 ^ 32). rewrite u128_small by lia. rewrite Z.shiftr_div_pow2 by lia. by rewrite Z.add_sub_assoc. }
  rewrite (u128_small r) by lia. assert (0 <= x) by (apply Z.div_pos; lia). destruct (Z.ltb_spec x r); [|lia].
  unfold u64. rewrite Z.mod_small by lia. rewrite to_int64_small; [lia | unfold_int64; lia].
Qed.

Lemma released_nonneg r dt : 0 <= r < 2 ^ 63 -> 0 <= released r dt.
Proof.
  unfold released. intros Hr. rewrite (u128_small r) by lia. set (x := Z.shiftr _ _).
  assert (0 <= x) by (apply Z.shiftr_nonneg, u128_bound). destruct (Z.ltb_spec x r); [|lia].
  unfold u64. rewrite Z.mod_small by lia. rewrite to_int64_small; [lia | unfold_int64; lia].
Qed.

Lemma initial_reserve_bounds d now r i : initial_reserve d now = Ok i -> reserved d CORE = Ok r -> 0 <= r ->
  0 <= i /\ (HARDFORK_DEFISHARES_GOLD_RESERVE_REWARD_PASSED now = false -> i = r).
Proof.
  unfold initial_reserve. intros E Hr Hr0. rewrite Hr in E. cbn in E.
  destruct (HARDFORK_DEFISHARES_GOLD_RESERVE_REWARD_PASSED now); [|by mon].
  split; [|done]. destruct (find_gold_reserve_vault d) as [v|]; [|by mon]. destruct (gv_enabled v); [|by mon].
  destruct (r >? _) eqn:Hgt; mon; safe_ints; lia.
Qed.

Lemma worker_budget_bounds d now n : 0 <= n < 2 ^ 63 -> 0 <= worker_budget_of d now n <= n.
Proof.
  intros Hn. unfold worker_budget_of. destruct (HARDFORK_DEFISHARES_GOLD_RESERVE_REWARD_PASSED now); [lia|].
  set (x := u128 _ / 86400). assert (0 <= x) by (apply Z.div_pos; [apply u128_bound | lia]).
  rewrite (u128_small n) by lia. destruct (x >=? n) eqn:E; reflect_bools; [lia|].
  unfold u64. rewrite Z.mod_small by lia. rewrite to_int64_small; [lia | unfold_int64; lia].
Qed.

Lemma budget_supply d i x n w t l :
  supply i ((set_dyn d i (x <| dd_current_supply := n |> <| dd_accumulated_fees := 0 |>))
    <| witness_budget := w |> <| last_budget_time := t |> <| budget_records := l |>) = n.
Proof. unfold supply, supply_in. cbn. by rewrite lookup_insert_eq. Qed.

(** C27: the budget of a maintenance interval stays within the reserve: for every second
    since the last one at most the fraction 17 / 2^32 of the unissued core supply, with
    the fees and the unused witness budget that return to it, rounded up once, is added
    to the supply, which never exceeds its maximum; once rewards are paid in GOLD the
    core supply only shrinks, by exactly the fees and the budget that return. *)
Theorem budget_within_reserve d d' x r :
  db_wf d -> reserve_ok d -> workers_ok (active_workers d) ->
  0 <= head_block_time d - last_budget_time d <= 9000 * 86400 ->
  dyn_data d !! CORE = Some x -> 0 <= dd_accumulated_fees x -> 0 <= witness_budget d ->
  reserved d CORE = Ok r -> 0 <= r ->
  process_budget d = Ok d' ->
  let dt := head_block_time d - last_budget_time d in
  let returned := dd_accumulated_fees x + witness_budget d in
  if HARDFORK_DEFISHARES_GOLD_RESERVE_REWARD_PASSED (head_block_time d)
  then supply CORE d' = supply CORE d - returned
  else supply CORE d' + returned <= supply CORE d + Z.min (r + returned) (ceil_div ((r + returned) * dt * 17) (2 ^ 32)).
Proof.
  intros Hwf Hres Hws Ht Hx Hacc Hwb0 Hr Hr0 E. cbn zeta.
  destruct (process_budget_exact _ _ E Hwf Hres) as (rec & wb & left & d1 & core & Hrec & Hwb & Hrange & Hgold & Hpay & Hc & Hacc1 & l & ->).
  destruct (initialize_budget_record_exact _ _ _ Hrec) as (co & x' & _ & Hx' & Ea & Eb & Hini & Htot).
  rewrite Hx in Hx'. injection Hx' as <-.
  rewrite budget_supply, Ea. remember (dd_accumulated_fees x + witness_budget d) as returned eqn:Hret.
  assert (supply CORE d1 = dd_current_supply core) as Es by (unfold supply, supply_in; by rewrite Hc).
  destruct (initial_reserve_bounds _ _ _ _ Hini Hr Hr0) as [Hi0 Hi].
  assert (0 <= br_total_budget rec) as Ht0.
  { destruct Htot as [->|(dt & Hdt & -> & Hrg & ->)]; [lia|]. apply released_nonneg. unfold_int64. lia. }
  destruct (HARDFORK_DEFISHARES_GOLD_RESERVE_REWARD_PASSED (head_block_time d)) eqn:Hhf.
  - destruct (gold_workers_supply _ _ _ _ _ Hpay Hhf Hwf Hres) as [E1 ->].
    rewrite Hgold by done. lia.
  - unfold pay_all_workers in Hpay. rewrite Hhf in Hpay.
    set (wkb := worker_budget_of d _ _) in *.
    assert (0 <= wkb <= br_total_budget rec - wb) by (apply worker_budget_bounds; unfold_int64; lia).
    apply pay_workers_loop_supply in Hpay as [E1 Hl]; [|done..|lia].
    enough (br_total_budget rec <= Z.min (r + returned) (ceil_div ((r + returned) * (head_block_time d - last_budget_time d) * 17) (2 ^ 32)))
      by (lia).
    assert (0 <= r + returned) by (lia).
    destruct Htot as [->|(dt & Hdt & -> & Hrg & ->)].
    + apply Z.min_glb; [done|]. apply ceil_div_nonneg; [lia|]. nia.
    + rewrite (Hi eq_refl) in *. rewrite released_exact by (unfold_int64; lia).
      replace (r + dd_accumulated_fees x + witness_budget d) with (r + returned) by (lia). lia.
Qed.
End BudgetLaws.

(** ** A concrete maintenance *)

(** A worker with a vesting balance of thirty days, created sixty days ago; one that
    burns its pay; one that returns it; and one that keeps back a tenth of the budget. *)
Definition sample_workers : table worker_object := table_from [
  Worker 6 1794000000 1900000000 0 (vesting_balance_worker_type 0) None (Some 1000000) None 900 0;
  Worker 7 1794000000 1900000000 0 (burn_worker_type 0) None (Some 500000) None 800 100;
  Worker 5 1794000000 1900000000 0 (refund_worker_type 0) None None (Some 1000) 950 0;
  Worker 5 1770000000 1790000000 600000 (refund_worker_type 0) None None None 300 0;
  Worker 6 1770000000 1790000000 400000 (vesting_balance_worker_type 0) None None None 200 100;
  Worker 7 1770000000 1790000000 200000 (burn_worker_type 0) None None None 500 10].

Definition worker_vesting : vesting_balance_object :=
  VestingBalance 6 (Asset 0 CORE) (cdd_vesting_policy (30 * 86400) 0 0 (1800000000 - 60 * 86400)) vb_worker.

Definition maintenance_db : database :=
  treasury_db <| workers := sample_workers |> <| vestings := table_from [worker_vesting] |>.

(** The same chain before the rewards are paid in GOLD. *)
Definition early_db : database :=
  maintenance_db <| head_block_time := 1780000000 |> <| next_maintenance_time := 1780000060 |>
    <| last_budget_time := 1779913600 |> <| vault := None |>
    <| dyn_data := <[3 := AssetDynamicData 0 0 0 0 0]> (<[0 := AssetDynamicData 3000000 0 0 0 0]> (dyn_data sample_db)) |>.

(** Fields that [db_wf] does not mention, and the vesting balances. *)
Definition with_budget (d e : database) : database :=
  d <| dyn_data := dyn_data e |> <| vault := vault e |> <| workers := workers e |> <| vestings := vestings e |>
    <| head_block_time := head_block_time e |> <| next_maintenance_time := next_maintenance_time e |>
    <| last_budget_time := last_budget_time e |>.

Lemma db_wf_budget d e : db_wf d -> table_wf (vestings e) -> db_wf (with_budget d e).
Proof. intros [] Hvs. by split. Qed.

Lemma maintenance_db_wf : db_wf maintenance_db.
Proof.
  assert (maintenance_db = with_budget gold_db maintenance_db) as -> by (vm_compute; reflexivity).
  apply db_wf_budget; [exact gold_db_wf | exact (table_from_wf [worker_vesting])].
Qed.

Lemma early_db_wf : db_wf early_db.
Proof.
  assert (early_db = with_budget gold_db early_db) as -> by (vm_compute; reflexivity).
  apply db_wf_budget; [exact gold_db_wf | exact (table_from_wf [worker_vesting])].
Qed.

Lemma maintenance_db_ok : reserve_ok maintenance_db.
Proof. exact treasury_db_ok. Qed.

Lemma protocol_payments_accounted_witness : exists d',
  process_budget maintenance_db = Ok d' /\ conserves maintenance_db d' /\ reserve_ok d'
  /\ balance_of d' GRAPHENE_NULL_ACCOUNT 3 = 57870.
Proof.
  eexists. eassert (process_budget maintenance_db = Ok _) as E by (vm_compute; reflexivity).
  pose proof (protocol_payments_accounted _ _ maintenance_db_wf maintenance_db_ok (payment_budget _ _ E)) as (_ & Hr & Hc).
  split; [exact E|]. split; [exact Hc|]. split; [exact Hr|]. vm_compute. reflexivity.
Defined.

Lemma budget_within_reserve_witness : exists d', process_budget early_db = Ok d'
  /\ supply CORE d' = 15600000
  /\ supply CORE d' + (0 + 0) <= supply CORE early_db
       + Z.min (999997000000 + (0 + 0)) (ceil_div ((999997000000 + (0 + 0)) * (1780000000 - 1779913600) * 17) (2 ^ 32)).
Proof.
  eexists. eassert (process_budget early_db = Ok _) as E by (vm_compute; reflexivity).
  split; [exact E|]. split; [vm_compute; reflexivity|].
  assert (reserve_ok early_db) as H1 by exact I.
  assert (workers_ok (active_workers early_db)) as H2.
  { eassert (active_workers early_db = _) as -> by (vm_compute; reflexivity).
    unfold workers_ok, GRAPHENE_MAX_SHARE_SUPPLY. repeat (apply Forall_cons; split; [cbn; lia|]). by apply Forall_nil. }
  assert (0 <= head_block_time early_db - last_budget_time early_db <= 9000 * 86400) as H3 by evaluate_goal.
  assert (dyn_data early_db !! CORE = Some (AssetDynamicData 3000000 0 0 0 0)) as H4 by (vm_compute; reflexivity).
  assert (0 <= dd_accumulated_fees (AssetDynamicData 3000000 0 0 0 0)) as H5 by evaluate_goal.
  assert (0 <= witness_budget early_db) as H6 by evaluate_goal.
  assert (reserved early_db CORE = Ok 999997000000) as H7 by (vm_compute; reflexivity).
  pose proof (budget_within_reserve early_db _ _ _ early_db_wf H1 H2 H3 H4 H5 H6 H7 ltac:(lia) E) as Ht.
  cbv zeta in Ht.
  assert (HARDFORK_DEFISHARES_GOLD_RESERVE_REWARD_PASSED (head_block_time early_db) = false) as Hf by reflexivity.
  rewrite Hf in Ht. exact Ht.
Defined.

(** The balance of the first worker's rewards after two maintenances two hours apart,
    each time with the part of it that can be withdrawn at once. *)
Definition reward_of (d : database) : option (share_type * result asset) :=
  match tfind (vestings d) 1 with
  | Some v => Some (amount (vb_balance v), vbo_get_allowed_withdraw v (head_block_time d))
  | None => None
  end.

Definition two_rewards : result (option (share_type * result asset) * option (share_type * result asset)) :=
  let! d1 := process_budget maintenance_db in
  let! d2 := process_budget (d1 <| head_block_time := 1800007200 |> <| next_maintenance_time := 1800010800 |>) in
  Ok (reward_of d1, reward_of d2).

(** The first GOLD reward of a worker that is older than its vesting period can be
    withdrawn the moment it is paid: its balance takes over the coin-seconds clock of
    the empty balance in the core asset. The next reward has to vest. *)
Lemma first_gold_reward_vests_at_once :
  two_rewards = Ok (Some (115740, Ok (Asset 115740 3)), Some (199073, Ok (Asset 115740 3))).
Proof. vm_compute. reflexivity. Qed.
