(* ===== verification/Market.v ===== *)
(** The order book: limit orders and how they match ([db_market.cpp],
    [market_evaluator.cpp], [protocol/market.cpp]), their creation, cancellation and
    expiration, with the deferred fees they carry. Orders have no automatic actions
    ([on_fill] is empty). Margin calls are disabled on this chain for every asset that
    could have them ([no_margin_calls]), so that orders only match orders. *)
From S2P Require Import Prelude Records Fc Asset Objects Vesting Database Holdings Sample Fees Evaluator Feed.

(** ** Operations *)

Record limit_order_create_operation := LimitOrderCreate {
  oc_fee : asset;
  oc_seller : account_id_type;
  oc_amount_to_sell : asset;
  oc_min_to_receive : asset;
  oc_expiration : time_point_sec;
  oc_fill_or_kill : bool;
}.

Record limit_order_cancel_operation := LimitOrderCancel {
  ol_fee : asset;
  ol_order : Z;
  ol_fee_paying_account : account_id_type;
}.

Definition limit_order_create_validate (op : limit_order_create_operation) : result unit :=
  assert! negb (asset_id (oc_amount_to_sell op) =? asset_id (oc_min_to_receive op))
    @ "amount_to_sell.asset_id != min_to_receive.asset_id" in
  assert! 0 <=? amount (oc_fee op) @ "fee.amount >= 0" in
  assert! 0 <? amount (oc_amount_to_sell op) @ "amount_to_sell.amount > 0" in
  assert! 0 <? amount (oc_min_to_receive op) @ "min_to_receive.amount > 0" in
  Ok tt.

Definition limit_order_cancel_validate (op : limit_order_cancel_operation) : result unit :=
  assert! 0 <=? amount (ol_fee op) @ "fee.amount >= 0" in Ok tt.

(** ** Hard forks *)

Definition HARDFORK_445_TIME : Z := 1450288800.
Definition HARDFORK_555_TIME : Z := 1456250400.
Definition HARDFORK_CORE_184_TIME : Z := 1532008920.
Definition HARDFORK_CORE_342_TIME : Z := 1532008920.
Definition HARDFORK_CORE_604_TIME : Z := 1532008920.
Definition HARDFORK_CORE_606_TIME : Z := 1532008920.
Definition HARDFORK_CORE_625_TIME : Z := 1532008920.
Definition HARDFORK_CORE_2591_PASSED (now : Z) : bool := now >=? 1700143200.

(** ** Orders *)

Definition sell_asset_id (o : limit_order_object) : asset_id_type := asset_id (base (lo_sell_price o)).
Definition receive_asset_id (o : limit_order_object) : asset_id_type := asset_id (quote (lo_sell_price o)).
Definition amount_for_sale (o : limit_order_object) : asset := Asset (lo_for_sale o) (sell_asset_id o).
Definition amount_to_receive (o : limit_order_object) : result asset :=
  asset_mul_price (amount_for_sale o) (lo_sell_price o).

(** The order of the index [by_price]: the higher price first, then the older order. *)
Definition by_price (a b : Z * limit_order_object) : bool :=
  if price_gt (lo_sell_price (snd a)) (lo_sell_price (snd b)) then true
  else if price_gt (lo_sell_price (snd b)) (lo_sell_price (snd a)) then false
  else fst a <? fst b.

Definition is_globally_settled (b : asset_bitasset_data_object) : bool :=
  negb (price_is_null (ba_settlement_price b)).

Definition get_individual_settlement_price (b : asset_bitasset_data_object) : result price :=
  asset_div (Asset (ba_individual_settlement_debt b) (ba_asset_id b))
            (Asset (ba_individual_settlement_fund b) (bo_short_backing_asset (ba_options b))).

Inductive match_result_type := none_filled | only_taker_filled | only_maker_filled | both_filled.

#[export] Instance match_result_eq_dec : EqDecision match_result_type.
Proof. solve_decision. Defined.

Definition get_match_result (taker_filled maker_filled : bool) : match_result_type :=
  match taker_filled, maker_filled with
  | false, false => none_filled
  | true, false => only_taker_filled
  | false, true => only_maker_filled
  | true, true => both_filled
  end.

Definition asset_eqb (a b : asset) : bool := (amount a =? amount b) && (asset_id a =? asset_id b).

Section Market.
Context `{SafeInt64}.
(** The fee of a cancellation, from the fee schedule in force. *)
Variable limit_order_cancel_fee : database -> result share_type.

Definition get_order (d : database) (id : Z) : result limit_order_object :=
  of_option "limit order" (tfind (limit_orders d) id).

Definition set_order (d : database) (id : Z) (o : limit_order_object) : database :=
  d <| limit_orders := tmodify (limit_orders d) id o |>.

(** Without automatic actions there is no linked order to unlink. *)
Definition cleanup_and_remove_limit_order (d : database) (id : Z) : database :=
  d <| limit_orders := tremove (limit_orders d) id |>.

Definition push_applied_operation (d : database) (op : virtual_op) : database :=
  d <| applied_ops ::= cons op |>.

Definition add_core_in_orders (d : database) (owner : account_id_type) (n : share_type) : result database :=
  let! s := get_stats d owner in
  let! x := safe_add (st_total_core_in_orders s) n in
  Ok (d <| account_stats ::= <[owner := s <| st_total_core_in_orders := x |>]> |>).

Definition sub_core_in_orders (d : database) (owner : account_id_type) (n : share_type) : result database :=
  let! s := get_stats d owner in
  let! x := safe_sub (st_total_core_in_orders s) n in
  Ok (d <| account_stats ::= <[owner := s <| st_total_core_in_orders := x |>]> |>).

Definition pay_order (d : database) (receiver : account_id_type) (receives pays : asset) : result database :=
  let! d := if asset_id pays =? CORE then sub_core_in_orders d receiver (amount pays) else Ok d in
  adjust_balance d receiver receives.

(** ** Cancellation *)

(** The part of the fee in another asset that goes with a part of it in core, rounded up. *)
Definition paid_fee_share (paid core_fee deferred_fee : Z) : Z :=
  to_int64 (u128 (u128 (u128 (u128 paid * u128 core_fee) + u128 deferred_fee) - 1) / u128 deferred_fee).

(** What a cancellation costs is taken out of the deferred fee; returns the fee of the
    virtual operation and what remains to be refunded. *)
Definition deduct_cancel_fee (d : database) (o : limit_order_object)
    : result (database * asset * share_type * asset) :=
  let deferred_fee := lo_deferred_fee o in
  let paid := lo_deferred_paid_fee o in
  let! core_cancel_fee := limit_order_cancel_fee d in
  let fee := if core_cancel_fee >? deferred_fee then deferred_fee else core_cancel_fee in
  if fee >? 0 then
    let! d1 := pay_fee d (lo_seller o) fee in
    let! rest := safe_sub deferred_fee fee in
    if amount paid =? 0 then Ok (d1, Asset fee CORE, rest, paid)
    else
      let cancel_fee_amount := paid_fee_share (amount paid) fee deferred_fee in
      let! dyn := get_dyn d1 (asset_id paid) in
      let! acc := safe_add (dd_accumulated_fees dyn) cancel_fee_amount in
      let! left_over := safe_sub (amount paid) cancel_fee_amount in
      Ok (set_dyn d1 (asset_id paid) (dyn <| dd_accumulated_fees := acc |>),
          Asset cancel_fee_amount (asset_id paid), rest, Asset left_over (asset_id paid))
  else Ok (d, Asset 0 CORE, deferred_fee, paid).

(** The deferred fee goes back the way it was paid. *)
Definition refund_deferred_fee (d : database) (o : limit_order_object) (deferred_fee : share_type) (paid : asset)
    : result database :=
  if amount (lo_deferred_paid_fee o) =? 0 then adjust_balance d (lo_seller o) (Asset deferred_fee CORE)
  else
    let! d1 := adjust_balance d (lo_seller o) paid in
    let! dyn := get_dyn d1 (asset_id paid) in
    let! pool := safe_add (dd_fee_pool dyn) deferred_fee in
    Ok (set_dyn d1 (asset_id paid) (dyn <| dd_fee_pool := pool |>)).

Definition cancel_limit_order (d : database) (id : Z) (create_virtual_op skip_cancel_fee : bool) : result database :=
  let! o := get_order d id in
  let! (d1, fee, deferred_fee, paid) :=
    if create_virtual_op && negb skip_cancel_fee && (lo_deferred_fee o >? 0) then deduct_cancel_fee d o
    else Ok (d, Asset 0 CORE, lo_deferred_fee o, lo_deferred_paid_fee o) in
  let refunded := amount_for_sale o in
  let! d2 := if asset_id refunded =? CORE then sub_core_in_orders d1 (lo_seller o) (amount refunded) else Ok d1 in
  let! d3 := adjust_balance d2 (lo_seller o) refunded in
  let! d4 := refund_deferred_fee d3 o deferred_fee paid in
  let d5 := if create_virtual_op then push_applied_operation d4 (vop_limit_order_cancel id (lo_seller o) fee refunded)
            else d4 in
  Ok (cleanup_and_remove_limit_order d5 id).

Definition maybe_cull_small_order (d : database) (id : Z) : result (database * bool) :=
  let! o := get_order d id in
  let! r := amount_to_receive o in
  if amount r =? 0 then
    let! d1 :=
      if (lo_deferred_fee o >? 0) && (head_block_time d <=? HARDFORK_CORE_604_TIME)
      then cancel_limit_order d id true true else cancel_limit_order d id true false in
    Ok (d1, true)
  else Ok (d, false).

(** ** Filling an order *)

(** A maker gets part of the fee back that was paid in another asset, and the fee pool
    of that asset the same part of the core fee; returns what remains of both and what
    the pool gets. *)
Definition discount_paid_fee (d : database) (o : limit_order_object) (percent : Z)
    : result (database * share_type * share_type * share_type) :=
  let paid := lo_deferred_paid_fee o in
  let! refund := calculate_percent (amount paid) percent in
  if refund >? 0 then
    assert! refund <=? amount paid @ "Internal error" in
    let! d1 := adjust_balance d (lo_seller o) (Asset refund (asset_id paid)) in
    let! paid_left := safe_sub (amount paid) refund in
    assert! lo_deferred_fee o >? 0 @ "Internal error" in
    let! pool_refund := calculate_percent (lo_deferred_fee o) percent in
    assert! pool_refund <=? lo_deferred_fee o @ "Internal error" in
    let! fee_left := safe_sub (lo_deferred_fee o) pool_refund in
    Ok (d1, paid_left, fee_left, pool_refund)
  else Ok (d, amount paid, lo_deferred_fee o, 0).

(** The fee that was paid in another asset; returns what remains of the core fee. *)
Definition process_paid_fee (d : database) (o : limit_order_object) (is_maker : bool) : result (database * share_type) :=
  let percent := cp_maker_fee_discount_percent (params d) in
  let paid := lo_deferred_paid_fee o in
  if amount paid >? 0 then
    let! (d1, paid_left, fee_left, pool_refund) :=
      if is_maker && (percent >? 0) then discount_paid_fee d o percent
      else Ok (d, amount paid, lo_deferred_fee o, 0) in
    let! dyn := get_dyn d1 (asset_id paid) in
    let! acc := safe_add (dd_accumulated_fees dyn) paid_left in
    let! pool := safe_add (dd_fee_pool dyn) pool_refund in
    Ok (set_dyn d1 (asset_id paid) (dyn <| dd_accumulated_fees := acc |> <| dd_fee_pool := pool |>), fee_left)
  else Ok (d, lo_deferred_fee o).

(** The core fee of an order, with the discount of a maker that paid it in core. *)
Definition process_core_fee (d : database) (o : limit_order_object) (is_maker : bool) (deferred_fee : share_type)
    : result database :=
  let percent := cp_maker_fee_discount_percent (params d) in
  if lo_deferred_fee o >? 0 then
    let! (d1, fee_left) :=
      if (amount (lo_deferred_paid_fee o) <=? 0) && is_maker && (percent >? 0) then
        let! refund := calculate_percent deferred_fee percent in
        if refund >? 0 then
          assert! refund <=? deferred_fee @ "Internal error" in
          let! d1 := adjust_balance d (lo_seller o) (Asset refund CORE) in
          let! left_over := safe_sub deferred_fee refund in
          Ok (d1, left_over)
        else Ok (d, deferred_fee)
      else Ok (d, deferred_fee) in
    if fee_left >? 0 then pay_fee d1 (lo_seller o) fee_left else Ok d1
  else Ok d.

Definition fill_limit_order (d : database) (id : Z) (pays receives : asset) (cull_if_small : bool)
    (fill_price : price) (is_maker : bool) : result (database * bool) :=
  let! o := get_order d id in
  let cull_if_small := if head_block_time d <? HARDFORK_555_TIME then true else cull_if_small in
  assert! asset_id (amount_for_sale o) =? asset_id pays
    @ "order.amount_for_sale().asset_id == pays.asset_id" in
  assert! negb (asset_id pays =? asset_id receives) @ "pays.asset_id != receives.asset_id" in
  let! seller := get_account d (lo_seller o) in
  let! recv_asset := get_asset d (asset_id receives) in
  let! (d1, issuer_fees) := pay_market_fees d (Some seller) (asset_id receives) recv_asset receives is_maker None in
  let! order_receives := asset_sub receives issuer_fees in
  let! d2 := pay_order d1 (lo_seller o) order_receives pays in
  let d3 := push_applied_operation d2 (vop_fill_order id (lo_seller o) pays receives issuer_fees fill_price is_maker) in
  let! (d4, deferred_fee) := process_paid_fee d3 o is_maker in
  let! d5 := process_core_fee d4 o is_maker deferred_fee in
  if asset_eqb pays (amount_for_sale o) then Ok (cleanup_and_remove_limit_order d5 id, true)
  else
    let! left_over := safe_sub (lo_for_sale o) (amount pays) in
    let d6 := set_order d5 id (o <| lo_for_sale := left_over |>
                <| lo_filled_amount := u128 (lo_filled_amount o + u128 (amount pays)) |>
                <| lo_deferred_fee := 0 |>
                <| lo_deferred_paid_fee ::= fun a => Asset 0 (asset_id a) |>) in
    if cull_if_small then maybe_cull_small_order d6 id else Ok (d6, false).

(** ** Matching two orders *)

(** What the two sides get at the price of the match; [None] when the taker would get
    nothing. The flag says that the smaller taker is to be culled. *)
Definition match_amounts (d : database) (taker maker : limit_order_object) (match_price : price)
    : result (option (asset * asset * bool)) :=
  let maint_time := next_maintenance_time d in
  let taker_for_sale := amount_for_sale taker in
  let maker_for_sale := amount_for_sale maker in
  let! m := asset_mul_price maker_for_sale match_price in
  let! taker_is_smaller := asset_le taker_for_sale m in
  if taker_is_smaller then
    let! taker_receives := asset_mul_price taker_for_sale match_price in
    if (amount taker_receives =? 0) && (maint_time >? HARDFORK_CORE_184_TIME) then Ok None
    else if maint_time <=? HARDFORK_CORE_342_TIME then Ok (Some (taker_receives, taker_for_sale, false))
    else
      let! maker_receives := multiply_and_round_up taker_receives match_price in
      Ok (Some (taker_receives, maker_receives, true))
  else
    let! maker_receives := asset_mul_price maker_for_sale match_price in
    if maint_time <=? HARDFORK_CORE_342_TIME then Ok (Some (maker_for_sale, maker_receives, false))
    else
      let! taker_receives := multiply_and_round_up maker_receives match_price in
      Ok (Some (taker_receives, maker_receives, false)).

Definition match_limit_normal_limit (d : database) (taker_id maker_id : Z) (match_price : price)
    : result (database * match_result_type) :=
  let! taker := get_order d taker_id in
  let! maker := get_order d maker_id in
  assert! negb (lo_is_settled_debt maker) @ "Internal error: maker is settled debt" in
  assert! negb (lo_is_settled_debt taker) @ "Internal error: taker is settled debt" in
  let! m := match_amounts d taker maker match_price in
  match m with
  | None => Ok (d, only_taker_filled)
  | Some (taker_receives, maker_receives, cull_taker) =>
      do! (if next_maintenance_time d <=? HARDFORK_CORE_342_TIME then
             assert! asset_eqb maker_receives (amount_for_sale taker) || asset_eqb taker_receives (amount_for_sale maker)
               @ "taker_pays == taker.amount_for_sale() || maker_pays == maker.amount_for_sale()" in Ok tt
           else Ok tt) in
      let! (d1, taker_filled) := fill_limit_order d taker_id maker_receives taker_receives cull_taker match_price false in
      let! (d2, maker_filled) := fill_limit_order d1 maker_id taker_receives maker_receives true match_price true in
      let result := get_match_result taker_filled maker_filled in
      assert! negb (bool_decide (result = none_filled)) @ "result != match_result_type::none_filled" in
      Ok (d2, result)
  end.

(** The order of a settled debt after a part of the debt has been bought back. *)
Definition settled_debt_order (after_2591 : bool) (b : asset_bitasset_data_object) (maker : limit_order_object)
    : result limit_order_object :=
  let all_of_it :=
    let! p := get_individual_settlement_price b in
    Ok (maker <| lo_for_sale := ba_individual_settlement_fund b |> <| lo_sell_price := price_inv p |>) in
  if after_2591 then
    let! x := multiply_and_round_up (Asset (ba_individual_settlement_debt b) (receive_asset_id maker)) (lo_sell_price maker) in
    if amount x >? ba_individual_settlement_fund b then all_of_it
    else Ok (maker <| lo_for_sale := amount x |>)
  else all_of_it.

(** What the taker pays and receives against a settled debt, whether the taker is to be
    culled and whether the maker is filled; [None] when the taker would get nothing. *)
Definition settled_debt_amounts (taker maker : limit_order_object) (b : asset_bitasset_data_object) (match_price : price)
    : result (option (asset * asset * bool * bool)) :=
  let usd_for_sale := amount_for_sale taker in
  let usd_to_buy := Asset (ba_individual_settlement_debt b) (receive_asset_id maker) in
  let! fills_taker := asset_lt usd_for_sale usd_to_buy in
  if fills_taker then
    let! order_receives := asset_mul_price usd_for_sale match_price in
    if amount order_receives =? 0 then Ok None
    else
      let! call_receives := multiply_and_round_up order_receives match_price in
      Ok (Some (call_receives, order_receives, true, false))
  else Ok (Some (usd_to_buy, amount_for_sale maker, false, true)).

(** What the settled debt pays for it, the collateral fee included. *)
Definition settled_debt_pays (maker : limit_order_object) (b : asset_bitasset_data_object) (maker_filled : bool)
    (call_receives order_receives : asset) : result asset :=
  let! call_pays :=
    if maker_filled then Ok (Asset (ba_individual_settlement_fund b) (asset_id order_receives))
    else if negb (lo_for_sale maker =? ba_individual_settlement_fund b) then
      let! p := get_individual_settlement_price b in asset_mul_price call_receives p
    else Ok order_receives in
  let! less := asset_lt call_pays order_receives in
  Ok (if less then order_receives else call_pays).

Definition match_limit_settled_debt (d : database) (taker_id maker_id : Z) (match_price : price)
    : result (database * match_result_type) :=
  let! taker := get_order d taker_id in
  let! maker := get_order d maker_id in
  assert! lo_is_settled_debt maker @ "Internal error: maker is not settled debt" in
  assert! negb (lo_is_settled_debt taker) @ "Internal error: taker is settled debt" in
  let mia := receive_asset_id maker in
  let! bitasset := of_option "bitasset data" (bitassets d !! mia) in
  let! m := settled_debt_amounts taker maker bitasset match_price in
  match m with
  | None => Ok (d, only_taker_filled)
  | Some (call_receives, order_receives, cull_taker, maker_filled) =>
      let! (d1, taker_filled) := fill_limit_order d taker_id call_receives order_receives cull_taker match_price false in
      let! call_pays := settled_debt_pays maker bitasset maker_filled call_receives order_receives in
      let! collateral_fee := asset_sub call_pays order_receives in
      let! mia_ddo := get_dyn d1 mia in
      let! supply := safe_sub (dd_current_supply mia_ddo) (amount call_receives) in
      let! fees := safe_add (dd_accumulated_collateral_fees mia_ddo) (amount collateral_fee) in
      let d2 := set_dyn d1 mia (mia_ddo <| dd_current_supply := supply |> <| dd_accumulated_collateral_fees := fees |>) in
      let d3 := push_applied_operation d2
        (vop_fill_order maker_id (lo_seller maker) call_pays call_receives collateral_fee match_price true) in
      let! debt := safe_sub (ba_individual_settlement_debt bitasset) (amount call_receives) in
      let! fund := safe_sub (ba_individual_settlement_fund bitasset) (amount call_pays) in
      let bitasset := bitasset <| ba_individual_settlement_debt := debt |> <| ba_individual_settlement_fund := fund |> in
      let d4 := d3 <| bitassets ::= <[mia := bitasset]> |> in
      let! d5 :=
        if maker_filled then Ok (d4 <| limit_orders := tremove (limit_orders d4) maker_id |>)
        else
          let! maker := settled_debt_order (HARDFORK_CORE_2591_PASSED (head_block_time d)) bitasset maker in
          Ok (set_order d4 maker_id maker) in
      Ok (d5, get_match_result taker_filled maker_filled)
  end.

(** [match] of two limit orders: the first is the taker. *)
Definition match_limit (d : database) (taker_id maker_id : Z) (match_price : price)
    : result (database * match_result_type) :=
  let! taker := get_order d taker_id in
  let! maker := get_order d maker_id in
  assert! receive_asset_id taker =? sell_asset_id maker
    @ "taker.sell_price.quote.asset_id == maker.sell_price.base.asset_id" in
  assert! sell_asset_id taker =? receive_asset_id maker
    @ "taker.sell_price.base.asset_id == maker.sell_price.quote.asset_id" in
  assert! (0 <? lo_for_sale taker) && (0 <? lo_for_sale maker) @ "taker.for_sale > 0 && maker.for_sale > 0" in
  if lo_is_settled_debt maker then match_limit_settled_debt d taker_id maker_id match_price
  else match_limit_normal_limit d taker_id maker_id match_price.

(** ** Applying a new order *)

(** Another order of the same market comes first. *)
Definition has_order_in_front (d : database) (id : Z) (o : limit_order_object) : bool :=
  existsb (fun x => by_price x (id, o) && (sell_asset_id (snd x) =? sell_asset_id o)
                    && (receive_asset_id (snd x) =? receive_asset_id o))
    (map_to_list (rows (limit_orders d))).

(** The conditions under which the code looks for margin calls, up to the price. *)
Definition margin_calls_possible (d : database) (o : limit_order_object) : result bool :=
  let! sell_asset := get_asset d (sell_asset_id o) in
  if as_market_issued sell_asset then
    let! b := of_option "bitasset data" (bitassets d !! sell_asset_id o) in
    Ok ((bo_short_backing_asset (ba_options b) =? receive_asset_id o) && negb (ba_is_prediction_market b)
        && negb (is_globally_settled b) && negb (margin_calls_disabled b)
        && negb (price_is_null (feed_price (ba_current_feed b))))
  else Ok false.

(** The orders on the other side whose price is good enough, in the order they match. *)
Definition matching_orders (d : database) (o : limit_order_object) : result (list (Z * limit_order_object)) :=
  let max_price := price_inv (lo_sell_price o) in
  let! highest := price_max (asset_id (base max_price)) (asset_id (quote max_price)) in
  Ok (insertion_sort by_price
        (filter (fun x => negb (price_gt (lo_sell_price (snd x)) highest)
                          && negb (price_gt max_price (lo_sell_price (snd x))) = true)
           (map_to_list (rows (limit_orders d))))).

Fixpoint match_loop (d : database) (id : Z) (makers : list (Z * limit_order_object)) : result database :=
  match makers with
  | [] => Ok d
  | (maker_id, maker) :: makers =>
      let! (d1, r) := match_limit d id maker_id (lo_sell_price maker) in
      if bool_decide (r = only_maker_filled) then match_loop d1 id makers else Ok d1
  end.

Definition apply_order (d : database) (id : Z) : result (database * bool) :=
  let! o := get_order d id in
  if has_order_in_front d id o then Ok (d, false)
  else
    let! makers := matching_orders d o in
    let! to_check_call_orders := margin_calls_possible d o in
    if to_check_call_orders then Err (thrown "unreachable: margin calls are disabled")
    else
      let! d1 := match_loop d id makers in
      match tfind (limit_orders d1) id with
      | None => Ok (d1, true)
      | Some _ => maybe_cull_small_order d1 id
      end.

(** ** Creating an order *)

Definition market_allowed (a b : asset_id_type) (sell_asset : asset_object) : result unit :=
  let o := as_options sell_asset in
  assert! bool_decide (ao_whitelist_markets o = ∅) || bool_decide (b ∈ ao_whitelist_markets o)
    @ "This market has not been whitelisted by the selling asset" in
  assert! bool_decide (ao_blacklist_markets o = ∅) || negb (bool_decide (b ∈ ao_blacklist_markets o))
    @ "This market has been blacklisted by the selling asset" in
  Ok tt.

Definition limit_order_create_do_evaluate (d : database) (op : limit_order_create_operation) : result unit :=
  assert! oc_expiration op >=? head_block_time d @ "op.expiration >= d.head_block_time()" in
  let! seller := get_account d (oc_seller op) in
  let sell := asset_id (oc_amount_to_sell op) in
  let recv := asset_id (oc_min_to_receive op) in
  let! sell_asset := get_asset d sell in
  let! receive_asset := get_asset d recv in
  do! market_allowed sell recv sell_asset in
  assert! is_authorized_asset d (oc_seller op) seller sell sell_asset
    @ "The account is not allowed to transact the selling asset" in
  assert! is_authorized_asset d (oc_seller op) seller recv receive_asset
    @ "The account is not allowed to transact the receiving asset" in
  assert! amount (get_balance d (oc_seller op) sell) >=? amount (oc_amount_to_sell op) @ "insufficient balance" in
  Ok tt.

(** The fee of an order is converted without adding it to the accumulated fees: the
    order holds it. *)
Definition limit_order_create_convert_fee (d : database) (fee : asset) (core_fee_paid : share_type) : result database :=
  if head_block_time d <=? HARDFORK_CORE_604_TIME then convert_fee d fee core_fee_paid
  else if negb (asset_id fee =? CORE) then
    let! dyn := get_dyn d (asset_id fee) in
    let! pool := safe_sub (dd_fee_pool dyn) core_fee_paid in
    Ok (set_dyn d (asset_id fee) (dyn <| dd_fee_pool := pool |>))
  else Ok d.

(** Returns the deferred fee in core and as paid. *)
Definition limit_order_create_pay_fee (d : database) (payer : account_id_type) (fee : asset) (core_fee_paid : share_type)
    : result (database * share_type * asset) :=
  if head_block_time d <=? HARDFORK_445_TIME then
    let! d1 := pay_fee d payer core_fee_paid in Ok (d1, 0, Asset 0 CORE)
  else
    Ok (d, core_fee_paid,
        if (head_block_time d >? HARDFORK_CORE_604_TIME) && negb (asset_id fee =? CORE) then fee else Asset 0 CORE).

Definition limit_order_create_do_apply (d : database) (op : limit_order_create_operation)
    (deferred_fee : share_type) (deferred_paid_fee : asset) : result (database * Z) :=
  let! d1 := if asset_id (oc_amount_to_sell op) =? CORE
             then add_core_in_orders d (oc_seller op) (amount (oc_amount_to_sell op)) else Ok d in
  let! minus := asset_neg (oc_amount_to_sell op) in
  let! d2 := adjust_balance d1 (oc_seller op) minus in
  let! get_price := asset_div (oc_amount_to_sell op) (oc_min_to_receive op) in
  let order_id := next_id (limit_orders d2) in
  let d3 := d2 <| limit_orders := tcreate (limit_orders d2)
    (LimitOrder (oc_expiration op) (oc_seller op) (amount (oc_amount_to_sell op)) get_price 0 deferred_fee
       deferred_paid_fee false) |> in
  if next_maintenance_time d3 <=? HARDFORK_CORE_625_TIME
  then Err (thrown "apply_order_before_hardfork_625 is not modelled")
  else
    let! (d4, filled) := apply_order d3 order_id in
    assert! negb (oc_fill_or_kill op) || filled @ "Killing limit order due to unable to fill" in
    Ok (d4, order_id).

(** [start_evaluate] with the overridden treatment of the fee. *)
Definition limit_order_create_evaluate_apply (calculate_fee : database -> limit_order_create_operation -> result share_type)
    (skip_fee_schedule_check : bool) (d : database) (op : limit_order_create_operation) : result (database * Z) :=
  let! core_fee_paid := prepare_fee d (oc_seller op) (oc_fee op) in
  do! (if skip_fee_schedule_check then Ok tt
       else let! required_fee := calculate_fee d op in
            assert! core_fee_paid >=? required_fee @ "Insufficient Fee Paid" in Ok tt) in
  do! limit_order_create_do_evaluate d op in
  let! d1 := limit_order_create_convert_fee d (oc_fee op) core_fee_paid in
  let! (d2, deferred_fee, paid) := limit_order_create_pay_fee d1 (oc_seller op) (oc_fee op) core_fee_paid in
  let! (d3, order_id) := limit_order_create_do_apply d2 op deferred_fee paid in
  let! minus_fee := asset_neg (oc_fee op) in
  let! d4 := adjust_balance d3 (oc_seller op) minus_fee in
  Ok (d4, order_id).

(** ** Cancelling an order *)

Definition limit_order_cancel_do_evaluate (d : database) (op : limit_order_cancel_operation)
    : result limit_order_object :=
  let! o := get_order d (ol_order op) in
  assert! lo_seller o =? ol_fee_paying_account op @ "Limit order is owned by someone else" in
  Ok o.

Definition limit_order_cancel_do_apply (d : database) (op : limit_order_cancel_operation) (o : limit_order_object)
    : result (database * asset) :=
  let refunded := amount_for_sale o in
  let! d1 := cancel_limit_order d (ol_order op) false false in
  if next_maintenance_time d <=? HARDFORK_CORE_606_TIME
  then Err (thrown "margin calls before hard fork core-606 are not modelled")
  else Ok (d1, refunded).

#[export] Instance limit_order_cancel_evaluator :
    Evaluator limit_order_cancel_operation limit_order_object asset := {
  fee_payer := ol_fee_paying_account;
  op_fee := ol_fee;
  validate := limit_order_cancel_validate;
  do_evaluate := limit_order_cancel_do_evaluate;
  do_apply := limit_order_cancel_do_apply;
}.

(** ** Expired orders ([clear_expired_orders]) *)

(** The loop; [None] when the fuel is used up. *)
Fixpoint clear_expired_orders_loop (fuel : nat) (d : database) : option (result database) :=
  match tfirst_due lo_expiration (head_block_time d) (limit_orders d) with
  | None => Some (Ok d)
  | Some (id, _) =>
      match fuel with
      | O => None
      | S fuel =>
          match cancel_limit_order d id true false with
          | Ok d1 => clear_expired_orders_loop fuel d1
          | Err e => Some (Err e)
          end
      end
  end.

(** Each round removes an order. *)
Definition clear_expired_orders (d : database) : option (result database) :=
  if next_maintenance_time d <=? HARDFORK_CORE_606_TIME
  then Some (Err (thrown "margin calls before hard fork core-606 are not modelled"))
  else clear_expired_orders_loop (size (rows (limit_orders d))) d.
End Market.

(** ** Conservation *)

(** What the operations on an order leave alone. *)
Record same_market (d d' : database) : Prop := {
  sm_time : head_block_time d' = head_block_time d;
  sm_maint : next_maintenance_time d' = next_maintenance_time d;
  sm_params : params d' = params d;
  sm_assets : assets d' = assets d;
  sm_bitassets : bitassets d' = bitassets d;
  sm_orders : limit_orders d' = limit_orders d;
}.

#[export] Instance same_market_preorder : PreOrder same_market.
Proof.
  split; [by split|]. intros d0 d1 d2 [E1 E2 E3 E4 E5 E6] [F1 F2 F3 F4 F5 F6].
  split; etrans; eassumption.
Qed.

(** Nothing of the market but the order [id] has changed. *)
Record order_step (id : Z) (d d' : database) : Prop := {
  os_time : head_block_time d' = head_block_time d;
  os_maint : next_maintenance_time d' = next_maintenance_time d;
  os_params : params d' = params d;
  os_assets : assets d' = assets d;
  os_bitassets : bitassets d' = bitassets d;
  os_rows : forall j, j <> id -> rows (limit_orders d') !! j = rows (limit_orders d) !! j;
  os_next : next_id (limit_orders d') = next_id (limit_orders d);
}.

#[export] Instance order_step_preorder id : PreOrder (order_step id).
Proof.
  split; [by split|]. intros d0 d1 d2 [E1 E2 E3 E4 E5 E6 E7] [F1 F2 F3 F4 F5 F6 F7].
  split; try (etrans; eassumption). intros j Hj. by rewrite F6, E6.
Qed.

Lemma same_market_step id d d' : same_market d d' -> order_step id d d'.
Proof. intros []. split; try done; congruence. Qed.

(** [d'] is well-formed and every asset's excess has changed by [f]. *)
Definition shifts (d : database) (f : asset_id_type -> Z) (d' : database) : Prop :=
  db_wf d -> db_wf d' /\ forall a, excess a d' = excess a d + f a.

Lemma shifts_refl d f : (forall a, f a = 0) -> shifts d f d.
Proof. intros Hf Hwf. split; [done|]. intros a. rewrite Hf. lia. Qed.

Lemma shifts_trans d f d1 g d2 h : shifts d f d1 -> shifts d1 g d2 -> (forall a, h a = f a + g a) -> shifts d h d2.
Proof.
  intros H1 H2 Hh Hwf. destruct (H1 Hwf) as [Hwf1 E1]. destruct (H2 Hwf1) as [Hwf2 E2].
  split; [done|]. intros a. rewrite E2, E1, Hh. lia.
Qed.

Lemma shifts_ext d f g d' : shifts d f d' -> (forall a, g a = f a) -> shifts d g d'.
Proof. intros Hs Hg Hwf. destruct (Hs Hwf) as [? E]. split; [done|]. intros a. by rewrite E, Hg. Qed.

Section MarketLaws.
Context `{SafeInt64Laws}.
Variable limit_order_cancel_fee : database -> result share_type.

Lemma adjust_shifts d acc x d' : adjust_balance d acc x = Ok d' -> shifts d (fun a => asset_in a x) d' /\ same_market d d'.
Proof.
  intros E. split.
  - intros Hwf. by apply (adjust_balance_excess _ _ _ _ E).
  - apply adjust_balance_frame in E as (m & -> & _). by split.
Qed.

Lemma set_stats_shifts d i x y : account_stats d !! i = Some y ->
  shifts d (fun a => ind a CORE * (st_pending_fees x + st_pending_vested_fees x - st_pending_fees y - st_pending_vested_fees y))
    (d <| account_stats ::= <[i := x]> |>).
Proof.
  intros Hy Hwf. split; [destruct Hwf; wf|]. intros a. unfold excess, holdings, supply. cbn.
  rewrite (pend_sum_insert _ _ _ _ _ Hy). lia.
Qed.

Lemma set_dyn_shifts d i x y : dyn_data d !! i = Some y ->
  dd_accumulated_collateral_fees x = dd_accumulated_collateral_fees y ->
  shifts d (fun a => ind a i * (dd_accumulated_fees x + dd_confidential_supply x - dd_current_supply x
                       - (dd_accumulated_fees y + dd_confidential_supply y - dd_current_supply y))
                     + ind a CORE * (dd_fee_pool x - dd_fee_pool y)) (set_dyn d i x).
Proof.
  intros Hy Hc Hwf. destruct (set_dyn_excess d i x y Hy Hc Hwf) as [Hwf' E]. split; [done|].
  intros a. rewrite E. lia.
Qed.

Lemma core_in_orders_shifts d owner n d' :
  add_core_in_orders d owner n = Ok d' \/ sub_core_in_orders d owner n = Ok d' ->
  shifts d (fun _ => 0) d' /\ same_market d d'.
Proof.
  unfold add_core_in_orders, sub_core_in_orders, get_stats. intros [E|E]; mon; (split; [|by split]);
    (eapply shifts_ext; [by eapply set_stats_shifts|]); intros a; cbn; lia.
Qed.

Lemma pay_fee_shifts d acc n d' : pay_fee d acc n = Ok d' -> shifts d (fun a => ind a CORE * n) d' /\ same_market d d'.
Proof.
  intros E. split.
  - intros Hwf. destruct (pay_fee_paid _ _ _ _ E Hwf) as (? & _ & ?). by split.
  - apply pay_fee_only in E as (dd & st & -> & _). by split.
Qed.

Lemma push_shifts d op : shifts d (fun _ => 0) (push_applied_operation d op) /\ same_market d (push_applied_operation d op).
Proof.
  split; [|by split]. intros Hwf. split; [destruct Hwf; wf|]. intros a. unfold excess, holdings, supply. cbn. lia.
Qed.

Lemma pay_order_shifts d acc receives pays d' : pay_order d acc receives pays = Ok d' ->
  shifts d (fun a => asset_in a receives) d' /\ same_market d d'.
Proof.
  unfold pay_order. intros E. mon. apply adjust_shifts in E as [E Hm].
  assert (shifts d (fun _ => 0) r /\ same_market d r) as [H1 H2].
  { destruct (asset_id pays =? CORE); [by eapply core_in_orders_shifts; right|]. mon. split; [by apply shifts_refl | done]. }
  split; [eapply shifts_trans; [done..|]; cbn; lia | by etrans].
Qed.

(** Rows of the order book. *)
Lemma set_order_shifts d id o o' : rows (limit_orders d) !! id = Some o ->
  shifts d (fun a => order_sum a o' - order_sum a o) (set_order d id o').
Proof.
  intros Ho Hwf. split; [destruct Hwf; wf|]. intros a. unfold excess, holdings, supply, limit_sum. cbn.
  rewrite (tsum_modify _ _ _ _ _ Ho). lia.
Qed.

Lemma remove_order_shifts d id o : rows (limit_orders d) !! id = Some o ->
  shifts d (fun a => - order_sum a o) (cleanup_and_remove_limit_order d id).
Proof.
  intros Ho Hwf. split; [destruct Hwf; wf|]. intros a. unfold excess, holdings, supply, limit_sum. cbn.
  rewrite (tsum_remove _ _ _ _ Ho). lia.
Qed.

Lemma create_order_shifts d o :
  shifts d (fun a => order_sum a o) (d <| limit_orders := tcreate (limit_orders d) o |>).
Proof.
  intros Hwf. split; [destruct Hwf; wf|]. intros a. unfold excess, holdings, supply, limit_sum. cbn.
  rewrite tsum_create by (by destruct Hwf). lia.
Qed.

Lemma set_order_step d id o : order_step id d (set_order d id o).
Proof. split; try done. intros j Hj. cbn. by rewrite lookup_tmodify_ne. Qed.

Lemma remove_order_step d id : order_step id d (cleanup_and_remove_limit_order d id).
Proof. split; try done. intros j Hj. cbn. by apply lookup_delete_ne. Qed.

(** ** Cancellation *)

(** The fees an order carries are not negative. *)
Definition fees_ok (o : limit_order_object) : Prop := 0 <= lo_deferred_fee o /\ 0 <= amount (lo_deferred_paid_fee o).

Lemma deduct_cancel_fee_shifts d o d' fee rest paid : deduct_cancel_fee limit_order_cancel_fee d o = Ok (d', fee, rest, paid) ->
  asset_id paid = asset_id (lo_deferred_paid_fee o)
  /\ (amount (lo_deferred_paid_fee o) = 0 -> amount paid = 0)
  /\ same_market d d'
  /\ shifts d (fun a => ind a CORE * (lo_deferred_fee o - rest) + asset_in a (lo_deferred_paid_fee o) - asset_in a paid) d'.
Proof.
  unfold deduct_cancel_fee, get_dyn. intros E. mon. destruct (_ >? 0); mon.
  2:{ split_and!; [done..|]. apply shifts_refl. intros a. lia. }
  set (fee0 := if r >? lo_deferred_fee o then _ else _) in *.
  match goal with E : pay_fee _ _ _ = Ok _ |- _ => apply pay_fee_shifts in E as [Hs Hm] end. safe_ints.
  destruct (amount (lo_deferred_paid_fee o) =? 0) eqn:Hz; mon; safe_ints; subst.
  - split_and!; [done..|]. eapply shifts_ext; [done|]. intros a. cbn. lia.
  - split_and!; [done | cbn; lia | etrans; [exact Hm | by split] |].
    match goal with E : dyn_data _ !! _ = Some _ |- _ => rename E into Hd end.
    eapply shifts_trans; [exact Hs | eapply set_dyn_shifts; [exact Hd|]; shelve |].
    intros a. unfold asset_in. cbn. lia.
    Unshelve. done.
Qed.

Lemma refund_deferred_fee_shifts d o fee paid d' : refund_deferred_fee d o fee paid = Ok d' ->
  asset_id paid = asset_id (lo_deferred_paid_fee o) -> (amount (lo_deferred_paid_fee o) = 0 -> amount paid = 0) ->
  same_market d d' /\ shifts d (fun a => ind a CORE * fee + asset_in a paid) d'.
Proof.
  unfold refund_deferred_fee, get_dyn. intros E Hid Hz. destruct (_ =? 0) eqn:H1; mon.
  - apply adjust_shifts in E as [Hs Hm]. split; [done|]. eapply shifts_ext; [exact Hs|].
    intros a. unfold asset_in. cbn. rewrite Hz by done. lia.
  - safe_ints. subst. match goal with E : adjust_balance _ _ _ = Ok _ |- _ => apply adjust_shifts in E as [Hs Hm] end.
    split; [etrans; [exact Hm | by split]|].
    match goal with E : dyn_data _ !! _ = Some _ |- _ => rename E into Hd end.
    eapply shifts_trans; [exact Hs | eapply set_dyn_shifts; [exact Hd|]; shelve |].
    intros a. cbn. lia.
    Unshelve. done.
Qed.

Lemma cancel_limit_order_ok d id v k d' o : cancel_limit_order limit_order_cancel_fee d id v k = Ok d' ->
  rows (limit_orders d) !! id = Some o -> lo_is_settled_debt o = false ->
  shifts d (fun _ => 0) d' /\ order_step id d d' /\ rows (limit_orders d') !! id = None.
Proof.
  unfold cancel_limit_order, get_order. intros E Ho Hn. unfold tfind in E. rewrite Ho in E. cbn [of_option rbind] in E. mon.
  destruct r as [[[d1 fee] rest] paid]. mon.
  assert (asset_id paid = asset_id (lo_deferred_paid_fee o) /\ (amount (lo_deferred_paid_fee o) = 0 -> amount paid = 0)
    /\ same_market d d1
    /\ shifts d (fun a => ind a CORE * (lo_deferred_fee o - rest) + asset_in a (lo_deferred_paid_fee o) - asset_in a paid) d1)
    as (Hid & Hz & Hm1 & Hs1).
  { destruct (v && negb k && _).
    - by apply deduct_cancel_fee_shifts in Hr.
    - mon. split_and!; [done..|]. apply shifts_refl. intros a. lia. }
  assert (shifts d1 (fun _ => 0) r /\ same_market d1 r) as [Hs2 Hm2].
  { destruct (_ =? CORE); [by eapply core_in_orders_shifts; right|]. mon. split; [by apply shifts_refl | done]. }
  match goal with E : adjust_balance _ _ _ = Ok _ |- _ => apply adjust_shifts in E as [Hs3 Hm3] end.
  match goal with E : refund_deferred_fee _ _ _ _ = Ok _ |- _ =>
    apply refund_deferred_fee_shifts in E as [Hm4 Hs4]; [|done..] end.
  set (d5 := if v then push_applied_operation _ _ else _).
  assert (shifts r1 (fun _ => 0) d5 /\ same_market r1 d5) as [Hs5 Hm5].
  { unfold d5. destruct v; [apply push_shifts|]. split; [by apply shifts_refl | done]. }
  assert (same_market d d5) as Hm by (etrans; [exact Hm1|]; etrans; [exact Hm2|]; etrans; [exact Hm3|]; by etrans).
  assert (rows (limit_orders d5) !! id = Some o) as Ho5 by (by rewrite (sm_orders _ _ Hm)).
  split; [|split].
  - eapply shifts_trans; [|by apply remove_order_shifts|].
    + eapply shifts_trans; [|exact Hs5 | reflexivity]. eapply shifts_trans; [|exact Hs4 | reflexivity].
      eapply shifts_trans; [|exact Hs3 | reflexivity]. eapply shifts_trans; [exact Hs1 | exact Hs2 | reflexivity].
    + intros a. cbn. unfold order_sum, amount_for_sale, sell_asset_id, asset_in. rewrite Hn. cbn. lia.
  - etrans; [by apply same_market_step | apply remove_order_step].
  - cbn. apply lookup_delete_eq.
Qed.

Lemma maybe_cull_ok d id d' b o : maybe_cull_small_order limit_order_cancel_fee d id = Ok (d', b) ->
  rows (limit_orders d) !! id = Some o -> lo_is_settled_debt o = false ->
  shifts d (fun _ => 0) d' /\ order_step id d d'
  /\ (if b then rows (limit_orders d') !! id = None
      else d' = d /\ exists r, amount_to_receive o = Ok r /\ amount r <> 0).
Proof.
  unfold maybe_cull_small_order, get_order. intros E Ho Hn. unfold tfind in E. rewrite Ho in E. cbn [of_option rbind] in E. mon.
  destruct (amount r =? 0) eqn:Hz; mon.
  - match goal with E : (if ?c then _ else _) = Ok _ |- _ => destruct c end;
      by match goal with E : cancel_limit_order _ _ _ _ _ = Ok _ |- _ => eapply cancel_limit_order_ok in E end.
  - split; [by apply shifts_refl|]. split; [done|]. split; [done|]. by exists r.
Qed.

(** ** Filling *)

Lemma pay_market_fees_shifts d seller id ra receives mk d' fees :
  pay_market_fees d seller id ra receives mk None = Ok (d', fees) -> get_asset d id = Ok ra -> asset_id receives = id ->
  shifts d (fun a => asset_in a fees) d' /\ same_market d d'.
Proof.
  intros E Hra Hid. split.
  - intros Hwf. unfold get_asset in Hra. mon. destruct (wf_asset_options _ Hwf _ _ Hra) as [Hmax _].
    apply pay_market_fees_ok in E as (_ & _ & ? & ?); [by split | done..].
  - apply pay_market_fees_frame in E as (t & dd & -> & _). by split.
Qed.

Lemma discount_paid_fee_ok d o percent d' paid_left fee_left pool_refund :
  discount_paid_fee d o percent = Ok (d', paid_left, fee_left, pool_refund) -> fees_ok o ->
  lo_deferred_fee o = fee_left + pool_refund /\ 0 <= fee_left <= lo_deferred_fee o
  /\ same_market d d'
  /\ shifts d (fun a => asset_in a (lo_deferred_paid_fee o) - ind a (asset_id (lo_deferred_paid_fee o)) * paid_left) d'.
Proof.
  unfold discount_paid_fee, fees_ok. intros E [Hf Hp]. mon. destruct (r >? 0); mon; safe_ints.
  - match goal with E : adjust_balance _ _ _ = Ok _ |- _ => apply adjust_shifts in E as [Hs Hm] end.
    match goal with E : calculate_percent (lo_deferred_fee o) _ = Ok _ |- _ => apply calculate_percent_nonneg in E end.
    split_and!; [lia | lia | lia | done |]. eapply shifts_ext; [exact Hs|]. intros a. unfold asset_in. cbn. lia.
  - split_and!; [lia | lia | lia | done |]. apply shifts_refl. intros a. unfold asset_in. lia.
Qed.

Lemma process_paid_fee_ok d o mk d' fee_left : process_paid_fee d o mk = Ok (d', fee_left) -> fees_ok o ->
  0 <= fee_left <= lo_deferred_fee o /\ same_market d d'
  /\ shifts d (fun a => asset_in a (lo_deferred_paid_fee o) + ind a CORE * (lo_deferred_fee o - fee_left)) d'.
Proof.
  unfold process_paid_fee, get_dyn. intros E Hok. destruct (amount (lo_deferred_paid_fee o) >? 0) eqn:Hpos; mon.
  2:{ destruct Hok. split_and!; [lia | lia | done|]. apply shifts_refl. intros a. unfold asset_in.
      replace (amount (lo_deferred_paid_fee o)) with 0 by lia. lia. }
  destruct r as [[[d1 paid_left] fee] pool_refund]. mon. safe_ints. subst.
  assert (lo_deferred_fee o = fee_left + pool_refund /\ 0 <= fee_left <= lo_deferred_fee o
    /\ same_market d d1
    /\ shifts d (fun a => asset_in a (lo_deferred_paid_fee o) - ind a (asset_id (lo_deferred_paid_fee o)) * paid_left) d1)
    as (Hsum & Hleft & Hm & Hs).
  { destruct (mk && _); [by apply (discount_paid_fee_ok _ _ _ _ _ _ _ Hr)|]. mon. destruct Hok.
    split_and!; [lia | lia | lia | done|]. apply shifts_refl. intros a. unfold asset_in. lia. }
  split; [done|]. split; [etrans; [exact Hm | by split]|].
  match goal with E : dyn_data d1 !! _ = Some _ |- _ => rename E into Hd end.
  eapply shifts_trans; [exact Hs | eapply set_dyn_shifts; [exact Hd|]; shelve |].
  intros a. cbn. lia.
  Unshelve. done.
Qed.

Lemma process_core_fee_ok d o mk fee d' : process_core_fee d o mk fee = Ok d' ->
  0 <= fee <= lo_deferred_fee o -> same_market d d' /\ shifts d (fun a => ind a CORE * fee) d'.
Proof.
  unfold process_core_fee. intros E Hf. destruct (lo_deferred_fee o >? 0) eqn:Hpos; mon.
  2:{ split; [done|]. apply shifts_refl. intros a. replace fee with 0 by lia. lia. }
  destruct r as [d1 fee_left].
  assert (0 <= fee_left /\ same_market d d1 /\ shifts d (fun a => ind a CORE * (fee - fee_left)) d1) as (Hl & Hm & Hs).
  { destruct (_ && _ && _).
    - mon. destruct (r >? 0); mon; safe_ints.
      + match goal with E : adjust_balance _ _ _ = Ok _ |- _ => apply adjust_shifts in E as [Hs Hm] end.
        split_and!; [lia | done |]. eapply shifts_ext; [exact Hs|]. intros a. unfold asset_in. cbn. subst. lia.
      + split_and!; [lia | done |]. apply shifts_refl. intros a. lia.
    - mon. split_and!; [lia | done |]. apply shifts_refl. intros a. lia. }
  destruct (fee_left >? 0) eqn:Hg; mon.
  - apply pay_fee_shifts in E as [Hs' Hm']. split; [by etrans|]. eapply shifts_trans; [exact Hs | exact Hs'|]. intros a. cbn. lia.
  - split; [done|]. eapply shifts_ext; [exact Hs|]. intros a. replace fee_left with 0 by lia. lia.
Qed.

(** What a fill leaves of an order: nothing, or the same order with less for sale and
    no fee. *)
Definition filled_part (o o' : limit_order_object) (n : Z) : Prop :=
  o' = o <| lo_for_sale := lo_for_sale o - n |> <| lo_filled_amount := lo_filled_amount o' |>
         <| lo_deferred_fee := 0 |> <| lo_deferred_paid_fee := Asset 0 (asset_id (lo_deferred_paid_fee o)) |>.

Lemma fill_limit_order_ok d id pays receives cull p mk d' b o :
  fill_limit_order limit_order_cancel_fee d id pays receives cull p mk = Ok (d', b) ->
  rows (limit_orders d) !! id = Some o -> lo_is_settled_debt o = false -> fees_ok o ->
  asset_id pays = sell_asset_id o
  /\ shifts d (fun a => asset_in a receives - asset_in a pays) d' /\ order_step id d d'
  /\ (if b then rows (limit_orders d') !! id = None
      else amount pays <> lo_for_sale o
        /\ exists o', rows (limit_orders d') !! id = Some o' /\ filled_part o o' (amount pays)
           /\ (cull = true -> exists r, amount_to_receive o' = Ok r /\ amount r <> 0)).
Proof.
  unfold fill_limit_order, get_order. intros E Ho Hn Hok. unfold tfind in E. rewrite Ho in E. cbn [of_option rbind] in E. mon.
  match goal with p : (database * asset)%type |- _ => destruct p as [d0 a0] end. mon.
  match goal with E : get_asset d _ = Ok _, F : pay_market_fees _ _ _ _ _ _ _ = Ok _ |- _ =>
    pose proof (pay_market_fees_shifts _ _ _ _ _ _ _ _ F E eq_refl) as [Hs1 Hm1] end.
  match goal with E : pay_order _ _ _ _ = Ok _ |- _ => apply pay_order_shifts in E as [Hs2 Hm2] end.
  match goal with p : (database * Z)%type |- _ => destruct p as [d4 fee_left] end. mon.
  match goal with E : process_paid_fee _ _ _ = Ok _ |- _ => apply process_paid_fee_ok in E as (Hleft & Hm4 & Hs4); [|done] end.
  match goal with E : process_core_fee _ _ _ _ = Ok ?x |- _ =>
    apply process_core_fee_ok in E as [Hm5 Hs5]; [|done]; rename x into d5 end.
  match goal with H : context [push_applied_operation r0 ?v] |- _ => destruct (push_shifts r0 v) as [Hs3 Hm3] end.
  assert (same_market d d5) as Hm.
  { etrans; [exact Hm1|]. etrans; [exact Hm2|]. etrans; [exact Hm3|]. by etrans. }
  assert (forall a, asset_in a r = asset_in a receives - asset_in a a0) as Hnet.
  { intros x. asset_ints. unfold asset_in. replace (asset_id a0) with (asset_id receives) by done. subst. cbn. lia. }
  assert (shifts d (fun a => asset_in a receives + asset_in a (lo_deferred_paid_fee o) + ind a CORE * lo_deferred_fee o) d5) as Hs.
  { eapply shifts_trans; [|exact Hs5|]; [eapply shifts_trans; [|exact Hs4|]|].
    - eapply shifts_trans; [|exact Hs3 | reflexivity]. eapply shifts_trans; [exact Hs1 | exact Hs2 | reflexivity].
    - reflexivity.
    - intros a. cbn. rewrite Hnet. lia. }
  assert (rows (limit_orders d5) !! id = Some o) as Ho5 by (by rewrite (sm_orders _ _ Hm)).
  assert (asset_id pays = sell_asset_id o) as Hsell by done. split; [done|].
  assert (forall a, order_sum a o = ind a (sell_asset_id o) * lo_for_sale o
            + ind a CORE * lo_deferred_fee o + asset_in a (lo_deferred_paid_fee o)) as Hsum
    by (intros a; unfold order_sum; by rewrite Hn).
  destruct (asset_eqb pays (amount_for_sale o)) eqn:Heq; unfold asset_eqb in Heq; mon.
  - split; [|split].
    + eapply shifts_trans; [exact Hs | by apply remove_order_shifts |].
      intros a. cbn. rewrite Hsum. unfold asset_in. replace (amount pays) with (lo_for_sale o) by done. rewrite Hsell. lia.
    + etrans; [by apply same_market_step | apply remove_order_step].
    + cbn. apply lookup_delete_eq.
  - assert (amount pays <> lo_for_sale o) as Hne.
    { intros Hp. apply andb_false_iff in Heq as [Heq|Heq]; reflect_bools; done. }
    safe_ints. set (o' := o <| lo_for_sale := _ |> <| lo_filled_amount := _ |> <| lo_deferred_fee := _ |> <| lo_deferred_paid_fee ::= _ |>) in *.
    set (d6 := set_order d5 id o') in *.
    assert (shifts d (fun a => asset_in a receives - asset_in a pays) d6) as Hs6.
    { eapply shifts_trans; [exact Hs | by apply set_order_shifts |].
      intros a. cbn. rewrite Hsum. unfold order_sum, asset_in. cbn. rewrite Hn, Hsell. subst.
      change (asset_id (base (lo_sell_price o))) with (sell_asset_id o). lia. }
    assert (order_step id d d6) as Hst by (etrans; [by apply same_market_step | apply set_order_step]).
    assert (rows (limit_orders d6) !! id = Some o') as Ho6 by (cbn; apply lookup_tmodify).
    assert (filled_part o o' (amount pays)) as Hfp by (unfold filled_part, o'; cbn; by subst).
    destruct (if head_block_time d <? HARDFORK_555_TIME then true else cull) eqn:Hcull; mon.
    + apply (maybe_cull_ok _ _ _ _ o') in E as (Hs7 & Hst7 & Hb); [|done|done]. split; [|split].
      * eapply shifts_trans; [exact Hs6 | exact Hs7 |]. intros a. cbn. lia.
      * by etrans.
      * destruct b; [done|]. destruct Hb as [-> Hr']. split; [done|]. exists o'. by split_and!.
    + split; [done|]. split; [done|]. split; [done|]. exists o'. split_and!; [done | done |].
      intros ->. by destruct (_ <? _).
Qed.

(** ** What two orders exchange *)

(** The orders are on opposite sides of the market. *)
Definition opposite (ot om : limit_order_object) : Prop :=
  receive_asset_id ot = sell_asset_id om /\ sell_asset_id ot = receive_asset_id om.

Lemma round_down_ok a p r n d j : amount_ok (amount a) -> price_ok p -> price_side a p = Some (n, d, j) ->
  asset_mul_price a p = Ok r ->
  asset_id r = j /\ amount_ok (amount r) /\ amount r * d <= amount a * n < (amount r + 1) * d.
Proof.
  intros Hx Hp Hs E. destruct (price_side_ok _ _ _ _ _ Hp Hs) as (Hn & Hd & Hd0).
  rewrite asset_mul_price_side, Hs in E by done. case_match; simplify_eq. cbn [amount asset_id] in *. reflect_bools.
  pose proof (div_mul_le (amount a * n) d Hd0). pose proof (div_lt_mul (amount a * n) d Hd0).
  assert (0 <= amount a * n / d) by (apply Z.div_pos; unfold amount_ok in *; nia).
  split_and!; [done | unfold amount_ok, INT64_MAX, GRAPHENE_MAX_SHARE_SUPPLY in *; lia.. | nia | nia].
Qed.

Lemma round_up_ok a p r n d j : amount_ok (amount a) -> price_ok p -> price_side a p = Some (n, d, j) ->
  multiply_and_round_up a p = Ok r ->
  asset_id r = j /\ amount_ok (amount r) /\ (amount r - 1) * d < amount a * n <= amount r * d.
Proof.
  intros Hx Hp Hs E. destruct (price_side_ok _ _ _ _ _ Hp Hs) as (Hn & Hd & Hd0).
  rewrite multiply_and_round_up_side, Hs in E by done. case_match; simplify_eq. cbn [amount asset_id] in *. reflect_bools.
  pose proof (ceil_div_ge (amount a * n) d Hd0). pose proof (ceil_div_lt (amount a * n) d Hd0).
  assert (0 <= ceil_div (amount a * n) d) by (apply ceil_div_nonneg; unfold amount_ok in *; nia).
  split_and!; [done | unfold amount_ok, INT64_MAX, GRAPHENE_MAX_SHARE_SUPPLY in *; lia.. | nia | nia].
Qed.

(** Rounding down and back up never takes more than there was. *)
Lemma round_trip_le x y z n d : 0 < d -> 0 < n -> y * d <= x * n -> (z - 1) * n < y * d -> z <= x.
Proof. nia. Qed.

(** What the terms of a match are: nobody pays more than is for sale, and what is paid
    for what is received is the price of the match [b / q], but for less than a unit. *)
Record fair_exchange (ot om : limit_order_object) (b q : Z) (mr tr : asset) : Prop := {
  fx_ids : asset_id tr = sell_asset_id om /\ asset_id mr = receive_asset_id om;
  fx_taker : 0 <= amount mr <= lo_for_sale ot;
  fx_maker : 0 <= amount tr;
  fx_price : Z.abs (amount mr * b - amount tr * q) < Z.max b q;
}.

(** The two conversions at the price of the maker. *)
Section Conversions.
Variables (ot om : limit_order_object).
Let p := lo_sell_price om.
Hypothesis Hp : price_ok p.
Hypothesis Hop : opposite ot om.

Lemma taker_pays_side a : asset_id a = receive_asset_id om ->
  price_side a p = Some (amount (base p), amount (quote p), sell_asset_id om).
Proof.
  intros Ha. destruct Hp as [_ _ Hne]. unfold price_side. rewrite Ha. unfold receive_asset_id, p in *.
  by rewrite (proj2 (Z.eqb_neq _ _)), Z.eqb_refl by congruence.
Qed.

Lemma maker_pays_side a : asset_id a = sell_asset_id om ->
  price_side a p = Some (amount (quote p), amount (base p), receive_asset_id om).
Proof. intros Ha. unfold price_side. rewrite Ha. unfold sell_asset_id, p. by rewrite Z.eqb_refl. Qed.

Lemma down_to_taker a r : asset_id a = receive_asset_id om -> amount_ok (amount a) -> asset_mul_price a p = Ok r ->
  asset_id r = sell_asset_id om /\ amount_ok (amount r)
  /\ amount r * amount (quote p) <= amount a * amount (base p) < (amount r + 1) * amount (quote p).
Proof. intros Ha Hok E. by eapply round_down_ok; [..|exact E]; [|exact Hp | by apply taker_pays_side]. Qed.

Lemma down_to_maker a r : asset_id a = sell_asset_id om -> amount_ok (amount a) -> asset_mul_price a p = Ok r ->
  asset_id r = receive_asset_id om /\ amount_ok (amount r)
  /\ amount r * amount (base p) <= amount a * amount (quote p) < (amount r + 1) * amount (base p).
Proof. intros Ha Hok E. by eapply round_down_ok; [..|exact E]; [|exact Hp | by apply maker_pays_side]. Qed.

Lemma up_to_taker a r : asset_id a = receive_asset_id om -> amount_ok (amount a) -> multiply_and_round_up a p = Ok r ->
  asset_id r = sell_asset_id om /\ amount_ok (amount r)
  /\ (amount r - 1) * amount (quote p) < amount a * amount (base p) <= amount r * amount (quote p).
Proof. intros Ha Hok E. by eapply round_up_ok; [..|exact E]; [|exact Hp | by apply taker_pays_side]. Qed.

Lemma up_to_maker a r : asset_id a = sell_asset_id om -> amount_ok (amount a) -> multiply_and_round_up a p = Ok r ->
  asset_id r = receive_asset_id om /\ amount_ok (amount r)
  /\ (amount r - 1) * amount (base p) < amount a * amount (quote p) <= amount r * amount (base p).
Proof. intros Ha Hok E. by eapply round_up_ok; [..|exact E]; [|exact Hp | by apply maker_pays_side]. Qed.

Lemma match_amounts_fair d tr mr c : match_amounts d ot om p = Ok (Some (tr, mr, c)) ->
  amount_ok (lo_for_sale ot) -> amount_ok (lo_for_sale om) ->
  fair_exchange ot om (amount (base p)) (amount (quote p)) mr tr /\ amount tr <= lo_for_sale om.
Proof.
  unfold match_amounts. intros E Ht Hm. destruct Hop as [Hts Htp].
  pose proof (price_base_pos _ Hp) as Hb. pose proof (price_quote_pos _ Hp) as Hq. mon.
  destruct (down_to_maker (amount_for_sale om) _ eq_refl Hm Hr) as (Hid & Hrok & Hfl).
  apply asset_le_ok in Hr0 as [_ ->]. cbn [amount amount_for_sale] in *.
  destruct (lo_for_sale ot <=? amount r) eqn:Hle; [|rewrite Hr in E; cbn [rbind] in E]; mon.
  - match goal with E : asset_mul_price _ _ = Ok _ |- _ =>
      apply down_to_taker in E as (Hidt & Htok & Hflt); [|exact Htp | exact Ht] end.
    destruct (_ && _); mon; [done|]. destruct (_ <=? HARDFORK_CORE_342_TIME); mon.
    + unfold amount_ok, amount_for_sale in *. split; [split|]; cbn in *; nia || auto.
    + match goal with E : multiply_and_round_up _ _ = Ok _ |- _ =>
        apply up_to_maker in E as (? & ? & ?); [|done..] end.
      unfold amount_ok, amount_for_sale in *. split; [split|]; cbn in *; nia || auto.
  - destruct (_ <=? HARDFORK_CORE_342_TIME); mon.
    + unfold amount_ok, amount_for_sale in *. split; [split|]; cbn in *; nia || auto.
    + match goal with E : multiply_and_round_up _ _ = Ok _ |- _ =>
        apply up_to_taker in E as (? & ? & ?); [|done..] end.
      unfold amount_ok, amount_for_sale in *. split; [split|]; cbn in *; nia || auto.
Qed.
End Conversions.

(** ** Matching conserves *)

(** The debt an asset has settled, and the order that sells the collateral for it at a
    price the fund can pay. *)
Record settled_ok (bas : gmap asset_id_type asset_bitasset_data_object) (o : limit_order_object)
    (b : asset_bitasset_data_object) : Prop := {
  so_bitasset : bas !! receive_asset_id o = Some b;
  so_backing : bo_short_backing_asset (ba_options b) = sell_asset_id o;
  so_id : ba_asset_id b = receive_asset_id o;
  so_debt : 0 < ba_individual_settlement_debt b <= INT64_MAX;
  so_fund : 0 < ba_individual_settlement_fund b <= INT64_MAX;
  so_covered : ba_individual_settlement_debt b * amount (base (lo_sell_price o))
               <= ba_individual_settlement_fund b * amount (quote (lo_sell_price o));
}.

(** What the book relies on: fees and amounts are not negative, prices are valid, and the
    order of a settled debt carries no fee, belongs to nobody, never expires and is
    covered by the fund. *)
Record order_ok (bas : gmap asset_id_type asset_bitasset_data_object) (o : limit_order_object) : Prop := {
  ok_fees : fees_ok o;
  ok_price : price_ok (lo_sell_price o);
  ok_amount : lo_is_settled_debt o = false -> amount_ok (lo_for_sale o);
  ok_settled : lo_is_settled_debt o = true -> lo_seller o = GRAPHENE_NULL_ACCOUNT /\ lo_expiration o = 2 ^ 32 - 1
    /\ lo_deferred_fee o = 0 /\ amount (lo_deferred_paid_fee o) = 0 /\ exists b, settled_ok bas o b;
}.

(** At most one order sells the settled debt of an asset. *)
Record orders_ok (d : database) : Prop := {
  bk_orders : tall (order_ok (bitassets d)) (limit_orders d);
  bk_settled : forall i j o o', rows (limit_orders d) !! i = Some o -> rows (limit_orders d) !! j = Some o' ->
    lo_is_settled_debt o = true -> lo_is_settled_debt o' = true -> receive_asset_id o = receive_asset_id o' -> i = j;
}.

Lemma order_ok_bitassets bas bas' o : order_ok bas o ->
  (lo_is_settled_debt o = true -> bas' !! receive_asset_id o = bas !! receive_asset_id o) -> order_ok bas' o.
Proof.
  intros [H1 H2 H3 H4] E. split; [done..|]. intros Hs. destruct (H4 Hs) as (? & ? & ? & ? & b & [K1 K2 K3 K4 K5 K6]).
  split_and!; [done..|]. exists b. split; [by rewrite E|done..].
Qed.

Lemma backing_insert_sum a bas i b b' m : bas !! i = Some b ->
  bo_short_backing_asset (ba_options b') = bo_short_backing_asset (ba_options b) ->
  dyn_sum a (<[i := b']> bas) m = dyn_sum a bas m.
Proof.
  intros Hb E. unfold dyn_sum. apply msum_ext. intros j x _. unfold backing. destruct (decide (j = i)) as [->|].
  - by rewrite lookup_insert_eq, Hb, E.
  - by rewrite lookup_insert_ne.
Qed.

(** Changing the settled debt of an asset. *)
Lemma set_bitasset_shifts d i b b' : bitassets d !! i = Some b -> ba_options b' = ba_options b ->
  shifts d (fun a => ind a (bo_short_backing_asset (ba_options b))
    * (ba_settlement_fund b' + ba_individual_settlement_fund b' - ba_settlement_fund b - ba_individual_settlement_fund b))
    (d <| bitassets ::= <[i := b']> |>).
Proof.
  intros Hb E1 Hwf. split; [destruct Hwf; wf|]. intros a. unfold excess, holdings, supply. cbn.
  rewrite (backing_insert_sum _ _ _ _ _ _ Hb) by (by rewrite E1).
  unfold bit_sum. rewrite (msum_insert _ _ _ _ _ Hb), E1. lia.
Qed.

(** The order book after a step that may change the orders [t] and [m] only, and the
    asset whose settled debt the order [m] sells. *)
Record book_step (t m : Z) (om : limit_order_object) (d d' : database) : Prop := {
  bs_time : head_block_time d' = head_block_time d;
  bs_maint : next_maintenance_time d' = next_maintenance_time d;
  bs_assets : assets d' = assets d;
  bs_bitassets : forall i, (lo_is_settled_debt om = true -> i <> receive_asset_id om) ->
    bitassets d' !! i = bitassets d !! i;
  bs_rows : forall j, j <> t -> j <> m -> rows (limit_orders d') !! j = rows (limit_orders d) !! j;
  bs_next : next_id (limit_orders d') = next_id (limit_orders d);
}.

Lemma order_step_book t m om i d d' : order_step i d d' -> i = t \/ i = m -> book_step t m om d d'.
Proof.
  intros [E1 E2 E3 E4 E5 E6 E7] Hi. split; try done.
  - by rewrite E5.
  - intros j Ht Hm. apply E6. by destruct Hi as [->| ->].
Qed.

#[local] Instance book_step_preorder t m om : PreOrder (book_step t m om).
Proof.
  split; [by split|]. intros d d1 d2 [E1 E2 E3 E4 E5 E6] [F1 F2 F3 F4 F5 F6]. split; try congruence.
  - intros i Hi. by rewrite F4, E4.
  - intros j Ht Hm. by rewrite F5, E5.
Qed.

(** The same order, whatever is left of it. *)
Definition same_terms (o o' : limit_order_object) : Prop :=
  lo_sell_price o' = lo_sell_price o /\ lo_is_settled_debt o' = lo_is_settled_debt o.

Lemma filled_part_ok bas o o' n : order_ok bas o -> lo_is_settled_debt o = false -> 0 <= n <= lo_for_sale o ->
  filled_part o o' n -> order_ok bas o'.
Proof.
  intros [H1 H2 Ha H3] Hs Hn ->. split; cbn; [by split | done | | by rewrite Hs].
  intros _. specialize (Ha Hs). unfold amount_ok in *. lia.
Qed.

(** The orders the step has not touched stay as they were. *)
Lemma orders_ok_step t m om d d' : orders_ok d -> book_step t m om d d' -> rows (limit_orders d) !! m = Some om ->
  (forall o, rows (limit_orders d') !! t = Some o -> order_ok (bitassets d') o /\ lo_is_settled_debt o = false) ->
  (forall o, rows (limit_orders d') !! m = Some o -> order_ok (bitassets d') o
     /\ lo_is_settled_debt o = lo_is_settled_debt om /\ receive_asset_id o = receive_asset_id om) -> orders_ok d'.
Proof.
  intros [Hok Hu] Hb Hom Ht Hm.
  assert (forall j o, rows (limit_orders d') !! j = Some o -> lo_is_settled_debt o = true ->
    exists o0, rows (limit_orders d) !! j = Some o0 /\ lo_is_settled_debt o0 = true /\ receive_asset_id o0 = receive_asset_id o)
    as Hold.
  { intros j o Ho Hs. destruct (decide (j = t)) as [->|]; [apply Ht in Ho as [_ Ho]; congruence|].
    destruct (decide (j = m)) as [->|].
    - apply Hm in Ho as (_ & E1 & E2). exists om. by rewrite E2, <- E1.
    - exists o. by rewrite <- (bs_rows _ _ _ _ _ Hb). }
  split.
  - intros i o Ho. cbn. destruct (decide (i = t)) as [->|]; [by apply Ht|].
    destruct (decide (i = m)) as [->|]; [by apply Hm|]. rewrite (bs_rows _ _ _ _ _ Hb) in Ho by done.
    eapply order_ok_bitassets; [apply (Hok _ _ Ho)|]. intros Hs. apply (bs_bitassets _ _ _ _ _ Hb).
    intros Hsm E. by apply n0, (Hu i m o om).
  - intros i j o o' Hi Hj Hsi Hsj E. destruct (Hold _ _ Hi Hsi) as (oi & ? & ? & Ei).
    destruct (Hold _ _ Hj Hsj) as (oj & ? & ? & Ej). apply (Hu i j oi oj); [done..|congruence].
Qed.

(** What is left of a filled order is an order the book accepts. *)
Definition left_of (d : database) (id : Z) (o : limit_order_object) (n : Z) (gone : bool) (P : limit_order_object -> Prop) : Prop :=
  if gone then rows (limit_orders d) !! id = None
  else n <> lo_for_sale o /\ exists o', rows (limit_orders d) !! id = Some o' /\ filled_part o o' n /\ P o'.

Lemma left_of_terms d id o n gone P o' : left_of d id o n gone P -> rows (limit_orders d) !! id = Some o' -> same_terms o o'.
Proof.
  intros Hb Ho'. destruct gone; cbn in Hb; [congruence|]. destruct Hb as (_ & o1 & E & Hf & _).
  assert (o' = o1) as -> by congruence. by rewrite Hf.
Qed.

Lemma left_of_ok bas d id o n gone P o' : left_of d id o n gone P -> rows (limit_orders d) !! id = Some o' ->
  order_ok bas o -> lo_is_settled_debt o = false -> 0 <= n <= lo_for_sale o -> order_ok bas o'.
Proof.
  intros Hb Ho' Hok Hs Hn. destruct gone; cbn in Hb; [congruence|]. destruct Hb as (_ & o1 & E & Hf & _).
  assert (o' = o1) as -> by congruence. by apply (filled_part_ok _ o _ n).
Qed.

(** The taker would get nothing for what it has left. *)
Definition taker_done (d : database) (t : Z) : Prop :=
  forall o, rows (limit_orders d) !! t = Some o -> exists r, amount_to_receive o = Ok r /\ amount r = 0.

(** The taker accepts the price of the maker. *)
Definition crosses (ot om : limit_order_object) : Prop :=
  opposite ot om
  /\ amount (quote (lo_sell_price ot)) * amount (quote (lo_sell_price om))
     <= amount (base (lo_sell_price om)) * amount (base (lo_sell_price ot)).

(** What the price of the maker is too little for, its own price is too little for. *)
Lemma too_small ot om o x : crosses ot om -> price_ok (lo_sell_price ot) -> price_ok (lo_sell_price om) ->
  lo_sell_price o = lo_sell_price ot -> lo_for_sale o = x -> amount_ok x ->
  x * amount (base (lo_sell_price om)) < amount (quote (lo_sell_price om)) ->
  exists r, amount_to_receive o = Ok r /\ amount r = 0.
Proof.
  intros [_ Hc] Ht Hm E <- Hx Hlt. unfold amount_to_receive. rewrite E, asset_mul_price_side by done.
  unfold price_side, amount_for_sale, sell_asset_id. cbn. rewrite E, Z.eqb_refl.
  destruct (price_base_pos _ Ht), (price_quote_pos _ Ht), (price_base_pos _ Hm), (price_quote_pos _ Hm).
  rewrite (Z.div_small _ _); [by eexists|]. unfold amount_ok in *.
  set (qt := amount (quote (lo_sell_price ot))) in *. set (bt := amount (base (lo_sell_price ot))) in *.
  set (q := amount (quote (lo_sell_price om))) in *. set (b := amount (base (lo_sell_price om))) in *.
  split; [nia|]. assert (lo_for_sale o * qt * q < bt * q); nia.
Qed.

(** What a match of the orders [t] and [m] does to the database. *)
Record matched (t m : Z) (ot om : limit_order_object) (d d' : database) (r : match_result_type) : Prop := {
  mt_shifts : shifts d (fun _ => 0) d';
  mt_step : book_step t m om d d';
  mt_ok : orders_ok d';
  mt_taker : forall o, rows (limit_orders d') !! t = Some o -> same_terms ot o;
  mt_maker : r = only_maker_filled -> rows (limit_orders d') !! m = None;
  mt_stop : r <> only_maker_filled -> crosses ot om -> taker_done d' t;
  mt_terms : lo_is_settled_debt om = false \/ HARDFORK_CORE_2591_PASSED (head_block_time d) = true ->
    forall o, rows (limit_orders d') !! m = Some o -> same_terms om o;
}.

Lemma match_none_ok d t m ot om : orders_ok d -> rows (limit_orders d) !! t = Some ot ->
  rows (limit_orders d) !! m = Some om -> (crosses ot om -> taker_done d t) -> matched t m ot om d d only_taker_filled.
Proof.
  intros Hok Hot Hom Hd. split; [by apply shifts_refl | done.. | | done | by auto |].
  - rewrite Hot. by intros ? [= <-].
  - rewrite Hom. by intros _ ? [= <-].
Qed.

Lemma match_amounts_none d ot om : match_amounts d ot om (lo_sell_price om) = Ok None ->
  opposite ot om -> price_ok (lo_sell_price om) -> amount_ok (lo_for_sale ot) ->
  lo_for_sale ot * amount (base (lo_sell_price om)) < amount (quote (lo_sell_price om)).
Proof.
  unfold match_amounts. intros E [_ Ho] Hp Ht. mon. apply asset_le_ok in Hr0 as [_ ->]. destruct (_ <=? _); mon.
  - match goal with E : asset_mul_price (amount_for_sale ot) _ = Ok _ |- _ =>
      apply (down_to_taker om Hp) in E as (_ & _ & Hr1); [|exact Ho | exact Ht] end.
    match goal with E : (if ?c then _ else _) = Ok None |- _ => destruct c eqn:Hz end; mon.
    2:{ exfalso. by match goal with E : (if ?c then _ else _) = Ok None |- _ => destruct c end; mon. }
    cbn in Hr1. rewrite H1 in Hr1. lia.
  - exfalso. by match goal with E : (if ?c then _ else _) = Ok None |- _ => destruct c end; mon.
Qed.

Lemma match_normal_ok d t m d' r ot om :
  match_limit_normal_limit limit_order_cancel_fee d t m (lo_sell_price om) = Ok (d', r) -> t <> m -> orders_ok d ->
  rows (limit_orders d) !! t = Some ot -> rows (limit_orders d) !! m = Some om -> opposite ot om ->
  matched t m ot om d d' r.
Proof.
  unfold match_limit_normal_limit, get_order. intros E Hne Hok Hot Hom Hop. unfold tfind in E.
  rewrite Hot, Hom in E. cbn [of_option rbind] in E. mon.
  pose proof (bk_orders _ Hok _ _ Hot) as Hokt. pose proof (bk_orders _ Hok _ _ Hom) as Hokm. cbn in Hokt, Hokm.
  assert (amount_ok (lo_for_sale ot)) as Hat by by apply Hokt. assert (amount_ok (lo_for_sale om)) as Ham by by apply Hokm.
  match goal with x : option _ |- _ => destruct x as [[[tr mr] ct]|] end; mon.
  2:{ apply match_none_ok; [done..|]. intros Hc o Ho. assert (o = ot) as -> by congruence.
      eapply too_small; [exact Hc | apply Hokt | apply Hokm | done..|].
      eapply match_amounts_none; [done | done | apply Hokm | done]. }
  match goal with E : match_amounts _ _ _ _ = Ok _ |- _ =>
    apply match_amounts_fair in E as [[_ Hft Hfm _] Hfm']; [|by apply Hokm|done..] end.
  repeat (match goal with p : (database * bool)%type |- _ => destruct p end; mon).
  match goal with E : fill_limit_order _ d _ _ _ _ _ _ = Ok (?x, ?y) |- _ =>
    rename x into d1; rename y into bt; eapply fill_limit_order_ok in E as (_ & Hs1 & Hst1 & Hb1); [|done..|by apply Hokt] end.
  assert (rows (limit_orders d1) !! m = Some om) as Hom1 by (rewrite (os_rows _ _ _ Hst1); [done|congruence]).
  match goal with E : fill_limit_order _ d1 _ _ _ _ _ _ = Ok (?x, ?y) |- _ =>
    rename y into bm; eapply fill_limit_order_ok in E as (_ & Hs2 & Hst2 & Hb2); [|done..|by apply Hokm] end.
  change (left_of d1 t ot (amount mr) bt (fun o' => ct = true -> exists r, amount_to_receive o' = Ok r /\ amount r <> 0)) in Hb1.
  change (left_of d' m om (amount tr) bm (fun o' => true = true -> exists r, amount_to_receive o' = Ok r /\ amount r <> 0)) in Hb2.
  assert (book_step t m om d d') as Hbs.
  { etrans; [by eapply order_step_book; [|left] | by eapply order_step_book; [|right]]. }
  assert (bitassets d' = bitassets d) as Hbas by (by rewrite (os_bitassets _ _ _ Hst2), (os_bitassets _ _ _ Hst1)).
  pose proof (os_rows _ _ _ Hst2 t ltac:(done)) as Ht2.
  split; [|done|..].
  - eapply shifts_trans; [exact Hs1 | exact Hs2|]. intros a. cbn. lia.
  - apply (orders_ok_step t m om d); [done..| |]; rewrite Hbas; intros o Ho.
    + rewrite Ht2 in Ho. pose proof (left_of_terms _ _ _ _ _ _ _ Hb1 Ho) as [_ ->]. split; [|done].
      by eapply (left_of_ok _ _ _ _ _ _ _ _ Hb1 Ho).
    + pose proof (left_of_terms _ _ _ _ _ _ _ Hb2 Ho) as [Ep ->]. split; [by eapply (left_of_ok _ _ _ _ _ _ _ _ Hb2 Ho)|].
      split; [done|]. unfold receive_asset_id. by rewrite Ep.
  - rewrite Ht2. intros o. exact (left_of_terms _ _ _ _ _ _ _ Hb1).
  - intros Hres. destruct bm; [done|]. by destruct bt.
  - intros Hres _. destruct bt; [|by destruct bm]. intros o Ho. rewrite Ht2 in Ho. cbn in Hb1. congruence.
  - intros _ o. exact (left_of_terms _ _ _ _ _ _ _ Hb2).
Qed.
(** *** Settled debts *)

(** Debt bought back leaves the supply; the fees of the collateral stay in the asset. *)
Lemma set_collateral_fees_shifts d i x y : dyn_data d !! i = Some y ->
  dd_accumulated_fees x = dd_accumulated_fees y -> dd_confidential_supply x = dd_confidential_supply y ->
  dd_fee_pool x = dd_fee_pool y ->
  shifts d (fun a => ind a i * (dd_current_supply y - dd_current_supply x)
    + backing a (bitassets d) i * (dd_accumulated_collateral_fees x - dd_accumulated_collateral_fees y)) (set_dyn d i x).
Proof.
  intros Hy E1 E2 E3 Hwf. split; [destruct Hwf; wf|]. intros a. unfold excess, holdings, supply. cbn.
  rewrite (dyn_sum_insert _ _ _ _ _ _ Hy), (supply_in_insert _ _ _ _ _ Hy), E1, E2, E3. lia.
Qed.

Lemma settled_debt_books d mia x x' b b' (received fees paid : Z) op :
  dyn_data d !! mia = Some x -> bitassets d !! mia = Some b ->
  dd_accumulated_fees x' = dd_accumulated_fees x -> dd_confidential_supply x' = dd_confidential_supply x ->
  dd_fee_pool x' = dd_fee_pool x -> dd_current_supply x' = dd_current_supply x - received ->
  dd_accumulated_collateral_fees x' = dd_accumulated_collateral_fees x + fees ->
  ba_options b' = ba_options b -> ba_settlement_fund b' = ba_settlement_fund b ->
  ba_individual_settlement_fund b' = ba_individual_settlement_fund b - paid ->
  shifts d (fun a => ind a mia * received + ind a (bo_short_backing_asset (ba_options b)) * (fees - paid))
    ((push_applied_operation (set_dyn d mia x') op) <| bitassets ::= <[mia := b']> |>).
Proof.
  intros Hx Hb E1 E2 E3 E4 E5 F1 F3 F4.
  pose proof (set_collateral_fees_shifts d mia x' x Hx E1 E2 E3) as H1.
  pose proof (proj1 (push_shifts (set_dyn d mia x') op)) as H2.
  pose proof (set_bitasset_shifts (push_applied_operation (set_dyn d mia x') op) mia b b' Hb F1) as H3.
  eapply shifts_trans; [exact (shifts_trans _ _ _ _ _ _ H1 H2 (fun _ => eq_refl)) | exact H3 |].
  intros a. cbn. unfold backing. rewrite Hb, E4, E5, F3, F4. lia.
Qed.

(** A part of the fund for the same part of the debt leaves the rest covered. *)
Lemma covered_part debt fund b q cr pays : 0 <= cr <= debt -> 0 < debt -> 0 < q -> debt * b <= fund * q ->
  pays * debt <= cr * fund -> (debt - cr) * b <= (fund - pays) * q.
Proof.
  intros Hcr Hd Hq Hc Hp. apply (Z.mul_le_mono_pos_l _ _ debt); [done|].
  assert (cr * (debt * b) + (debt - cr) * (debt * b) <= cr * (fund * q) + (debt - cr) * (fund * q)) by nia.
  assert (pays * debt * q <= cr * fund * q) by nia.
  assert ((debt - cr) * (debt * b) <= (debt - cr) * (fund * q)) by nia. nia.
Qed.

Section SettledDebt.
Variables (bas : gmap asset_id_type asset_bitasset_data_object) (ot om : limit_order_object).
Variable b : asset_bitasset_data_object.
Let p := lo_sell_price om.
Hypothesis Hp : price_ok p.
Hypothesis Hso : settled_ok bas om b.
Hypothesis Hop : opposite ot om.
Hypothesis Ht : amount_ok (lo_for_sale ot).

Lemma settled_amounts_none : settled_debt_amounts ot om b p = Ok None ->
  lo_for_sale ot * amount (base p) < amount (quote p).
Proof.
  unfold settled_debt_amounts. intros E. destruct Hop as [_ Hs]. mon. destruct r; mon; try done.
  match goal with E : (if ?c then _ else _) = Ok None |- _ => destruct c eqn:Hz end; mon; try done.
  match goal with E : asset_mul_price _ _ = Ok _ |- _ =>
    apply (down_to_taker om Hp) in E as (_ & _ & Hr1); [|exact Hs | exact Ht] end.
  cbn in Hr1. unfold p in *. replace (amount r) with 0 in Hr1 by done. lia.
Qed.

Lemma settled_amounts_some cr orr ct filled : settled_debt_amounts ot om b p = Ok (Some (cr, orr, ct, filled)) ->
  asset_id cr = receive_asset_id om /\ asset_id orr = sell_asset_id om /\ 0 <= amount cr <= lo_for_sale ot
  /\ (filled = false -> ct = true /\ amount_ok (amount orr) /\ amount cr < ba_individual_settlement_debt b
        /\ amount orr * amount (quote p) <= amount cr * amount (base p)
        /\ (lo_for_sale ot - amount cr) * amount (base p) < amount (quote p)).
Proof.
  unfold settled_debt_amounts. intros E. destruct Hop as [_ Hs]. pose proof (so_debt _ _ _ Hso) as Hdebt.
  pose proof (price_base_pos _ Hp) as Hb. pose proof (price_quote_pos _ Hp) as Hq. mon.
  apply asset_lt_ok in Hr as [_ ->]. cbn [amount amount_for_sale] in *. destruct (_ <? _) eqn:Hlt; mon.
  2:{ split_and!; [done..|cbn; lia | cbn; lia | done]. }
  match goal with E : asset_mul_price _ _ = Ok _ |- _ =>
    apply (down_to_taker om Hp) in E as (Hid & Hrok & Hr1); [|exact Hs | exact Ht] end.
  match goal with E : (if ?c then _ else _) = Ok _ |- _ => destruct c eqn:Hz end; mon; [done|].
  match goal with E : multiply_and_round_up _ _ = Ok _ |- _ =>
    apply (up_to_maker om Hp) in E as (Hid' & Hrok' & Hr2); [|done..] end.
  unfold amount_ok, p, amount_for_sale in *. cbn [amount] in *.
  assert (amount cr <= lo_for_sale ot) by nia. split_and!; [done..|lia|done|].
  intros _. split_and!; try done; try lia; nia.
Qed.

Lemma settled_pays_bounds cr orr pays : settled_debt_pays om b false cr orr = Ok pays ->
  asset_id cr = receive_asset_id om -> 0 <= amount cr < ba_individual_settlement_debt b -> amount_ok (amount orr) ->
  amount orr * amount (quote p) <= amount cr * amount (base p) ->
  0 <= amount pays < ba_individual_settlement_fund b
  /\ (ba_individual_settlement_debt b - amount cr) * amount (base p)
     <= (ba_individual_settlement_fund b - amount pays) * amount (quote p).
Proof.
  unfold settled_debt_pays, get_individual_settlement_price, asset_div. intros E Hid Hcr Ho Hle.
  destruct Hso as [Hbas Hback Hbid Hdebt Hfund Hcov]. change (lo_sell_price om) with p in Hcov.
  pose proof (price_base_pos _ Hp) as Hb. pose proof (price_quote_pos _ Hp) as Hq.
  assert (amount orr < ba_individual_settlement_fund b) as Hlt by (unfold amount_ok in *; nia).
  mon. apply asset_lt_ok in Hr0 as [_ ->].
  assert (0 <= amount r < ba_individual_settlement_fund b
    /\ (ba_individual_settlement_debt b - amount cr) * amount (base p)
       <= (ba_individual_settlement_fund b - amount r) * amount (quote p)) as Hr'.
  { destruct (negb _); mon; [|unfold amount_ok in *; nia].
    match type of Hr with asset_mul_price cr ?q = _ => set (price := q) in * end.
    assert (price_ok price) as Hpp by (by split; cbn).
    assert (price_side cr price = Some (ba_individual_settlement_fund b, ba_individual_settlement_debt b, sell_asset_id om)) as Hs
      by (unfold price_side; cbn; by rewrite Hid, Hbid, Z.eqb_refl, Hback).
    destruct (round_down_ok cr price r _ _ _ ltac:(unfold amount_ok; lia) Hpp Hs Hr) as (_ & Hr2 & Hr3).
    unfold amount_ok in *. split; [nia|]. apply (covered_part (ba_individual_settlement_debt b)); lia. }
  destruct (_ <? _); unfold amount_ok in *; [split; nia | done].
Qed.
End SettledDebt.
(** What is left of a settled debt is still covered by what is left of the fund. *)
Lemma settled_debt_order_ok after bas b maker maker' :
  settled_debt_order after b maker = Ok maker' -> lo_is_settled_debt maker = true -> price_ok (lo_sell_price maker) ->
  fees_ok maker -> lo_seller maker = GRAPHENE_NULL_ACCOUNT -> lo_expiration maker = 2 ^ 32 - 1 ->
  lo_deferred_fee maker = 0 -> amount (lo_deferred_paid_fee maker) = 0 ->
  bas !! receive_asset_id maker = Some b -> bo_short_backing_asset (ba_options b) = sell_asset_id maker ->
  ba_asset_id b = receive_asset_id maker -> 0 < ba_individual_settlement_debt b <= INT64_MAX ->
  0 < ba_individual_settlement_fund b <= INT64_MAX ->
  order_ok bas maker' /\ lo_is_settled_debt maker' = true /\ receive_asset_id maker' = receive_asset_id maker
  /\ forall a, order_sum a maker' = order_sum a maker.
Proof.
  intros E Hm Hp Hf Hs Hx Hd Hdp Hbas Hback Hid Hdebt Hfund.
  assert (exists n p, maker' = maker <| lo_for_sale := n |> <| lo_sell_price := p |>
     /\ asset_id (base p) = sell_asset_id maker /\ asset_id (quote p) = receive_asset_id maker /\ price_ok p
     /\ ba_individual_settlement_debt b * amount (base p) <= ba_individual_settlement_fund b * amount (quote p))
    as (n & p & -> & E1 & E2 & Hpp & Hcov).
  { unfold settled_debt_order, get_individual_settlement_price, asset_div in E.
    assert (price_ok (price_inv (Price (Asset (ba_individual_settlement_debt b) (ba_asset_id b))
              (Asset (ba_individual_settlement_fund b) (bo_short_backing_asset (ba_options b)))))) as Hinv.
    { split; cbn; [done..|]. rewrite Hback, Hid. apply (price_ids _ Hp). }
    destruct after; mon; [|eexists _, _; split; [done|]; split_and!; [done..|cbn; lia]].
    destruct (_ >? _) eqn:Hgt; mon; [eexists _, _; split; [done|]; split_and!; [done..|cbn; lia]|].
    match goal with E : multiply_and_round_up _ _ = Ok _ |- _ =>
      apply (up_to_taker maker Hp) in E as (_ & _ & Hr1); [|done | unfold amount_ok; cbn; lia] end.
    exists (amount r), (lo_sell_price maker). split; [by destruct maker|]. split_and!; [done..|].
    destruct (price_quote_pos _ Hp). cbn in Hr1. nia. }
  split; [|split; [done | split; [done|]]].
  - split; [done..| |].
    + intros F. change (lo_is_settled_debt maker = false) in F. congruence.
    + intros _. split_and!; [done..|]. exists b.
      split; unfold receive_asset_id, sell_asset_id; cbn; rewrite ?E1, ?E2; done.
  - intros a. unfold order_sum. cbn. by rewrite Hm.
Qed.

(** A covered debt keeps its price: the branch of the code that resets it is not reached. *)
Lemma settled_price_kept b maker maker' : settled_debt_order true b maker = Ok maker' -> price_ok (lo_sell_price maker) ->
  0 < ba_individual_settlement_debt b <= INT64_MAX ->
  ba_individual_settlement_debt b * amount (base (lo_sell_price maker))
    <= ba_individual_settlement_fund b * amount (quote (lo_sell_price maker)) ->
  same_terms maker maker'.
Proof.
  unfold settled_debt_order. intros E Hp Hd Hc. mon.
  match goal with E : multiply_and_round_up _ _ = Ok _ |- _ =>
    apply (up_to_taker maker Hp) in E as (_ & _ & Hr1); [|done | unfold amount_ok; cbn; lia] end.
  destruct (price_quote_pos _ Hp). cbn in Hr1. destruct (_ >? _) eqn:Hgt; mon; [nia|done].
Qed.

(** The order of a settled debt after a match: gone, or for what is left of the debt. *)
Lemma settle_maker_ok d m om b after (filled : bool) d' :
  (if filled then Ok (d <| limit_orders := tremove (limit_orders d) m |>)
   else let! maker := settled_debt_order after b om in Ok (set_order d m maker)) = Ok d' ->
  rows (limit_orders d) !! m = Some om -> lo_is_settled_debt om = true -> price_ok (lo_sell_price om) ->
  fees_ok om -> lo_seller om = GRAPHENE_NULL_ACCOUNT -> lo_expiration om = 2 ^ 32 - 1 ->
  lo_deferred_fee om = 0 -> amount (lo_deferred_paid_fee om) = 0 ->
  (filled = false -> bitassets d !! receive_asset_id om = Some b /\ bo_short_backing_asset (ba_options b) = sell_asset_id om
    /\ ba_asset_id b = receive_asset_id om /\ 0 < ba_individual_settlement_debt b <= INT64_MAX
    /\ 0 < ba_individual_settlement_fund b <= INT64_MAX) ->
  shifts d (fun _ => 0) d' /\ order_step m d d'
  /\ (if filled then rows (limit_orders d') !! m = None
      else exists om', rows (limit_orders d') !! m = Some om' /\ order_ok (bitassets d') om'
        /\ lo_is_settled_debt om' = true /\ receive_asset_id om' = receive_asset_id om
        /\ (after = true -> ba_individual_settlement_debt b * amount (base (lo_sell_price om))
              <= ba_individual_settlement_fund b * amount (quote (lo_sell_price om)) -> same_terms om om')).
Proof.
  intros E Hom Hr Hp Hf Hs Hx Hd Hdp Hb. destruct filled; mon.
  - split; [|split; [apply remove_order_step | cbn; apply lookup_delete_eq]].
    eapply shifts_ext; [by apply (remove_order_shifts d m om)|]. intros a. unfold order_sum, asset_in.
    rewrite Hr, Hd, Hdp. lia.
  - destruct Hb as (? & ? & ? & ? & ?); [done|].
    match goal with E : settled_debt_order _ _ _ = Ok ?x |- _ =>
      rename x into om'; rename E into Eset; pose proof Eset as E;
      eapply settled_debt_order_ok in E as (Hok' & Hs' & Hid & Hsum); [|done..] end.
    split; [|split; [apply set_order_step | exists om'; cbn; rewrite lookup_tmodify; split_and!; [done..|]]].
    2:{ intros -> Hcov. by eapply settled_price_kept. }
    eapply shifts_ext; [by apply (set_order_shifts d m om)|]. intros a. cbn. rewrite Hsum. lia.
Qed.
(** From the fill of the taker and the books to the whole match. *)
Lemma after_settled_match d d4 t m ot om b' after (bt filled : bool) n P d' :
  (if filled then Ok (d4 <| limit_orders := tremove (limit_orders d4) m |>)
   else let! maker := settled_debt_order after b' om in Ok (set_order d4 m maker)) = Ok d' ->
  orders_ok d -> rows (limit_orders d) !! t = Some ot -> rows (limit_orders d) !! m = Some om -> t <> m ->
  lo_is_settled_debt ot = false -> lo_is_settled_debt om = true ->
  shifts d (fun _ => 0) d4 -> book_step t m om d d4 -> rows (limit_orders d4) !! m = Some om ->
  left_of d4 t ot n bt P -> 0 <= n <= lo_for_sale ot ->
  (filled = false -> (lo_for_sale ot - n) * amount (base (lo_sell_price om)) < amount (quote (lo_sell_price om))) ->
  (filled = false -> bitassets d4 !! receive_asset_id om = Some b' /\ bo_short_backing_asset (ba_options b') = sell_asset_id om
    /\ ba_asset_id b' = receive_asset_id om /\ 0 < ba_individual_settlement_debt b' <= INT64_MAX
    /\ 0 < ba_individual_settlement_fund b' <= INT64_MAX
    /\ ba_individual_settlement_debt b' * amount (base (lo_sell_price om))
        <= ba_individual_settlement_fund b' * amount (quote (lo_sell_price om))) ->
  after = HARDFORK_CORE_2591_PASSED (head_block_time d) ->
  matched t m ot om d d' (get_match_result bt filled).
Proof.
  intros E Hok Hot Hom Hne Ht Hm Hs4 Hb4 Hom4 Hleft Hn Hrest Hb' Hafter.
  pose proof (bk_orders _ Hok _ _ Hot) as Hokt. pose proof (bk_orders _ Hok _ _ Hom) as Hokm. cbn in Hokt, Hokm.
  destruct Hokm as [Hfm Hpm _ Hsm]. destruct (Hsm Hm) as (Hms & Hmx & Hmd & Hmp & b & Hso).
  eapply settle_maker_ok in E as (Hs5 & Hst5 & Hgone); [|done..|by intros F; split_and!; apply Hb'].
  assert (book_step t m om d d') as Hb5 by (etrans; [exact Hb4 | by eapply order_step_book; [|right]]).
  pose proof (os_rows _ _ _ Hst5 t ltac:(done)) as Ht5.
  assert (forall o, rows (limit_orders d') !! t = Some o -> same_terms ot o) as Hterms
    by (rewrite Ht5; intros o; exact (left_of_terms _ _ _ _ _ _ _ Hleft)).
  split; [eapply shifts_trans; [exact Hs4 | exact Hs5 | done] | done | | done | | |].
  - apply (orders_ok_step t m om d); [done..| |].
    + intros o Ho. pose proof (Hterms _ Ho) as [_ Hso']. rewrite Ht in Hso'. split; [|done]. rewrite Ht5 in Ho.
      eapply (order_ok_bitassets (bitassets d)); [|congruence].
      by eapply (left_of_ok _ _ _ _ _ _ _ _ Hleft Ho).
    + intros o Ho. destruct filled; [congruence|]. destruct Hgone as (om' & Ho' & ? & ? & ? & _).
      assert (o = om') as -> by congruence. split_and!; [done | congruence | done].
  - intros Hres. destruct filled; [done | by destruct bt].
  - intros Hres Hc o Ho. rewrite Ht5 in Ho. destruct bt; cbn in Hleft; [congruence|].
    destruct filled; [done|]. destruct Hleft as (_ & o1 & Ho1 & Hf & _). assert (o = o1) as -> by congruence.
    assert (amount_ok (lo_for_sale ot)) as Hat by by apply Hokt.
    eapply (too_small ot om _ (lo_for_sale ot - n)); [exact Hc | apply Hokt | done | by rewrite Hf | by rewrite Hf | | by apply Hrest].
    unfold amount_ok in *. lia.
  - intros [F|F] o Ho; [congruence|]. destruct filled; [congruence|]. destruct Hgone as (om' & Ho' & _ & _ & _ & Hkept).
    assert (o = om') as -> by congruence. apply Hkept; [congruence|]. by apply Hb'.
Qed.

Lemma match_settled_ok d t m d' r ot om :
  match_limit_settled_debt limit_order_cancel_fee d t m (lo_sell_price om) = Ok (d', r) -> t <> m -> orders_ok d ->
  rows (limit_orders d) !! t = Some ot -> rows (limit_orders d) !! m = Some om -> opposite ot om ->
  matched t m ot om d d' r.
Proof.
  unfold match_limit_settled_debt, get_order, get_dyn. intros E Hne Hok Hot Hom Hop. unfold tfind in E.
  rewrite Hot, Hom in E. cbn [of_option rbind] in E. mon.
  pose proof (bk_orders _ Hok _ _ Hot) as Hokt. pose proof (bk_orders _ Hok _ _ Hom) as Hokm. cbn in Hokt, Hokm.
  destruct Hokm as [Hfm Hpm _ Hsm]. destruct (Hsm ltac:(done)) as (Hms & Hmx & Hmd & Hmp & b & Hso).
  assert (amount_ok (lo_for_sale ot)) as Hat by by apply Hokt.
  match goal with E : bitassets d !! _ = Some ?x |- _ =>
    assert (x = b) as -> by (pose proof (so_bitasset _ _ _ Hso); congruence); clear E end.
  match goal with x : option _ |- _ => destruct x as [[[[cr orr] ct] filled]|] end; mon.
  2:{ apply match_none_ok; [done..|]. intros Hc o Ho. assert (o = ot) as -> by congruence.
      eapply too_small; [exact Hc | apply Hokt | done..|]. by eapply settled_amounts_none. }
  match goal with E : settled_debt_amounts _ _ _ _ = Ok _ |- _ =>
    eapply (settled_amounts_some (bitassets d)) in E as (Hcr & Horr & Hcrb & Hnf); [|done..] end.
  repeat (match goal with p : (database * bool)%type |- _ => destruct p end; mon).
  match goal with E : fill_limit_order _ d _ _ _ _ _ _ = Ok (?x, ?y) |- _ =>
    rename x into d1; rename y into bt; eapply fill_limit_order_ok in E as (_ & Hs1 & Hst1 & Hb1); [|done..|by apply Hokt] end.
  change (left_of d1 t ot (amount cr) bt (fun o' => ct = true -> exists r, amount_to_receive o' = Ok r /\ amount r <> 0)) in Hb1.
  asset_ints. safe_ints. set (mia := receive_asset_id om) in *.
  match goal with E : (if filled then Ok (?D <| limit_orders := _ |>) else _) = _ |- _ => set (d4 := D) in *; rename E into Hset end.
  set (b' := b <| ba_individual_settlement_debt := r5 |> <| ba_individual_settlement_fund := r6 |>) in *.
  assert (bitassets d1 !! mia = Some b) as Hb1' by (rewrite (os_bitassets _ _ _ Hst1); by apply Hso).
  assert (shifts d (fun _ => 0) d4) as Hs4.
  { eapply shifts_trans; [exact Hs1 | |].
    - apply (settled_debt_books d1 mia r2 _ b b' (amount cr) (amount r0 - amount orr) (amount r0)); done.
    - intros a. cbn. unfold asset_in. rewrite (so_backing _ _ _ Hso), Horr, Hcr. lia. }
  eapply (after_settled_match d d4 t m ot om b'); [exact Hset | done..| | | exact Hb1 | done | by intros F; apply Hnf | |done].
  - destruct Hst1. split; try done; [|intros j Hj _; by apply os_rows0].
    intros i Hi. cbn. rewrite lookup_insert_ne by (intros <-; by apply Hi). by rewrite os_bitassets0.
  - cbn. rewrite (os_rows _ _ _ Hst1); [done|congruence].
  - intros ->. destruct Hnf as (_ & Ho & Hlt & Hle & _); [done|]. destruct Hso as [Hbas Hback Hbid Hdebt Hfund Hcov] eqn:Hso'.
    pose proof (settled_pays_bounds (bitassets d) om b Hpm Hso _ _ _ Hr2 Hcr ltac:(lia) Ho Hle) as [Hpays Hcov'].
    split; [cbn; apply lookup_insert_eq|]. cbn. subst r5 r6. split_and!; [done..|lia|lia|lia|lia|done].
Qed.
(** ** Applying an order *)

Lemma match_limit_ok d t m om d' r :
  match_limit limit_order_cancel_fee d t m (lo_sell_price om) = Ok (d', r) -> t <> m -> orders_ok d ->
  rows (limit_orders d) !! m = Some om ->
  exists ot, rows (limit_orders d) !! t = Some ot /\ opposite ot om /\ matched t m ot om d d' r.
Proof.
  unfold match_limit, get_order. intros E Hne Hok Hom. unfold tfind in E. rewrite Hom in E.
  destruct (rows (limit_orders d) !! t) as [ot|] eqn:Hot; [|done]. cbn [of_option rbind] in E. mon.
  exists ot. split; [done|]. assert (opposite ot om) as Hop by done. split; [done|].
  destruct (lo_is_settled_debt om); [by apply match_settled_ok | by apply match_normal_ok].
Qed.

(** What the matches of the order [t] with the given orders do. *)
Record loop_done (t : Z) (ot : limit_order_object) (makers : list (Z * limit_order_object)) (d d' : database) : Prop := {
  ld_shifts : shifts d (fun _ => 0) d';
  ld_ok : orders_ok d';
  ld_time : head_block_time d' = head_block_time d;
  ld_maint : next_maintenance_time d' = next_maintenance_time d;
  ld_rows : forall j, j <> t -> j ∉ map fst makers -> rows (limit_orders d') !! j = rows (limit_orders d) !! j;
  ld_some : forall j o, rows (limit_orders d') !! j = Some o -> is_Some (rows (limit_orders d) !! j);
  ld_taker : forall o, rows (limit_orders d') !! t = Some o -> same_terms ot o;
  ld_terms : HARDFORK_CORE_2591_PASSED (head_block_time d) = true -> forall j o o',
    rows (limit_orders d) !! j = Some o -> rows (limit_orders d') !! j = Some o' -> same_terms o o';
  ld_crossed : Forall (fun x => crosses ot (snd x)) makers ->
    taker_done d' t \/ Forall (fun x => rows (limit_orders d') !! fst x = None) makers;
}.

#[local] Instance same_terms_preorder : PreOrder same_terms.
Proof. split; [by split|]. intros x y z [] []. split; congruence. Qed.

Lemma crosses_terms o o' om : same_terms o o' -> crosses o om -> crosses o' om.
Proof.
  intros [E _]. unfold crosses, opposite, receive_asset_id, sell_asset_id. by rewrite E.
Qed.

Lemma match_loop_ok t ot makers : forall d d', match_loop limit_order_cancel_fee d t makers = Ok d' -> orders_ok d ->
  (forall o, rows (limit_orders d) !! t = Some o -> same_terms ot o) ->
  Forall (fun x => rows (limit_orders d) !! fst x = Some (snd x)) makers -> NoDup (t :: map fst makers) ->
  loop_done t ot makers d d'.
Proof.
  induction makers as [|[m om] makers IH]; cbn [match_loop]; intros d d' E Hok Hot Hall Hnd.
  - injection E as <-. split; try done; [by apply shifts_refl | | by right].
    intros _ j o o' E1 E2. assert (o = o') as -> by congruence. done.
  - destruct (match_limit _ _ _ _ _) as [[d1 r]|] eqn:Em; [|done]. cbn [rbind] in E.
    apply Forall_cons in Hall as [Hom Hall]. cbn [map fst snd] in *.
    apply NoDup_cons in Hnd as [Ht Hnd]. apply NoDup_cons in Hnd as [Hm Hnd].
    apply not_elem_of_cons in Ht as [Hne Ht].
    apply match_limit_ok in Em as (o & Ho & Hop & [M1 M2 M3 M4 M5 M6 M7]); [|done..].
    assert (same_terms ot o) as Hsame by by apply Hot.
    assert (forall o', rows (limit_orders d1) !! t = Some o' -> same_terms ot o') as Hot1.
    { intros o' Ho'. destruct (M4 _ Ho') as [E1 E2], Hsame as [F1 F2]. split; congruence. }
    assert (forall j o', rows (limit_orders d1) !! j = Some o' -> is_Some (rows (limit_orders d) !! j)) as Hsome1.
    { intros j o' Hj. destruct (decide (j = t)) as [->|]; [by eexists|]. destruct (decide (j = m)) as [->|]; [by eexists|].
      rewrite (bs_rows _ _ _ _ _ M2) in Hj by done. by eexists. }
    assert (HARDFORK_CORE_2591_PASSED (head_block_time d) = true -> forall j x x',
      rows (limit_orders d) !! j = Some x -> rows (limit_orders d1) !! j = Some x' -> same_terms x x') as Hterms1.
    { intros Hhf j x x' Hx Hx'. destruct (decide (j = t)) as [->|]; [assert (x = o) as -> by congruence; by apply M4|].
      destruct (decide (j = m)) as [->|]; [assert (x = om) as -> by congruence; by apply M7; [right|]|].
      rewrite (bs_rows _ _ _ _ _ M2) in Hx' by done. by assert (x = x') as -> by congruence. }
    destruct (bool_decide (r = only_maker_filled)) eqn:Hr; mon.
    + destruct (IH _ _ E M3 Hot1) as [L1 L2 L3 L4 L5 L6 L7 LT L8].
      { apply Forall_forall. intros x Hx. rewrite Forall_forall in Hall. rewrite (bs_rows _ _ _ _ _ M2); [by apply Hall|..];
          intros Ex; [apply Ht | apply Hm]; rewrite <- Ex; by apply list_elem_of_fmap_2. }
      { by apply NoDup_cons. }
      split; [by eapply shifts_trans | done | by rewrite L3, (bs_time _ _ _ _ _ M2) | by rewrite L4, (bs_maint _ _ _ _ _ M2) | | | done | |].
      * intros j Hjt Hj. cbn in Hj. apply not_elem_of_cons in Hj as [? ?]. rewrite L5 by done. by apply (bs_rows _ _ _ _ _ M2).
      * intros j o' Hj. apply L6 in Hj as [? Hj]. by eapply Hsome1.
      * intros Hhf j x x' Hx Hx'. apply L6 in Hx' as Hx1. destruct Hx1 as [x1 Hx1].
        transitivity x1; [by eapply Hterms1|]. rewrite <- (bs_time _ _ _ _ _ M2) in Hhf. by apply (LT Hhf j).
      * intros [Hc Hcs]%Forall_cons. destruct (L8 Hcs) as [|Hgone]; [by left|right]. apply Forall_cons. split; [|done].
        cbn. destruct (rows (limit_orders d') !! m) as [o'|] eqn:Hm'; [|done].
        apply L6 in Hm' as [? Hm']. rewrite (M5 Hr) in Hm'. done.
    + split; [done | done | by apply (bs_time _ _ _ _ _ M2) | by apply (bs_maint _ _ _ _ _ M2) | | done | done | done |].
      * intros j Hjt Hj. cbn in Hj. apply not_elem_of_cons in Hj as [? ?]. by apply (bs_rows _ _ _ _ _ M2).
      * intros [Hc Hcs]%Forall_cons. left. apply M6; [done|]. by eapply crosses_terms.
Qed.
(** The price of an order is within the supply of what it sells. *)
Definition price_bounded (o : limit_order_object) : Prop := amount (base (lo_sell_price o)) <= GRAPHENE_MAX_SHARE_SUPPLY.

(** The range of the index is the orders on the other side the new one crosses. *)
Lemma in_range_crosses o x highest : price_ok (lo_sell_price o) -> price_ok (lo_sell_price x) ->
  price_max (asset_id (quote (lo_sell_price o))) (asset_id (base (lo_sell_price o))) = Ok highest ->
  (negb (price_gt (lo_sell_price x) highest) && negb (price_gt (price_inv (lo_sell_price o)) (lo_sell_price x)) = true
   -> crosses o x)
  /\ (crosses o x -> price_bounded x ->
      negb (price_gt (lo_sell_price x) highest) && negb (price_gt (price_inv (lo_sell_price o)) (lo_sell_price x)) = true).
Proof.
  intros Ho Hx E. unfold price_max, asset_div in E. cbn in E. mon.
  assert (price_ok (price_inv (lo_sell_price o))) as Hi by by apply price_inv_ok.
  destruct (price_base_pos _ Ho), (price_quote_pos _ Ho), (price_base_pos _ Hx), (price_quote_pos _ Hx).
  set (h := Price _ _). assert (price_ok h) as Hh.
  { split; cbn; [| |done]; unfold INT64_MAX, GRAPHENE_MAX_SHARE_SUPPLY; lia. }
  unfold price_gt. rewrite andb_true_iff, !negb_true_iff, <- !not_true_iff_false, !price_lt_spec by done.
  unfold crosses, opposite, receive_asset_id, sell_asset_id, price_bounded in *. cbn. split.
  - intros [Hhi Hlo]. split; [lia|]. apply Z.nlt_ge. intros F. lia.
  - intros [[E1 E2] Hc] Hb. rewrite E1, E2. split; [|lia]. intros [|(_ & [|(_ & F)])]; [lia..|]. nia.
Qed.

Lemma matching_orders_ok d t o makers : matching_orders d o = Ok makers -> orders_ok d ->
  rows (limit_orders d) !! t = Some o ->
  Forall (fun x => rows (limit_orders d) !! fst x = Some (snd x)) makers /\ NoDup (t :: map fst makers)
  /\ Forall (fun x => crosses o (snd x)) makers
  /\ (forall j x, rows (limit_orders d) !! j = Some x -> crosses o x -> price_bounded x -> (j, x) ∈ makers).
Proof.
  unfold matching_orders. intros E Hok Ho. mon.
  set (in_range := fun x : Z * limit_order_object => negb (price_gt (lo_sell_price (snd x)) r)
                          && negb (price_gt (price_inv (lo_sell_price o)) (lo_sell_price (snd x))) = true).
  change (NoDup (t :: map fst (insertion_sort by_price (filter in_range (map_to_list (rows (limit_orders d)))))))
    with (NoDup (t :: map fst (insertion_sort by_price (filter in_range (map_to_list (rows (limit_orders d))))))).
  set (l := insertion_sort _ _).
  assert (Permutation l (filter in_range (map_to_list (rows (limit_orders d))))) as Hl by apply insertion_sort_perm.
  assert (forall i x, rows (limit_orders d) !! i = Some x -> price_ok (lo_sell_price x)) as Hp
    by (intros i x Hx; apply (ok_price _ _ (bk_orders _ Hok _ _ Hx))).
  assert (forall j x, (j, x) ∈ l <-> in_range (j, x) /\ rows (limit_orders d) !! j = Some x) as Hin.
  { intros j x. rewrite Hl, list_elem_of_filter, elem_of_map_to_list. done. }
  assert (forall j x, (j, x) ∈ l -> rows (limit_orders d) !! j = Some x /\ crosses o x) as Hc.
  { intros j x [Hr' Hj]%Hin. split; [done|]. eapply in_range_crosses; [by eapply Hp|by eapply Hp|done|exact Hr']. }
  split_and!.
  - apply Forall_forall. intros [j x] Hx. by apply Hc in Hx as [Hx _].
  - apply NoDup_cons. split.
    + intros ([j x] & Ej & Hx)%list_elem_of_fmap. cbn in Ej. subst j. apply Hc in Hx as [Hx [[Hs _] _]].
      assert (x = o) as -> by congruence. by destruct (price_ids _ (Hp _ _ Ho)).
    + rewrite Hl. eapply (sublist_NoDup _ (map fst (map_to_list (rows (limit_orders d))))); [apply NoDup_fst_map_to_list|].
      apply fmap_sublist, sublist_filter.
  - apply Forall_forall. intros [j x] Hx. by apply Hc in Hx as [_ Hx].
  - intros j x Hx Hcx Hb. apply Hin. split; [|done]. eapply in_range_crosses; [by eapply Hp|by eapply Hp|done..].
Qed.

(** Margin calls are disabled for every asset but the prediction markets, which have none. *)
Lemma no_margin_calls d o b : margin_calls_possible d o = Ok b -> b = false.
Proof.
  unfold margin_calls_possible. intros E. mon. destruct (as_market_issued r); mon; [|done].
  unfold margin_calls_disabled, manages_margin_positions. destruct (ba_is_prediction_market _); cbn;
    by rewrite ?andb_false_r.
Qed.

(** What a new order leaves behind. *)
Record applied (t : Z) (ot : limit_order_object) (gone : bool) (d d' : database) : Prop := {
  ap_shifts : shifts d (fun _ => 0) d';
  ap_ok : orders_ok d';
  ap_time : head_block_time d' = head_block_time d;
  ap_maint : next_maintenance_time d' = next_maintenance_time d;
  ap_some : forall j o, rows (limit_orders d') !! j = Some o -> is_Some (rows (limit_orders d) !! j);
  ap_terms : HARDFORK_CORE_2591_PASSED (head_block_time d) = true -> forall j o o',
    rows (limit_orders d) !! j = Some o -> rows (limit_orders d') !! j = Some o' -> same_terms o o';
  ap_gone : if gone then rows (limit_orders d') !! t = None
            else exists o, rows (limit_orders d') !! t = Some o /\ same_terms ot o;
}.

(** Without one of its orders the book is in order still. *)
Lemma removed_ok d t d' : orders_ok d -> order_step t d d' -> rows (limit_orders d') !! t = None -> orders_ok d'.
Proof.
  intros [Hok Hu] Hst Hn.
  assert (forall i x, rows (limit_orders d') !! i = Some x -> rows (limit_orders d) !! i = Some x) as Hsub.
  { intros i x Hx. destruct (decide (i = t)) as [->|]; [congruence|]. by rewrite <- (os_rows _ _ _ Hst). }
  split.
  - intros i x Hx. cbn. rewrite (os_bitassets _ _ _ Hst). by apply (Hok i), Hsub.
  - intros i j x y Hx Hy. apply Hu; by apply Hsub.
Qed.

Lemma cull_applied d t d' b o : maybe_cull_small_order limit_order_cancel_fee d t = Ok (d', b) -> orders_ok d ->
  rows (limit_orders d) !! t = Some o -> lo_is_settled_debt o = false ->
  applied t o b d d' /\ (b = false -> d' = d) /\ (taker_done d t -> b = true).
Proof.
  intros E Hok Ho Hn. apply (maybe_cull_ok _ _ _ _ o) in E as (Hs & Hst & Hb); [|done..].
  split; [|split].
  - split; [done | | by apply Hst | by apply Hst | | |].
    + destruct b; [by eapply removed_ok | by destruct Hb as [-> _]].
    + intros j x Hx. destruct (decide (j = t)) as [->|]; [by eexists|]. rewrite (os_rows _ _ _ Hst) in Hx by done. by eexists.
    + intros _ j x x' Hx Hx'. destruct (decide (j = t)) as [->|].
      * destruct b; [congruence|]. destruct Hb as [-> _]. by assert (x = x') as -> by congruence.
      * rewrite (os_rows _ _ _ Hst) in Hx' by done. by assert (x = x') as -> by congruence.
    + destruct b; [done|]. destruct Hb as [-> _]. by exists o.
  - intros ->. by destruct Hb.
  - intros Hd. destruct b; [done|]. destruct Hb as [_ (r & Hr & Hne)]. destruct (Hd _ Ho) as (r' & Hr' & Hz). congruence.
Qed.

Lemma apply_order_ok d t d' gone ot : apply_order limit_order_cancel_fee d t = Ok (d', gone) -> orders_ok d ->
  rows (limit_orders d) !! t = Some ot -> lo_is_settled_debt ot = false ->
  applied t ot gone d d'
  /\ (has_order_in_front d t ot = false -> gone = false ->
      forall j x x', rows (limit_orders d) !! j = Some x -> price_bounded x ->
        rows (limit_orders d') !! j = Some x' -> ~ crosses ot x).
Proof.
  unfold apply_order, get_order, tfind. intros E Hok Hot Hn. rewrite Hot in E. cbn [of_option rbind] in E.
  destruct (has_order_in_front d t ot); mon.
  { split; [|done]. split; try done; [by apply shifts_refl | | by exists ot].
    intros _ j x x' Hx Hx'. by assert (x = x') as -> by congruence. }
  match goal with E : margin_calls_possible _ _ = Ok _ |- _ => apply no_margin_calls in E as -> end. mon.
  match goal with E : matching_orders _ _ = Ok ?x |- _ =>
    apply (matching_orders_ok _ t) in E as (Hmk & Hnd & Hc & Hall); [|done..]; rename x into makers end.
  match goal with E : match_loop _ _ _ _ = Ok ?x |- _ =>
    apply (match_loop_ok t ot) in E as [L1 L2 L3 L4 L5 L6 L7 LT L8]; [|done| |done..]; [rename x into d1 |] end.
  2:{ intros o. rewrite Hot. by intros [= <-]. }
  specialize (L8 Hc). destruct (rows (limit_orders d1) !! t) as [o1|] eqn:Ho1; mon.
  2:{ split; [|done]. by split. }
  destruct (L7 _ eq_refl) as [Hp1 Hs1].
  apply (cull_applied _ _ _ _ o1) in E as ([A1 A2 A3 A4 A5 A6 A7] & Hsame & Hdone); [|done..|congruence].
  split.
  - split; [by eapply shifts_trans | done | congruence | congruence | | |].
    + intros j o Hj. apply A5 in Hj as [? Hj]. by eapply L6.
    + intros Hhf j x x' Hx Hx'. destruct (A5 _ _ Hx') as [x1 Hx1].
      transitivity x1; [by eapply LT | eapply A6; [by rewrite L3|done..]].
    + destruct gone; [done|]. destruct A7 as (o & Ho & Hst). exists o. split; [done|]. by transitivity o1.
  - intros _ -> j x x' Hx Hb Hx' Hcx. rewrite (Hsame eq_refl) in Hx'.
    destruct L8 as [Hd|Hgone]; [by apply Hdone in Hd|].
    rewrite Forall_forall in Hgone. specialize (Hgone (j, x) (Hall _ _ Hx Hcx Hb)). cbn in Hgone. congruence.
Qed.
(** ** The book is not crossed *)

(** No two orders of the book, but for the order [t], would match. *)
Definition uncrossed_but (t : Z) (d : database) : Prop :=
  forall i j x y, i <> t -> j <> t -> rows (limit_orders d) !! i = Some x -> rows (limit_orders d) !! j = Some y ->
    ~ crosses x y.

Definition uncrossed (d : database) : Prop :=
  forall i j x y, rows (limit_orders d) !! i = Some x -> rows (limit_orders d) !! j = Some y -> ~ crosses x y.

Lemma crosses_sym x y : crosses x y -> crosses y x.
Proof. intros [[E1 E2] Hc]. split; [by split|]. lia. Qed.

Lemma crosses_irrefl x : price_ok (lo_sell_price x) -> ~ crosses x x.
Proof. intros [_ _ Hne] [[E _] _]. by unfold receive_asset_id, sell_asset_id in E. Qed.

(** An order behind another one of the same side crosses nothing the other does not. *)
Lemma behind_crosses k f t o x : by_price (k, f) (t, o) = true -> sell_asset_id f = sell_asset_id o ->
  receive_asset_id f = receive_asset_id o -> price_ok (lo_sell_price f) -> price_ok (lo_sell_price o) ->
  price_ok (lo_sell_price x) -> crosses o x -> crosses f x.
Proof.
  intros Hby E1 E2 Hf Ho Hx [[C1 C2] Hc]. split; [split; congruence|].
  assert (amount (base (lo_sell_price o)) * amount (quote (lo_sell_price f))
          <= amount (base (lo_sell_price f)) * amount (quote (lo_sell_price o))) as Hle.
  { unfold by_price, price_gt in Hby. cbn in Hby. apply Z.nlt_ge. intros F.
    assert (price_lt (lo_sell_price f) (lo_sell_price o) = true) as Hlt
      by (apply price_lt_spec; [done..|]; unfold sell_asset_id, receive_asset_id in *; lia).
    destruct (price_lt (lo_sell_price o) (lo_sell_price f)) eqn:Hgt; [|by rewrite Hlt in Hby].
    apply price_lt_spec in Hgt; [|done..]. unfold sell_asset_id, receive_asset_id in *. lia. }
  destruct (price_base_pos _ Hf), (price_quote_pos _ Hf), (price_base_pos _ Ho), (price_quote_pos _ Ho),
    (price_base_pos _ Hx), (price_quote_pos _ Hx).
  apply (Z.mul_le_mono_pos_r _ _ (amount (quote (lo_sell_price o)))); [done|].
  set (qo := amount (quote (lo_sell_price o))) in *. set (bo := amount (base (lo_sell_price o))) in *.
  set (qf := amount (quote (lo_sell_price f))) in *. set (bf := amount (base (lo_sell_price f))) in *.
  set (qx := amount (quote (lo_sell_price x))) in *. set (bx := amount (base (lo_sell_price x))) in *.
  assert (qo * qx * qf <= bx * bo * qf) by nia. assert (bx * (bo * qf) <= bx * (bf * qo)) by nia. nia.
Qed.

Lemma by_price_irrefl t o : price_ok (lo_sell_price o) -> by_price (t, o) (t, o) = false.
Proof. intros Hp. unfold by_price, price_gt. cbn. by rewrite price_lt_irrefl, Z.ltb_irrefl. Qed.

(** Applying the new order keeps the book uncrossed. *)
Lemma apply_order_uncrossed d t d' gone ot : apply_order limit_order_cancel_fee d t = Ok (d', gone) -> orders_ok d ->
  rows (limit_orders d) !! t = Some ot -> lo_is_settled_debt ot = false ->
  HARDFORK_CORE_2591_PASSED (head_block_time d) = true ->
  tall price_bounded (limit_orders d) -> uncrossed_but t d -> uncrossed d'.
Proof.
  intros E Hok Hot Hn Hhf Hb Hu. apply (apply_order_ok _ _ _ _ ot) in E as ([A1 A2 A3 A4 A5 A6 A7] & Hstop); [|done..].
  assert (forall j x, rows (limit_orders d) !! j = Some x -> price_ok (lo_sell_price x)) as Hp
    by (intros j x Hx; apply (ok_price _ _ (bk_orders _ Hok _ _ Hx))).
  assert (gone = false -> forall j x x', rows (limit_orders d) !! j = Some x -> rows (limit_orders d') !! j = Some x' ->
    ~ crosses ot x) as Ht.
  { intros Hg j x x' Hx Hx' Hc. destruct (has_order_in_front d t ot) eqn:Hfront.
    2:{ revert Hc. eapply Hstop; [done..|apply (Hb _ _ Hx)|done]. }
    unfold has_order_in_front in Hfront. apply existsb_exists in Hfront as ([k f] & Hin & Hk). cbn in Hk.
    apply list_elem_of_In, elem_of_map_to_list in Hin. apply andb_true_iff in Hk as [[Hby E1]%andb_true_iff E2]. reflect_bools.
    assert (k <> t) as Hkt.
    { intros ->. assert (f = ot) as -> by congruence. rewrite by_price_irrefl in Hby; [done|by eapply Hp]. }
    destruct (decide (j = t)) as [->|Hjt].
    - assert (x = ot) as -> by congruence. by apply (crosses_irrefl ot); [eapply Hp|].
    - apply (Hu k j f x); [done..|]. by eapply behind_crosses; [exact Hby|done|done|eapply Hp..|]. }
  assert (forall i j x y, rows (limit_orders d) !! i = Some x -> rows (limit_orders d) !! j = Some y -> i = t ->
    is_Some (rows (limit_orders d') !! i) -> is_Some (rows (limit_orders d') !! j) -> ~ crosses x y) as Htj.
  { intros i j x y Hx Hy -> [x' Hx'] [y' Hy']. assert (x = ot) as -> by congruence.
    destruct gone; [congruence|]. by eapply Ht. }
  intros i j x' y' Hx' Hy' Hc. destruct (A5 _ _ Hx') as [x Hx], (A5 _ _ Hy') as [y Hy].
  pose proof (A6 Hhf _ _ _ Hx Hx') as [Ex _]. pose proof (A6 Hhf _ _ _ Hy Hy') as [Ey _].
  assert (crosses x y) as Hxy by (unfold crosses, opposite, receive_asset_id, sell_asset_id in *; by rewrite Ex, Ey in Hc).
  destruct (decide (i = t)) as [Hi|Hi]; [by eapply Htj; [exact Hx|exact Hy|..]|].
  destruct (decide (j = t)) as [Hj|Hj]; [apply crosses_sym in Hxy; by eapply Htj; [exact Hy|exact Hx|..]|].
  by apply (Hu i j x y).
Qed.
(** ** Creating an order *)

Lemma orders_ok_same d d' : limit_orders d' = limit_orders d -> bitassets d' = bitassets d -> orders_ok d -> orders_ok d'.
Proof. intros E1 E2 [H1 H2]. split; by rewrite E1, ?E2. Qed.

Lemma created_ok d o : orders_ok d -> table_wf (limit_orders d) -> order_ok (bitassets d) o -> lo_is_settled_debt o = false ->
  orders_ok (d <| limit_orders := tcreate (limit_orders d) o |>).
Proof.
  intros [Hok Hu] Hwf Ho Hn. split; [by apply tall_create|]. unfold tcreate. cbn. intros i j x y.
  rewrite !lookup_insert_Some. intros [[<- <-]|[_ Hx]] [[<- <-]|[_ Hy]]; [done | congruence | congruence | by apply Hu].
Qed.

(** The conversion does not give less than nothing. *)
Lemma prepare_fee_nonneg d acc fee n : prepare_fee d acc fee = Ok n -> 0 <= n /\ 0 <= amount fee.
Proof.
  unfold prepare_fee. intros E. mon. split; [|done]. destruct (asset_id fee =? CORE); mon; [done|].
  match goal with E : asset_mul_price _ _ = Ok _ |- _ => unfold asset_mul_price in E; rename E into Em end.
  assert (forall x d, 0 < d -> x mod 2 ^ 128 / d <= GRAPHENE_MAX_SHARE_SUPPLY -> 0 <= to_int64 (x mod 2 ^ 128 / d)) as Hpos.
  { intros x m Hm Hle. rewrite to_int64_small; [apply Z.div_pos; [by apply Z.mod_pos_bound|done]|].
    assert (0 <= x mod 2 ^ 128 / m) by (apply Z.div_pos; [by apply Z.mod_pos_bound|done]).
    unfold int64_range, INT64_MIN, INT64_MAX, GRAPHENE_MAX_SHARE_SUPPLY in *. lia. }
  repeat (match goal with E : (if ?c then _ else _) = Ok _ |- _ => destruct c end; mon); try done; cbn; by apply Hpos.
Qed.

Lemma create_fees d op n d1 d2 df paid : prepare_fee d (oc_seller op) (oc_fee op) = Ok n ->
  limit_order_create_convert_fee d (oc_fee op) n = Ok d1 ->
  limit_order_create_pay_fee d1 (oc_seller op) (oc_fee op) n = Ok (d2, df, paid) ->
  shifts d (fun a => asset_in a (oc_fee op) - ind a CORE * df - asset_in a paid) d2 /\ same_market d d2
  /\ 0 <= df /\ 0 <= amount paid.
Proof.
  intros Ep Ec Epay. pose proof (prepare_fee_nonneg _ _ _ _ Ep) as [Hn Hf].
  pose proof (prepare_fee_core _ _ _ _ Ep) as Hcore.
  assert (shifts d (fun a => (if (head_block_time d >? HARDFORK_CORE_604_TIME) && negb (asset_id (oc_fee op) =? CORE)
                              then 0 else asset_in a (oc_fee op)) - ind a CORE * n) d1 /\ same_market d d1) as [Hs1 Hm1].
  { unfold limit_order_create_convert_fee in Ec. rewrite Z.gtb_ltb, Z.ltb_antisym.
    destruct (_ <=? HARDFORK_CORE_604_TIME); cbn.
    - split.
      + intros Hwf. destruct (convert_fee_paid _ _ _ _ Ec Hcore Hwf) as (? & _ & Ex). split; [done|]. intros a. rewrite Ex. lia.
      + apply convert_fee_only in Ec as (dd & st & -> & _). by split.
    - unfold get_dyn in Ec. destruct (asset_id (oc_fee op) =? CORE) eqn:Hc; cbn in *; mon; safe_ints; subst.
      + split; [|done]. apply shifts_refl. intros a. unfold asset_in. rewrite Hcore by done. replace (asset_id _) with CORE by done. lia.
      + split; [|by split]. match goal with E : dyn_data _ !! _ = Some _ |- _ => rename E into Hd end.
        eapply shifts_ext; [eapply set_dyn_shifts; [exact Hd|]; shelve |]. intros a. cbn. lia.
        Unshelve. done. }
  unfold limit_order_create_pay_fee in Epay. destruct (_ <=? HARDFORK_445_TIME) eqn:H445; mon.
  - match goal with E : pay_fee _ _ _ = Ok _ |- _ => apply pay_fee_shifts in E as [Hs2 Hm2] end.
    split; [|split; [by etrans|]; cbn; lia]. eapply shifts_trans; [exact Hs1 | exact Hs2|]. intros a. cbn.
    rewrite (sm_time _ _ Hm1) in H445.
    assert ((head_block_time d >? HARDFORK_CORE_604_TIME) = false) as -> by (unfold HARDFORK_445_TIME, HARDFORK_CORE_604_TIME in *; lia).
    unfold asset_in. cbn. lia.
  - rewrite (sm_time _ _ Hm1). split; [|split; [done|]].
    + eapply shifts_ext; [exact Hs1|]. intros a. cbn. destruct (_ && _); unfold asset_in; cbn; lia.
    + split; [done|]. by destruct (_ && _).
Qed.
(** The new order is for what the seller pays, with the fee it carries. *)
Lemma create_apply_ok d op df paid d' id : limit_order_create_do_apply limit_order_cancel_fee d op df paid = Ok (d', id) ->
  limit_order_create_validate op = Ok tt -> amount (oc_amount_to_sell op) <= INT64_MAX ->
  amount (oc_min_to_receive op) <= INT64_MAX -> 0 <= df -> 0 <= amount paid -> db_wf d -> orders_ok d ->
  shifts d (fun a => ind a CORE * df + asset_in a paid) d' /\ orders_ok d'
  /\ (HARDFORK_CORE_2591_PASSED (head_block_time d) = true -> amount (oc_amount_to_sell op) <= GRAPHENE_MAX_SHARE_SUPPLY ->
      tall price_bounded (limit_orders d) -> uncrossed d -> tall price_bounded (limit_orders d') /\ uncrossed d').
Proof.
  unfold limit_order_create_do_apply, limit_order_create_validate. intros E V Hs Hr Hdf Hpaid Hwf Hok. mon. asset_ints.
  match goal with E : adjust_balance _ _ _ = Ok ?x |- _ => apply adjust_shifts in E as [Hs2 Hm2]; rename x into d2 end.
  match goal with E : (if _ =? CORE then _ else _) = Ok ?x |- _ => rename x into d1; rename E into Hd1 end.
  assert (shifts d (fun _ => 0) d1 /\ same_market d d1) as [Hs1 Hm1].
  { destruct (_ =? CORE); [by eapply core_in_orders_shifts; left|]. mon. split; [by apply shifts_refl | done]. }
  assert (same_market d d2) as Hm by by etrans. unfold asset_div in *. mon.
  set (o := LimitOrder _ _ _ _ _ _ _ _) in *. set (d3 := d2 <| limit_orders := _ |>) in *.
  destruct (_ <=? HARDFORK_CORE_625_TIME); mon.
  match goal with p : (database * bool)%type |- _ => destruct p as [d4 gone] end. mon.
  assert (limit_orders d2 = limit_orders d) as Eo by apply Hm.
  assert (table_wf (limit_orders d2)) as Htw by (rewrite Eo; apply Hwf).
  assert (rows (limit_orders d3) !! next_id (limit_orders d2) = Some o) as Ho by (cbn; apply lookup_insert_eq).
  assert (orders_ok d3) as Hok3.
  { apply created_ok; [by apply (orders_ok_same d); [apply Hm..|] | done | | done]. split; [by split | | by unfold amount_ok; cbn; lia | done].
    split; cbn; [lia | lia | done]. }
  assert (shifts d (fun a => ind a CORE * df + asset_in a paid) d3) as Hs3.
  { eapply shifts_trans; [eapply shifts_trans; [exact Hs1 | exact Hs2 | reflexivity] | apply create_order_shifts |].
    intros a. cbn. unfold order_sum, asset_in, o. cbn. lia. }
  match goal with E : apply_order _ _ _ = Ok _ |- _ => rename E into Eap end.
  destruct (apply_order_ok _ _ _ _ o Eap Hok3 Ho eq_refl) as ([A1 A2 _ _ A5 A6 _] & _).
  split; [eapply shifts_trans; [exact Hs3 | exact A1 |]; intros a; cbn; lia|]. split; [done|].
  intros Hhf Hmax Hb Hu. rewrite <- (sm_time _ _ Hm) in Hhf.
  assert (tall price_bounded (limit_orders d3)) as Hb3 by (apply tall_create; [done | by rewrite Eo]). split.
  - intros j x Hx. destruct (A5 _ _ Hx) as [x0 Hx0]. destruct (A6 Hhf _ _ _ Hx0 Hx) as [Ep _].
    cbn. unfold price_bounded. rewrite Ep. apply (Hb3 _ _ Hx0).
  - eapply apply_order_uncrossed; [exact Eap | done..|]. intros i j x y Hi Hj Hx Hy. cbn in Hx, Hy.
    unfold tcreate in Hx, Hy. cbn in Hx, Hy. rewrite lookup_insert_ne in Hx, Hy by done. rewrite Eo in Hx, Hy. by apply (Hu i j).
Qed.
(** ** Cancelling orders *)

Lemma normal_order bas o : order_ok bas o -> lo_seller o <> GRAPHENE_NULL_ACCOUNT -> lo_is_settled_debt o = false.
Proof. intros Hok Hs. destruct (lo_is_settled_debt o) eqn:E; [|done]. by destruct (ok_settled _ _ Hok E) as (? & _). Qed.

Definition cancel_evaluator : Evaluator limit_order_cancel_operation limit_order_object asset :=
  limit_order_cancel_evaluator limit_order_cancel_fee.
#[local] Existing Instance cancel_evaluator.

Lemma cancel_apply_ok d op o d' r : do_apply d op o = Ok (d', r) ->
  rows (limit_orders d) !! ol_order op = Some o -> lo_is_settled_debt o = false ->
  shifts d (fun _ => 0) d' /\ order_step (ol_order op) d d' /\ rows (limit_orders d') !! ol_order op = None.
Proof.
  cbn. unfold limit_order_cancel_do_apply. intros E Ho Hn. mon.
  destruct (_ <=? HARDFORK_CORE_606_TIME); mon. by eapply cancel_limit_order_ok.
Qed.

Lemma cancel_evaluate_inv d op o : do_evaluate d op = Ok o -> ol_fee_paying_account op <> GRAPHENE_NULL_ACCOUNT ->
  orders_ok d -> rows (limit_orders d) !! ol_order op = Some o /\ lo_is_settled_debt o = false.
Proof.
  cbn. unfold limit_order_cancel_do_evaluate, get_order. intros E Hne Hok. mon. split; [done|].
  eapply normal_order; [by apply (bk_orders _ Hok (ol_order op))|congruence].
Qed.

(** What a step of the book leaves: some of the orders, unchanged. *)
Record book_after_removal (d d' : database) : Prop := {
  rm_ok : orders_ok d';
  rm_sub : forall j o, rows (limit_orders d') !! j = Some o -> rows (limit_orders d) !! j = Some o;
}.

Lemma cancel_conserves (calc : database -> limit_order_cancel_operation -> result share_type) skip d op d' r :
  apply_operation calc skip d op = Ok (d', r) -> ol_fee_paying_account op <> GRAPHENE_NULL_ACCOUNT ->
  db_wf d -> orders_ok d -> conserves d d' /\ db_wf d' /\ book_after_removal d d'.
Proof.
  unfold apply_operation. intros E Hne Hwf Hok. mon.
  destruct (start_evaluate_conserves calc skip d op d' r) as [Hc Hwf']; [|done..|].
  { intros d1 o d2 r' Ev (dd & st & -> & _) Hwf1 Ea. destruct (cancel_evaluate_inv _ _ _ Ev Hne Hok) as [Ho Hn].
    destruct (cancel_apply_ok _ _ _ _ _ Ea Ho Hn) as (Hs & _). destruct (Hs Hwf1) as [? Ex].
    split; [|done]. intros a. rewrite Ex. lia. }
  split; [done|]. split; [done|].
  apply start_evaluate_inv in E as (d1 & o & d2 & m & Ev & (dd & st & -> & _) & Ea & ->).
  destruct (cancel_evaluate_inv _ _ _ Ev Hne Hok) as [Ho Hn].
  destruct (cancel_apply_ok _ _ _ _ _ Ea Ho Hn) as (_ & Hst & Hgone). split.
  - apply (orders_ok_same d2); [done..|]. eapply removed_ok; [|exact Hst | done]. by apply (orders_ok_same d).
  - intros j x Hx. cbn in Hx. destruct (decide (j = ol_order op)) as [->|]; [congruence|]. by rewrite (os_rows _ _ _ Hst) in Hx.
Qed.

(** ** Expired orders *)

Lemma clear_expired_loop_ok fuel : forall d, (size (rows (limit_orders d)) <= fuel)%nat -> head_block_time d < 2 ^ 32 - 1 ->
  orders_ok d -> exists r, clear_expired_orders_loop limit_order_cancel_fee fuel d = Some r
    /\ forall d', r = Ok d' -> shifts d (fun _ => 0) d' /\ book_after_removal d d'
         /\ forall j o, rows (limit_orders d') !! j = Some o -> head_block_time d < lo_expiration o.
Proof.
  induction fuel as [|fuel IH]; intros d Hsize Ht Hok; cbn;
    destruct (tfirst_due _ _ _) as [[id o]|] eqn:Ed.
  - apply tfirst_due_Some in Ed as [Ed _]. apply Nat.le_0_r in Hsize. apply map_size_empty_inv in Hsize.
    by rewrite Hsize, lookup_empty in Ed.
  - eexists. split; [done|]. intros d' [= <-]. split; [by apply shifts_refl|]. split; [by split|].
    intros j o Ho. by apply (tfirst_due_None lo_expiration) with (id := j) (x := o) in Ed.
  - apply tfirst_due_Some in Ed as [Ho Hx]. pose proof (bk_orders _ Hok _ _ Ho) as Ho'. cbn in Ho'.
    assert (lo_is_settled_debt o = false) as Hn.
    { destruct (lo_is_settled_debt o) eqn:En; [|done]. destruct (ok_settled _ _ Ho' En) as (_ & Hexp & _). lia. }
    destruct (cancel_limit_order _ _ _ _ _) as [d1|e] eqn:Ec; [|by eexists; split].
    apply (cancel_limit_order_ok _ _ _ _ _ o) in Ec as (Hs & Hst & Hgone); [|done..].
    assert (forall j x, rows (limit_orders d1) !! j = Some x -> rows (limit_orders d) !! j = Some x) as Hsub.
    { intros j x Hj. destruct (decide (j = id)) as [->|]; [congruence|]. by rewrite (os_rows _ _ _ Hst) in Hj. }
    assert (size (rows (limit_orders d1)) < size (rows (limit_orders d)))%nat as Hlt.
    { apply map_subset_size. apply map_subset_alt. split; [by apply map_subseteq_spec|]. exists id. split; [done|by eexists]. }
    destruct (IH d1) as (r & Er & Hr); [lia | by rewrite (os_time _ _ _ Hst) | by eapply removed_ok|].
    exists r. split; [done|]. intros d' ->. destruct (Hr d' eq_refl) as (Hs' & [Hok' Hsub'] & Hexp).
    split; [by eapply shifts_trans|]. split; [split; auto|]. intros j x Hj. rewrite <- (os_time _ _ _ Hst). by eapply Hexp.
  - eexists. split; [done|]. intros d' [= <-]. split; [by apply shifts_refl|]. split; [by split|].
    intros j o Ho. by apply (tfirst_due_None lo_expiration) with (id := j) (x := o) in Ed.
Qed.
(** ** The book under its operations *)

(** An order is created, cancelled by its owner, or the expired ones are cancelled.
    Amounts are 64-bit integers; nobody acts for the null account. *)
Inductive market_step (d : database) : database -> Prop :=
  | step_create calculate_fee skip op d' id :
      limit_order_create_validate op = Ok tt -> amount (oc_amount_to_sell op) <= INT64_MAX ->
      amount (oc_min_to_receive op) <= INT64_MAX ->
      limit_order_create_evaluate_apply limit_order_cancel_fee calculate_fee skip d op = Ok (d', id) ->
      market_step d d'
  | step_cancel calculate_fee skip op d' refunded :
      ol_fee_paying_account op <> GRAPHENE_NULL_ACCOUNT ->
      apply_operation calculate_fee skip d op = Ok (d', refunded) -> market_step d d'
  | step_expire d' :
      head_block_time d < 2 ^ 32 - 1 -> clear_expired_orders limit_order_cancel_fee d = Some (Ok d') ->
      market_step d d'.

Lemma create_step_ok calc skip d op d' id :
  limit_order_create_evaluate_apply limit_order_cancel_fee calc skip d op = Ok (d', id) ->
  limit_order_create_validate op = Ok tt -> amount (oc_amount_to_sell op) <= INT64_MAX ->
  amount (oc_min_to_receive op) <= INT64_MAX -> db_wf d -> orders_ok d ->
  (conserves d d' /\ db_wf d') /\ orders_ok d'
  /\ (HARDFORK_CORE_2591_PASSED (head_block_time d) = true ->
      map_Forall (fun _ b => ab_balance b <= GRAPHENE_MAX_SHARE_SUPPLY) (balances d) ->
      tall price_bounded (limit_orders d) -> uncrossed d -> tall price_bounded (limit_orders d') /\ uncrossed d').
Proof.
  unfold limit_order_create_evaluate_apply. intros E V Hs Hr Hwf Hok. mon.
  match goal with p : (database * Z * asset)%type |- _ => destruct p as [[d2 df] paid] end. mon.
  match goal with p : (database * Z)%type |- _ => destruct p as [d3 n] end. mon. asset_ints.
  match goal with E : prepare_fee _ _ _ = Ok _ |- _ => eapply create_fees in E as (Hs2 & Hm2 & Hdf & Hpaid); [|done..] end.
  destruct (Hs2 Hwf) as [Hwf2 _].
  match goal with E : limit_order_create_do_apply _ _ _ _ _ = Ok _ |- _ =>
    apply create_apply_ok in E as (Hs3 & Hok3 & Hb3); [|done..|by apply (orders_ok_same d); [apply Hm2..|]] end.
  match goal with E : adjust_balance _ _ _ = Ok _ |- _ => apply adjust_shifts in E as [Hs4 Hm4] end. split; [|split].
  - assert (shifts d (fun _ => 0) d') as Hsh.
    { eapply shifts_trans; [eapply shifts_trans; [exact Hs2 | exact Hs3 | reflexivity] | exact Hs4 |].
      intros a. unfold asset_in. cbn. lia. }
    destruct (Hsh Hwf) as [? Ex]. split; [|done]. intros a. rewrite Ex. lia.
  - by apply (orders_ok_same d3); [apply Hm4..|].
  - intros Hhf Hmax Hb Hu. unfold uncrossed. rewrite (sm_orders _ _ Hm4).
    apply Hb3; [by rewrite (sm_time _ _ Hm2) | | by rewrite (sm_orders _ _ Hm2) |
      by unfold uncrossed; rewrite (sm_orders _ _ Hm2)].
    match goal with E : limit_order_create_do_evaluate _ _ = Ok _ |- _ => unfold limit_order_create_do_evaluate in E end.
    mon. match goal with E : _ <= amount (get_balance _ _ _) |- _ => revert E end.
    unfold get_balance. destruct (balances d !! _) as [b|] eqn:Eb; cbn; intros Hle.
    + specialize (Hmax _ _ Eb). cbn in Hmax. lia.
    + unfold GRAPHENE_MAX_SHARE_SUPPLY. lia.
Qed.

Lemma expire_step_ok d d' : clear_expired_orders limit_order_cancel_fee d = Some (Ok d') -> head_block_time d < 2 ^ 32 - 1 ->
  orders_ok d -> shifts d (fun _ => 0) d' /\ book_after_removal d d'.
Proof.
  unfold clear_expired_orders. intros E Ht Hok. destruct (_ <=? _); [done|].
  destruct (clear_expired_loop_ok _ _ (Nat.le_refl _) Ht Hok) as (r & Er & Hr).
  rewrite E in Er. injection Er as <-. by destruct (Hr d' eq_refl) as (? & ? & _).
Qed.

(** C3: the market conserves every asset: whatever orders a new order is matched with,
    partly filled, filled or culled, normal orders or the orders that sell the
    collateral of settled debts, at whatever prices and whatever market fees, with
    whatever deferred fees in the core asset or another one; and whenever orders are
    cancelled or expire, what all parties hold minus the supply stays the same for
    every asset, and the book stays in order: no negative fees or amounts, at most one
    order for the settled debt of an asset, and that one covered by its fund. *)
Theorem market_conserves d d' : market_step d d' -> db_wf d -> orders_ok d ->
  (conserves d d' /\ db_wf d') /\ orders_ok d'.
Proof.
  intros Hstep Hwf Hok. destruct Hstep as [calc skip op d' id V Hs Hr E | calc skip op d' r Hne E | d' Ht E].
  - by destruct (create_step_ok _ _ _ _ _ _ E V Hs Hr Hwf Hok) as (? & ? & _).
  - by destruct (cancel_conserves _ _ _ _ _ _ E Hne Hwf Hok) as (? & ? & []).
  - destruct (expire_step_ok _ _ E Ht Hok) as [Hs []]. destruct (Hs Hwf) as [? Ex].
    split; [split|]; [|done..]. intros a. rewrite Ex. lia.
Qed.

(** C5: once hard fork core-2591 has passed, a book in which no two orders would match
    stays such a book: after a new order has been matched, or skipped because another one
    of its side is in front of it, and after cancellations and expirations, no order
    accepts the price of another one on the other side. The amounts of a new order are
    64-bit numbers; balances and prices are within the maximum share supply, and the prices
    stay so. (Before that hard fork the order of a settled debt, whose price changes as it is
    filled, could be left crossing another one.) *)
Theorem book_stays_uncrossed d d' : market_step d d' -> db_wf d -> orders_ok d ->
  HARDFORK_CORE_2591_PASSED (head_block_time d) = true ->
  map_Forall (fun _ b => ab_balance b <= GRAPHENE_MAX_SHARE_SUPPLY) (balances d) ->
  tall price_bounded (limit_orders d) -> uncrossed d ->
  tall price_bounded (limit_orders d') /\ uncrossed d'.
Proof.
  intros Hstep Hwf Hok Hhf Hmax Hb Hu.
  assert (book_after_removal d d' -> tall price_bounded (limit_orders d') /\ uncrossed d') as Hrm.
  { intros [_ Hsub]. split.
    - intros j o Ho. apply (Hb j o), Hsub, Ho.
    - intros i j x y Hx Hy. apply (Hu i j); by apply Hsub. }
  destruct Hstep as [calc skip op d' id V Hs Hr E | calc skip op d' r Hne E | d' Ht E].
  - destruct (create_step_ok _ _ _ _ _ _ E V Hs Hr Hwf Hok) as (_ & _ & Hkeep). by apply Hkeep.
  - destruct (cancel_conserves _ _ _ _ _ _ E Hne Hwf Hok) as (_ & _ & ?). by apply Hrm.
  - destruct (expire_step_ok _ _ E Ht Hok) as [_ ?]. by apply Hrm.
Qed.

(** C19: the terms of a match between two orders: nobody pays more than it has for sale,
    and what the taker pays for what it receives is the price of the match, off by
    less than one unit. *)
Theorem match_at_price d ot om tr mr c :
  match_amounts d ot om (lo_sell_price om) = Ok (Some (tr, mr, c)) -> price_ok (lo_sell_price om) -> opposite ot om ->
  amount_ok (lo_for_sale ot) -> amount_ok (lo_for_sale om) ->
  fair_exchange ot om (amount (base (lo_sell_price om))) (amount (quote (lo_sell_price om))) mr tr
  /\ amount tr <= lo_for_sale om.
Proof. intros E Hp Ho. by apply (match_amounts_fair ot om Hp Ho d tr mr c). Qed.

(** C20: the expired orders of a block are found and cancelled: the loop ends within as
    many rounds as there are orders, and when every cancellation succeeds no expired
    order is left. *)
Theorem expired_orders_cancelled d : head_block_time d < 2 ^ 32 - 1 -> orders_ok d ->
  exists r, clear_expired_orders limit_order_cancel_fee d = Some r
    /\ forall d', r = Ok d' -> forall j o, rows (limit_orders d') !! j = Some o -> head_block_time d < lo_expiration o.
Proof.
  intros Ht Hok. unfold clear_expired_orders. destruct (_ <=? _); [by eexists; split|].
  destruct (clear_expired_loop_ok _ _ (Nat.le_refl _) Ht Hok) as (r & Er & Hr).
  exists r. split; [done|]. intros d' ->. by destruct (Hr d' eq_refl) as (_ & _ & ?).
Qed.
End MarketLaws.

(** ** A concrete book *)

(** A market-issued asset whose settled debt of 500 is backed by 1000 of the core asset. *)
Definition settled_bitasset : asset_bitasset_data_object :=
  BitassetData 3 (BitassetOptions 86400 1 86400 0 2000 CORE None None None None None None)
    [] default_feed_with_icr default_feed_with_icr 0 null_price null_price false 0 null_price 0 500 1000 false false.

Definition sell_order (seller : account_id_type) (n : Z) (b q : asset) (fee : Z) : limit_order_object :=
  LimitOrder 1900000000 seller n (Price b q) 0 fee (Asset 0 CORE) false.

Definition settled_order : limit_order_object :=
  LimitOrder (2 ^ 32 - 1) GRAPHENE_NULL_ACCOUNT 900 (Price (Asset 900 CORE) (Asset 500 3)) 0 0 (Asset 0 CORE) true.

(** Two orders that sell USD for the core asset, and that of the settled debt. *)
Definition market_db : database :=
  sample_db <| assets := table_from [sample_asset "DFS" 3 0 1 None; sample_asset "USD" 5 1 1 None;
                                     sample_asset "LP" 5 0 2 None;
                                     AssetObject "MPA" 5 3 (sample_options 0 3) true None 1] |>
    <| dyn_data ::= <[3 := AssetDynamicData 500 0 0 0 0]> |>
    <| balances ::= <[(5, 3) := AccountBalance 500 false]> |>
    <| bitassets := {[3 := settled_bitasset]} |>
    <| limit_orders := table_from [sell_order 6 1000 (Asset 2 1) (Asset 1 CORE) 10;
                                   sell_order 7 2001 (Asset 5 1) (Asset 3 CORE) 10; settled_order] |>.

Lemma market_db_wf : db_wf market_db.
Proof.
  destruct sample_db_wf. split; cbn -[table_from]; try assumption; first [ apply table_from_wf | idtac ].
  apply table_from_all. repeat constructor; unfold asset_options_ok, GRAPHENE_MAX_SHARE_SUPPLY; cbn; lia.
Qed.

Lemma market_db_orders i o : rows (limit_orders market_db) !! i = Some o ->
  (i, o) = (0, sell_order 6 1000 (Asset 2 1) (Asset 1 CORE) 10)
  \/ (i, o) = (1, sell_order 7 2001 (Asset 5 1) (Asset 3 CORE) 10) \/ (i, o) = (2, settled_order).
Proof.
  cbn. unfold tcreate. cbn. rewrite !lookup_insert_Some, lookup_empty. naive_solver.
Qed.

(** A buyer of USD takes the first order and a part of the second one. *)
Definition buy_usd : limit_order_create_operation :=
  LimitOrderCreate (Asset 100 CORE) 5 (Asset 1500 CORE) (Asset 2400 1) 1900000000 false.

(** A buyer of the core asset takes a part of what the settled debt sells. *)
Definition buy_collateral : limit_order_create_operation :=
  LimitOrderCreate (Asset 100 CORE) 5 (Asset 200 3) (Asset 300 CORE) 1900000000 true.

Lemma sell_order_ok bas seller n b q fee : amount_ok n -> 0 <= fee -> price_ok (Price b q) ->
  order_ok bas (sell_order seller n b q fee).
Proof. intros Hn Hf Hp. by split; [split; [done|]|..]. Qed.

Lemma market_db_book : orders_ok market_db.
Proof.
  split.
  - intros i o Ho. destruct (market_db_orders i o Ho) as [E|[E|E]]; injection E as -> ->.
    + by apply sell_order_ok; repeat split.
    + by apply sell_order_ok; repeat split.
    + split; [by split | by repeat split | done |]. intros _. split_and!; [done..|].
      exists settled_bitasset. split; [reflexivity | done.. | | |]; vm_compute; repeat split; discriminate.
  - intros i j o o' Hi Hj Hs Hs' _.
    destruct (market_db_orders i o Hi) as [E|[E|E]], (market_db_orders j o' Hj) as [F|[F|F]];
      injection E as -> ->; injection F as -> ->; done.
Qed.

Lemma market_db_bounded : tall price_bounded (limit_orders market_db).
Proof.
  intros i o Ho. destruct (market_db_orders i o Ho) as [E|[E|E]]; injection E as -> ->; vm_compute; discriminate.
Qed.

Lemma market_db_uncrossed : uncrossed market_db.
Proof.
  intros i j x y Hi Hj [[H1 H2] H3]. destruct (market_db_orders i x Hi) as [E|[E|E]], (market_db_orders j y Hj) as [F|[F|F]];
    injection E as -> ->; injection F as -> ->; done.
Qed.

Lemma market_db_balances : map_Forall (fun _ b => ab_balance b <= GRAPHENE_MAX_SHARE_SUPPLY) (balances market_db).
Proof.
  intros k b Hk. change (balances market_db) with (<[(5, 3) := AccountBalance 500 false]> (balances sample_db)) in Hk.
  apply lookup_insert_Some in Hk as [[_ <-]|[_ Hk]]; [vm_compute; discriminate|].
  apply elem_of_list_to_map_2 in Hk. cbn in Hk. set_unfold in Hk. unfold GRAPHENE_MAX_SHARE_SUPPLY.
  destruct_or!; simplify_eq; cbn; lia.
Qed.

(** The fee of a cancellation. *)
Definition cancel_fee (d : database) : result share_type := Ok 5.

Definition create (op : limit_order_create_operation) : result (database * Z) :=
  limit_order_create_evaluate_apply cancel_fee (fun _ _ => Ok 100) false market_db op.

Lemma market_conserves_witness : exists d1 d2,
  create buy_usd = Ok (d1, 3) /\ tfind (limit_orders d1) 3 = None /\ conserves market_db d1
  /\ create buy_collateral = Ok (d2, 3) /\ dd_current_supply <$> dyn_data d2 !! 3 = Some 300 /\ conserves market_db d2.
Proof.
  eexists. eexists.
  eassert (create buy_usd = Ok (_, 3)) as E1 by (vm_compute; reflexivity).
  eassert (create buy_collateral = Ok (_, 3)) as E2 by (vm_compute; reflexivity).
  split; [exact E1|]. split; [vm_compute; reflexivity|]. split; [|split; [exact E2|split; [vm_compute; reflexivity|]]].
  - apply (market_conserves cancel_fee market_db); [|exact market_db_wf|exact market_db_book].
    exact (step_create cancel_fee market_db (fun _ _ => Ok 100) false buy_usd _ 3 eq_refl
      ltac:(vm_compute; discriminate) ltac:(vm_compute; discriminate) E1).
  - apply (market_conserves cancel_fee market_db); [|exact market_db_wf|exact market_db_book].
    exact (step_create cancel_fee market_db (fun _ _ => Ok 100) false buy_collateral _ 3 eq_refl
      ltac:(vm_compute; discriminate) ltac:(vm_compute; discriminate) E2).
Defined.

(** What is too little for the second order is culled; asked at a worse price, the rest
    stays on the book. *)
Definition buy_usd_cheaply : limit_order_create_operation :=
  LimitOrderCreate (Asset 100 CORE) 5 (Asset 1500 CORE) (Asset 2700 1) 1900000000 false.

Lemma book_stays_uncrossed_witness : exists d o,
  create buy_usd_cheaply = Ok (d, 3) /\ tfind (limit_orders d) 3 = Some o /\ lo_for_sale o = 1000 /\ uncrossed d.
Proof.
  eexists. eexists.
  eassert (create buy_usd_cheaply = Ok (_, 3)) as E by (vm_compute; reflexivity).
  split; [exact E|]. split; [vm_compute; reflexivity|]. split; [vm_compute; reflexivity|].
  apply (book_stays_uncrossed cancel_fee market_db);
    [|exact market_db_wf|exact market_db_book|reflexivity|exact market_db_balances|exact market_db_bounded|exact market_db_uncrossed].
  exact (step_create cancel_fee market_db (fun _ _ => Ok 100) false buy_usd_cheaply _ 3 eq_refl
      ltac:(vm_compute; discriminate) ltac:(vm_compute; discriminate) E).
Defined.

Lemma match_at_price_witness :
  let taker := sell_order 5 1000 (Asset 1000 CORE) (Asset 1500 1) 0 in
  let maker := sell_order 7 2001 (Asset 5 1) (Asset 3 CORE) 10 in
  match_amounts market_db taker maker (lo_sell_price maker) = Ok (Some (Asset 1666 1, Asset 1000 CORE, true))
  /\ fair_exchange taker maker 5 3 (Asset 1000 CORE) (Asset 1666 1).
Proof.
  cbv zeta. eassert (match_amounts market_db (sell_order 5 1000 (Asset 1000 CORE) (Asset 1500 1) 0)
    (sell_order 7 2001 (Asset 5 1) (Asset 3 CORE) 10) (lo_sell_price (sell_order 7 2001 (Asset 5 1) (Asset 3 CORE) 10))
    = Ok (Some (Asset 1666 1, Asset 1000 CORE, true))) as E by (vm_compute; reflexivity).
  split; [exact E|]. apply match_at_price in E as [Hf _]; [exact Hf | evaluate_goal..].
Defined.

Definition late_db : database := market_db <| head_block_time := 1900000001 |>.

Lemma late_db_book : orders_ok late_db.
Proof. apply (orders_ok_same market_db); [vm_compute; reflexivity|vm_compute; reflexivity|exact market_db_book]. Qed.

Lemma expired_orders_cancelled_witness : exists d,
  clear_expired_orders cancel_fee late_db = Some (Ok d)
  /\ forall j o, rows (limit_orders d) !! j = Some o -> 1900000001 < lo_expiration o.
Proof.
  destruct (expired_orders_cancelled cancel_fee late_db) as (r & E & Hr).
  { vm_compute; reflexivity. }
  { exact late_db_book. }
  destruct r as [d|e].
  - exists d. split; [exact E|]. intros j o Hj. exact (Hr d eq_refl j o Hj).
  - exfalso. apply (f_equal (fun x => match x with Some (Ok _) => true | _ => false end)) in E. vm_compute in E. discriminate E.
Defined.
