(* ===== verification/Authority.v ===== *)
(** Who has to sign a transaction, and whether enough of them have:
    [protocol/transaction.cpp], [protocol/authority.hpp] and the collection of the
    required authorities in [protocol/operations.cpp]. Keys, addresses and accounts are
    numbers, in the order the containers sort them; what is computed with hashes and
    curves (the addresses of a key, the key that made a signature) is a parameter. *)
From S2P Require Import Prelude Records.

(** ** Data *)

(** Weights are unsigned 16-bit numbers, the threshold is an unsigned 32-bit one; the
    three maps are lists of their entries in the order of the keys. *)
Record authority := Authority {
  weight_threshold : Z;
  account_auths : list (Z * N);
  key_auths : list (Z * N);
  address_auths : list (Z * N);
}.

Fixpoint weights {A} (l : list (A * N)) : Z :=
  match l with
  | [] => 0
  | (_, w) :: l => Z.of_N w + weights l
  end.

(** [authority::is_impossible] *)
Definition is_impossible (a : authority) : bool :=
  u64 (weights (account_auths a) + weights (key_auths a) + weights (address_auths a)) <? weight_threshold a.

(** What the member functions of an operation say about its authorities. *)
Record operation := Operation {
  op_fee_payer : Z;
  op_required_active : list Z;
  op_required_owner : list Z;
  op_required_authorities : list authority;
  op_is_custom : bool;
}.

(** [operation_get_required_auth]: adds to the accounts and authorities already found. *)
Definition operation_get_required_authorities (op : operation) (ignore_custom : bool)
    (active owner : gset Z) (other : list authority) : gset Z * gset Z * list authority :=
  let active := {[op_fee_payer op]} ∪ active in
  if op_is_custom op && ignore_custom then (active, owner, other)
  else (list_to_set (op_required_active op) ∪ active, list_to_set (op_required_owner op) ∪ owner,
        other ++ op_required_authorities op).

(** The elements of a set in the order in which the sorted container is iterated. *)
Definition in_order (s : gset Z) : list Z := insertion_sort Z.ltb (elements s).

(** [transaction::get_required_authorities] *)
Definition get_required_authorities (ops : list operation) (ignore_custom : bool) : gset Z * gset Z * list authority :=
  let '(active, owner, other) :=
    foldl (fun '(a, o, l) op => operation_get_required_authorities op ignore_custom a o l) (∅, ∅, []) ops in
  (active ∖ owner, owner, other).

Definition GRAPHENE_COMMITTEE_ACCOUNT : Z := 0.
Definition GRAPHENE_TEMP_ACCOUNT : Z := 4.
Definition GRAPHENE_MAX_SIG_CHECK_DEPTH : nat := 2.

(** ** Checking authorities *)

(** The keys that have signed, each with whether it has been of use; the accounts known
    to approve; the addresses of the keys, once they have been computed. *)
Record sign_state := SignState {
  provided_signatures : gmap Z bool;
  approved_by : gset Z;
  available_address_sigs : option (gmap Z Z);
  provided_address_sigs : gmap Z Z;
}.
#[export] Instance eta_sign_state : Eta sign_state :=
  fun r => SignState (provided_signatures r) (approved_by r) (available_address_sigs r) (provided_address_sigs r).

Section SignState.
(** The addresses that stand for a key (two per format, and its own). *)
Variable key_addresses : Z -> list Z.
(** The authorities of an account, or null; the lookup may throw. *)
Variable get_active get_owner : Z -> result (option authority).
Variable allow_non_immediate_owner : bool.
Variable available_keys : gset Z.

(** The map from addresses to keys; a later key replaces an earlier one. *)
Definition address_map (keys : gset Z) : gmap Z Z :=
  foldl (fun m k => foldl (fun m a => <[a := k]> m) m (key_addresses k)) ∅ (in_order keys).

Definition mark (s : sign_state) (k : Z) : sign_state := s <| provided_signatures ::= <[k := true]> |>.

Definition signed_by (s : sign_state) (k : Z) : sign_state * bool :=
  match provided_signatures s !! k with
  | None => if bool_decide (k ∈ available_keys) then (mark s k, true) else (s, false)
  | Some _ => (mark s k, true)
  end.

Definition compute_addresses (s : sign_state) : sign_state :=
  match available_address_sigs s with
  | Some _ => s
  | None => s <| available_address_sigs := Some (address_map available_keys) |>
              <| provided_address_sigs := address_map (dom (provided_signatures s)) |>
  end.

(** An address that belongs to none of the keys ends in the dereference of [end()]. *)
Definition signed_by_address (s : sign_state) (a : Z) : result (sign_state * bool) :=
  let s := compute_addresses s in
  match provided_address_sigs s !! a with
  | Some k => Ok (mark s k, true)
  | None =>
      match available_address_sigs s ≫= (fun m => m !! a) with
      | Some k => if bool_decide (k ∈ available_keys) then Ok (mark s k, true) else Ok (s, false)
      | None => Err (thrown "undefined behaviour: end() is dereferenced")
      end
  end.

(** The loop over the entries of one of the maps: adds up the weights of those who
    approve and stops when the threshold is reached. *)
Fixpoint weigh (approve : sign_state -> Z -> result (sign_state * bool)) (threshold : Z) (s : sign_state) (total : Z)
    (l : list (Z * N)) : result (sign_state * Z * bool) :=
  match l with
  | [] => Ok (s, total, false)
  | (x, w) :: l =>
      let! (s1, ok) := approve s x in
      if ok : bool then
        let total := u32 (total + Z.of_N w) in
        if total >=? threshold then Ok (s1, total, true) else weigh approve threshold s1 total l
      else weigh approve threshold s1 total l
  end.

Definition approve_key (s : sign_state) (k : Z) : result (sign_state * bool) := Ok (signed_by s k).

(** The three loops of [check_authority( authority*, depth )]. *)
Definition check_entries (approve_account : sign_state -> Z -> result (sign_state * bool)) (s : sign_state)
    (auth : authority) : result (sign_state * bool) :=
  let threshold := weight_threshold auth in
  let! (s1, total, reached) := weigh approve_key threshold s 0 (key_auths auth) in
  if reached : bool then Ok (s1, true)
  else
    let! (s2, total, reached) := weigh signed_by_address threshold s1 total (address_auths auth) in
    if reached : bool then Ok (s2, true)
    else
      let! (s3, total, reached) := weigh approve_account threshold s2 total (account_auths auth) in
      if reached : bool then Ok (s3, true) else Ok (s3, total >=? threshold).

(** The active authority of an account or, if that is allowed, its owner authority. *)
Definition check_either (check : sign_state -> option authority -> result (sign_state * bool)) (s : sign_state) (a : Z)
    : result (sign_state * bool) :=
  let! active := get_active a in
  let! (s1, ok) := check s active in
  if ok : bool then Ok (s1, true)
  else if allow_non_immediate_owner then let! owner := get_owner a in check s1 owner
  else Ok (s1, false).

(** [check_authority( authority*, depth )] with [depth_left = max_recursion - depth]. *)
Fixpoint check_authority (depth_left : nat) (s : sign_state) (au : option authority) : result (sign_state * bool) :=
  match au with
  | None => Ok (s, false)
  | Some auth =>
      check_entries (fun s a =>
        if bool_decide (a ∈ approved_by s) then Ok (s, true)
        else
          match depth_left with
          | O => Ok (s, false)
          | S depth_left =>
              let! (s1, ok) := check_either (check_authority depth_left) s a in
              if ok : bool then Ok (s1 <| approved_by ::= union {[a]} |>, true) else Ok (s1, false)
          end) s auth
  end.

(** [check_authority( account_id_type )] *)
Definition check_account (max_recursion : nat) (s : sign_state) (id : Z) : result (sign_state * bool) :=
  if bool_decide (id ∈ approved_by s) then Ok (s, true)
  else check_either (check_authority max_recursion) s id.
End SignState.

(** Returns whether there were any. *)
Definition remove_unused_signatures (s : sign_state) : sign_state * bool :=
  let used := filter (fun x => snd x = true) (provided_signatures s) in
  (s <| provided_signatures := used |>, negb (bool_decide (used = provided_signatures s))).

Definition new_sign_state (sigs : gset Z) : sign_state :=
  SignState (gset_to_gmap false sigs) {[GRAPHENE_TEMP_ACCOUNT]} None ∅.

(** ** Transactions *)

Section Verify.
Variable key_addresses : Z -> list Z.
Variable get_active get_owner : Z -> result (option authority).
(** The custom authorities of an account that allow an operation. *)
Variable get_custom : Z -> operation -> result (list authority).
Variable allow_non_immediate_owner : bool.
Variable ignore_custom_operation_required_auths : bool.
Variable max_recursion_depth : nat.

Section Steps.
Variable available_keys : gset Z.

Abbreviation check := (check_authority key_addresses get_active get_owner allow_non_immediate_owner available_keys max_recursion_depth).
Abbreviation check_id := (check_account key_addresses get_active get_owner allow_non_immediate_owner available_keys max_recursion_depth).

(** [approved_by_custom_authority] *)
Fixpoint any_authority (s : sign_state) (l : list authority) : result (sign_state * bool) :=
  match l with
  | [] => Ok (s, false)
  | a :: l => let! (s1, ok) := check s (Some a) in if ok : bool then Ok (s1, true) else any_authority s1 l
  end.

(** The accounts an operation needs that no custom authority stands in for. *)
Fixpoint without_custom (op : operation) (s : sign_state) (ids : list Z) : result (sign_state * list Z) :=
  match ids with
  | [] => Ok (s, [])
  | id :: ids =>
      let! viable := get_custom id op in
      let! (s1, ok) := any_authority s viable in
      let! (s2, rest) := without_custom op s1 ids in
      Ok (s2, if ok : bool then rest else id :: rest)
  end.

(** The authorities all operations together require. *)
Fixpoint required_of (s : sign_state) (active owner : gset Z) (other : list authority) (ops : list operation)
    : result (sign_state * gset Z * gset Z * list authority) :=
  match ops with
  | [] => Ok (s, active, owner, other)
  | op :: ops =>
      let '(op_active, owner, other) :=
        operation_get_required_authorities op ignore_custom_operation_required_auths ∅ owner other in
      let! (s1, rest) := without_custom op s (in_order op_active) in
      required_of s1 (active ∪ list_to_set rest) owner other ops
  end.

Fixpoint check_other (s : sign_state) (l : list authority) : result sign_state :=
  match l with
  | [] => Ok s
  | a :: l =>
      let! (s1, ok) := check s (Some a) in
      if ok : bool then check_other s1 l else Err (thrown "tx_missing_other_auth")
  end.

Fixpoint check_owners (owner_approvals : gset Z) (s : sign_state) (ids : list Z) : result sign_state :=
  match ids with
  | [] => Ok s
  | id :: ids =>
      if bool_decide (id ∈ owner_approvals) then check_owners owner_approvals s ids
      else
        let! owner := get_owner id in
        let! (s1, ok) := check s owner in
        if ok : bool then check_owners owner_approvals s1 ids else Err (thrown "tx_missing_owner_auth")
  end.

(** The active authority of an account, or its owner authority. *)
Definition active_or_owner (s : sign_state) (id : Z) : result (sign_state * bool) :=
  let! (s1, ok) := check_id s id in
  if ok : bool then Ok (s1, true) else let! owner := get_owner id in check s1 owner.

Fixpoint check_actives (s : sign_state) (ids : list Z) : result sign_state :=
  match ids with
  | [] => Ok s
  | id :: ids =>
      let! (s1, ok) := active_or_owner s id in
      if ok : bool then check_actives s1 ids else Err (thrown "tx_missing_active_auth")
  end.
End Steps.

(** [verify_authority] *)
Definition verify_authority (ops : list operation) (sigs : gset Z) (allow_committee : bool)
    (active_approvals owner_approvals : gset Z) : result unit :=
  let s := (new_sign_state sigs) <| approved_by ::= union (active_approvals ∪ owner_approvals) |> in
  let! (s, required_active, required_owner, other) := required_of ∅ s ∅ ∅ [] ops in
  if negb allow_committee && bool_decide (GRAPHENE_COMMITTEE_ACCOUNT ∈ required_active)
  then Err (thrown "invalid_committee_approval")
  else
    let! s := check_other ∅ s other in
    let! s := check_owners ∅ owner_approvals s (in_order required_owner) in
    let! s := check_actives ∅ s (in_order required_active) in
    if snd (remove_unused_signatures s) then Err (thrown "tx_irrelevant_sig") else Ok tt.

(** ** Signatures *)

Section Signatures.
Context {signature : Type}.
(** The key that made a signature of the digest; throws when there is none. *)
Variable public_key_of : signature -> result Z.

Fixpoint signature_keys (result : gset Z) (sigs : list signature) : Prelude.result (gset Z) :=
  match sigs with
  | [] => Ok result
  | sig :: sigs =>
      let! k := public_key_of sig in
      if bool_decide (k ∈ result) then Err (thrown "tx_duplicate_sig") else signature_keys ({[k]} ∪ result) sigs
  end.

Definition get_signature_keys (sigs : list signature) : Prelude.result (gset Z) := signature_keys ∅ sigs.

(** [signed_transaction::verify_authority] *)
Definition signed_verify_authority (ops : list operation) (sigs : list signature) : Prelude.result unit :=
  let! keys := get_signature_keys sigs in verify_authority ops keys false ∅ ∅.
End Signatures.

(** The checks made for their marks only. *)
Fixpoint mark_other (available_keys : gset Z) (s : sign_state) (l : list authority) : result sign_state :=
  match l with
  | [] => Ok s
  | a :: l =>
      let! (s1, _) := check_authority key_addresses get_active get_owner allow_non_immediate_owner available_keys
                        max_recursion_depth s (Some a) in
      mark_other available_keys s1 l
  end.

Fixpoint mark_owners (available_keys : gset Z) (s : sign_state) (ids : list Z) : result sign_state :=
  match ids with
  | [] => Ok s
  | id :: ids =>
      let! owner := get_owner id in
      let! (s1, _) := check_authority key_addresses get_active get_owner allow_non_immediate_owner available_keys
                        max_recursion_depth s owner in
      mark_owners available_keys s1 ids
  end.

Fixpoint mark_actives (available_keys : gset Z) (s : sign_state) (ids : list Z) : result sign_state :=
  match ids with
  | [] => Ok s
  | id :: ids => let! (s1, _) := active_or_owner available_keys s id in mark_actives available_keys s1 ids
  end.

(** [get_required_signatures]: the available keys that still have to sign. *)
Definition get_required_signatures (ops : list operation) (signature_keys available_keys : gset Z) : result (gset Z) :=
  let '(active, owner, other) := get_required_authorities ops ignore_custom_operation_required_auths in
  let! s := mark_other available_keys (new_sign_state signature_keys) other in
  let! s := mark_owners available_keys s (in_order owner) in
  let! s := mark_actives available_keys s (in_order active) in
  let (s, _) := remove_unused_signatures s in
  Ok (filter (fun k => k ∈ available_keys /\ k ∉ signature_keys) (dom (provided_signatures s))).

Definition is_missing_auth (e : exc) : bool :=
  match e with
  | thrown msg => String.eqb msg "tx_missing_owner_auth" || String.eqb msg "tx_missing_active_auth"
                  || String.eqb msg "tx_missing_other_auth"
  | _ => false
  end.

(** The keys that can be left out one after the other are. *)
Fixpoint minimize_loop (ops : list operation) (result : gset Z) (keys : list Z) : Prelude.result (gset Z) :=
  match keys with
  | [] => Ok result
  | k :: keys =>
      match verify_authority ops (result ∖ {[k]}) false ∅ ∅ with
      | Ok _ => minimize_loop ops (result ∖ {[k]}) keys
      | Err e => if is_missing_auth e then minimize_loop ops ({[k]} ∪ (result ∖ {[k]})) keys else Err e
      end
  end.

Definition minimize_required_signatures (ops : list operation) (signature_keys available_keys : gset Z)
    : Prelude.result (gset Z) :=
  let! s := get_required_signatures ops signature_keys available_keys in
  minimize_loop ops s (in_order s).
End Verify.

(** ** What an approval is *)

Section Approval.
Variable key_addresses : Z -> list Z.
Variable get_active get_owner : Z -> result (option authority).
Variable allow_owner : bool.
(** The keys that sign, and the accounts known to approve. *)
Variable signers base : gset Z.

Definition authority_of (a : Z) (auth : authority) : Prop :=
  get_active a = Ok (Some auth) \/ allow_owner = true /\ get_owner a = Ok (Some auth).

Definition key_signs (k : Z) : Prop := k ∈ signers.
Definition address_signs (a : Z) : Prop := exists k, k ∈ signers /\ a ∈ key_addresses k.

(** An authority approves when some of its entries do and their weights reach its
    threshold: keys that sign, addresses of keys that sign, accounts that are known to
    approve or one of whose authorities approves; [n] bounds the depth. *)
Fixpoint approves_in (n : nat) (auth : authority) : Prop :=
  exists ks ads acs,
    ks `sublist_of` key_auths auth /\ ads `sublist_of` address_auths auth /\ acs `sublist_of` account_auths auth
    /\ (forall x, x ∈ ks -> key_signs (fst x)) /\ (forall x, x ∈ ads -> address_signs (fst x))
    /\ (forall x, x ∈ acs -> fst x ∈ base \/
          match n with O => False | S n => exists auth', authority_of (fst x) auth' /\ approves_in n auth' end)
    /\ weight_threshold auth <= weights ks + weights ads + weights acs.

Definition approves (auth : authority) : Prop := exists n, approves_in n auth.

Definition account_in (n : nat) (a : Z) : Prop :=
  a ∈ base \/ match n with O => False | S n => exists auth, authority_of a auth /\ approves_in n auth end.

Definition account_approves (a : Z) : Prop := exists n, account_in n a.

Lemma approves_in_S n : forall auth, approves_in n auth -> approves_in (S n) auth.
Proof.
  induction n as [|n IH]; intros auth (ks & ads & acs & ? & ? & ? & ? & ? & Ha & ?);
    exists ks, ads, acs; split_and!; try done; intros x Hx; destruct (Ha x Hx) as [|Hn]; auto; [done|].
  destruct Hn as (auth' & ? & ?). right. exists auth'. split; [done|]. by apply IH.
Qed.

Lemma approves_in_le n m auth : (n <= m)%nat -> approves_in n auth -> approves_in m auth.
Proof. intros Hle Ha. induction Hle; [done|]. by apply approves_in_S. Qed.

Lemma account_in_le n m a : (n <= m)%nat -> account_in n a -> account_in m a.
Proof.
  intros Hle [Ha|Ha]; [by left|]. destruct n; [done|]. right. destruct m; [lia|].
  destruct Ha as (auth & ? & ?). exists auth. split; [done|]. by eapply approves_in_le; [|done]; lia.
Qed.

Lemma accounts_in_max (l : list (Z * N)) : (forall x, x ∈ l -> account_approves (fst x)) ->
  exists n, forall x, x ∈ l -> account_in n (fst x).
Proof.
  induction l as [|y l IH]; intros Hl; [exists 0%nat; by intros x ?%not_elem_of_nil|].
  destruct IH as [n Hn]; [intros x Hx; apply Hl; by right|]. destruct (Hl y) as [m Hm]; [by left|].
  exists (n `max` m)%nat. intros x [->|Hx]%elem_of_cons; [eapply account_in_le; [|done]; lia|].
  eapply account_in_le; [|by apply Hn]. lia.
Qed.

Lemma approves_intro auth ks ads acs : ks `sublist_of` key_auths auth -> ads `sublist_of` address_auths auth ->
  acs `sublist_of` account_auths auth -> (forall x, x ∈ ks -> key_signs (fst x)) ->
  (forall x, x ∈ ads -> address_signs (fst x)) -> (forall x, x ∈ acs -> account_approves (fst x)) ->
  weight_threshold auth <= weights ks + weights ads + weights acs -> approves auth.
Proof. intros ? ? ? ? ? [n Hn]%accounts_in_max ?. exists n. destruct n; exists ks, ads, acs; split_and!; auto. Qed.
End Approval.

Lemma weights_nonneg {A} (l : list (A * N)) : 0 <= weights l.
Proof. induction l as [|[x w] l IH]; cbn; lia. Qed.

Lemma weights_sublist {A} (l l' : list (A * N)) : l `sublist_of` l' -> weights l <= weights l'.
Proof. induction 1 as [|[] ? ? _ IH|[] ? ? _ IH]; cbn; lia. Qed.

(** ** The loop over the entries of an authority *)

Section Weigh.
Variable approve : sign_state -> Z -> result (sign_state * bool).
Variable I : sign_state -> Prop.
Variable Q : Z -> Prop.

(** What counts is approved. *)
Lemma weigh_sound threshold : (forall s x s1 ok, I s -> approve s x = Ok (s1, ok) -> I s1 /\ (ok = true -> Q x)) ->
  forall l s total s1 total1 reached, I s -> 0 <= total -> weigh approve threshold s total l = Ok (s1, total1, reached) ->
  I s1 /\ 0 <= total1
  /\ (exists l', l' `sublist_of` l /\ (forall x, x ∈ l' -> Q (fst x)) /\ total1 <= total + weights l')
  /\ (reached = true -> threshold <= total1).
Proof.
  intros Happ. induction l as [|[x w] l IH]; cbn; intros s total s1 total1 reached HI Ht E.
  - injection E as <- <- <-. split_and!; [done..| |done]. exists []. split_and!; [done | by intros y ?%not_elem_of_nil | cbn; lia].
  - destruct (approve s x) as [[s2 ok]|] eqn:Ea; [|done]. cbn in E. destruct (Happ _ _ _ _ HI Ea) as [HI2 HQ].
    destruct ok.
    + assert (0 <= u32 (total + Z.of_N w) <= total + Z.of_N w) as Hu by (unfold u32; split; [apply Z.mod_pos_bound; lia | apply Z.mod_le; lia]).
      destruct (_ >=? _) eqn:Hge.
      * injection E as <- <- <-. reflect_bools. split_and!; [done|lia| |done]. exists [(x, w)]. split_and!.
        -- apply sublist_skip, sublist_nil_l.
        -- intros y ->%list_elem_of_singleton. by apply HQ.
        -- cbn. lia.
      * apply IH in E as (? & ? & (l' & Hs & Hq & Hle) & ?); [|done|lia]. split_and!; [done..| |done].
        exists ((x, w) :: l'). split_and!; [by apply sublist_skip | | cbn; lia].
        intros y [->|Hy]%elem_of_cons; [by apply HQ | by apply Hq].
    + apply IH in E as (? & ? & (l' & Hs & Hq & Hle) & ?); [|done..]. split_and!; [done..| |done].
      exists l'. split_and!; [by apply sublist_cons | done | done].
Qed.

(** What is approved counts. *)
Lemma weigh_complete threshold : (forall s x, I s -> exists s1 ok, approve s x = Ok (s1, ok) /\ I s1 /\ (Q x -> ok = true)) ->
  forall l s total, I s -> 0 <= total -> total + weights l < 2 ^ 32 ->
  exists s1 total1 reached, weigh approve threshold s total l = Ok (s1, total1, reached) /\ I s1
    /\ 0 <= total1 <= total + weights l
    /\ (reached = true \/ forall l', l' `sublist_of` l -> (forall x, x ∈ l' -> Q (fst x)) -> total + weights l' <= total1).
Proof.
  intros Happ. induction l as [|[x w] l IH]; cbn; intros s total HI Ht Hmax.
  - exists s, total, false. split_and!; [done..|lia|]. right. intros l' ->%sublist_nil_r _. cbn. lia.
  - destruct (Happ s x HI) as (s1 & ok & Ea & HI1 & HQ). rewrite Ea. cbn. pose proof (weights_nonneg l).
    destruct ok.
    + replace (u32 (total + Z.of_N w)) with (total + Z.of_N w) by (unfold u32; symmetry; apply Z.mod_small; lia).
      destruct (_ >=? _) eqn:Hge; [exists s1, (total + Z.of_N w), true; split_and!; auto; lia|].
      destruct (IH s1 (total + Z.of_N w)) as (s2 & t2 & r & E & HI2 & Ht2 & Hr); [done|lia|lia|].
      exists s2, t2, r. split_and!; [done|done|lia|lia|]. destruct Hr as [|Hr]; [by left|right].
      intros l' Hs Hq. apply sublist_cons_r in Hs as [Hs|(l'' & -> & Hs)].
      * specialize (Hr l' Hs Hq). lia.
      * assert (forall y, y ∈ l'' -> Q (fst y)) as Hq' by (intros y Hy; apply Hq; by right). cbn. specialize (Hr l'' Hs Hq'). lia.
    + destruct (IH s1 total) as (s2 & t2 & r & E & HI2 & Ht2 & Hr); [done|lia|lia|].
      exists s2, t2, r. split_and!; [done|done|lia|lia|]. destruct Hr as [|Hr]; [by left|right].
      intros l' Hs Hq. apply sublist_cons_r in Hs as [Hs|(l'' & -> & Hs)]; [by apply Hr|].
      assert (Q x) as Hx by (apply (Hq (x, w)); by left). by apply HQ in Hx.
Qed.
End Weigh.

Lemma if_cases {A} (c : bool) (x y : A) : c = true /\ (if c then x else y) = x \/ c = false /\ (if c then x else y) = y.
Proof. destruct c; auto. Qed.

Lemma if_inv {A} (c : bool) (x y r : A) : (if c then x else y) = r -> c = true /\ x = r \/ c = false /\ y = r.
Proof. destruct c; auto. Qed.

(** ** Checking is sound *)

Section Sound.
Variable key_addresses : Z -> list Z.
Variable get_active get_owner : Z -> result (option authority).
Variable allow_owner : bool.
Variable signers base available_keys : gset Z.
Hypothesis available_sign : available_keys ⊆ signers.

Abbreviation approves := (approves key_addresses get_active get_owner allow_owner signers base).
Abbreviation account_approves := (account_approves key_addresses get_active get_owner allow_owner signers base).
Abbreviation check := (check_authority key_addresses get_active get_owner allow_owner available_keys).

(** The addresses that have been computed are those of keys that sign. *)
Definition addresses_ok (m : gmap Z Z) : Prop := forall a k, m !! a = Some k -> k ∈ signers /\ a ∈ key_addresses k.

Record state_ok (s : sign_state) : Prop := {
  st_keys : dom (provided_signatures s) ⊆ signers;
  st_accounts : forall a, a ∈ approved_by s -> account_approves a;
  st_available : forall m, available_address_sigs s = Some m -> addresses_ok m;
  st_provided : is_Some (available_address_sigs s) -> addresses_ok (provided_address_sigs s);
}.

Lemma address_map_ok keys : keys ⊆ signers -> addresses_ok (address_map key_addresses keys).
Proof.
  intros Hk. unfold address_map, in_order.
  assert (forall k, k ∈ insertion_sort Z.ltb (elements keys) -> k ∈ signers) as Hin.
  { intros k. rewrite insertion_sort_perm, elem_of_elements. apply Hk. }
  revert Hin. generalize (insertion_sort Z.ltb (elements keys)). intros l Hin.
  assert (addresses_ok ∅) as He by (intros a k; by rewrite lookup_empty).
  revert He. generalize (∅ : gmap Z Z). induction l as [|k l IH]; cbn; intros m Hm; [done|].
  apply IH; [intros ? ?; apply Hin; by right|]. assert (k ∈ signers) as Hks by (apply Hin; left).
  assert (forall a, a ∈ key_addresses k -> a ∈ key_addresses k) as Ha by done. revert Ha.
  generalize (key_addresses k) at 1 3. intros la. revert m Hm.
  induction la as [|a la IHa]; cbn; intros m Hm Ha; [done|]. apply IHa; [|intros ? ?; apply Ha; by right].
  intros a' k'. rewrite lookup_insert_Some. intros [[<- <-]|[_ ?]]; [split; [done|apply Ha; left]|by apply Hm].
Qed.

Lemma mark_ok s k : state_ok s -> k ∈ signers -> state_ok (mark s k).
Proof. intros [H1 H2 H3 H4] Hk. split; [|done..]. cbn. set_solver. Qed.

Lemma signed_by_ok s k s1 ok : state_ok s -> approve_key available_keys s k = Ok (s1, ok) ->
  state_ok s1 /\ (ok = true -> key_signs signers k).
Proof.
  unfold approve_key, signed_by. intros Hs [= E]. destruct (provided_signatures s !! k) eqn:Hp.
  - injection E as <- <-. assert (k ∈ signers) as Hk by (apply (st_keys _ Hs), elem_of_dom; by eexists).
    split; [by apply mark_ok | done].
  - destruct (bool_decide _) eqn:Hb; injection E as <- <-; [|done]. apply bool_decide_eq_true in Hb.
    apply available_sign in Hb. split; [by apply mark_ok | done].
Qed.

Lemma compute_addresses_ok s : state_ok s ->
  state_ok (compute_addresses key_addresses available_keys s)
  /\ is_Some (available_address_sigs (compute_addresses key_addresses available_keys s)).
Proof.
  intros Hs. unfold compute_addresses. destruct (available_address_sigs s) eqn:E; [by rewrite E|].
  split; [|by eexists]. destruct Hs as [H1 H2 H3 H4]. split; cbn; [done..| |].
  - intros m [= <-]. by apply address_map_ok.
  - intros _. by apply address_map_ok.
Qed.

Lemma signed_by_address_ok s a s1 ok : state_ok s -> signed_by_address key_addresses available_keys s a = Ok (s1, ok) ->
  state_ok s1 /\ (ok = true -> address_signs key_addresses signers a).
Proof.
  unfold signed_by_address. intros Hs E. destruct (compute_addresses_ok s Hs) as [Hc Hd].
  set (s0 := compute_addresses _ _ s) in *. destruct (provided_address_sigs s0 !! a) as [k|] eqn:Hp.
  - injection E as <- <-. destruct (st_provided _ Hc Hd a k Hp). split; [by apply mark_ok|]. intros _. by exists k.
  - destruct (available_address_sigs s0 ≫= _) as [k|] eqn:Ha; [|done].
    apply bind_Some in Ha as (m & Hm & Hk). destruct (st_available _ Hc m Hm a k Hk).
    destruct (bool_decide _); injection E as <- <-; [|done]. split; [by apply mark_ok|]. intros _. by exists k.
Qed.

Lemma account_approves_intro a auth : authority_of get_active get_owner allow_owner a auth -> approves auth -> account_approves a.
Proof. intros Ha [n Hn]. exists (S n). right. by exists auth. Qed.

Lemma check_entries_sound approve_account s auth s1 ok :
  (forall s a s1 ok, state_ok s -> approve_account s a = Ok (s1, ok) -> state_ok s1 /\ (ok = true -> account_approves a)) ->
  state_ok s -> check_entries key_addresses available_keys approve_account s auth = Ok (s1, ok) ->
  state_ok s1 /\ (ok = true -> approves auth).
Proof.
  intros Hacc Hs E. unfold check_entries in E.
  destruct (weigh _ _ _ _ (key_auths _)) as [[[s2 t2] r2]|] eqn:E2; [|done]. cbn [rbind] in E.
  apply weigh_sound with (I := state_ok) (Q := key_signs signers) in E2 as (Hs2 & Ht2 & (ks & Hks & Hk & Hle2) & Hr2);
    [|by apply signed_by_ok | done | done].
  destruct r2.
  { injection E as <- <-. split; [done|]. intros _.
    apply (approves_intro _ _ _ _ _ _ auth ks [] []); try done; try apply sublist_nil_l;
      try (by intros ? ?%not_elem_of_nil). cbn. specialize (Hr2 eq_refl). lia. }
  destruct (weigh _ _ _ _ (address_auths _)) as [[[s3 t3] r3]|] eqn:E3; [|done]. cbn [rbind] in E.
  apply weigh_sound with (I := state_ok) (Q := address_signs key_addresses signers)
    in E3 as (Hs3 & Ht3 & (ads & Hads & Ha & Hle3) & Hr3); [|by apply signed_by_address_ok | done | done].
  destruct r3.
  { injection E as <- <-. split; [done|]. intros _.
    apply (approves_intro _ _ _ _ _ _ auth ks ads []); try done; try apply sublist_nil_l;
      try (by intros ? ?%not_elem_of_nil). cbn. specialize (Hr3 eq_refl). lia. }
  destruct (weigh _ _ _ _ (account_auths _)) as [[[s4 t4] r4]|] eqn:E4; [|done]. cbn [rbind] in E.
  apply weigh_sound with (I := state_ok) (Q := account_approves)
    in E4 as (Hs4 & Ht4 & (acs & Hacs & Hc & Hle4) & Hr4); [|by apply Hacc | done | done].
  assert (weight_threshold auth <= t4 -> approves auth) as Hdone.
  { intros Hge. apply (approves_intro _ _ _ _ _ _ auth ks ads acs); try done. lia. }
  destruct r4; injection E as <- <-; (split; [done|]); intros Hok; apply Hdone; [by apply Hr4 | lia].
Qed.

Definition sound (chk : sign_state -> option authority -> result (sign_state * bool)) : Prop :=
  forall s au s1 ok, state_ok s -> chk s au = Ok (s1, ok) ->
    state_ok s1 /\ (ok = true -> exists auth, au = Some auth /\ approves auth).

Lemma check_either_sound chk s a s1 ok : sound chk -> state_ok s ->
  check_either get_active get_owner allow_owner chk s a = Ok (s1, ok) -> state_ok s1 /\ (ok = true -> account_approves a).
Proof.
  unfold check_either. intros Hchk Hs E. destruct (get_active a) as [active|] eqn:Ea; [|done]. cbn [rbind] in E.
  destruct (chk s active) as [[s2 ok2]|] eqn:E2; [|done]. cbn [rbind] in E. apply Hchk in E2 as [Hs2 Hok2]; [|done].
  destruct ok2.
  { injection E as <- <-. split; [done|]. intros _. destruct Hok2 as (auth & -> & Hauth); [done|].
    apply (account_approves_intro a auth); [by left|done]. }
  apply if_inv in E as [[Hallow E]|[_ E]]; [|by injection E as <- <-].
  destruct (get_owner a) as [owner|] eqn:Eo; [|done]. cbn [rbind] in E. apply Hchk in E as [Hs3 Hok3]; [|done].
  split; [done|]. intros Ht. destruct (Hok3 Ht) as (auth & -> & Hauth).
  apply (account_approves_intro a auth); [by right|done].
Qed.

Lemma known_approves s a : state_ok s -> bool_decide (a ∈ approved_by s) = true -> account_approves a.
Proof. intros Hs Hb. apply (st_accounts _ Hs). by apply bool_decide_eq_true in Hb. Qed.

Lemma check_sound n : sound (check n).
Proof.
  induction n as [|n IH]; intros s au s1 ok Hs E;
    (destruct au as [auth|]; cbn in E; [|injection E as <- <-; done]);
    (apply check_entries_sound in E as [Hs1 Hok]; [split; [done|]; intros Ht; exists auth; auto | | done]);
    clear E s s1 ok Hs auth; intros s a s1 ok Hs E;
    (destruct (bool_decide (a ∈ approved_by s)) eqn:Hb;
      [injection E as <- <-; split; [done|]; intros _; by apply (known_approves s)|]).
  - by injection E as <- <-.
  - destruct (check_either _ _ _ _ _ _) as [[s2 ok2]|] eqn:E2; [|done]. cbn [rbind] in E.
    apply check_either_sound in E2 as [Hs2 Hok2]; [|done..].
    destruct ok2; injection E as <- <-; [|done]. split; [|by auto].
    destruct Hs2 as [H1 H2 H3 H4]. split; [done| |done..]. cbn. intros x [->%elem_of_singleton|]%elem_of_union; auto.
Qed.

Lemma check_account_sound n s a s1 ok : state_ok s ->
  check_account key_addresses get_active get_owner allow_owner available_keys n s a = Ok (s1, ok) ->
  state_ok s1 /\ (ok = true -> account_approves a).
Proof.
  unfold check_account. intros Hs E. destruct (bool_decide _) eqn:Hb.
  - injection E as <- <-. split; [done|]. intros _. by apply (known_approves s).
  - apply check_either_sound in E; [done | apply check_sound | done].
Qed.
End Sound.

(** ** Checking is complete up to the depth *)

Section Complete.
Variable key_addresses : Z -> list Z.
Variable get_active get_owner : Z -> result (option authority).
Variable allow_owner : bool.
Variable signers base available_keys : gset Z.

Abbreviation approves_in := (approves_in key_addresses get_active get_owner allow_owner signers base).
Abbreviation account_in := (account_in key_addresses get_active get_owner allow_owner signers base).
Abbreviation check := (check_authority key_addresses get_active get_owner allow_owner available_keys).

(** What validation asks of an authority, and a total weight of 32 bits. *)
Definition auth_fine (auth : authority) : Prop :=
  address_auths auth = [] /\ weights (key_auths auth) + weights (account_auths auth) < 2 ^ 32.

Definition fine (au : option authority) : Prop := forall auth, au = Some auth -> auth_fine auth.

Hypothesis active_fine : forall a, exists au, get_active a = Ok au /\ fine au.
Hypothesis owner_fine : forall a, exists au, get_owner a = Ok au /\ fine au.

(** All the keys that sign are provided, the accounts that approve are known. *)
Definition good (s : sign_state) : Prop := signers ⊆ dom (provided_signatures s) /\ base ⊆ approved_by s.

Lemma mark_good s k : good s -> good (mark s k).
Proof. intros [H1 H2]. split; [|done]. cbn. set_solver. Qed.

Lemma approve_key_complete s k : good s ->
  exists s1 ok, approve_key available_keys s k = Ok (s1, ok) /\ good s1 /\ (key_signs signers k -> ok = true).
Proof.
  intros Hs. unfold approve_key, signed_by. destruct (provided_signatures s !! k) eqn:Hp.
  - exists (mark s k), true. split_and!; [done | by apply mark_good | done].
  - destruct (bool_decide _); [exists (mark s k), true; split_and!; [done | by apply mark_good | done]|].
    exists s, false. split_and!; [done..|]. intros Hk. apply Hs in Hk. by apply not_elem_of_dom in Hp.
Qed.

Definition complete (n : nat) (chk : sign_state -> option authority -> result (sign_state * bool)) : Prop :=
  forall s au, good s -> fine au ->
    exists s1 ok, chk s au = Ok (s1, ok) /\ good s1 /\ forall auth, au = Some auth -> approves_in n auth -> ok = true.

Lemma check_entries_complete n approve_account s auth : good s -> auth_fine auth ->
  (forall s a, good s -> exists s1 ok, approve_account s a = Ok (s1, ok) /\ good s1 /\ (account_in n a -> ok = true)) ->
  exists s1 ok, check_entries key_addresses available_keys approve_account s auth = Ok (s1, ok) /\ good s1
    /\ (approves_in n auth -> ok = true).
Proof.
  intros Hs [Hnone Hmax] Hacc. unfold check_entries. pose proof (weights_nonneg (account_auths auth)).
  destruct (weigh_complete (approve_key available_keys) good (key_signs signers) (weight_threshold auth)
    approve_key_complete (key_auths auth) s 0) as (s1 & t1 & r1 & E1 & Hs1 & Ht1 & Hr1); [done|lia|lia|].
  rewrite E1. cbn [rbind]. destruct r1; [by eexists _, true|]. rewrite Hnone. cbn [weigh rbind].
  destruct (weigh_complete approve_account good (account_in n) (weight_threshold auth) Hacc (account_auths auth) s1 t1)
    as (s2 & t2 & r2 & E2 & Hs2 & Ht2 & Hr2); [done|lia|lia|].
  rewrite E2. cbn [rbind]. destruct r2; [by eexists _, true|].
  eexists s2, _. split_and!; [done..|]. destruct Hr1 as [|Hr1]; [done|]. destruct Hr2 as [|Hr2]; [done|].
  intros Ha. assert (exists ks ads acs, ks `sublist_of` key_auths auth /\ ads `sublist_of` address_auths auth
    /\ acs `sublist_of` account_auths auth /\ (forall x, x ∈ ks -> key_signs signers (fst x))
    /\ (forall x, x ∈ acs -> account_in n (fst x))
    /\ weight_threshold auth <= weights ks + weights ads + weights acs) as (ks & ads & acs & Hks & Hads & Hacs & Hk & Hac & Hle).
  { destruct n; destruct Ha as (ks & ads & acs & ? & ? & ? & ? & ? & ? & ?); by exists ks, ads, acs. }
  rewrite Hnone in Hads. apply sublist_nil_r in Hads as ->. cbn in Hle.
  specialize (Hr1 ks Hks Hk). specialize (Hr2 acs Hacs Hac). lia.
Qed.

Lemma check_either_complete n chk s a : complete n chk -> good s ->
  exists s1 ok, check_either get_active get_owner allow_owner chk s a = Ok (s1, ok) /\ good s1
    /\ (account_in (S n) a -> a ∉ base -> ok = true).
Proof.
  intros Hchk Hs. unfold check_either. destruct (active_fine a) as (active & Eact & Hfa). rewrite Eact. cbn [rbind].
  destruct (Hchk s active Hs Hfa) as (s1 & ok & -> & Hs1 & Hok). cbn [rbind].
  destruct ok; [by exists s1, true|]. destruct (owner_fine a) as (owner & Eo & Hfo).
  assert (account_in (S n) a -> a ∉ base -> allow_owner = true /\ exists auth, owner = Some auth /\ approves_in n auth) as Hown.
  { intros [|(auth & [Ea|[Hallow Eo']] & Hauth)] Hnb; [done| |].
    - rewrite Eact in Ea. injection Ea as ->. by specialize (Hok auth eq_refl Hauth).
    - split; [done|]. exists auth. split; [congruence|done]. }
  destruct (Hchk s1 owner Hs1 Hfo) as (s2 & ok2 & E2 & Hs2 & Hok2).
  destruct (if_cases allow_owner (let! owner := get_owner a in chk s1 owner) (Ok (s1, false))) as [[_ ->]|[Hno ->]].
  - rewrite Eo. cbn [rbind]. exists s2, ok2. split_and!; [done..|]. intros Ha Hnb.
    destruct (Hown Ha Hnb) as (_ & auth & Hauth & Hin). by apply (Hok2 auth).
  - exists s1, false. split_and!; [done..|]. intros Ha Hnb. destruct (Hown Ha Hnb). congruence.
Qed.

Lemma good_known s a : good s -> bool_decide (a ∈ approved_by s) = false -> a ∉ base.
Proof. intros [_ Hs] Hb Ha. apply bool_decide_eq_false in Hb. by apply Hb, Hs. Qed.

Lemma check_step_complete n approve_account s au :
  (forall s a, good s -> exists s1 ok, approve_account s a = Ok (s1, ok) /\ good s1 /\ (account_in n a -> ok = true)) ->
  good s -> fine au ->
  exists s1 ok, match au with
                | None => Ok (s, false)
                | Some auth => check_entries key_addresses available_keys approve_account s auth
                end = Ok (s1, ok) /\ good s1 /\ forall auth, au = Some auth -> approves_in n auth -> ok = true.
Proof.
  intros Hacc Hs Hf. destruct au as [auth|]; [|by exists s, false].
  destruct (check_entries_complete n approve_account s auth Hs (Hf auth eq_refl) Hacc) as (s1 & ok & E & Hs1 & Hok).
  exists s1, ok. split_and!; [done..|]. by intros auth' [= <-].
Qed.

Lemma check_complete n : complete n (check n).
Proof.
  induction n as [|n IH]; intros s au Hs Hf; (apply check_step_complete; [|done..]); clear s au Hs Hf; intros s a Hs;
    (destruct (bool_decide (a ∈ approved_by s)) eqn:Hb; [by exists s, true|]);
    apply (good_known s a Hs) in Hb.
  - exists s, false. split_and!; [done..|]. by intros [|].
  - destruct (check_either_complete n (check n) s a IH Hs) as (s1 & ok & E & Hs1 & Hok).
    change (check_either _ _ _ _ s a) with (check_either get_active get_owner allow_owner (check n) s a). rewrite E. cbn [rbind].
    destruct ok; [|by exists s1, false; split_and!; auto]. eexists _, true. split_and!; [done| |done].
    destruct Hs1 as [? ?]. split; cbn; [done|set_solver].
Qed.

Lemma check_account_complete n s a : good s ->
  exists s1 ok, check_account key_addresses get_active get_owner allow_owner available_keys n s a = Ok (s1, ok)
    /\ good s1 /\ (account_in (S n) a -> ok = true).
Proof.
  intros Hs. unfold check_account. destruct (bool_decide _) eqn:Hb; [by exists s, true|].
  apply (good_known s a Hs) in Hb. destruct (check_either_complete n _ s a (check_complete n) Hs) as (s1 & ok & -> & Hs1 & Hok).
  exists s1, ok. split_and!; auto.
Qed.
End Complete.

Lemma elem_of_in_order a s : a ∈ in_order s <-> a ∈ s.
Proof. unfold in_order. by rewrite insertion_sort_perm, elem_of_elements. Qed.

(** ** What a transaction needs *)

Section Requirements.
Variable key_addresses : Z -> list Z.
Variable get_active get_owner : Z -> result (option authority).
Variable get_custom : Z -> operation -> result (list authority).
Variable allow_owner ignore_custom : bool.
Variable max_depth : nat.
Variable signers base : gset Z.

(** The accounts whose active authority an operation needs; an ignored custom operation
    needs that of the account that pays for it only. *)
Definition needs_active (op : operation) (a : Z) : Prop :=
  a = op_fee_payer op \/ op_is_custom op && ignore_custom = false /\ a ∈ op_required_active op.
Definition needs_owner (op : operation) (a : Z) : Prop :=
  op_is_custom op && ignore_custom = false /\ a ∈ op_required_owner op.
Definition needs_authority (op : operation) (auth : authority) : Prop :=
  op_is_custom op && ignore_custom = false /\ auth ∈ op_required_authorities op.

Abbreviation approves := (approves key_addresses get_active get_owner allow_owner signers base).
Abbreviation approves_in := (approves_in key_addresses get_active get_owner allow_owner signers base).

Definition owner_approves (a : Z) : Prop := exists auth, get_owner a = Ok (Some auth) /\ approves auth.
Definition owner_approves_in (n : nat) (a : Z) : Prop := exists auth, get_owner a = Ok (Some auth) /\ approves_in n auth.
Definition custom_approves (op : operation) (a : Z) : Prop :=
  exists l auth, get_custom a op = Ok l /\ auth ∈ l /\ approves auth.
Definition custom_approves_in (n : nat) (op : operation) (a : Z) : Prop :=
  exists l auth, get_custom a op = Ok l /\ auth ∈ l /\ approves_in n auth.

Abbreviation state_ok := (state_ok key_addresses get_active get_owner allow_owner signers base).
Abbreviation check_ok := (check_sound key_addresses get_active get_owner allow_owner signers base ∅ (empty_subseteq signers)).
Abbreviation check_id_ok := (check_account_sound key_addresses get_active get_owner allow_owner signers base ∅ (empty_subseteq signers)).

Lemma any_authority_sound l : forall s s1 ok, state_ok s ->
  any_authority key_addresses get_active get_owner allow_owner max_depth ∅ s l = Ok (s1, ok) ->
  state_ok s1 /\ (ok = true -> exists auth, auth ∈ l /\ approves auth).
Proof.
  induction l as [|a l IH]; cbn [any_authority]; intros s s1 ok Hs E; [by injection E as <- <-|].
  destruct (check_authority _ _ _ _ _ _ _ _) as [[s2 ok2]|] eqn:E2; [|done]. cbn [rbind] in E.
  apply check_ok in E2 as [Hs2 Hok2]; [|done]. destruct ok2.
  - injection E as <- <-. split; [done|]. intros _. destruct (Hok2 eq_refl) as (auth & [= ->] & Ha). exists auth. split; [left|done].
  - apply IH in E as [Hs1 Hok]; [|done]. split; [done|]. intros Ht. destruct (Hok Ht) as (auth & ? & ?).
    exists auth. split; [by right|done].
Qed.

Lemma without_custom_sound op ids : forall s s1 rest, state_ok s ->
  without_custom key_addresses get_active get_owner get_custom allow_owner max_depth ∅ op s ids = Ok (s1, rest) ->
  state_ok s1 /\ forall a, a ∈ ids -> a ∈ rest \/ custom_approves op a.
Proof.
  induction ids as [|a ids IH]; cbn [without_custom]; intros s s1 rest Hs E.
  { injection E as <- <-. split; [done|]. by intros a ?%not_elem_of_nil. }
  destruct (get_custom a op) as [viable|] eqn:Ec; [|done]. cbn [rbind] in E.
  destruct (any_authority _ _ _ _ _ _ _ _) as [[s2 ok2]|] eqn:E2; [|done]. cbn [rbind] in E.
  apply any_authority_sound in E2 as [Hs2 Hok2]; [|done].
  destruct (without_custom _ _ _ _ _ _ _ _ _ _) as [[s3 rest3]|] eqn:E3; [|done]. cbn [rbind] in E.
  apply IH in E3 as [Hs3 Hr3]; [|done]. injection E as <- <-. split; [done|].
  intros x [->|Hx]%elem_of_cons.
  - destruct ok2; [right|left; left]. destruct (Hok2 eq_refl) as (auth & ? & ?). by exists viable, auth.
  - destruct (Hr3 x Hx); [|by right]. left. destruct ok2; [done|by right].
Qed.

Lemma operation_authorities_spec op owner other active' owner' other' :
  operation_get_required_authorities op ignore_custom ∅ owner other = (active', owner', other') ->
  (forall a, a ∈ active' <-> needs_active op a) /\ (forall a, a ∈ owner' <-> a ∈ owner \/ needs_owner op a)
  /\ (forall x, x ∈ other' <-> x ∈ other \/ needs_authority op x).
Proof.
  unfold operation_get_required_authorities, needs_active, needs_owner, needs_authority.
  destruct (op_is_custom op && ignore_custom); intros [= <- <- <-]; split_and!; intros x;
    rewrite ?elem_of_union, ?elem_of_list_to_set, ?elem_of_app, ?elem_of_singleton, ?elem_of_empty; naive_solver.
Qed.

Lemma required_of_sound ops : forall s active owner other s1 active1 owner1 other1, state_ok s ->
  required_of key_addresses get_active get_owner get_custom allow_owner ignore_custom max_depth ∅ s active owner other ops
    = Ok (s1, active1, owner1, other1) ->
  state_ok s1 /\ active ⊆ active1 /\ owner ⊆ owner1 /\ (forall x, x ∈ other -> x ∈ other1)
  /\ forall op, op ∈ ops ->
     (forall a, needs_active op a -> a ∈ active1 \/ custom_approves op a)
     /\ (forall a, needs_owner op a -> a ∈ owner1) /\ (forall x, needs_authority op x -> x ∈ other1).
Proof.
  induction ops as [|op ops IH]; cbn [required_of]; intros s active owner other s1 active1 owner1 other1 Hs E.
  { injection E as <- <- <- <-. split_and!; [done..|]. by intros op ?%not_elem_of_nil. }
  destruct (operation_get_required_authorities _ _ _ _ _) as [[oa ow] ot] eqn:Eop.
  apply operation_authorities_spec in Eop as (Ha & Ho & Hx).
  destruct (without_custom _ _ _ _ _ _ _ _ _ _) as [[s2 rest]|] eqn:E2; [|done]. cbn [rbind] in E.
  apply without_custom_sound in E2 as [Hs2 Hrest]; [|done].
  apply IH in E as (Hs1 & HA & HO & HX & Hops); [|done]. split_and!; [done|set_solver|set_solver|set_solver|].
  intros op' [->|Hop]%elem_of_cons; [|by apply Hops]. split_and!; [|set_solver..].
  intros a Hn%Ha. destruct (Hrest a) as [Hr|]; [by apply elem_of_in_order| |by right].
  left. apply HA, elem_of_union_r, elem_of_list_to_set, Hr.
Qed.

Lemma check_other_sound l : forall s s1, state_ok s ->
  check_other key_addresses get_active get_owner allow_owner max_depth ∅ s l = Ok s1 ->
  state_ok s1 /\ forall x, x ∈ l -> approves x.
Proof.
  induction l as [|a l IH]; cbn [check_other]; intros s s1 Hs E.
  { injection E as <-. split; [done|]. by intros x ?%not_elem_of_nil. }
  destruct (check_authority _ _ _ _ _ _ _ _) as [[s2 [|]]|] eqn:E2; [|done..]. cbn [rbind] in E.
  apply check_ok in E2 as [Hs2 Hok2]; [|done]. apply IH in E as [Hs1 Hl]; [|done]. split; [done|].
  intros x [->|Hx]%elem_of_cons; [|by apply Hl]. by destruct (Hok2 eq_refl) as (auth & [= ->] & ?).
Qed.

Lemma owner_check_sound a owner s s1 : state_ok s -> get_owner a = Ok owner ->
  check_authority key_addresses get_active get_owner allow_owner ∅ max_depth s owner = Ok (s1, true) ->
  state_ok s1 /\ owner_approves a.
Proof.
  intros Hs Eo E. apply check_ok in E as [Hs2 Hok2]; [|done]. split; [done|].
  destruct (Hok2 eq_refl) as (auth & -> & ?). by exists auth.
Qed.

Lemma check_owners_sound owner_approvals ids : forall s s1, state_ok s ->
  check_owners key_addresses get_active get_owner allow_owner max_depth ∅ owner_approvals s ids = Ok s1 ->
  state_ok s1 /\ forall a, a ∈ ids -> a ∈ owner_approvals \/ owner_approves a.
Proof.
  induction ids as [|a ids IH]; cbn [check_owners]; intros s s1 Hs E.
  { injection E as <-. split; [done|]. by intros x ?%not_elem_of_nil. }
  destruct (bool_decide _) eqn:Hb.
  - apply IH in E as [Hs1 Hl]; [|done]. split; [done|]. apply bool_decide_eq_true in Hb.
    intros x [->|Hx]%elem_of_cons; [by left|by apply Hl].
  - destruct (get_owner a) as [owner|] eqn:Eo; [|done]. cbn [rbind] in E.
    destruct (check_authority _ _ _ _ _ _ _ _) as [[s2 [|]]|] eqn:E2; [|done..]. cbn [rbind] in E.
    destruct (owner_check_sound a owner s s2 Hs Eo E2) as [Hs2 Ha]. apply IH in E as [Hs1 Hl]; [|done]. split; [done|].
    intros x [->|Hx]%elem_of_cons; [by right|by apply Hl].
Qed.

Abbreviation account_approves := (account_approves key_addresses get_active get_owner allow_owner signers base).

Lemma check_actives_sound ids : forall s s1, state_ok s ->
  check_actives key_addresses get_active get_owner allow_owner max_depth ∅ s ids = Ok s1 ->
  state_ok s1 /\ forall a, a ∈ ids -> account_approves a \/ owner_approves a.
Proof.
  induction ids as [|a ids IH]; cbn [check_actives]; intros s s1 Hs E.
  { injection E as <-. split; [done|]. by intros x ?%not_elem_of_nil. }
  destruct (active_or_owner _ _ _ _ _ _ _ _) as [[s2 [|]]|] eqn:E2; [|done..]. cbn [rbind] in E.
  assert (state_ok s2 /\ (account_approves a \/ owner_approves a)) as [Hs2 Ha].
  { clear E IH. unfold active_or_owner in E2. destruct (check_account _ _ _ _ _ _ _ _) as [[s3 ok3]|] eqn:E3; [|done].
    cbn [rbind] in E2. apply check_id_ok in E3 as [Hs3 Hok3]; [|done]. destruct ok3.
    - injection E2 as <-. split; [done|]. left. by apply Hok3.
    - destruct (get_owner a) as [owner|] eqn:Eo; [|done]. cbn [rbind] in E2.
      destruct (owner_check_sound a owner s3 s2 Hs3 Eo E2). auto. }
  apply IH in E as [Hs1 Hl]; [|done]. split; [done|]. intros x [->|Hx]%elem_of_cons; [done|by apply Hl].
Qed.

(** ** The other direction *)

Hypothesis active_fine : forall a, exists au, get_active a = Ok au /\ fine au.
Hypothesis owner_fine : forall a, exists au, get_owner a = Ok au /\ fine au.
Hypothesis custom_fine : forall a op, exists l, get_custom a op = Ok l /\ forall auth, auth ∈ l -> auth_fine auth.

Abbreviation good := (good signers base).
Abbreviation complete_check := (check_complete key_addresses get_active get_owner allow_owner signers base ∅ active_fine owner_fine).
Abbreviation account_in := (account_in key_addresses get_active get_owner allow_owner signers base).

Lemma check_auth_complete auth s : good s -> auth_fine auth ->
  exists s1 ok, check_authority key_addresses get_active get_owner allow_owner ∅ max_depth s (Some auth) = Ok (s1, ok)
    /\ good s1 /\ (approves_in max_depth auth -> ok = true).
Proof.
  intros Hs Hf. destruct (complete_check max_depth s (Some auth) Hs) as (s1 & ok & E & Hs1 & Hok); [by intros ? [= <-]|].
  exists s1, ok. split_and!; [done..|]. by apply Hok.
Qed.

Lemma check_owner_complete a s : good s ->
  exists owner s1 ok, get_owner a = Ok owner
    /\ check_authority key_addresses get_active get_owner allow_owner ∅ max_depth s owner = Ok (s1, ok)
    /\ good s1 /\ (owner_approves_in max_depth a -> ok = true).
Proof.
  intros Hs. destruct (owner_fine a) as (owner & Eo & Hf).
  destruct (complete_check max_depth s owner Hs Hf) as (s1 & ok & E & Hs1 & Hok).
  exists owner, s1, ok. split_and!; [done..|]. intros (auth & Ea & Hin). apply (Hok auth); [congruence|done].
Qed.

Lemma any_authority_complete l : (forall auth, auth ∈ l -> auth_fine auth) -> forall s, good s ->
  exists s1 ok, any_authority key_addresses get_active get_owner allow_owner max_depth ∅ s l = Ok (s1, ok) /\ good s1
    /\ ((exists auth, auth ∈ l /\ approves_in max_depth auth) -> ok = true).
Proof.
  induction l as [|a l IH]; cbn [any_authority]; intros Hl s Hs.
  { exists s, false. split_and!; [done..|]. by intros (? & ?%not_elem_of_nil & _). }
  destruct (check_auth_complete a s Hs) as (s2 & ok2 & -> & Hs2 & Hok2); [apply Hl; left|]. cbn [rbind].
  destruct ok2; [by exists s2, true|]. destruct (IH (fun x Hx => Hl x (list_elem_of_further _ _ _ Hx)) s2 Hs2) as (s1 & ok & -> & Hs1 & Hok).
  exists s1, ok. split_and!; [done..|]. intros (auth & [->|Hin]%elem_of_cons & Ha); [by apply Hok2 in Ha|].
  apply Hok. by exists auth.
Qed.

Lemma without_custom_complete op ids : forall s, good s ->
  exists s1 rest, without_custom key_addresses get_active get_owner get_custom allow_owner max_depth ∅ op s ids = Ok (s1, rest)
    /\ good s1 /\ forall a, a ∈ rest -> a ∈ ids /\ ~ custom_approves_in max_depth op a.
Proof.
  induction ids as [|a ids IH]; cbn [without_custom]; intros s Hs.
  { exists s, []. split_and!; [done..|]. by intros a ?%not_elem_of_nil. }
  destruct (custom_fine a op) as (l & El & Hl). rewrite El. cbn [rbind].
  destruct (any_authority_complete l Hl s Hs) as (s2 & ok2 & -> & Hs2 & Hok2). cbn [rbind].
  destruct (IH s2 Hs2) as (s1 & rest & -> & Hs1 & Hrest). cbn [rbind].
  eexists s1, _. split_and!; [done..|]. intros x Hx.
  destruct ok2; [destruct (Hrest x Hx); split; [by right|done]|].
  apply elem_of_cons in Hx as [->|Hx]; [|destruct (Hrest x Hx); split; [by right|done]].
  split; [left|]. intros (l' & auth & El' & Hin & Ha). assert (false = true); [|done]. apply Hok2. exists auth.
  split; [congruence|done].
Qed.

Lemma required_of_complete ops : forall s active owner other, good s ->
  exists s1 active1 owner1 other1,
    required_of key_addresses get_active get_owner get_custom allow_owner ignore_custom max_depth ∅ s active owner other ops
      = Ok (s1, active1, owner1, other1) /\ good s1
    /\ (forall a, a ∈ active1 -> a ∈ active \/ exists op, op ∈ ops /\ needs_active op a /\ ~ custom_approves_in max_depth op a)
    /\ (forall a, a ∈ owner1 -> a ∈ owner \/ exists op, op ∈ ops /\ needs_owner op a)
    /\ (forall x, x ∈ other1 -> x ∈ other \/ exists op, op ∈ ops /\ needs_authority op x).
Proof.
  induction ops as [|op ops IH]; cbn [required_of]; intros s active owner other Hs.
  { exists s, active, owner, other. split_and!; auto. }
  destruct (operation_get_required_authorities _ _ _ _ _) as [[oa ow] ot] eqn:Eop.
  apply operation_authorities_spec in Eop as (Ha & Ho & Hx).
  destruct (without_custom_complete op (in_order oa) s Hs) as (s2 & rest & -> & Hs2 & Hrest). cbn [rbind].
  destruct (IH s2 (active ∪ list_to_set rest) ow ot Hs2) as (s1 & A & O & X & -> & Hs1 & HA & HO & HX).
  exists s1, A, O, X. split_and!; [done..| | |].
  - intros a [Hin|(op' & ? & ?)]%HA; [|right; exists op'; split; [by right|done]].
    apply elem_of_union in Hin as [|Hin%elem_of_list_to_set]; [by left|right]. destruct (Hrest a Hin) as [Hin'%elem_of_in_order%Ha ?].
    exists op. split; [left|done].
  - intros a [Hin%Ho|(op' & ? & ?)]%HO; [|right; exists op'; split; [by right|done]].
    destruct Hin; [by left|right]. exists op. split; [left|done].
  - intros a [Hin%Hx|(op' & ? & ?)]%HX; [|right; exists op'; split; [by right|done]].
    destruct Hin; [by left|right]. exists op. split; [left|done].
Qed.

Lemma check_other_complete l : forall s, good s -> (forall x, x ∈ l -> auth_fine x /\ approves_in max_depth x) ->
  exists s1, check_other key_addresses get_active get_owner allow_owner max_depth ∅ s l = Ok s1 /\ good s1.
Proof.
  induction l as [|a l IH]; cbn [check_other]; intros s Hs Hl; [by exists s|].
  destruct (Hl a) as [Hf Ha]; [left|]. destruct (check_auth_complete a s Hs Hf) as (s2 & ok2 & -> & Hs2 & Hok2).
  cbn [rbind]. rewrite (Hok2 Ha). apply IH; [done|]. intros x Hx. apply Hl. by right.
Qed.

Lemma check_owners_complete owner_approvals ids : forall s, good s ->
  (forall a, a ∈ ids -> a ∈ owner_approvals \/ owner_approves_in max_depth a) ->
  exists s1, check_owners key_addresses get_active get_owner allow_owner max_depth ∅ owner_approvals s ids = Ok s1 /\ good s1.
Proof.
  induction ids as [|a ids IH]; cbn [check_owners]; intros s Hs Hl; [by exists s|].
  assert (forall x, x ∈ ids -> x ∈ owner_approvals \/ owner_approves_in max_depth x) as Hids by (intros x Hx; apply Hl; by right).
  destruct (bool_decide _) eqn:Hb; [by apply IH|]. apply bool_decide_eq_false in Hb.
  destruct (check_owner_complete a s Hs) as (owner & s2 & ok2 & -> & E2 & Hs2 & Hok2). cbn [rbind]. rewrite E2. cbn [rbind].
  destruct (Hl a) as [|Ha]; [left|done|]. rewrite (Hok2 Ha). by apply IH.
Qed.

Lemma check_actives_complete ids : forall s, good s ->
  (forall a, a ∈ ids -> account_in (S max_depth) a \/ owner_approves_in max_depth a) ->
  exists s1, check_actives key_addresses get_active get_owner allow_owner max_depth ∅ s ids = Ok s1 /\ good s1.
Proof.
  induction ids as [|a ids IH]; cbn [check_actives]; intros s Hs Hl; [by exists s|].
  assert (exists s1, active_or_owner key_addresses get_active get_owner allow_owner max_depth ∅ s a = Ok (s1, true) /\ good s1)
    as (s1 & -> & Hs1).
  { unfold active_or_owner. destruct (check_account_complete key_addresses get_active get_owner allow_owner signers base ∅
      active_fine owner_fine max_depth s a Hs) as (s1 & ok & -> & Hs1 & Hok). cbn [rbind].
    destruct ok; [by exists s1|]. destruct (check_owner_complete a s1 Hs1) as (owner & s2 & ok2 & -> & E2 & Hs2 & Hok2).
    cbn [rbind]. rewrite E2. exists s2. split; [|done]. destruct (Hl a) as [Ha|Ha]; [left|by apply Hok in Ha|].
    by rewrite (Hok2 Ha). }
  cbn [rbind]. apply IH; [done|]. intros x Hx. apply Hl. by right.
Qed.
End Requirements.

(** The accounts taken as known: those given and the one anybody may use. *)
Definition known_accounts (active_approvals owner_approvals : gset Z) : gset Z :=
  (active_approvals ∪ owner_approvals) ∪ {[GRAPHENE_TEMP_ACCOUNT]}.

Lemma new_state_ok key_addresses get_active get_owner allow_owner sigs active_approvals owner_approvals :
  state_ok key_addresses get_active get_owner allow_owner sigs (known_accounts active_approvals owner_approvals)
    ((new_sign_state sigs) <| approved_by ::= union (active_approvals ∪ owner_approvals) |>).
Proof.
  split; cbn.
  - by rewrite dom_gset_to_gmap.
  - intros a Ha. by exists 0%nat; left.
  - done.
  - by intros [].
Qed.

Lemma new_state_good sigs active_approvals owner_approvals :
  good sigs (known_accounts active_approvals owner_approvals)
    ((new_sign_state sigs) <| approved_by ::= union (active_approvals ∪ owner_approvals) |>).
Proof. split; cbn; [by rewrite dom_gset_to_gmap | done]. Qed.

(** C6: a transaction passes [verify_authority] only when every operation is approved: each
    further authority it names approves, each account whose owner authority it needs is
    among the owner approvals or its owner authority approves, and each account whose
    active authority it needs approves (by that authority or, if it is known to approve,
    without), or its owner authority does, or one of the custom authorities its owner made
    for that operation; unless the committee may approve, its account needs the last. *)
Theorem verify_authority_sound key_addresses get_active get_owner get_custom allow_owner ignore_custom max_depth
    ops sigs allow_committee active_approvals owner_approvals :
  verify_authority key_addresses get_active get_owner get_custom allow_owner ignore_custom max_depth ops sigs
    allow_committee active_approvals owner_approvals = Ok tt ->
  let base := known_accounts active_approvals owner_approvals in
  forall op, op ∈ ops ->
    (forall auth, needs_authority ignore_custom op auth -> approves key_addresses get_active get_owner allow_owner sigs base auth)
    /\ (forall a, needs_owner ignore_custom op a ->
          a ∈ owner_approvals \/ owner_approves key_addresses get_active get_owner allow_owner sigs base a)
    /\ (forall a, needs_active ignore_custom op a ->
          custom_approves key_addresses get_active get_owner get_custom allow_owner sigs base op a
          \/ (allow_committee = false -> a <> GRAPHENE_COMMITTEE_ACCOUNT)
             /\ (account_approves key_addresses get_active get_owner allow_owner sigs base a
                 \/ owner_approves key_addresses get_active get_owner allow_owner sigs base a)).
Proof.
  intros E base op Hop. unfold verify_authority in E.
  destruct (required_of _ _ _ _ _ _ _ _ _ _ _ _ _) as [[[[s1 A] O] X]|] eqn:E1; [|done]. cbn [rbind] in E.
  eapply required_of_sound in E1 as (Hs1 & _ & _ & _ & Hops); [|apply new_state_ok].
  destruct (negb allow_committee && _) eqn:Hc; [done|].
  destruct (check_other _ _ _ _ _ _ _ _) as [s2|] eqn:E2; [|done]. cbn [rbind] in E.
  eapply check_other_sound in E2 as [Hs2 Hother]; [|done].
  destruct (check_owners _ _ _ _ _ _ _ _ _) as [s3|] eqn:E3; [|done]. cbn [rbind] in E.
  eapply check_owners_sound in E3 as [Hs3 Howner]; [|done].
  destruct (check_actives _ _ _ _ _ _ _ _) as [s4|] eqn:E4; [|done]. clear E.
  eapply check_actives_sound in E4 as [Hs4 Hactive]; [|done].
  destruct (Hops op Hop) as (Ha & Ho & Hx). split_and!.
  - intros auth Hn. by apply Hother, Hx.
  - intros a Hn. apply Howner, elem_of_in_order, Ho, Hn.
  - intros a Hn. destruct (Ha a Hn) as [Hin|]; [right|by left]. split; [|by apply Hactive, elem_of_in_order].
    intros -> ->. cbn in Hc. apply bool_decide_eq_false in Hc. by apply Hc.
Qed.

(** C7: when no authority has addresses or weights that exceed 32 bits and all lookups
    succeed, a transaction whose operations are approved within the depth of recursion
    passes [verify_authority], unless there is a signature it has no use for. *)
Theorem verify_authority_complete key_addresses get_active get_owner get_custom allow_owner ignore_custom max_depth
    ops sigs allow_committee active_approvals owner_approvals :
  let base := known_accounts active_approvals owner_approvals in
  (forall a, exists au, get_active a = Ok au /\ fine au) -> (forall a, exists au, get_owner a = Ok au /\ fine au) ->
  (forall a op, exists l, get_custom a op = Ok l /\ forall auth, auth ∈ l -> auth_fine auth) ->
  (forall op auth, op ∈ ops -> needs_authority ignore_custom op auth ->
     auth_fine auth /\ approves_in key_addresses get_active get_owner allow_owner sigs base max_depth auth) ->
  (forall op a, op ∈ ops -> needs_owner ignore_custom op a ->
     a ∈ owner_approvals \/ owner_approves_in key_addresses get_active get_owner allow_owner sigs base max_depth a) ->
  (forall op a, op ∈ ops -> needs_active ignore_custom op a ->
     custom_approves_in key_addresses get_active get_owner get_custom allow_owner sigs base max_depth op a
     \/ (allow_committee = false -> a <> GRAPHENE_COMMITTEE_ACCOUNT)
        /\ (account_in key_addresses get_active get_owner allow_owner sigs base (S max_depth) a
            \/ owner_approves_in key_addresses get_active get_owner allow_owner sigs base max_depth a)) ->
  verify_authority key_addresses get_active get_owner get_custom allow_owner ignore_custom max_depth ops sigs
    allow_committee active_approvals owner_approvals ∈ [Ok tt; Err (thrown "tx_irrelevant_sig")].
Proof.
  intros base Hfa Hfo Hfc Hx Ho Ha. unfold verify_authority.
  destruct (required_of_complete key_addresses get_active get_owner get_custom allow_owner ignore_custom max_depth sigs base
    Hfa Hfo Hfc ops _ ∅ ∅ [] (new_state_good sigs active_approvals owner_approvals))
    as (s1 & A & O & X & -> & Hs1 & HA & HO & HX). cbn [rbind].
  assert (forall a, a ∈ A -> (allow_committee = false -> a <> GRAPHENE_COMMITTEE_ACCOUNT)
    /\ (account_in key_addresses get_active get_owner allow_owner sigs base (S max_depth) a
        \/ owner_approves_in key_addresses get_active get_owner allow_owner sigs base max_depth a)) as HA'.
  { intros a [?%not_elem_of_empty|(op & Hop & Hn & Hno)]%HA; [done|]. by destruct (Ha op a Hop Hn). }
  assert (negb allow_committee && bool_decide (GRAPHENE_COMMITTEE_ACCOUNT ∈ A) = false) as ->.
  { apply andb_false_iff. destruct allow_committee; [by left|right]. apply bool_decide_eq_false. intros Hin.
    by destruct (HA' _ Hin) as [Hc _]; apply Hc. }
  destruct (check_other_complete key_addresses get_active get_owner allow_owner max_depth sigs base Hfa Hfo X s1 Hs1)
    as (s2 & -> & Hs2).
  { intros x [?%not_elem_of_nil|(op & Hop & Hn)]%HX; [done|]. by apply (Hx op). }
  cbn [rbind].
  destruct (check_owners_complete key_addresses get_active get_owner allow_owner max_depth sigs base Hfa Hfo owner_approvals
    (in_order O) s2 Hs2) as (s3 & -> & Hs3).
  { intros a [?%not_elem_of_empty|(op & Hop & Hn)]%elem_of_in_order%HO; [done|]. by apply (Ho op). }
  cbn [rbind].
  destruct (check_actives_complete key_addresses get_active get_owner allow_owner max_depth sigs base Hfa Hfo
    (in_order A) s3 Hs3) as (s4 & -> & Hs4).
  { intros a Hin%elem_of_in_order. by destruct (HA' a Hin). }
  cbn [rbind]. destruct (snd _); [right|]; left.
Qed.

(** ** Authorities that nobody can satisfy *)

Lemma weigh_at_most approve threshold l s total s1 total1 reached : 0 <= total ->
  weigh approve threshold s total l = Ok (s1, total1, reached) ->
  0 <= total1 <= total + weights l /\ (reached = true -> threshold <= total1).
Proof.
  intros Ht E. apply (weigh_sound approve (fun _ => True) (fun _ => True)) in E as (_ & ? & (l' & Hs & _ & ?) & ?); [|done..].
  apply weights_sublist in Hs. split; [lia|done].
Qed.

(** An authority whose weights sum up to less than its threshold is never approved,
    whoever signs and whatever approves the accounts. *)
Theorem impossible_never_approves key_addresses get_active get_owner allow_owner available_keys max_depth s auth s1 ok :
  is_impossible auth = true ->
  weights (account_auths auth) + weights (key_auths auth) + weights (address_auths auth) < 2 ^ 64 ->
  check_authority key_addresses get_active get_owner allow_owner available_keys max_depth s (Some auth) = Ok (s1, ok) -> ok = false.
Proof.
  unfold is_impossible, u64. intros Hi Hmax E. pose proof (weights_nonneg (account_auths auth)).
  pose proof (weights_nonneg (key_auths auth)). pose proof (weights_nonneg (address_auths auth)).
  rewrite Z.mod_small in Hi by lia. reflect_bools.
  assert (exists app, check_entries key_addresses available_keys app s auth = Ok (s1, ok)) as (app & Ec)
    by (destruct max_depth; cbn in E; by eexists).
  clear E. unfold check_entries in Ec.
  destruct (weigh _ _ _ _ (key_auths _)) as [[[s2 t2] r2]|] eqn:E2; [|done]. cbn [rbind] in Ec.
  apply weigh_at_most in E2 as [Ht2 Hr2]; [|done]. destruct r2; [specialize (Hr2 eq_refl); lia|].
  destruct (weigh _ _ _ _ (address_auths _)) as [[[s3 t3] r3]|] eqn:E3; [|done]. cbn [rbind] in Ec.
  apply weigh_at_most in E3 as [Ht3 Hr3]; [|lia]. destruct r3; [specialize (Hr3 eq_refl); lia|].
  destruct (weigh _ _ _ _ (account_auths _)) as [[[s4 t4] r4]|] eqn:E4; [|done]. cbn [rbind] in Ec.
  apply weigh_at_most in E4 as [Ht4 Hr4]; [|lia]. destruct r4; [specialize (Hr4 eq_refl); lia|].
  injection Ec as <- <-. lia.
Qed.

(** ** The fewest signatures *)

Section Minimize.
Variable key_addresses : Z -> list Z.
Variable get_active get_owner : Z -> result (option authority).
Variable get_custom : Z -> operation -> result (list authority).
Variable allow_owner ignore_custom : bool.
Variable max_depth : nat.
Variable ops : list operation.

Abbreviation passes := (fun keys =>
  verify_authority key_addresses get_active get_owner get_custom allow_owner ignore_custom max_depth ops keys false ∅ ∅ = Ok tt).

Lemma minimize_loop_spec keys : forall start result final, NoDup keys -> (forall k, k ∈ keys -> k ∈ result) ->
  result ⊆ start -> result = start \/ passes result ->
  minimize_loop key_addresses get_active get_owner get_custom allow_owner ignore_custom max_depth ops result keys = Ok final ->
  final ⊆ start /\ (final = start \/ passes final).
Proof.
  induction keys as [|k keys IH]; cbn [minimize_loop]; intros start result final Hnd Hin Hsub Hp E.
  { by injection E as <-. }
  apply NoDup_cons in Hnd as [Hk Hnd].
  destruct (verify_authority _ _ _ _ _ _ _ _ (result ∖ _) _ _ _) as [[]|e] eqn:Ev.
  - apply IH with (start := start) in E; [done|done| |set_solver|by right].
    intros x Hx. apply elem_of_difference. split; [apply Hin; by right|]. intros ->%elem_of_singleton. done.
  - destruct (is_missing_auth e); [|done].
    assert ({[k]} ∪ result ∖ {[k]} = result) as Eres.
    { apply set_eq. intros x. rewrite elem_of_union, elem_of_difference, elem_of_singleton.
      assert (k ∈ result) by (apply Hin; left). destruct (decide (x = k)); naive_solver. }
    rewrite Eres in E. apply IH with (start := start) in E; [done..| | |done|done]; [done|]. intros x Hx. apply Hin. by right.
Qed.
End Minimize.

(** What [minimize_required_signatures] returns are keys that are required; it is all
    of them, or keys with which the transaction passes [verify_authority]. *)
Theorem minimize_keeps_authority key_addresses get_active get_owner get_custom allow_owner ignore_custom max_depth
    ops signature_keys available_keys all keys :
  get_required_signatures key_addresses get_active get_owner allow_owner ignore_custom max_depth ops signature_keys available_keys
    = Ok all ->
  minimize_required_signatures key_addresses get_active get_owner get_custom allow_owner ignore_custom max_depth ops
    signature_keys available_keys = Ok keys ->
  keys ⊆ all /\ (keys = all \/
    verify_authority key_addresses get_active get_owner get_custom allow_owner ignore_custom max_depth ops keys false ∅ ∅ = Ok tt).
Proof.
  intros Eall E. unfold minimize_required_signatures in E. rewrite Eall in E. cbn [rbind] in E.
  apply minimize_loop_spec with (start := all) in E; [done| | |done|by left].
  - unfold in_order. rewrite insertion_sort_perm. apply NoDup_elements.
  - intros k. apply elem_of_in_order.
Qed.

(** ** An example *)

Definition key_authority (k : Z) : authority := Authority 1 [] [(k, 1%N)] [].
Definition shared_authority : authority := Authority 2 [(11, 1%N)] [(1, 1%N)] [].
Definition sample_active (a : Z) : result (option authority) :=
  Ok (if a =? 10 then Some shared_authority else if a =? 11 then Some (key_authority 2) else None).
Definition sample_owner (a : Z) : result (option authority) := Ok (if a =? 12 then Some (key_authority 3) else None).
Definition sample_custom (a : Z) (op : operation) : result (list authority) := Ok (if a =? 13 then [key_authority 4] else []).
Definition sample_addresses (k : Z) : list Z := [1000 + k].
Definition sample_ops : list operation :=
  [Operation 10 [10] [12] [key_authority 5] false; Operation 13 [14] [14] [] true].
Definition sample_verify := verify_authority sample_addresses sample_active sample_owner sample_custom false true 2.

Example sample_passes : sample_verify sample_ops {[1; 2; 3; 4; 5]} false ∅ ∅ = Ok tt.
Proof. vm_compute. reflexivity. Qed.

Example sample_unused_signature :
  sample_verify sample_ops {[1; 2; 3; 4; 5; 6]} false ∅ ∅ = Err (thrown "tx_irrelevant_sig").
Proof. vm_compute. reflexivity. Qed.

Example sample_missing : map (fun k => sample_verify sample_ops ({[1; 2; 3; 4; 5]} ∖ {[k]}) false ∅ ∅) [1; 2; 3; 4; 5]
  = map (fun m => Err (thrown m)) ["tx_missing_active_auth"; "tx_missing_active_auth"; "tx_missing_owner_auth";
      "tx_missing_active_auth"; "tx_missing_other_auth"]%string.
Proof. vm_compute. reflexivity. Qed.

Lemma verify_authority_sound_witness :
  approves sample_addresses sample_active sample_owner false {[1; 2; 3; 4; 5]} (known_accounts ∅ ∅) (key_authority 5).
Proof.
  eapply (verify_authority_sound sample_addresses sample_active sample_owner sample_custom false true 2 sample_ops
    {[1; 2; 3; 4; 5]} false ∅ ∅).
  - vm_compute. reflexivity.
  - left.
  - split; [reflexivity|left].
Defined.

Lemma key_authority_approves key_addresses get_active get_owner allow_owner signers base n k : k ∈ signers ->
  approves_in key_addresses get_active get_owner allow_owner signers base n (key_authority k).
Proof.
  intros Hk. destruct n; exists [(k, 1%N)], [], []; split_and!; try done;
    try (by intros ? ?%not_elem_of_nil); by intros x ->%list_elem_of_singleton.
Qed.

Lemma shared_authority_approves :
  approves_in sample_addresses sample_active sample_owner false {[1; 2; 3; 4; 5]} (known_accounts ∅ ∅) 1 shared_authority.
Proof.
  exists [(1, 1%N)], [], [(11, 1%N)]; split_and!; try done; try (by intros ? ?%not_elem_of_nil).
  - by intros x ->%list_elem_of_singleton.
  - intros x ->%list_elem_of_singleton. right. exists (key_authority 2). split; [by left|].
    by apply (key_authority_approves _ _ _ _ _ _ 0).
Qed.

Lemma key_authority_fine k : auth_fine (key_authority k).
Proof. by split. Qed.

Lemma verify_authority_complete_witness :
  sample_verify sample_ops {[1; 2; 3; 4; 5]} false ∅ ∅ ∈ [Ok tt; Err (thrown "tx_irrelevant_sig")].
Proof.
  apply verify_authority_complete.
  - intros a. eexists. split; [reflexivity|]. intros auth. destruct (a =? 10); [by intros [= <-]|].
    destruct (a =? 11); [intros [= <-]; apply key_authority_fine|done].
  - intros a. eexists. split; [reflexivity|]. intros auth. destruct (a =? 12); [intros [= <-]; apply key_authority_fine|done].
  - intros a op. eexists. split; [reflexivity|]. intros auth. destruct (a =? 13); [|by intros ?%not_elem_of_nil].
    intros ->%list_elem_of_singleton. apply key_authority_fine.
  - intros op auth [->|[->|?%not_elem_of_nil]%elem_of_cons]%elem_of_cons [Hc Hin]; [|done..].
    apply list_elem_of_singleton in Hin as ->. split; [apply key_authority_fine|]. by apply key_authority_approves.
  - intros op a [->|[->|?%not_elem_of_nil]%elem_of_cons]%elem_of_cons [Hc Hin]; [|done..].
    apply list_elem_of_singleton in Hin as ->. right. exists (key_authority 3). split; [done|]. by apply key_authority_approves.
  - intros op a [->|[->|?%not_elem_of_nil]%elem_of_cons]%elem_of_cons Hn; [| |done].
    + assert (a = 10) as -> by (destruct Hn as [->|[_ ->%list_elem_of_singleton]]; done).
      right. split; [done|]. left. right. exists shared_authority. split; [by left|].
      apply (approves_in_le _ _ _ _ _ _ 1 2); [lia|]. apply shared_authority_approves.
    + destruct Hn as [->|[? _]]; [|done]. left. exists [key_authority 4], (key_authority 4).
      split_and!; [done|left|]. by apply key_authority_approves.
Defined.

Lemma impossible_never_approves_witness : forall b,
  check_authority sample_addresses sample_active sample_owner true {[1; 2; 3]} 2 (new_sign_state ∅)
    (Some (Authority 5 [(11, 1%N)] [(1, 1%N); (3, 2%N)] [])) = Ok b -> snd b = false.
Proof.
  intros [s1 ok] E. cbn [snd].
  apply (impossible_never_approves sample_addresses sample_active sample_owner true {[1; 2; 3]} 2 (new_sign_state ∅)
    (Authority 5 [(11, 1%N)] [(1, 1%N); (3, 2%N)] []) s1 ok); [reflexivity|reflexivity|exact E].
Defined.

Definition either_ops : list operation := [Operation 10 [] [] [Authority 1 [] [(0, 1%N); (1, 1%N)] []] false].

Lemma minimize_keeps_authority_witness : exists all keys : gset Z, keys ⊆ all /\ in_order all = [0; 1; 2]
  /\ in_order keys = [1; 2] /\ sample_verify either_ops keys false ∅ ∅ = Ok tt.
Proof.
  eassert (get_required_signatures sample_addresses sample_active sample_owner false true 2 either_ops ∅ {[0; 1; 2; 3]} = Ok _)
    as E0 by (vm_compute; reflexivity).
  eassert (minimize_required_signatures sample_addresses sample_active sample_owner sample_custom false true 2 either_ops
    ∅ {[0; 1; 2; 3]} = Ok _) as E by (vm_compute; reflexivity).
  pose proof (minimize_keeps_authority _ _ _ _ _ _ _ _ _ _ _ _ E0 E) as [Hsub Hp].
  eexists _, _. split; [exact Hsub|]. split; [vm_compute; reflexivity|]. split; vm_compute; reflexivity.
Defined.
