(* ===== verification/Block.v ===== *)
(** Blocks: [protocol/block.hpp] and [protocol/block.cpp]. The number of a block is written
    into its identifier and read from the identifier of the one before; the root of its
    transactions is computed level by level in place. The hash functions are parameters. *)
From S2P Require Import Prelude Records.

(** ** Headers and identifiers *)

(** A [block_id_type]: its first word, in the byte order of the host, and the others. *)
Definition block_id : Type := Z * Z.
Definition null_block_id : block_id := (0, 0).

(** [block_header::num_from_id] *)
Definition num_from_id (id : block_id) : Z := fst id.

Record signed_block (T : Type) := SignedBlock {
  previous : block_id;
  timestamp : Z;
  block_witness : Z;
  transaction_merkle_root : Z;
  witness_signature : Z;
  transactions : list T;
}.
Arguments SignedBlock {T} _ _ _ _ _ _.
Arguments previous {T} _.
Arguments timestamp {T} _.
Arguments block_witness {T} _.
Arguments transaction_merkle_root {T} _.
Arguments witness_signature {T} _.
Arguments transactions {T} _.

(** [block_header::block_num] *)
Definition block_num {T} (b : signed_block T) : Z := u32 (num_from_id (previous b) + 1).

Section Id.
Context {T : Type}.
(** What the hash of a signed header is, its first word left out. *)
Variable header_hash : signed_block T -> Z.

(** [signed_block_header::id]: the number of the block replaces the first word. *)
Definition block_id_of (b : signed_block T) : block_id := (block_num b, header_hash b).

Lemma num_from_block_id (b : signed_block T) : num_from_id (block_id_of b) = block_num b.
Proof. done. Qed.

(** A block that follows another one has the next number. *)
Lemma block_num_next (b1 b2 : signed_block T) : previous b2 = block_id_of b1 -> block_num b1 < 2 ^ 32 - 1 -> block_num b2 = block_num b1 + 1.
Proof.
  intros Hp Hn. unfold block_num at 1. rewrite Hp, num_from_block_id. apply u32_small.
  assert (0 <= block_num b1) by (unfold block_num, u32; apply Z.mod_pos_bound; lia). lia.
Qed.
End Id.

(** ** The Merkle root *)

Section Merkle.
Context {D : Type} `{!Inhabited D}.
Variable hash_pair : D -> D -> D.

(** The pairs of a level: [for( i = 0; i < i_max; i += 2 ) ids[k++] = hash( ids[i], ids[i+1] )]. *)
Fixpoint hash_pairs (rounds : nat) (i k : nat) (ids : list D) : list D :=
  match rounds with
  | O => ids
  | S rounds => hash_pairs rounds (S (S i)) (S k) (<[k := hash_pair (ids !!! i) (ids !!! S i)]> ids)
  end.

(** One pass of the outer loop over the first [n] entries: the entries and how many are left. *)
Definition merkle_pass (n : nat) (ids : list D) : list D * nat :=
  let i_max := (n - n mod 2)%nat in
  let ids := hash_pairs (i_max / 2) 0 0 ids in
  if (n mod 2 =? 1)%nat then (<[(i_max / 2)%nat := ids !!! i_max]> ids, S (i_max / 2)) else (ids, (i_max / 2)%nat).

Fixpoint merkle_loop (fuel n : nat) (ids : list D) : option (list D) :=
  if (n <=? 1)%nat then Some ids
  else match fuel with
       | O => None
       | S fuel => let (ids, n) := merkle_pass n ids in merkle_loop fuel n ids
       end.

(** [signed_block::calculate_merkle_root]: [empty] is the checksum of no transactions. *)
Definition calculate_merkle_root {C} (checksum : D -> C) (empty : C) (ids : list D) : option C :=
  match ids with
  | [] => Some empty
  | _ => ids ← merkle_loop (length ids) (length ids) ids; Some (checksum (ids !!! 0%nat))
  end.

(** *** What it computes *)

(** A level, and the root level by level. *)
Fixpoint level (l : list D) : list D :=
  match l with
  | a :: b :: l => hash_pair a b :: level l
  | l => l
  end.

Lemma list_pair_ind (P : list D -> Prop) : P [] -> (forall a, P [a]) -> (forall a b l, P l -> P (a :: b :: l)) -> forall l, P l.
Proof.
  intros H0 H1 H2 l. assert (P l /\ forall a, P (a :: l)) as [? _]; [|done].
  induction l as [|b l [IH1 IH2]]; [auto|]. split; [apply IH2|]. intros a. by apply H2.
Qed.

Lemma div2_half m : (m <= 2 * Nat.div2 (S m) <= S m)%nat.
Proof. pose proof (Nat.div2_odd (S m)). destruct (Nat.odd _); cbn [Nat.b2n] in *; lia. Qed.

Lemma level_length l : length (level l) = Nat.div2 (S (length l)).
Proof. induction l as [| |a b l IH] using list_pair_ind; [done..|]. cbn [level length]. rewrite IH. done. Qed.

Lemma level_app l1 l2 : Nat.Even (length l1) -> level (l1 ++ l2) = level l1 ++ level l2.
Proof.
  induction l1 as [|a|a b l1 IH] using list_pair_ind; intros He; [done| |].
  - destruct He as [m Hm]. cbn in Hm. lia.
  - cbn. rewrite IH; [done|]. destruct He as [m Hm]. cbn in Hm. exists (m - 1)%nat. lia.
Qed.

(** The root of a tree whose left part is the largest full one. *)
Inductive merkle_tree : list D -> D -> Prop :=
  | merkle_leaf d : merkle_tree [d] d
  | merkle_node k l r dl dr :
      length l = (2 ^ k)%nat -> (0 < length r <= 2 ^ k)%nat -> merkle_tree l dl -> merkle_tree r dr ->
      merkle_tree (l ++ r) (hash_pair dl dr).

Lemma hash_pairs_level rounds : forall k P M l R, length P = k -> length M = k -> length l = (2 * rounds)%nat ->
  exists M', length M' = (k + rounds)%nat /\ hash_pairs rounds (2 * k) k (P ++ M ++ l ++ R) = P ++ level l ++ M' ++ R.
Proof.
  induction rounds as [|rounds IH]; intros k P M l R HP HM Hl.
  { destruct l; [|done]. exists M. split; [lia|done]. }
  destruct l as [|a [|b l]]; [done|cbn in Hl; lia|]. cbn [hash_pairs level].
  assert ((P ++ M ++ (a :: b :: l) ++ R) !!! (2 * k)%nat = a) as ->.
  { cbn [app]. rewrite app_assoc. rewrite list_lookup_total_middle; [done|]. rewrite length_app. lia. }
  assert ((P ++ M ++ (a :: b :: l) ++ R) !!! S (2 * k)%nat = b) as ->.
  { change ((a :: b :: l) ++ R) with ([a] ++ (b :: (l ++ R))). rewrite !app_assoc.
    rewrite list_lookup_total_middle; [done|]. rewrite !length_app. cbn. lia. }
  assert (exists M1, length M1 = S k
    /\ <[k:=hash_pair a b]> (P ++ M ++ (a :: b :: l) ++ R) = (P ++ [hash_pair a b]) ++ M1 ++ l ++ R) as (M1 & HM1 & ->).
  { rewrite insert_app_r_alt by lia. rewrite HP, Nat.sub_diag. destruct M as [|m M]; cbn.
    - exists [b]. split; [cbn in HM |- *; lia|]. by rewrite <- app_assoc.
    - exists (M ++ [a; b]). split; [rewrite length_app; cbn in HM |- *; lia|]. by rewrite <- !app_assoc. }
  replace (S (S (2 * k))) with (2 * S k)%nat by lia.
  destruct (IH (S k) (P ++ [hash_pair a b]) M1 l R) as (M' & HM' & E);
    [rewrite length_app; cbn; lia | done | cbn in Hl; lia|].
  exists M'. split; [lia|]. rewrite E. by rewrite <- app_assoc.
Qed.

(** A pass leaves the next level at the front. *)
Lemma merkle_pass_level l junk : exists junk',
  merkle_pass (length l) (l ++ junk) = (level l ++ junk', length (level l)).
Proof.
  unfold merkle_pass. pose proof (Nat.div_mod_eq (length l) 2) as Hdm. set (r := (length l / 2)%nat) in *.
  pose proof (Nat.mod_upper_bound (length l) 2). destruct (decide (length l mod 2 = 1)%nat) as [Hm|Hm].
  - (* odd *)
    rewrite Hm. cbn [Nat.eqb]. replace (length l - 1)%nat with (r * 2)%nat by lia. rewrite Nat.div_mul by lia.
    rewrite Hm in Hdm. clear Hm. clearbody r.
    destruct (nil_or_length_pos l) as [->|Hl]; [cbn in Hdm; lia|]. destruct (exists_last (l := l)) as (l0 & x & ->); [by intros ->|].
    rewrite length_app in *. cbn [length] in *. destruct (hash_pairs_level r 0 [] [] l0 (x :: junk)) as (M & HM & E); [done..|lia|].
    cbn in E, HM. rewrite <- app_assoc. cbn [app]. rewrite E.
    assert (length (level l0) = r) as Hlev. { rewrite level_length. replace (S (length l0)) with (S (2 * r)) by lia. apply Nat.div2_succ_double. }
    rewrite level_app by (exists r; lia). cbn [level].
    assert ((level l0 ++ M ++ x :: junk) !!! (r * 2)%nat = x) as ->.
    { rewrite app_assoc. apply list_lookup_total_middle. rewrite length_app. lia. }
    rewrite insert_app_r_alt by lia. rewrite Hlev, Nat.sub_diag. rewrite length_app, Hlev. cbn [length].
    replace (r + 1)%nat with (S r) by lia.
    destruct M as [|m M]; cbn; [exists junk | exists (M ++ x :: junk)]; by rewrite <- app_assoc.
  - assert (length l mod 2 = 0)%nat as Hm' by lia.
    rewrite Hm'. cbn [Nat.eqb]. rewrite Nat.sub_0_r. fold r. rewrite Hm' in Hdm. clear Hm Hm'. clearbody r.
    destruct (hash_pairs_level r 0 [] [] l junk) as (M & HM & E); [done..|lia|]. cbn in E. rewrite E.
    assert (length (level l) = r) as Hlev. { rewrite level_length. replace (length l) with (2 * r)%nat by lia. apply Nat.div2_succ_double. }
    rewrite Hlev. by exists (M ++ junk).
Qed.

(** The root of the next level is the root of the level. *)
Lemma merkle_tree_level l' d : merkle_tree l' d -> forall l, level l = l' -> (2 <= length l)%nat -> merkle_tree l d.
Proof.
  induction 1 as [d|k l1 l2 dl dr Hl1 Hl2 _ IH1 H2t IH2]; intros l El Hl.
  - destruct l as [|a [|b [|c l]]]; cbn in *; [lia|lia| |by destruct l]. injection El as <-.
    apply (merkle_node 0 [a] [b]); [done|cbn; lia|constructor..].
  - pose proof (level_length l) as Hlen. rewrite El, length_app in Hlen.
    assert (length l1 + length l2 = Nat.div2 (S (length l)))%nat as Hlen' by done.
    destruct (exist _ (2 * 2 ^ k)%nat eq_refl : {n | n = (2 * 2 ^ k)%nat}) as [n Hnk]. assert (n <= length l)%nat as Hn.
    { pose proof (div2_half (length l)). lia. }
    rewrite <- (take_drop n l) in El |- *.
    assert (length (take n l) = n) as Htake by (rewrite length_take; lia).
    rewrite level_app in El by (exists (2 ^ k)%nat; lia).
    assert (length (level (take n l)) = (2 ^ k)%nat) as Hlt.
    { rewrite level_length, Htake, Hnk. apply Nat.div2_succ_double. }
    apply app_inj_1 in El as [El1 El2]; [|congruence].
    assert (length (drop n l) = length l - n)%nat as Hdrop by apply length_drop.
    assert (Nat.div2 (S (length (drop n l))) = length l2) as Hd by (rewrite <- level_length; congruence).
    pose proof (div2_half (length (drop n l))) as Hhalf.
    assert (length (drop n l) <= n /\ 0 < length (drop n l))%nat as [Hdn Hdp].
    { split; [lia|]. destruct (length (drop n l)); [cbn in Hd; lia|lia]. }
    apply (merkle_node (S k)); [rewrite Htake; cbn; lia| cbn; lia | |].
    + apply IH1; [done|]. rewrite Htake. pose proof (Nat.pow_nonzero 2 k). lia.
    + destruct (decide (2 <= length (drop n l))%nat) as [H2|H2]; [by apply IH2|].
      destruct (drop n l) as [|x [|y l3]] eqn:Edrop; cbn in *; [lia| |lia].
      by rewrite El2.
Qed.

(** C37: the loops that hash a block's transactions in place end within as many rounds as
    there are transactions, and what they leave is the root of the binary tree whose left
    parts are as large as a full tree can be. *)
Theorem merkle_root_correct {C} (checksum : D -> C) (empty : C) (ids : list D) :
  match calculate_merkle_root checksum empty ids with
  | None => False
  | Some root => ids = [] /\ root = empty \/ exists d, merkle_tree ids d /\ root = checksum d
  end.
Proof.
  unfold calculate_merkle_root. destruct ids as [|x ids]; [by left|].
  assert (forall fuel l junk, (0 < length l <= fuel)%nat ->
    exists d rest, merkle_loop fuel (length l) (l ++ junk) = Some (d :: rest) /\ merkle_tree l d) as Hloop.
  { induction fuel as [|fuel IH]; intros l junk Hl; [lia|]. cbn [merkle_loop].
    destruct (Nat.leb_spec (length l) 1).
    - destruct l as [|d [|? ?]]; cbn in *; [lia| |lia]. exists d, junk. split; [done|constructor].
    - destruct (merkle_pass_level l junk) as (junk' & ->). pose proof (level_length l) as Hlev.
      assert (0 < length (level l) <= fuel)%nat as Hlen.
      { rewrite Hlev. pose proof (div2_half (length l)). lia. }
      destruct (IH (level l) junk' Hlen) as (d & rest & E & Ht).
      exists d, rest. split; [done|]. by apply (merkle_tree_level _ _ Ht). }
  destruct (Hloop (length (x :: ids)) (x :: ids) []) as (d & rest & E & Ht); [cbn; lia|].
  rewrite app_nil_r in E. rewrite E. cbn. right. by exists d.
Qed.
End Merkle.

(** Five transactions: the last one is paired only at the top. *)
Example merkle_of_five :
  calculate_merkle_root (fun a b : string => "(" +:+ a +:+ b +:+ ")")%string (fun d => d) "none"%string
    ["a"; "b"; "c"; "d"; "e"]%string = Some "(((ab)(cd))e)"%string.
Proof. reflexivity. Qed.
