(* ===== verification/Schedule.v ===== *)
(** The slots of the chain and the witnesses who fill them: [db_witness_schedule.cpp], the
    parts of [db_update.cpp] that follow a block ([update_global_dynamic_data],
    [update_last_irreversible_block], [update_maintenance_flag]), the header check of
    [db_block.cpp] and the next maintenance time of [db_maint.cpp]. *)
From S2P Require Import Prelude Records Block.

(** ** State *)

(** The part of a [witness_object] that records what the witness did. *)
Record witness_record := WitnessRecord {
  total_missed : Z;
  last_aslot : Z;
  last_confirmed_block_num : Z;
  signing_key : Z;
}.
#[export] Instance eta_witness_record : Eta witness_record :=
  fun r => WitnessRecord (total_missed r) (last_aslot r) (last_confirmed_block_num r) (signing_key r).

(** The fields of [dynamic_global_property_object], [global_property_object] and
    [witness_schedule_object] that are read or written here, and the checkpoints of the node. *)
Record schedule_state := ScheduleState {
  head_block_number : Z;
  head_block_id : block_id;
  head_time : Z;
  current_witness : Z;
  recently_missed_count : Z;
  current_aslot : Z;
  recent_slots_filled : Z;
  dynamic_flags : Z;
  last_irreversible_block_num : Z;
  next_maintenance : Z;
  block_interval : Z;
  maintenance_interval : Z;
  maintenance_skip_slots : Z;
  active_witnesses : list Z;
  current_shuffled_witnesses : list Z;
  witness_records : gmap Z witness_record;
  last_checkpoint : option Z;
}.
#[export] Instance eta_schedule_state : Eta schedule_state :=
  fun r => ScheduleState (head_block_number r) (head_block_id r) (head_time r) (current_witness r)
    (recently_missed_count r) (current_aslot r) (recent_slots_filled r) (dynamic_flags r)
    (last_irreversible_block_num r) (next_maintenance r) (block_interval r) (maintenance_interval r)
    (maintenance_skip_slots r) (active_witnesses r) (current_shuffled_witnesses r) (witness_records r) (last_checkpoint r).

Definition GRAPHENE_RECENTLY_MISSED_COUNT_INCREMENT : Z := 4.
Definition GRAPHENE_RECENTLY_MISSED_COUNT_DECREMENT : Z := 3.
Definition GRAPHENE_MAX_UNDO_HISTORY : Z := 10000.
Definition GRAPHENE_IRREVERSIBLE_THRESHOLD : Z := 7000.
Definition GRAPHENE_100_PERCENT : Z := 10000.
Definition maintenance_flag : Z := 1.

(** ** Slots *)

(** [get_slot_time]: times are 32-bit numbers of seconds, and so is their arithmetic. *)
Definition get_slot_time (s : schedule_state) (slot_num : Z) : Z :=
  if slot_num =? 0 then 0
  else if head_block_number s =? 0 then u32 (head_time s + u32 (slot_num * block_interval s))
  else
    let head_slot_time := head_time s / block_interval s * block_interval s in
    let slot_num := if negb (Z.land (dynamic_flags s) maintenance_flag =? 0)
                    then u32 (slot_num + maintenance_skip_slots s) else slot_num in
    u32 (head_slot_time + u32 (slot_num * block_interval s)).

(** [get_slot_at_time] *)
Definition get_slot_at_time (s : schedule_state) (when : Z) : Z :=
  let first_slot_time := get_slot_time s 1 in
  if when <? first_slot_time then 0 else u32 ((when - first_slot_time) / block_interval s + 1).

(** [get_scheduled_witness]; the index is reduced modulo the number of witnesses. *)
Definition get_scheduled_witness (s : schedule_state) (slot_num : Z) : result Z :=
  let current_slot := u64 (current_aslot s + slot_num) in
  of_option "current_shuffled_witnesses"
    (current_shuffled_witnesses s !! Z.to_nat (current_slot mod Z.of_nat (length (current_shuffled_witnesses s)))).

(** The loop of [update_witness_missed_blocks] over the slots [i + 1], [i + 2], ... *)
Fixpoint count_missed (s : schedule_state) (rounds : nat) (i : Z) : result schedule_state :=
  match rounds with
  | O => Ok s
  | S rounds =>
      let! w := get_scheduled_witness s (i + 1) in
      let! r := of_option "witness" (witness_records s !! w) in
      count_missed (s <| witness_records := <[w := r <| total_missed ::= Z.add 1 |>]> (witness_records s) |>) rounds (i + 1)
  end.

(** [update_witness_missed_blocks] *)
Definition update_witness_missed_blocks {T} (s : schedule_state) (b : signed_block T) : result (schedule_state * Z) :=
  let missed_blocks := get_slot_at_time s (timestamp b) in
  assert! negb (missed_blocks =? 0) @ "Trying to push double-produced block onto current block?!" in
  let missed_blocks := missed_blocks - 1 in
  if missed_blocks <? Z.of_nat (length (current_shuffled_witnesses s)) then
    let! s := count_missed s (Z.to_nat missed_blocks) 0 in Ok (s, missed_blocks)
  else Ok (s, missed_blocks).

(** The number of ones in the binary form ([fc::popcount]). *)
Fixpoint popcount_pos (p : positive) : Z :=
  match p with
  | xH => 1
  | xO p => popcount_pos p
  | xI p => 1 + popcount_pos p
  end.
Definition popcount (z : Z) : Z := match z with Zpos p => popcount_pos p | _ => 0 end.

(** [witness_participation_rate] *)
Definition witness_participation_rate (s : schedule_state) : Z :=
  u32 (GRAPHENE_100_PERCENT * popcount (recent_slots_filled s) / 128).

(** ** The order of the witnesses *)

(** The generator that picks the position to swap with. *)
Definition schedule_random (now_hi i : Z) : Z :=
  let k := u64 (now_hi + u64 (i * 2685821657736338717)) in
  let k := Z.lxor k (Z.shiftr k 12) in
  let k := Z.lxor k (u64 (Z.shiftl k 25)) in
  let k := Z.lxor k (Z.shiftr k 27) in
  u64 (k * 2685821657736338717).

(** [std::swap] of two entries. *)
Definition swap (l : list Z) (i j : nat) : list Z :=
  match l !! i, l !! j with
  | Some x, Some y => <[j := x]> (<[i := y]> l)
  | _, _ => l
  end.

Fixpoint shuffle_loop (now_hi : Z) (rounds i : nat) (l : list Z) : list Z :=
  match rounds with
  | O => l
  | S rounds =>
      let jmax := u32 (Z.of_nat (length l) - Z.of_nat i) in
      let j := u32 (Z.of_nat i + schedule_random now_hi (Z.of_nat i) mod jmax) in
      shuffle_loop now_hi rounds (S i) (swap l i (Z.to_nat j))
  end.

(** [update_witness_schedule] *)
Definition update_witness_schedule (s : schedule_state) : schedule_state :=
  if head_block_number s mod Z.of_nat (length (active_witnesses s)) =? 0 then
    let now_hi := u64 (Z.shiftl (head_time s) 32) in
    s <| current_shuffled_witnesses := shuffle_loop now_hi (length (active_witnesses s)) 0 (active_witnesses s) |>
  else s.

(** ** Following a block *)

(** A block's mark in the record of the slots; shifting 128 bits by 128 or more is
    undefined. *)
Definition fill_slots (recent missed : Z) : result Z :=
  if missed <? 128 then Ok (u128 (Z.shiftl (u128 (Z.shiftl recent 1) + 1) missed))
  else Err (thrown "undefined behaviour: a shift by 128 or more").

Definition count_recently_missed (s : schedule_state) (block_num missed_blocks : Z) : Z :=
  let count := recently_missed_count s in
  if block_num =? 1 then 0
  else if match last_checkpoint s with Some c => c >=? block_num | None => false end then 0
  else if negb (missed_blocks =? 0) then u32 (count + u32 (GRAPHENE_RECENTLY_MISSED_COUNT_INCREMENT * missed_blocks))
  else if count >? GRAPHENE_RECENTLY_MISSED_COUNT_INCREMENT then count - GRAPHENE_RECENTLY_MISSED_COUNT_DECREMENT
  else if count >? 0 then count - 1
  else count.

(** [update_global_dynamic_data], without the feeds and the treasury of GOLD, which
    [Feed.refresh_scheduled_feeds] and [Vault] model. *)
Definition update_global_dynamic_data {T} (header_hash : signed_block T -> Z) (skip_undo_history_check : bool)
    (s : schedule_state) (b : signed_block T) (missed_blocks : Z) : result schedule_state :=
  let! filled := fill_slots (recent_slots_filled s) missed_blocks in
  let s := s <| recently_missed_count := count_recently_missed s (block_num b) missed_blocks |>
             <| head_block_number := block_num b |>
             <| head_block_id := block_id_of header_hash b |>
             <| head_time := timestamp b |>
             <| current_witness := block_witness b |>
             <| recent_slots_filled := filled |>
             <| current_aslot := u64 (current_aslot s + u32 (missed_blocks + 1)) |> in
  if skip_undo_history_check then Ok s
  else if u32 (head_block_number s - last_irreversible_block_num s) <? GRAPHENE_MAX_UNDO_HISTORY then Ok s
  else Err (thrown "undo_database_exception").

(** The size given to the undo history and the fork database. *)
Definition undo_history_size (s : schedule_state) : Z :=
  u32 (u32 (head_block_number s - last_irreversible_block_num s) + 1).

(** The last part of [update_signing_witness]. *)
Definition confirm_block {T} (s : schedule_state) (b : signed_block T) : result schedule_state :=
  let new_block_aslot := u64 (current_aslot s + get_slot_at_time s (timestamp b)) in
  let! r := of_option "witness" (witness_records s !! block_witness b) in
  Ok (s <| witness_records := <[block_witness b := r <| last_aslot := new_block_aslot |>
              <| last_confirmed_block_num := block_num b |>]> (witness_records s) |>).

(** The last blocks the active witnesses have confirmed. *)
Fixpoint confirmed_blocks (s : schedule_state) (ids : list Z) : result (list Z) :=
  match ids with
  | [] => Ok []
  | w :: ids =>
      let! r := of_option "witness" (witness_records s !! w) in
      let! l := confirmed_blocks s ids in
      Ok (last_confirmed_block_num r :: l)
  end.

Definition irreversible_offset (n : Z) : Z := (GRAPHENE_100_PERCENT - GRAPHENE_IRREVERSIBLE_THRESHOLD) * n / GRAPHENE_100_PERCENT.

(** [update_last_irreversible_block]: what [std::nth_element] puts at [offset] is what
    sorting puts there. *)
Definition update_last_irreversible_block (s : schedule_state) : result schedule_state :=
  let! nums := confirmed_blocks s (active_witnesses s) in
  let offset := irreversible_offset (Z.of_nat (length nums)) in
  let! new := of_option "wit_objs" (insertion_sort Z.ltb nums !! Z.to_nat offset) in
  if new >? last_irreversible_block_num s then Ok (s <| last_irreversible_block_num := new |>) else Ok s.

(** [update_maintenance_flag] *)
Definition update_maintenance_flag (s : schedule_state) (new_maintenance_flag : bool) : schedule_state :=
  s <| dynamic_flags ::= fun f => Z.lor (Z.land f (2 ^ 32 - 1 - maintenance_flag)) (if new_maintenance_flag then maintenance_flag else 0) |>.

(** The next maintenance time, computed in [perform_chain_maintenance]. *)
Definition next_maintenance_after {T} (s : schedule_state) (b : signed_block T) : Z :=
  if next_maintenance s <=? timestamp b then
    if block_num b =? 1 then u32 (u32 (timestamp b / maintenance_interval s + 1) * maintenance_interval s)
    else
      let y := Z.quot (head_time s - next_maintenance s) (maintenance_interval s) in
      u32 (next_maintenance s + u32 ((y + 1) * maintenance_interval s))
  else next_maintenance s.

(** [validate_block_header]; [signed_by] tells whether a key signed the block. *)
Definition validate_block_header {T} (signed_by : signed_block T -> Z -> bool) (skip_witness_signature skip_witness_schedule_check : bool)
    (s : schedule_state) (b : signed_block T) : result Z :=
  assert! bool_decide (head_block_id s = previous b) @ "" in
  assert! head_time s <? timestamp b @ "" in
  let! w := of_option "witness" (witness_records s !! block_witness b) in
  do! (if skip_witness_signature then Ok tt else assert! signed_by b (signing_key w) @ "" in Ok tt) in
  do! (if skip_witness_schedule_check then Ok tt
       else
         let slot_num := get_slot_at_time s (timestamp b) in
         assert! slot_num >? 0 @ "" in
         let! scheduled := get_scheduled_witness s slot_num in
         assert! block_witness b =? scheduled @ "Witness produced block at wrong time" in Ok tt) in
  Ok (block_witness b).

(** ** The order is fair *)

Lemma swap_perm l i j : swap l i j ≡ₚ l.
Proof.
  unfold swap. destruct (l !! i) as [x|] eqn:Hi; [|done]. destruct (l !! j) as [y|] eqn:Hj; [|done].
  by apply Permutation_insert_swap.
Qed.

Lemma shuffle_loop_perm now_hi rounds : forall i l, shuffle_loop now_hi rounds i l ≡ₚ l.
Proof. induction rounds as [|rounds IH]; cbn; intros i l; [done|]. by rewrite IH, swap_perm. Qed.

Lemma add_mod_cases a i n : 0 <= i < n ->
  (a + i) mod n = if a mod n + i <? n then a mod n + i else a mod n + i - n.
Proof.
  intros Hi. pose proof (Z.mod_pos_bound a n). pose proof (Z.div_mod a n).
  destruct (Z.ltb_spec (a mod n + i) n); symmetry.
  - apply (Z.mod_unique _ _ (a / n)); [left; lia|lia].
  - apply (Z.mod_unique _ _ (a / n + 1)); [left; lia|lia].
Qed.

(** Reading a list around the clock from any position gives a rotation of it. *)
Lemma around_the_clock (l : list Z) (a : Z) :
  let n := Z.of_nat (length l) in let m := Z.to_nat (a mod n) in
  (fun k => l !! Z.to_nat ((a + k) mod n)) <$> seqZ 0 n = Some <$> (drop m l ++ take m l).
Proof.
  intros n m. destruct (decide (l = [])) as [->|Hne]; [by rewrite drop_nil, take_nil|].
  assert (0 < n) as Hn by (destruct l; [done|]; cbn in n; lia).
  pose proof (Z.mod_pos_bound a n Hn). apply list_eq. intros i. rewrite !list_lookup_fmap.
  assert (length (drop m l) = length l - m)%nat as Hd by apply length_drop.
  destruct (decide (Z.of_nat i < n)) as [Hi|Hi].
  - rewrite lookup_seqZ_lt by done. cbn [option_fmap option_map fmap]. rewrite Z.add_0_l, add_mod_cases by lia.
    destruct (Z.ltb_spec (a mod n + Z.of_nat i) n).
    + rewrite lookup_app_l by lia. rewrite lookup_drop. replace (Z.to_nat (a mod n + Z.of_nat i)) with (m + i)%nat by lia.
      destruct (l !! (m + i)%nat) eqn:E; [done|]. apply lookup_ge_None in E. lia.
    + rewrite lookup_app_r by lia. rewrite lookup_take_lt by lia.
      replace (Z.to_nat (a mod n + Z.of_nat i - n)) with (i - length (drop m l))%nat by lia.
      destruct (l !! _) eqn:E; [done|]. apply lookup_ge_None in E. lia.
  - rewrite lookup_seqZ_ge by lia. rewrite lookup_ge_None_2; [done|].
    rewrite length_app, length_drop, length_take. lia.
Qed.

(** C9: at the end of a round (the head block number is a multiple of the number [n] of active
    witnesses, of which there are some) the active witnesses are put into a new order, and
    each of them gets exactly one slot of any round that follows: whatever slot the chain is
    in, the witnesses of the next [n] slots are the [n] active ones in some order, as long
    as slot numbers fit in 64 bits. *)
Theorem witness_rounds_fair s aslot : let n := Z.of_nat (length (active_witnesses s)) in
  0 < n -> head_block_number s mod n = 0 -> 0 <= aslot -> aslot + n < 2 ^ 64 ->
  let s' := (update_witness_schedule s) <| current_aslot := aslot |> in
  current_shuffled_witnesses s' ≡ₚ active_witnesses s
  /\ (get_scheduled_witness s' <$> seqZ 1 n) ≡ₚ (Ok <$> active_witnesses s).
Proof.
  intros n Hn Hmod Ha Hmax. unfold update_witness_schedule. fold n. rewrite Hmod. cbn [Z.eqb set_field].
  set (l := shuffle_loop _ _ _ _). assert (l ≡ₚ active_witnesses s) as Hl by apply shuffle_loop_perm.
  cbn. fold l. split; [done|]. assert (Z.of_nat (length l) = n) as Hlen by (unfold n; by rewrite Hl).
  pose proof (around_the_clock l (aslot + 1)) as Hclock. cbv zeta in Hclock. rewrite Hlen in Hclock.
  set (m := Z.to_nat _) in Hclock.
  transitivity (of_option "current_shuffled_witnesses" <$> (Some <$> (drop m l ++ take m l))).
  - rewrite <- Hclock. replace (seqZ 1 n) with (Z.add 1 <$> seqZ 0 n) by (by rewrite fmap_add_seqZ).
    rewrite <- !list_fmap_compose. apply (eq_subrelation _ _ _), list_fmap_ext. intros i k Hk%list_elem_of_lookup_2.
    apply elem_of_seqZ in Hk. unfold compose, get_scheduled_witness. cbn [set_field current_shuffled_witnesses current_aslot]. rewrite Hlen.
    unfold u64. rewrite (Z.mod_small (aslot + (1 + k))) by lia. do 4 f_equal. lia.
  - rewrite <- list_fmap_compose. apply (fmap_Permutation (@Ok Z)). by rewrite Permutation_app_comm, take_drop.
Qed.

(** ** Slots and times *)

(** The slot before slot 1, and what is added to a slot's number after maintenance. *)
Definition slot_base (s : schedule_state) : Z :=
  if head_block_number s =? 0 then head_time s else head_time s / block_interval s * block_interval s.
Definition slot_skip (s : schedule_state) : Z :=
  if head_block_number s =? 0 then 0
  else if negb (Z.land (dynamic_flags s) maintenance_flag =? 0) then maintenance_skip_slots s else 0.

Record schedule_ok (s : schedule_state) : Prop := {
  so_interval : 0 < block_interval s;
  so_skip : 0 <= maintenance_skip_slots s;
  so_time : 0 <= head_time s;
}.

(** Slot [k] lies within what a 32-bit number of seconds can express. *)
Definition slot_fits (s : schedule_state) (k : Z) : Prop :=
  head_time s + (k + maintenance_skip_slots s) * block_interval s < 2 ^ 32.

Lemma slot_base_bounds s : schedule_ok s -> head_time s - block_interval s < slot_base s <= head_time s /\ 0 <= slot_base s.
Proof.
  intros [Hi Hs Ht]. unfold slot_base. destruct (_ =? 0); [lia|].
  pose proof (div_mul_le (head_time s) _ Hi). pose proof (div_lt_mul (head_time s) _ Hi).
  assert (0 <= head_time s / block_interval s) by (apply Z.div_pos; lia). nia.
Qed.

Lemma slot_skip_bounds s : schedule_ok s -> 0 <= slot_skip s <= maintenance_skip_slots s.
Proof. intros [Hi Hs Ht]. unfold slot_skip. destruct (_ =? 0); [lia|]. destruct (negb _); lia. Qed.

(** Without overflow the slots are equally far apart. *)
Lemma get_slot_time_linear s k : schedule_ok s -> 0 < k -> slot_fits s k ->
  get_slot_time s k = slot_base s + (k + slot_skip s) * block_interval s.
Proof.
  intros Hok Hk Hf. pose proof (slot_base_bounds s Hok) as [[_ Hb] Hb0]. pose proof (slot_skip_bounds s Hok).
  destruct Hok as [Hi Hs Ht]. unfold slot_fits in Hf. unfold get_slot_time, slot_base, slot_skip in *.
  assert (k < 2 ^ 32 /\ k + maintenance_skip_slots s < 2 ^ 32) as [Hk1 Hk2] by nia.
  replace (k =? 0) with false by (symmetry; apply Z.eqb_neq; lia).
  destruct (head_block_number s =? 0); [|destruct (negb _)].
  - rewrite (u32_small (k * _)) by nia. rewrite u32_small by nia. lia.
  - rewrite (u32_small (k + _)) by lia. rewrite (u32_small ((_ + _) * _)) by nia. rewrite u32_small by nia. lia.
  - rewrite (u32_small (k * _)) by nia. rewrite u32_small by nia. lia.
Qed.

Lemma slot_fits_le s k k' : schedule_ok s -> k' <= k -> slot_fits s k -> slot_fits s k'.
Proof. intros [Hi _ _] Hk. unfold slot_fits. nia. Qed.

Ltac slot_side := first [done | lia | eapply slot_fits_le; [done| |eassumption]; lia].

(** C38: slots and times are inverse to each other as long as the times fit in 32 bits: the
    slot at a slot's time is that slot, and a time in slot [k], found by
    [get_slot_at_time], is not before the time of slot [k] and is before that of the next;
    times before the first slot are in no slot. *)
Theorem slot_time_round_trip s k when : schedule_ok s -> 0 < k -> slot_fits s (k + 1) ->
  get_slot_at_time s (get_slot_time s k) = k
  /\ (when < get_slot_time s 1 -> get_slot_at_time s when = 0)
  /\ (get_slot_time s 1 <= when < 2 ^ 32 -> get_slot_at_time s when = k <-> get_slot_time s k <= when < get_slot_time s (k + 1)).
Proof.
  intros Hok Hk Hf. pose proof (slot_skip_bounds s Hok). pose proof (slot_base_bounds s Hok).
  rewrite !get_slot_time_linear by slot_side.
  unfold get_slot_at_time. rewrite get_slot_time_linear by slot_side.
  destruct Hok as [Hi Hs Ht]. unfold slot_fits in Hf. assert (k + 1 < 2 ^ 32) by nia. split_and!.
  - destruct (Z.ltb_spec (slot_base s + (k + slot_skip s) * block_interval s) (slot_base s + (1 + slot_skip s) * block_interval s)); [nia|].
    replace (slot_base s + (k + slot_skip s) * block_interval s - (slot_base s + (1 + slot_skip s) * block_interval s))
      with ((k - 1) * block_interval s) by ring.
    rewrite Z.div_mul by lia. rewrite u32_small by lia. lia.
  - intros Hw. apply Z.ltb_lt in Hw as ->. done.
  - intros [Hw Hmax]. destruct (Z.ltb_spec when (slot_base s + (1 + slot_skip s) * block_interval s)); [lia|].
    set (first := slot_base s + (1 + slot_skip s) * block_interval s) in *.
    pose proof (div_mul_le (when - first) _ Hi). pose proof (div_lt_mul (when - first) _ Hi).
    assert (0 <= (when - first) / block_interval s) by (apply Z.div_pos; lia).
    assert ((when - first) / block_interval s + 1 < 2 ^ 32).
    { assert (block_interval s <= first) by (unfold first; nia). nia. }
    rewrite u32_small by lia.
    replace (slot_base s + (k + slot_skip s) * block_interval s) with (first + (k - 1) * block_interval s) by (unfold first; ring).
    replace (slot_base s + (k + 1 + slot_skip s) * block_interval s) with (first + k * block_interval s) by (unfold first; ring).
    split; [intros <-; nia|]. intros [Hl Hu]. nia.
Qed.

(** ** Irreversible blocks *)

Lemma confirmed_blocks_length s ids l : confirmed_blocks s ids = Ok l -> length l = length ids.
Proof.
  revert l. induction ids as [|w ids IH]; cbn; intros l E; [by injection E as <-|].
  mon. cbn. f_equal. by apply IH.
Qed.

Lemma filter_keeps_all {A} (P : A -> Prop) `{!forall x, Decision (P x)} (l : list A) : Forall P l -> filter P l = l.
Proof. induction 1 as [|x l Hx _ IH]; [done|]. by rewrite filter_cons_True, IH. Qed.

Lemma count_from_sorted nums k v : insertion_sort Z.ltb nums !! k = Some v ->
  (length nums - k <= length (filter (fun x => (v <= x)%Z) nums))%nat.
Proof.
  intros Hk. pose proof (insertion_sort_ascending Z.ltb nums (Z_ltb_strict_weak nums)) as Ha.
  rewrite <- (insertion_sort_perm Z.ltb nums). set (l := insertion_sort Z.ltb nums) in *. rewrite <- (take_drop k l) at 2.
  rewrite filter_app, length_app.
  assert (filter (fun x => (v <= x)%Z) (drop k l) = drop k l) as ->.
  { apply filter_keeps_all, Forall_lookup_2. intros i x Hx. rewrite lookup_drop in Hx.
    destruct i as [|i]; [rewrite Nat.add_0_r in Hx; rewrite Hk in Hx; injection Hx; lia|].
    apply Z.ltb_ge. apply (Ha k (k + S i)%nat); [done|done|lia]. }
  rewrite length_drop. lia.
Qed.

Lemma count_up_to_sorted nums k v x : insertion_sort Z.ltb nums !! k = Some x -> x < v ->
  (length (filter (fun y => (v <= y)%Z) nums) < length nums - k)%nat.
Proof.
  intros Hk Hx. pose proof (insertion_sort_ascending Z.ltb nums (Z_ltb_strict_weak nums)) as Ha.
  rewrite <- (insertion_sort_perm Z.ltb nums). set (l := insertion_sort Z.ltb nums) in *.
  pose proof (lookup_lt_Some _ _ _ Hk) as Hlen. rewrite <- (take_drop (S k) l) at 1. rewrite filter_app, length_app.
  assert (filter (fun y => (v <= y)%Z) (take (S k) l) = []) as ->.
  { apply elem_of_nil_inv. intros y Hy. apply list_elem_of_filter in Hy as [Hv [i Hi]%list_elem_of_lookup].
    apply lookup_take_Some in Hi as [Hi Hik]. destruct (decide (i = k)) as [->|]; [rewrite Hk in Hi; injection Hi; lia|].
    assert ((x <? y) = false) as Hxy by (apply (Ha i k); [done|done|lia]). apply Z.ltb_ge in Hxy. lia. }
  cbn. pose proof (length_filter (fun y => (v <= y)%Z) (drop (S k) l)) as Hf. rewrite length_drop in Hf. lia.
Qed.

(** The active witness has confirmed block [v] or a later one. *)
Definition has_confirmed (s : schedule_state) (v : Z) (w : Z) : Prop :=
  match witness_records s !! w with Some r => v <= last_confirmed_block_num r | None => False end.
#[export] Instance has_confirmed_dec s v w : Decision (has_confirmed s v w).
Proof. unfold has_confirmed. destruct (witness_records s !! w); apply _. Defined.

Definition confirmations (s : schedule_state) (v : Z) : Z := Z.of_nat (length (filter (has_confirmed s v) (active_witnesses s))).

Lemma confirmed_blocks_count s v ids nums : confirmed_blocks s ids = Ok nums ->
  length (filter (fun x => v <= x) nums) = length (filter (has_confirmed s v) ids).
Proof.
  revert nums. induction ids as [|w ids IH]; cbn [confirmed_blocks]; intros nums E; [by injection E as <-|].
  destruct (witness_records s !! w) as [r|] eqn:Ew; [|done]. cbn in E.
  destruct (confirmed_blocks s ids) as [l|]; [|done]. injection E as <-. specialize (IH l eq_refl).
  destruct (decide (v <= last_confirmed_block_num r)) as [Hv|Hv].
  - rewrite !filter_cons_True; [cbn; by rewrite IH | by unfold has_confirmed; rewrite Ew | done].
  - rewrite !filter_cons_False; [done | by unfold has_confirmed; rewrite Ew | done].
Qed.

(** C22: blocks become irreversible, and stay it, exactly when enough witnesses stand behind them:
    when the update succeeds and there are active witnesses, the last irreversible block
    never goes back, a block it moves to has been confirmed by at least 70 per cent of the
    active witnesses, and every block that all but [irreversible_offset] of them have
    confirmed is irreversible. *)
Theorem irreversible_blocks_confirmed s s' : active_witnesses s <> [] -> update_last_irreversible_block s = Ok s' ->
  let n := Z.of_nat (length (active_witnesses s)) in
  last_irreversible_block_num s <= last_irreversible_block_num s'
  /\ (last_irreversible_block_num s' = last_irreversible_block_num s
      \/ GRAPHENE_IRREVERSIBLE_THRESHOLD * n <= GRAPHENE_100_PERCENT * confirmations s (last_irreversible_block_num s'))
  /\ forall v, n - irreversible_offset n <= confirmations s v -> v <= last_irreversible_block_num s'.
Proof.
  intros Hne E n. unfold update_last_irreversible_block in E.
  destruct (confirmed_blocks s (active_witnesses s)) as [nums|] eqn:En; [|done]. cbn [rbind] in E.
  pose proof (confirmed_blocks_length _ _ _ En) as Hlen. rewrite Hlen in E. fold n in E.
  assert (0 < n) as Hn by (unfold n; destruct (active_witnesses s); [done|cbn; lia]).
  set (k := Z.to_nat (irreversible_offset n)) in E.
  assert (0 <= irreversible_offset n /\ 10000 * irreversible_offset n <= 3000 * n) as [Hk0 Hk1].
  { unfold irreversible_offset, GRAPHENE_100_PERCENT, GRAPHENE_IRREVERSIBLE_THRESHOLD. split; [apply Z.div_pos; lia|].
    rewrite Z.mul_comm. apply div_mul_le. lia. }
  destruct (insertion_sort Z.ltb nums !! k) as [new|] eqn:Ek; [|done]. cbn [of_option rbind] in E.
  assert (forall v, n - irreversible_offset n <= confirmations s v -> v <= new) as Hcomplete.
  { intros v Hv. destruct (decide (new < v)) as [Hlt|]; [|lia]. exfalso. pose proof (count_up_to_sorted nums k v new Ek Hlt) as Hc.
    rewrite (confirmed_blocks_count s v _ _ En) in Hc. unfold confirmations in Hv. lia. }
  destruct (new >? _) eqn:Hgt; injection E as <-; reflect_bools; (split; [cbn; lia|]).
  - split; [right|done]. cbn. pose proof (count_from_sorted nums k new Ek) as Hc.
    rewrite (confirmed_blocks_count s new _ _ En) in Hc. unfold confirmations.
    unfold GRAPHENE_100_PERCENT, GRAPHENE_IRREVERSIBLE_THRESHOLD. lia.
  - split; [by left|]. intros v Hv. specialize (Hcomplete v Hv). lia.
Qed.

(** ** What following a block changes *)

(** The absolute slot counts the blocks and the slots that were missed, and afterwards no
    block can be made for the time of this one or an earlier one. *)
Lemma update_global_dynamic_data_spec {T} (header_hash : signed_block T -> Z) skip s b missed s' :
  update_global_dynamic_data header_hash skip s b missed = Ok s' ->
  0 <= missed < 2 ^ 32 - 1 -> 0 <= current_aslot s -> current_aslot s + missed + 1 < 2 ^ 64 ->
  head_block_number s' = block_num b /\ head_block_id s' = block_id_of header_hash b /\ head_time s' = timestamp b
  /\ current_aslot s' = current_aslot s + missed + 1 /\ missed < 128.
Proof.
  unfold update_global_dynamic_data, fill_slots. intros E Hm Ha Hmax. destruct (missed <? 128) eqn:Hlt; [|done].
  cbn [rbind] in E. apply Z.ltb_lt in Hlt.
  match type of E with context [if _ then Ok ?x else _] => set (s1 := x) in E end.
  assert (s' = s1) as -> by (destruct skip; [by injection E as <-|]; destruct (_ <? _); [by injection E as <-|done]).
  split_and!; [done..| |done]. cbn. unfold u32, u64. rewrite (Z.mod_small (missed + 1)) by lia. rewrite Z.mod_small; lia.
Qed.

Lemma update_global_dynamic_data_head {T} (header_hash : signed_block T -> Z) skip s b missed s' :
  update_global_dynamic_data header_hash skip s b missed = Ok s' ->
  head_block_number s' = block_num b /\ head_block_id s' = block_id_of header_hash b /\ head_time s' = timestamp b.
Proof.
  unfold update_global_dynamic_data. intros E. destruct (fill_slots _ _); [|done]. cbn [rbind] in E.
  destruct skip; [by injection E as <-|]. destruct (_ <? _); [by injection E as <-|done].
Qed.

Theorem no_double_production {T} (header_hash : signed_block T -> Z) skip s b missed s' t :
  update_global_dynamic_data header_hash skip s b missed = Ok s' ->
  schedule_ok s' -> slot_fits s' 1 -> t <= timestamp b -> get_slot_at_time s' t = 0.
Proof.
  intros E Hok Hf Ht. destruct (update_global_dynamic_data_head _ _ _ _ _ _ E) as (_ & _ & Hh).
  unfold get_slot_at_time. rewrite get_slot_time_linear by slot_side.
  pose proof (slot_base_bounds s' Hok). pose proof (slot_skip_bounds s' Hok). destruct Hok.
  destruct (Z.ltb_spec t (slot_base s' + (1 + slot_skip s') * block_interval s')); [done|]. nia.
Qed.

(** The next maintenance is after the block and at most one interval away, at a multiple
    of the interval from the last one. *)
Lemma next_maintenance_bounds {T} s (b : signed_block T) :
  0 < maintenance_interval s -> 0 <= next_maintenance s <= timestamp b -> head_time s = timestamp b ->
  timestamp b + maintenance_interval s < 2 ^ 32 ->
  timestamp b < next_maintenance_after s b <= timestamp b + maintenance_interval s
  /\ (block_num b <> 1 -> (next_maintenance_after s b - next_maintenance s) mod maintenance_interval s = 0).
Proof.
  intros Hi [H0 Hn] Hh Hmax. unfold next_maintenance_after. apply Z.leb_le in Hn as Hb. rewrite Hb, Hh.
  set (m := maintenance_interval s) in *. destruct (Z.eqb_spec (block_num b) 1) as [->|Hne].
  - pose proof (div_mul_le (timestamp b) m Hi). pose proof (div_lt_mul (timestamp b) m Hi).
    assert (0 <= timestamp b / m) by (apply Z.div_pos; lia).
    rewrite (u32_small (_ + 1)) by nia. rewrite u32_small by nia. split; [nia|done].
  - rewrite Z.quot_div_nonneg by lia. set (d := timestamp b - next_maintenance s).
    pose proof (div_mul_le d m Hi). pose proof (div_lt_mul d m Hi). assert (0 <= d / m) by (apply Z.div_pos; lia).
    rewrite (u32_small ((_ + 1) * m)) by nia. rewrite u32_small by nia. split; [nia|]. intros _.
    replace (next_maintenance s + (d / m + 1) * m - next_maintenance s) with ((d / m + 1) * m) by ring. apply Z.mod_mul. lia.
Qed.

(** ** An example *)

Definition sample_schedule : schedule_state :=
  ScheduleState 8 (8, 77) 1700000001 5 0 20 1 1 4 1700003600 3 3600 2 [3; 5; 7; 9] [9; 3; 7; 5]
    (list_to_map [(3, WitnessRecord 0 17 5 103); (5, WitnessRecord 0 18 6 105); (7, WitnessRecord 1 19 7 107); (9, WitnessRecord 0 20 8 109)])
    None.
Definition sample_block_by (w : Z) : signed_block Z := SignedBlock (8, 77) 1700000013 w 0 0 [].
Definition sample_block := sample_block_by 7.

Example sample_slots : map (get_slot_time sample_schedule) [1; 2; 3] = [1700000010; 1700000013; 1700000016]
  /\ map (get_slot_at_time sample_schedule) [1700000009; 1700000010; 1700000012; 1700000014] = [0; 1; 1; 2].
Proof. split; vm_compute; reflexivity. Qed.

Example sample_validate :
  validate_block_header (fun _ _ => true) false false sample_schedule (sample_block_by 7) = Ok 7
  /\ validate_block_header (fun _ _ => true) false false sample_schedule (sample_block_by 5)
     = Err (assert_exception "Witness produced block at wrong time").
Proof. split; vm_compute; reflexivity. Qed.

Lemma witness_rounds_fair_witness :
  let s' := (update_witness_schedule sample_schedule) <| current_aslot := 23 |> in
  current_shuffled_witnesses s' ≡ₚ [3; 5; 7; 9]
  /\ (get_scheduled_witness s' <$> seqZ 1 4) ≡ₚ (Ok <$> [3; 5; 7; 9]).
Proof. apply (witness_rounds_fair sample_schedule 23); [reflexivity | reflexivity | lia | cbn; lia]. Defined.

Lemma slot_time_round_trip_witness :
  get_slot_at_time sample_schedule (get_slot_time sample_schedule 2) = 2
  /\ (1700000014 < get_slot_time sample_schedule 1 -> get_slot_at_time sample_schedule 1700000014 = 0)
  /\ (get_slot_time sample_schedule 1 <= 1700000014 < 2 ^ 32 -> get_slot_at_time sample_schedule 1700000014 = 2
      <-> get_slot_time sample_schedule 2 <= 1700000014 < get_slot_time sample_schedule 3).
Proof.
  apply (slot_time_round_trip sample_schedule 2 1700000014);
    [split; cbn; lia | lia | unfold slot_fits; cbn; lia].
Defined.

Lemma irreversible_blocks_confirmed_witness : exists s', update_last_irreversible_block sample_schedule = Ok s'
  /\ last_irreversible_block_num s' = 6 /\ GRAPHENE_IRREVERSIBLE_THRESHOLD * 4 <= GRAPHENE_100_PERCENT * confirmations sample_schedule 6.
Proof.
  eexists (sample_schedule <| last_irreversible_block_num := 6 |>).
  assert (update_last_irreversible_block sample_schedule = Ok (sample_schedule <| last_irreversible_block_num := 6 |>)) as E
    by (vm_compute; reflexivity).
  split; [exact E|]. split; [reflexivity|].
  destruct (irreversible_blocks_confirmed sample_schedule _ ltac:(discriminate) E) as (_ & [H|H] & _); [cbn in H; lia|exact H].
Defined.

Lemma no_double_production_witness : exists s', update_global_dynamic_data (fun _ => 99) false sample_schedule sample_block 1 = Ok s'
  /\ get_slot_at_time s' 1700000013 = 0.
Proof.
  eassert (update_global_dynamic_data (fun _ => 99) false sample_schedule sample_block 1 = Ok _) as E by (vm_compute; reflexivity).
  eexists. split; [exact E|].
  apply (no_double_production (fun _ => 99) false sample_schedule sample_block 1 _ 1700000013 E);
    [split; cbn; lia | unfold slot_fits; cbn; lia | cbn; lia].
Defined.
