(* ===== verification/ForkDb.v ===== *)
(** The fork database: [chain/fork_database.cpp]. Its items are shared between the index,
    the head and other items, which only hold weak references to the one before them, so
    the model has a heap of items and says who owns which. *)
From S2P Require Import Prelude Records Block.

Section ForkDatabase.
Context {T : Type}.
Variable header_hash : signed_block T -> Z.

(** ** State *)

(** A [shared_ptr] or [weak_ptr] to an item. *)
Definition item_ptr : Type := Z.

Record fork_item := ForkItem {
  item_prev : option item_ptr;
  item_num : Z;
  item_id : block_id;
  item_data : signed_block T;
}.

Record fork_database := ForkDatabase {
  fork_items : gmap item_ptr fork_item;
  next_item : item_ptr;
  fork_index : gmap block_id item_ptr;
  fork_head : option item_ptr;
  max_size : Z;
}.
#[export] Instance eta_fork_database : Eta fork_database :=
  fun r => ForkDatabase (fork_items r) (next_item r) (fork_index r) (fork_head r) (max_size r).

Definition new_fork_database : fork_database := ForkDatabase ∅ 0 ∅ None 1024.

(** The constructor of [fork_item]. *)
Definition new_item (b : signed_block T) (prev : option item_ptr) : fork_item :=
  ForkItem prev (block_num b) (block_id_of header_hash b) b.

Definition allocate (db : fork_database) (i : fork_item) : fork_database * item_ptr :=
  (db <| fork_items ::= <[next_item db := i]> |> <| next_item ::= Z.succ |>, next_item db).

Definition item_at (db : fork_database) (p : item_ptr) : result fork_item := of_option "fork_item" (fork_items db !! p).

(** An item lives as long as the index or the head owns it. *)
Definition owned (db : fork_database) (p : item_ptr) : Prop :=
  fork_head db = Some p \/ map_Exists (fun _ q => q = p) (fork_index db).
#[export] Instance owned_dec db p : Decision (owned db p).
Proof. unfold owned. apply _. Defined.

(** [weak_ptr::lock] *)
Definition lock (db : fork_database) (w : option item_ptr) : option item_ptr :=
  w ≫= fun p => if bool_decide (owned db p) then Some p else None.

(** ** Operations *)

Definition reset (db : fork_database) : fork_database := db <| fork_head := None |> <| fork_index := ∅ |>.

Definition pop_block (db : fork_database) : result fork_database :=
  let! h := match fork_head db with Some h => Ok h | None => Err (assert_exception "no block to pop") end in
  let! i := item_at db h in
  match lock db (item_prev i) with
  | Some prev => Ok (db <| fork_head := Some prev |>)
  | None => Err (assert_exception "popping block would leave head block null")
  end.

(** [_index.insert]: nothing happens when the index has an item with that identifier. *)
Definition index_insert (db : fork_database) (p : item_ptr) (id : block_id) : fork_database :=
  match fork_index db !! id with Some _ => db | None => db <| fork_index ::= <[id := p]> |> end.

Definition start_block (db : fork_database) (b : signed_block T) : fork_database :=
  let i := new_item b None in
  let (db, p) := allocate db i in
  (index_insert db p (item_id i)) <| fork_head := Some p |>.

(** The number of an item of the index. *)
Definition num_of (db : fork_database) (p : item_ptr) : Z := match fork_items db !! p with Some i => item_num i | None => 0 end.

(** The items of the index in the order of their numbers. *)
Definition by_num (db : fork_database) : list (block_id * item_ptr) :=
  insertion_sort (fun x y => num_of db (snd x) <? num_of db (snd y)) (map_to_list (fork_index db)).

(** The loops that erase from the front of the order by number. *)
Fixpoint erase_below (db : fork_database) (min_num : Z) (l : list (block_id * item_ptr)) : fork_database :=
  match l with
  | [] => db
  | (id, p) :: l => if num_of db p <? min_num then erase_below (db <| fork_index ::= delete id |>) min_num l else db
  end.

(** [_push_block] of a block whose item has just been made. *)
Definition push_item (db : fork_database) (b : signed_block T) : result fork_database :=
  let num := block_num b in
  let! head_num := match fork_head db with
                   | Some h => let! i := item_at db h in Ok (Some (item_num i))
                   | None => Ok None
                   end in
  do! (match head_num with
       | Some hn => assert! num >? Z.max 0 (hn - max_size db) @ "attempting to push a block that is too old" in Ok tt
       | None => Ok tt
       end) in
  let! prev := match head_num with
               | Some _ =>
                   if bool_decide (previous b = null_block_id) then Ok None
                   else match fork_index db !! previous b with
                        | Some p => Ok (Some p)
                        | None => Err (thrown "unlinkable_block_exception")
                        end
               | None => Ok None
               end in
  let i := new_item b prev in
  let (db, p) := allocate db i in
  let db := index_insert db p (item_id i) in
  match head_num with
  | None => Ok (db <| fork_head := Some p |>)
  | Some hn =>
      if num >? hn then
        let db := db <| fork_head := Some p |> in
        Ok (erase_below db (num - Z.min (max_size db) num) (by_num db))
      else Ok db
  end.

(** [push_block]: returns the head. *)
Definition fork_push_block (db : fork_database) (b : signed_block T) : result (fork_database * option item_ptr) :=
  let! db := push_item db b in Ok (db, fork_head db).

Definition set_max_size (db : fork_database) (s : Z) : result fork_database :=
  let db := db <| max_size := s |> in
  match fork_head db with
  | None => Ok db
  | Some h => let! i := item_at db h in Ok (erase_below db (Z.max 0 (item_num i - max_size db)) (by_num db))
  end.

Definition is_known_block (db : fork_database) (id : block_id) : bool := bool_decide (is_Some (fork_index db !! id)).
Definition fetch_block (db : fork_database) (id : block_id) : option item_ptr := fork_index db !! id.
Definition fetch_block_by_number (db : fork_database) (num : Z) : list item_ptr :=
  map snd (filter (fun x => num_of db (snd x) = num) (by_num db)).
Definition set_head (db : fork_database) (h : item_ptr) : fork_database := db <| fork_head := Some h |>.

Definition remove (db : fork_database) (id : block_id) : result fork_database :=
  let db := db <| fork_index ::= delete id |> in
  match fork_head db with
  | None => Ok db
  | Some h =>
      let! i := item_at db h in
      if bool_decide (item_id i = id) then
        match pop_block db with
        | Ok db => Ok db
        | Err _ => Ok (db <| fork_head := None |>)
        end
      else Ok db
  end.

(** ** Branches *)

(** The item before [p], which has to be alive. *)
Definition step_back (db : fork_database) (p : item_ptr) : result item_ptr :=
  let! i := item_at db p in
  match lock db (item_prev i) with Some q => Ok q | None => Err (assert_exception "first_branch") end.

(** [while( a->data.block_num() > b->data.block_num() )]: the items left behind and where
    [a] ends. [None] when the fuel is used up. *)
Fixpoint go_down (fuel : nat) (db : fork_database) (a b : item_ptr) (acc : list item_ptr)
    : option (result (list item_ptr * item_ptr)) :=
  match item_at db a, item_at db b with
  | Ok ia, Ok ib =>
      if block_num (item_data ia) >? block_num (item_data ib) then
        match fuel with
        | O => None
        | S fuel => match step_back db a with
                    | Ok a' => go_down fuel db a' b (acc ++ [a])
                    | Err e => Some (Err e)
                    end
        end
      else Some (Ok (acc, a))
  | Err e, _ => Some (Err e)
  | _, Err e => Some (Err e)
  end.

(** [while( first->data.previous != second->data.previous )] and what follows it. *)
Fixpoint go_down_both (fuel : nat) (db : fork_database) (a b : item_ptr) (acc1 acc2 : list item_ptr)
    : option (result (list item_ptr * list item_ptr)) :=
  match item_at db a, item_at db b with
  | Ok ia, Ok ib =>
      if bool_decide (previous (item_data ia) = previous (item_data ib)) then Some (Ok (acc1 ++ [a], acc2 ++ [b]))
      else
        match fuel with
        | O => None
        | S fuel =>
            match step_back db a with
            | Err e => Some (Err e)
            | Ok a' =>
                match step_back db b with
                | Err e => Some (Err e)
                | Ok b' => go_down_both fuel db a' b' (acc1 ++ [a]) (acc2 ++ [b])
                end
            end
        end
  | Err e, _ => Some (Err e)
  | _, Err e => Some (Err e)
  end.

(** [fetch_branch_from]; [fuel] bounds each of its loops. *)
Definition fetch_branch_from (fuel : nat) (db : fork_database) (first second : block_id)
    : option (result (list item_ptr * list item_ptr)) :=
  match fork_index db !! first, fork_index db !! second with
  | Some a, Some b =>
      match go_down fuel db a b [] with
      | None => None
      | Some (Err e) => Some (Err e)
      | Some (Ok (acc1, a)) =>
          match go_down fuel db b a [] with
          | None => None
          | Some (Err e) => Some (Err e)
          | Some (Ok (acc2, b)) => go_down_both fuel db a b acc1 acc2
          end
      end
  | _, _ => Some (Err (assert_exception "first_branch_itr"))
  end.

(** ** What holds of the items *)

Record fork_ok (db : fork_database) : Prop := {
  fo_items : forall p i, fork_items db !! p = Some i ->
    p < next_item db /\ item_num i = block_num (item_data i) /\ item_id i = block_id_of header_hash (item_data i);
  fo_prev : forall p i q, fork_items db !! p = Some i -> item_prev i = Some q ->
    0 < item_num i /\ exists j, fork_items db !! q = Some j /\ item_id j = previous (item_data i);
  fo_index : forall id p, fork_index db !! id = Some p -> exists i, fork_items db !! p = Some i /\ item_id i = id;
  fo_head : forall p, fork_head db = Some p -> is_Some (fork_items db !! p);
}.

Lemma block_num_bounds (b : signed_block T) : 0 <= block_num b < 2 ^ 32.
Proof. unfold block_num, u32. apply Z.mod_pos_bound. lia. Qed.

(** The item before another one has the number before. *)
Lemma prev_num db p i q j : fork_ok db -> fork_items db !! p = Some i -> item_prev i = Some q ->
  fork_items db !! q = Some j -> item_num i = item_num j + 1 /\ item_id j = previous (item_data i).
Proof.
  intros Hok Hi Hq Hj. destruct (fo_prev db Hok p i q Hi Hq) as (Hpos & j' & Hj' & Hid).
  assert (j' = j) as -> by congruence. split; [|done].
  destruct (fo_items db Hok p i Hi) as (_ & Hn & _). destruct (fo_items db Hok q j Hj) as (_ & Hnj & Hidj).
  rewrite Hn in *. pose proof (block_num_bounds (item_data j)). unfold block_num in Hpos |- *. unfold block_num in Hpos.
  rewrite <- Hid, Hidj, Hnj in *. rewrite num_from_block_id in *. unfold u32 in *.
  destruct (decide (block_num (item_data j) = 2 ^ 32 - 1)) as [E|E]; [rewrite E in Hpos; done|].
  rewrite Z.mod_small; lia.
Qed.

Lemma num_of_item db p i : fork_items db !! p = Some i -> num_of db p = item_num i.
Proof. unfold num_of. by intros ->. Qed.

(** ** Erasing the oldest *)

Definition keep_from (db : fork_database) (m : Z) : fork_database :=
  db <| fork_index ::= filter (fun x => ~ num_of db (snd x) < m) |>.

Lemma erase_below_spec m l : forall db, l ≡ₚ map_to_list (fork_index db) ->
  ascending (fun x y => num_of db (snd x) <? num_of db (snd y)) l -> erase_below db m l = keep_from db m.
Proof.
  induction l as [|[id p] l IH]; intros db Hl Ha; cbn [erase_below].
  - symmetry in Hl. apply Permutation_nil_r, map_to_list_empty_iff in Hl. unfold keep_from. destruct db as [a b idx h s].
    cbn in *. subst idx. by rewrite map_filter_empty.
  - apply ascending_cons in Ha as [Hmin Ha]. assert (fork_index db !! id = Some p) as Hid.
    { apply elem_of_map_to_list. rewrite <- Hl. left. }
    destruct (num_of db p <? m) eqn:Hp; reflect_bools.
    + rewrite IH.
      * unfold keep_from. destruct db as [a b idx h s]. cbn in *. f_equal. rewrite map_filter_delete.
        apply delete_id. apply map_lookup_filter_None. right. intros x Hx. assert (x = p) as -> by congruence. tauto.
      * cbn. rewrite <- (insert_id _ _ _ Hid) in Hl. rewrite <- insert_delete_eq in Hl.
        rewrite map_to_list_insert in Hl by apply lookup_delete_eq. by apply Permutation_cons_inv in Hl.
      * exact Ha.
    + unfold keep_from. destruct db as [a b idx h s]. cbn in *. f_equal. symmetry. apply map_filter_id.
      intros id' q Hq%elem_of_map_to_list. rewrite <- Hl in Hq. apply elem_of_cons in Hq as [[= -> ->]|Hq]; [cbn; lia|].
      specialize (Hmin _ Hq). apply Z.ltb_ge in Hmin. cbn in *. lia.
Qed.

Lemma erase_by_num db m : erase_below db m (by_num db) = keep_from db m.
Proof.
  apply erase_below_spec; [apply insertion_sort_perm|]. apply insertion_sort_ascending. split; intros *; rewrite ?Z.ltb_lt, ?Z.ltb_ge; lia.
Qed.
(** ** The operations keep it *)

(** No item is further below the head than the size allows. *)
Definition fork_window (db : fork_database) : Prop :=
  forall h i id p, fork_head db = Some h -> fork_items db !! h = Some i -> fork_index db !! id = Some p ->
    item_num i - max_size db <= num_of db p.

Lemma fork_ok_sub db idx h : fork_ok db -> idx ⊆ fork_index db -> (forall p, h = Some p -> is_Some (fork_items db !! p)) ->
  fork_ok (db <| fork_index := idx |> <| fork_head := h |>).
Proof.
  intros [H1 H2 H3 H4] Hidx Hh. split; cbn; [done|done| |done].
  intros id p Hp. apply H3. by eapply lookup_weaken.
Qed.

Lemma keep_from_ok db m : fork_ok db -> fork_ok (keep_from db m).
Proof.
  intros Hok. pose proof (fork_ok_sub db (filter (fun x => ~ num_of db (snd x) < m) (fork_index db)) (fork_head db) Hok) as H.
  destruct db. apply H; [apply map_filter_subseteq | apply Hok].
Qed.

Lemma keep_from_num db m p : num_of (keep_from db m) p = num_of db p.
Proof. done. Qed.

Lemma keep_from_index db m id p : fork_index (keep_from db m) !! id = Some p <-> fork_index db !! id = Some p /\ m <= num_of db p.
Proof. cbn. rewrite map_lookup_filter_Some. cbn. split; intros [? ?]; split; try done; lia. Qed.

Lemma allocate_ok db b prev db1 p : fork_ok db ->
  (forall q, prev = Some q -> 0 < block_num b /\ exists j, fork_items db !! q = Some j /\ item_id j = previous b) ->
  allocate db (new_item b prev) = (db1, p) -> fork_ok db1 /\ fork_items db1 !! p = Some (new_item b prev)
  /\ fork_index db1 = fork_index db /\ fork_head db1 = fork_head db /\ max_size db1 = max_size db
  /\ fork_items db !! p = None /\ fork_items db ⊆ fork_items db1.
Proof.
  intros [H1 H2 H3 H4] Hprev [= <- <-].
  assert (fork_items db !! next_item db = None) as Hnew.
  { destruct (fork_items db !! next_item db) as [i|] eqn:E; [|done]. apply H1 in E. lia. }
  assert (forall q i, fork_items db !! q = Some i -> <[next_item db := new_item b prev]> (fork_items db) !! q = Some i) as Hold.
  { intros q i Hq. rewrite lookup_insert_ne; [done|]. intros E. rewrite E in Hnew. congruence. }
  split_and!; [|cbn; by rewrite lookup_insert_eq|done|done|done|done|cbn; by apply insert_subseteq].
  split; cbn.
  - intros q i. rewrite lookup_insert_Some. intros [[<- <-]|[_ Hq]]; [split_and!; [lia|done|done]|].
    destruct (H1 q i Hq). split; [lia|done].
  - intros q i r. rewrite lookup_insert_Some. intros [[<- <-]|[_ Hq]] Hr.
    + cbn in *. destruct (Hprev r Hr) as (? & j & Hj & ?). split; [done|]. exists j. split; [by apply Hold|done].
    + destruct (H2 q i r Hq Hr) as (? & j & Hj & ?). split; [done|]. exists j. split; [by apply Hold|done].
  - intros id q Hq. destruct (H3 id q Hq) as (i & Hi & ?). exists i. split; [by apply Hold|done].
  - intros q Hq. destruct (H4 q Hq) as [i Hi]. exists i. by apply Hold.
Qed.

Lemma index_insert_ok db p i : fork_ok db -> fork_items db !! p = Some i -> fork_ok (index_insert db p (item_id i)).
Proof.
  intros Hok Hp. unfold index_insert. destruct (fork_index db !! item_id i) eqn:E; [done|].
  destruct Hok as [H1 H2 H3 H4]. split; cbn; [done|done| |done].
  intros id q. rewrite lookup_insert_Some. intros [[<- <-]|[_ Hq]]; [by exists i|by apply H3].
Qed.

Lemma index_insert_known db p id : is_Some (fork_index (index_insert db p id) !! id).
Proof. unfold index_insert. destruct (fork_index db !! id) eqn:E; [by rewrite E|]. cbn. rewrite lookup_insert_eq. by eexists. Qed.

Lemma index_insert_frame db p id : fork_items (index_insert db p id) = fork_items db
  /\ fork_head (index_insert db p id) = fork_head db /\ max_size (index_insert db p id) = max_size db
  /\ fork_index db ⊆ fork_index (index_insert db p id)
  /\ forall id' q, fork_index (index_insert db p id) !! id' = Some q -> fork_index db !! id' = Some q \/ q = p.
Proof.
  unfold index_insert. destruct (fork_index db !! id) eqn:E; [split_and!; auto|]. split_and!; [done..| |].
  - cbn. by apply insert_subseteq.
  - cbn. intros id' q. rewrite lookup_insert_Some. intros [[_ <-]|[_ ?]]; auto.
Qed.

(** What [push_item] did before it looks at the head. *)
Lemma push_item_inv db b db' h0 i0 : fork_ok db -> fork_head db = Some h0 -> fork_items db !! h0 = Some i0 ->
  push_item db b = Ok db' ->
  Z.max 0 (item_num i0 - max_size db) < block_num b
  /\ exists prev db1 p,
    (forall q, prev = Some q -> fork_index db !! previous b = Some q) /\ (prev = None <-> previous b = null_block_id)
    /\ allocate db (new_item b prev) = (db1, p)
    /\ db' = (let db2 := index_insert db1 p (block_id_of header_hash b) in
              if block_num b >? item_num i0 then
                keep_from (db2 <| fork_head := Some p |>) (block_num b - Z.min (max_size db2) (block_num b))
              else db2).
Proof.
  intros Hok Hh Hi E. unfold push_item in E. rewrite Hh in E. unfold item_at in E. rewrite Hi in E. cbn [of_option rbind] in E.
  destruct (block_num b >? _) eqn:Hgt; [|done]. cbn [fc_assert rbind] in E. reflect_bools. split; [lia|].
  assert (exists prev, (forall q, prev = Some q -> fork_index db !! previous b = Some q) /\ (prev = None <-> previous b = null_block_id)
    /\ (let! prev := (if bool_decide (previous b = null_block_id) then Ok None
                      else match fork_index db !! previous b with
                           | Some p => Ok (Some p) | None => Err (thrown "unlinkable_block_exception") end) in
        Ok prev) = Ok prev) as (prev & Hq & Hnull & Eprev).
  { destruct (bool_decide _) eqn:Hb; reflect_bools; [exists None; split_and!; [done|done|done]|].
    destruct (fork_index db !! previous b) as [q|] eqn:Eq; [|done]. exists (Some q). split_and!; [by intros ? [= <-]|done|done]. }
  match type of Eprev with rbind ?m _ = _ => assert (m = Ok prev) as Em by (destruct m; [by injection Eprev as ->|done]) end.
  rewrite Em in E. cbn [rbind] in E. destruct (allocate db (new_item b prev)) as [db1 p] eqn:Ea. cbn [item_id new_item] in E.
  exists prev, db1, p. split_and!; [done..|]. destruct (block_num b >? item_num i0); injection E as <-; [|done].
  apply erase_by_num.
Qed.

Lemma push_item_correct db b db' h0 i0 : fork_ok db -> fork_window db -> 0 <= max_size db ->
  fork_head db = Some h0 -> fork_items db !! h0 = Some i0 -> push_item db b = Ok db' ->
  fork_ok db' /\ fork_window db' /\ max_size db' = max_size db /\ fork_items db ⊆ fork_items db'
  /\ is_Some (fork_index db' !! block_id_of header_hash b)
  /\ exists h i, fork_head db' = Some h /\ fork_items db' !! h = Some i /\ item_num i = Z.max (block_num b) (item_num i0)
     /\ if block_num b >? item_num i0 then item_data i = b else h = h0.
Proof.
  intros Hok Hwin Hmax Hh Hi E. destruct (push_item_inv db b db' h0 i0 Hok Hh Hi E) as (Hnum & prev & db1 & p & Hq & Hnull & Ea & Edb).
  assert (forall q, prev = Some q -> 0 < block_num b /\ exists j, fork_items db !! q = Some j /\ item_id j = previous b) as Hprev.
  { intros q Hs. split; [lia|]. destruct (fo_index db Hok (previous b) q) as (j & ? & ?); [by apply Hq|]. by exists j. }
  destruct (allocate_ok db b prev db1 p Hok Hprev Ea) as (Hok1 & Hp & Hidx & Hhd & Hms & Hnew & Hsub).
  pose proof (index_insert_ok db1 p _ Hok1 Hp) as Hok2. cbn [item_id new_item] in Hok2.
  destruct (index_insert_frame db1 p (block_id_of header_hash b)) as (Fi & Fh & Fm & Fs & Fx).
  pose proof (index_insert_known db1 p (block_id_of header_hash b)) as [r Hr].
  set (db2 := index_insert db1 p _) in *. cbv zeta in Edb.
  assert (num_of db2 p = block_num b) as Hpn by (apply num_of_item with (i := new_item b prev); by rewrite Fi).
  assert (num_of db2 r = block_num b) as Hrn.
  { destruct (fo_index db2 Hok2 _ _ Hr) as (j & Hj & Hjid). rewrite (num_of_item _ _ _ Hj).
    destruct (fo_items db2 Hok2 _ _ Hj) as (_ & Hjn & Hjb). rewrite Hjn. rewrite Hjb in Hjid.
    apply (f_equal fst) in Hjid. exact Hjid. }
  assert (fork_items db ⊆ fork_items db2) as Hsub2 by (by rewrite Fi).
  assert (fork_items db2 !! h0 = Some i0) as Hi2 by (by eapply lookup_weaken).
  assert (forall id q, fork_index db2 !! id = Some q -> item_num i0 - max_size db <= num_of db2 q \/ q = p) as Hwin2.
  { intros id q Hq2. destruct (Fx id q Hq2) as [Hq1| ->]; [left|by right]. rewrite Hidx in Hq1.
    destruct (fo_index db Hok id q Hq1) as (j & Hj & _). pose proof (Hwin h0 i0 id q Hh Hi Hq1) as Hw.
    rewrite (num_of_item db q j Hj) in Hw. rewrite (num_of_item db2 q j); [done|]. by eapply lookup_weaken. }
  destruct (block_num b >? item_num i0) eqn:Hgt; reflect_bools; subst db'.
  - set (db3 := db2 <| fork_head := Some p |>). assert (fork_ok db3) as Hok3.
    { destruct Hok2 as [H1 H2 H3 H4]. split; cbn; [done..|]. intros q [= <-]. rewrite Fi. by eexists. }
    split_and!; [by apply keep_from_ok| |cbn; congruence|done| |].
    + intros h i id q [= <-] Hi' Hq'. apply keep_from_index in Hq' as [_ Hge]. cbn in Hi'. rewrite Fi, Hp in Hi'.
      injection Hi' as <-. cbn [item_num new_item] in *. change (num_of (keep_from db3 _) q) with (num_of db3 q).
      change (max_size (keep_from _ _)) with (max_size db2). lia.
    + exists r. apply keep_from_index. split; [done|]. change (num_of db3 r) with (num_of db2 r). rewrite Hrn. lia.
    + exists p, (new_item b prev). split_and!; [done|cbn; by rewrite Fi|cbn; lia|done].
  - split_and!; [done| |congruence|done|by eexists|].
    + intros h i id q Hh' Hi' Hq'. rewrite Fh, Hhd, Hh in Hh'. injection Hh' as <-. assert (i = i0) as -> by congruence.
      destruct (Hwin2 id q Hq') as [?| ->]; [rewrite Fm, Hms; lia|]. rewrite Hpn, Fm, Hms. lia.
    + exists h0, i0. split_and!; [congruence|done|lia|done].
Qed.
(** What a push does whatever is in the window. *)
Record pushed (db : fork_database) (b : signed_block T) (h0 : item_ptr) (n0 : Z) (db' : fork_database) : Prop := {
  pu_ok : fork_ok db';
  pu_items : fork_items db ⊆ fork_items db';
  pu_size : max_size db' = max_size db;
  pu_index : forall id r, fork_index db' !! id = Some r -> fork_index db !! id = Some r
    \/ id = block_id_of header_hash b /\ exists i, fork_items db' !! r = Some i /\ item_data i = b;
  pu_higher : n0 < block_num b -> exists p i, fork_head db' = Some p /\ fork_items db' !! p = Some i /\ item_data i = b
    /\ (previous b <> null_block_id -> exists q, fork_index db !! previous b = Some q /\ item_prev i = Some q)
    /\ (fork_index db !! block_id_of header_hash b = None -> fork_index db' !! block_id_of header_hash b = Some p)
    /\ (forall id r, fork_index db !! id = Some r -> block_num b - max_size db <= num_of db r -> fork_index db' !! id = Some r)
    /\ (forall id r, fork_index db' !! id = Some r -> fork_index db !! id = Some r \/ r = p);
  pu_lower : block_num b <= n0 -> fork_head db' = Some h0 /\ fork_index db ⊆ fork_index db';
  pu_data : forall r i, fork_items db' !! r = Some i -> fork_items db !! r = Some i \/ item_data i = b;
}.

Lemma push_item_pushed db b db' h0 i0 : fork_ok db -> 0 <= max_size db -> fork_head db = Some h0 -> fork_items db !! h0 = Some i0 ->
  push_item db b = Ok db' -> pushed db b h0 (item_num i0) db'.
Proof.
  intros Hok Hmax Hh Hi E. destruct (push_item_inv db b db' h0 i0 Hok Hh Hi E) as (Hnum & prev & db1 & p & Hq & Hnull & Ea & Edb).
  assert (forall q, prev = Some q -> 0 < block_num b /\ exists j, fork_items db !! q = Some j /\ item_id j = previous b) as Hprev.
  { intros q Hs. split; [lia|]. destruct (fo_index db Hok (previous b) q) as (j & ? & ?); [by apply Hq|]. by exists j. }
  destruct (allocate_ok db b prev db1 p Hok Hprev Ea) as (Hok1 & Hp & Hidx & Hhd & Hms & Hnew & Hsub).
  pose proof (index_insert_ok db1 p _ Hok1 Hp) as Hok2. cbn [item_id new_item] in Hok2.
  destruct (index_insert_frame db1 p (block_id_of header_hash b)) as (Fi & Fh & Fm & Fs & Fx).
  assert (forall id r, fork_index (index_insert db1 p (block_id_of header_hash b)) !! id = Some r ->
    fork_index db !! id = Some r \/ id = block_id_of header_hash b /\ r = p) as Fy.
  { intros id r Hr. unfold index_insert in Hr. rewrite Hidx in Hr. destruct (fork_index db !! block_id_of header_hash b) eqn:Eb.
    - left. by rewrite <- Hidx.
    - cbn in Hr. rewrite Hidx in Hr. apply lookup_insert_Some in Hr as [[<- <-]|[_ ?]]; auto. }
  assert (fork_index db !! block_id_of header_hash b = None ->
    fork_index (index_insert db1 p (block_id_of header_hash b)) !! block_id_of header_hash b = Some p) as Fz.
  { intros Hnone. unfold index_insert. rewrite Hidx, Hnone. cbn. by rewrite lookup_insert_eq. }
  set (db2 := index_insert db1 p _) in *. cbv zeta in Edb.
  assert (fork_items db2 !! p = Some (new_item b prev)) as Hp2 by (by rewrite Fi).
  assert (forall r i, fork_items db2 !! r = Some i -> fork_items db !! r = Some i \/ item_data i = b) as Hdata.
  { intros r i. rewrite Fi. injection Ea as <- <-. cbn. rewrite lookup_insert_Some. intros [[_ <-]|[_ ?]]; auto. }
  assert (forall r i, fork_items db !! r = Some i -> num_of db2 r = num_of db r) as Hnumof.
  { intros r i Hr. rewrite (num_of_item _ _ _ Hr). apply num_of_item. rewrite Fi. by eapply lookup_weaken. }
  destruct (block_num b >? item_num i0) eqn:Hgt; reflect_bools; subst db'.
  - assert (fork_ok (db2 <| fork_head := Some p |>)) as Hok3.
    { destruct Hok2 as [H1 H2 H3 H4]. split; cbn; [done..|]. intros q [= <-]. rewrite Fi. by eexists. }
    split; [by apply keep_from_ok|by cbn; rewrite Fi|cbn; congruence| | |intros; lia|exact Hdata].
    + intros id r Hr%keep_from_index. destruct Hr as [Hr _]. destruct (Fy id r Hr) as [|[-> ->]]; [by left|right].
      split; [done|]. exists (new_item b prev). split; [cbn; by rewrite Fi|done].
    + intros _. exists p, (new_item b prev). split_and!; [done|cbn; by rewrite Fi|done| | | |].
      * intros Hne. destruct prev as [q|]; [|by destruct Hne; apply Hnull]. exists q. split; [by apply Hq|done].
      * intros Hnone. apply keep_from_index. split; [by apply Fz|].
        change (block_num b - Z.min (max_size db2) (block_num b) <= num_of db2 p). rewrite (num_of_item _ _ _ Hp2). cbn. lia.
      * intros id r Hr Hge. apply keep_from_index. split; [cbn; eapply lookup_weaken; [|exact Fs]; by rewrite Hidx|].
        change (block_num b - Z.min (max_size db2) (block_num b) <= num_of db2 r).
        destruct (fo_index db Hok _ _ Hr) as (j & Hj & _). rewrite (Hnumof r j Hj). rewrite Fm, Hms.
        destruct (fo_items db Hok _ _ Hj) as (_ & Hn & _). rewrite (num_of_item _ _ _ Hj) in *. pose proof (block_num_bounds (item_data j)). lia.
      * intros id r Hr%keep_from_index. destruct Hr as [Hr _]. destruct (Fy id r Hr) as [|[_ ->]]; auto.
  - split; [done|by rewrite Fi|congruence| |intros; lia| |exact Hdata].
    + intros id r Hr. destruct (Fy id r Hr) as [|[-> ->]]; [by left|right]. split; [done|]. by exists (new_item b prev).
    + intros _. split; [congruence|]. by rewrite <- Hidx.
Qed.

(** A database with a head. *)
Record fork_live (db : fork_database) : Prop := {
  fl_ok : fork_ok db;
  fl_window : fork_window db;
  fl_size : 0 <= max_size db;
  fl_head : is_Some (fork_head db);
}.

Lemma push_item_live db b db' : fork_live db -> push_item db b = Ok db' -> fork_live db'.
Proof.
  intros [Hok Hwin Hmax [h0 Hh]] E. destruct (fo_head db Hok h0 Hh) as [i0 Hi].
  destruct (push_item_correct db b db' h0 i0 Hok Hwin Hmax Hh Hi E) as (? & ? & Hms & _ & _ & h & i & Hh' & _).
  split; [done|done|by rewrite Hms|by eexists].
Qed.


(** ** Where two branches meet *)

(** Going back from [a] over the items [l], through references that are alive, leads to [c]. *)
Inductive path (db : fork_database) : item_ptr -> list item_ptr -> item_ptr -> Prop :=
  | path_here a : path db a [] a
  | path_back a i q l c : fork_items db !! a = Some i -> lock db (item_prev i) = Some q -> path db q l c -> path db a (a :: l) c.

Definition prev_id (db : fork_database) (p : item_ptr) : option block_id := previous ∘ item_data <$> fork_items db !! p.

(** [x] and [y] are at the same height of the branches of [a] and [b] and follow the same
    block. *)
Record meet (db : fork_database) (a b : item_ptr) (l1 : list item_ptr) (x : item_ptr) (l2 : list item_ptr) (y : item_ptr) : Prop := {
  meet_first : path db a l1 x;
  meet_second : path db b l2 y;
  meet_num : num_of db x = num_of db y;
  meet_prev : prev_id db x = prev_id db y;
}.

Lemma lock_prev db p i q : fork_ok db -> fork_items db !! p = Some i -> lock db (item_prev i) = Some q ->
  item_prev i = Some q /\ is_Some (fork_items db !! q) /\ num_of db p = num_of db q + 1 /\ 0 <= num_of db q.
Proof.
  intros Hok Hi Hl. unfold lock in Hl. apply bind_Some in Hl as (q' & Hq & Hb). destruct (bool_decide _); [|done].
  injection Hb as ->. split; [done|]. destruct (fo_prev db Hok p i q Hi Hq) as (_ & j & Hj & _).
  destruct (prev_num db p i q j Hok Hi Hq Hj) as [Hn _]. rewrite (num_of_item _ _ _ Hi), (num_of_item _ _ _ Hj).
  destruct (fo_items db Hok q j Hj) as (_ & Hnj & _). pose proof (block_num_bounds (item_data j)).
  split_and!; [by eexists|lia|lia].
Qed.

Lemma path_num db a l c : fork_ok db -> path db a l c -> num_of db a = num_of db c + Z.of_nat (length l).
Proof.
  intros Hok. induction 1 as [|a i q l c Hi Hl _ IH]; cbn [length]; [lia|].
  destruct (lock_prev db a i q Hok Hi Hl) as (_ & _ & ? & _). lia.
Qed.

Lemma path_known db a l c : fork_ok db -> path db a l c -> is_Some (fork_items db !! a) -> is_Some (fork_items db !! c).
Proof.
  intros Hok. induction 1 as [|a i q l c Hi Hl _ IH]; [done|]. intros _. apply IH. by eapply lock_prev.
Qed.

Lemma path_app db a l c m x : path db a l c -> path db c m x -> path db a (l ++ m) x.
Proof. induction 1; [done|]. intros Hm. cbn. econstructor; eauto. Qed.

(** There is only one way back. *)
Lemma path_through db a l c m x : fork_ok db -> path db a l c -> path db a m x -> num_of db x <= num_of db c ->
  exists m', m = l ++ m' /\ path db c m' x.
Proof.
  intros Hok Hl. revert m. induction Hl as [a|a i q l c Hi Hq Hl IH]; intros m Hm Hn; [by exists m|].
  pose proof (path_num db q l c Hok Hl). destruct (lock_prev db a i q Hok Hi Hq) as (_ & _ & ? & _).
  inversion Hm as [|a' i' q' m'' x' Hi' Hq' Hm']; subst; [lia|].
  assert (i' = i) as -> by congruence. assert (q' = q) as -> by congruence.
  destruct (IH m'' Hm' Hn) as (m' & -> & ?). by exists m'.
Qed.

Lemma step_back_spec db a i : fork_ok db -> fork_items db !! a = Some i ->
  (exists q, step_back db a = Ok q /\ lock db (item_prev i) = Some q)
  \/ (exists e, step_back db a = Err e) /\ lock db (item_prev i) = None.
Proof.
  intros Hok Hi. unfold step_back, item_at. rewrite Hi. cbn. destruct (lock _ _) as [q|]; [left; by exists q|right].
  split; [by eexists|done].
Qed.

Lemma path_stuck db a i l c : fork_items db !! a = Some i -> lock db (item_prev i) = None -> path db a l c -> l = [] /\ c = a.
Proof. intros Hi Hl Hp. inversion Hp; subst; [done|]. congruence. Qed.

Lemma go_down_spec db b fuel : fork_ok db -> is_Some (fork_items db !! b) -> forall a acc, is_Some (fork_items db !! a) ->
  num_of db a <= Z.of_nat fuel ->
  exists r, go_down fuel db a b acc = Some r /\
    match r with
    | Ok (acc', c) => exists l, acc' = acc ++ l /\ path db a l c /\ num_of db c <= num_of db b /\ (l = [] \/ num_of db c = num_of db b)
    | Err _ => forall l c, path db a l c -> num_of db b < num_of db c
    end.
Proof.
  intros Hok [ib Hib]. induction fuel as [|fuel IH]; intros a acc [ia Hia] Hf; cbn [go_down]; unfold item_at; rewrite Hia, Hib;
    cbn [of_option]; destruct (fo_items db Hok a ia Hia) as (_ & Hna & _); destruct (fo_items db Hok b ib Hib) as (_ & Hnb & _);
    rewrite <- Hna, <- Hnb, <- (num_of_item _ _ _ Hia), <- (num_of_item _ _ _ Hib);
    pose proof (block_num_bounds (item_data ib)) as Hbb; rewrite <- Hnb, <- (num_of_item _ _ _ Hib) in Hbb;
    destruct (num_of db a >? num_of db b) eqn:Hgt; reflect_bools;
    try (eexists; split; [done|]; exists []; split_and!; [by rewrite app_nil_r|constructor|lia|by left]).
  - lia.
  - destruct (step_back_spec db a ia Hok Hia) as [(q & -> & Hq)|[[e ->] Hnone]].
    + destruct (lock_prev db a ia q Hok Hia Hq) as (_ & Hqk & Hqn & _).
      destruct (IH q (acc ++ [a]) Hqk ltac:(lia)) as (r & -> & Hr). exists r. split; [done|].
      destruct r as [[acc' c]|e].
      * destruct Hr as (l & -> & Hp & Hc & Hor). exists (a :: l). split_and!; [by rewrite <- app_assoc|by econstructor|done|].
        right. destruct Hor as [-> |]; [|done]. inversion Hp; subst. lia.
      * intros l c Hp. inversion Hp as [|a' i' q' l' c' Hi' Hq' Hp']; subst; [lia|].
        assert (q' = q) as -> by congruence. by apply (Hr l').
    + eexists. split; [done|]. cbn. intros l c Hp. destruct (path_stuck db a ia l c Hia Hnone Hp) as [-> ->]. lia.
Qed.

Lemma meet_here db a b ia ib : fork_ok db -> fork_items db !! a = Some ia -> fork_items db !! b = Some ib ->
  num_of db a = num_of db b -> previous (item_data ia) = previous (item_data ib) ->
  meet db a b [] a [] b /\ forall m1 x' m2 y', meet db a b m1 x' m2 y' -> num_of db x' <= num_of db a.
Proof.
  intros Hok Hia Hib Hn Hp. split.
  - split; [constructor|constructor|done|]. unfold prev_id. rewrite Hia, Hib. cbn. congruence.
  - intros m1 x' m2 y' [Hm _ _ _]. pose proof (path_num db a m1 x' Hok Hm). lia.
Qed.

(** When the blocks differ in what they follow, the branches meet further back or nowhere. *)
Lemma meet_back db a b ia ib m1 x m2 y : fork_ok db -> fork_items db !! a = Some ia -> fork_items db !! b = Some ib ->
  num_of db a = num_of db b -> previous (item_data ia) <> previous (item_data ib) -> meet db a b m1 x m2 y ->
  exists qa qb n1 n2, m1 = a :: n1 /\ m2 = b :: n2 /\ lock db (item_prev ia) = Some qa /\ lock db (item_prev ib) = Some qb
    /\ meet db qa qb n1 x n2 y.
Proof.
  intros Hok Hia Hib Hn Hp [H1 H2 Hnum Hprev].
  pose proof (path_num db a m1 x Hok H1). pose proof (path_num db b m2 y Hok H2).
  inversion H1 as [|a' i1 q1 n1 x' Hi1 Hq1 Hp1]; inversion H2 as [|b' i2 q2 n2 y' Hi2 Hq2 Hp2]; subst; cbn [length] in *; try lia.
  - exfalso. unfold prev_id in Hprev. rewrite Hia, Hib in Hprev. cbn in Hprev. congruence.
  - assert (i1 = ia) as -> by congruence. assert (i2 = ib) as -> by congruence. by exists q1, q2, n1, n2.
Qed.

Lemma go_down_both_spec db fuel : fork_ok db -> forall a b acc1 acc2, is_Some (fork_items db !! a) -> is_Some (fork_items db !! b) ->
  num_of db a = num_of db b -> num_of db a < Z.of_nat fuel ->
  exists r, go_down_both fuel db a b acc1 acc2 = Some r /\
    match r with
    | Ok (r1, r2) => exists l1 x l2 y, r1 = acc1 ++ l1 ++ [x] /\ r2 = acc2 ++ l2 ++ [y] /\ meet db a b l1 x l2 y
        /\ forall m1 x' m2 y', meet db a b m1 x' m2 y' -> num_of db x' <= num_of db x
    | Err _ => forall m1 x' m2 y', ~ meet db a b m1 x' m2 y'
    end.
Proof.
  intros Hok. induction fuel as [|fuel IH]; intros a b acc1 acc2 [ia Hia] [ib Hib] Hn Hf.
  { destruct (fo_items db Hok a ia Hia) as (_ & Hna & _). rewrite (num_of_item _ _ _ Hia), Hna in Hf.
    pose proof (block_num_bounds (item_data ia)). lia. }
  cbn [go_down_both]. unfold item_at. rewrite Hia, Hib. cbn [of_option]. destruct (bool_decide _) eqn:Hb; reflect_bools.
  { destruct (meet_here db a b ia ib Hok Hia Hib Hn Hb). eexists. split; [done|]. by exists [], a, [], b. }
  destruct (step_back_spec db a ia Hok Hia) as [(qa & -> & Hqa)|[[e ->] Hnone]].
  2: { eexists. split; [done|]. cbn. intros m1 x' m2 y' Hm.
       destruct (meet_back db a b ia ib m1 x' m2 y' Hok Hia Hib Hn Hb Hm) as (? & ? & ? & ? & _ & _ & ? & _). congruence. }
  destruct (step_back_spec db b ib Hok Hib) as [(qb & -> & Hqb)|[[e ->] Hnone]].
  2: { eexists. split; [done|]. cbn. intros m1 x' m2 y' Hm.
       destruct (meet_back db a b ia ib m1 x' m2 y' Hok Hia Hib Hn Hb Hm) as (? & ? & ? & ? & _ & _ & _ & ? & _). congruence. }
  destruct (lock_prev db a ia qa Hok Hia Hqa) as (_ & Hka & Hna & _). destruct (lock_prev db b ib qb Hok Hib Hqb) as (_ & Hkb & Hnb & _).
  destruct (IH qa qb (acc1 ++ [a]) (acc2 ++ [b]) Hka Hkb ltac:(lia) ltac:(lia)) as (r & -> & Hr). exists r. split; [done|].
  assert (forall m1 x m2 y, meet db a b m1 x m2 y -> exists n1 n2, meet db qa qb n1 x n2 y) as Hback.
  { intros m1 x m2 y Hm. destruct (meet_back db a b ia ib m1 x m2 y Hok Hia Hib Hn Hb Hm) as (q1 & q2 & n1 & n2 & _ & _ & E1 & E2 & ?).
    exists n1, n2. congruence. }
  destruct r as [[r1 r2]|e].
  - destruct Hr as (l1 & x & l2 & y & -> & -> & [M1 M2 M3 M4] & Hmax). exists (a :: l1), x, (b :: l2), y.
    split_and!; [by rewrite <- app_assoc|by rewrite <- app_assoc|split; [by econstructor|by econstructor|done|done]|].
    intros m1 x' m2 y' Hm. destruct (Hback _ _ _ _ Hm) as (n1 & n2 & Hm'). by apply (Hmax n1 x' n2 y').
  - intros m1 x' m2 y' Hm. destruct (Hback _ _ _ _ Hm) as (n1 & n2 & Hm'). by apply (Hr n1 x' n2 y').
Qed.

Lemma fetch_branch_spec db fuel first second : fork_ok db ->
  (forall p, num_of db p < Z.of_nat fuel) ->
  exists r, fetch_branch_from fuel db first second = Some r /\
    match r with
    | Ok (r1, r2) => exists a b l1 x l2 y, fork_index db !! first = Some a /\ fork_index db !! second = Some b
        /\ r1 = l1 ++ [x] /\ r2 = l2 ++ [y] /\ meet db a b l1 x l2 y
        /\ forall m1 x' m2 y', meet db a b m1 x' m2 y' -> num_of db x' <= num_of db x
    | Err _ => forall a b, fork_index db !! first = Some a -> fork_index db !! second = Some b ->
        forall m1 x' m2 y', ~ meet db a b m1 x' m2 y'
    end.
Proof.
  intros Hok Hf. unfold fetch_branch_from. destruct (fork_index db !! first) as [a|] eqn:Ha; [|by eexists].
  destruct (fork_index db !! second) as [b|] eqn:Hb; [|by eexists].
  assert (is_Some (fork_items db !! a)) as Hka by (destruct (fo_index db Hok _ _ Ha) as (i & ? & _); by exists i).
  assert (is_Some (fork_items db !! b)) as Hkb by (destruct (fo_index db Hok _ _ Hb) as (i & ? & _); by exists i).
  destruct (go_down_spec db b fuel Hok Hkb a [] Hka ltac:(pose proof (Hf a); lia)) as (r1 & -> & Hr1).
  destruct r1 as [[acc1 a']|e].
  2: { eexists. split; [done|]. cbn. intros a0 b0 [= <-] [= <-] m1 x m2 y [M1 M2 M3 _].
       specialize (Hr1 m1 x M1). pose proof (path_num db b m2 y Hok M2). lia. }
  destruct Hr1 as (l1 & -> & P1 & Hle1 & Hor1). cbn [app].
  assert (is_Some (fork_items db !! a')) as Hka' by (by eapply path_known).
  assert (forall m1 x m2 y, meet db a b m1 x m2 y -> exists n1, m1 = l1 ++ n1 /\ meet db a' b n1 x m2 y) as Hvia1.
  { intros m1 x m2 y [M1 M2 M3 M4]. assert (num_of db x <= num_of db a') as Hx.
    { pose proof (path_num db b m2 y Hok M2). destruct Hor1 as [-> |?]; [|lia].
      inversion P1; subst. pose proof (path_num db a' m1 x Hok M1). lia. }
    destruct (path_through db a l1 a' m1 x Hok P1 M1 Hx) as (n1 & -> & ?). by exists n1. }
  destruct (go_down_spec db a' fuel Hok Hka' b [] Hkb ltac:(pose proof (Hf b); lia)) as (r2 & -> & Hr2).
  destruct r2 as [[acc2 b']|e].
  2: { eexists. split; [done|]. cbn. intros a0 b0 [= <-] [= <-] m1 x m2 y Hm. destruct (Hvia1 _ _ _ _ Hm) as (n1 & _ & [M1 M2 M3 _]).
       specialize (Hr2 m2 y M2). pose proof (path_num db a' n1 x Hok M1). lia. }
  destruct Hr2 as (l2 & -> & P2 & Hle2 & Hor2). cbn [app].
  assert (num_of db a' = num_of db b') as Hnum by (destruct Hor2 as [-> |?]; [inversion P2; subst; lia|lia]).
  assert (forall m1 x m2 y, meet db a b m1 x m2 y -> exists n1 n2, meet db a' b' n1 x n2 y) as Hvia.
  { intros m1 x m2 y Hm. destruct (Hvia1 _ _ _ _ Hm) as (n1 & _ & [M1 M2 M3 M4]).
    pose proof (path_num db a' n1 x Hok M1).
    destruct (path_through db b l2 b' m2 y Hok P2 M2 ltac:(lia)) as (n2 & -> & ?). by exists n1, n2. }
  destruct (go_down_both_spec db fuel Hok a' b' l1 l2 Hka' (path_known db b l2 b' Hok P2 Hkb) Hnum (Hf a')) as (r & -> & Hr).
  exists r. split; [done|]. destruct r as [[s1 s2]|e].
  - destruct Hr as (n1 & x & n2 & y & -> & -> & [M1 M2 M3 M4] & Hmax). exists a, b, (l1 ++ n1), x, (l2 ++ n2), y.
    split_and!; [done|done|by rewrite app_assoc|by rewrite app_assoc| |].
    + split; [by eapply path_app|by eapply path_app|done|done].
    + intros m1 x' m2 y' Hm. destruct (Hvia _ _ _ _ Hm) as (k1 & k2 & Hm'). by apply (Hmax k1 x' k2 y').
  - intros a0 b0 [= <-] [= <-] m1 x m2 y Hm. destruct (Hvia _ _ _ _ Hm) as (k1 & k2 & Hm'). by apply (Hr k1 x k2 y).
Qed.

(** C35: with fuel for the highest block, [fetch_branch_from] ends, and gives the items from each of
    the two blocks back to the highest pair at the same height that follows the same block;
    it fails only when one of them is not known or no such pair can be reached through items
    that are alive. *)
Theorem fetch_branch_correct db fuel first second : fork_ok db ->
  (forall p, num_of db p < Z.of_nat fuel) ->
  exists r, fetch_branch_from fuel db first second = Some r /\
    match r with
    | Ok (r1, r2) => exists a b l1 x l2 y, fork_index db !! first = Some a /\ fork_index db !! second = Some b
        /\ r1 = l1 ++ [x] /\ r2 = l2 ++ [y] /\ meet db a b l1 x l2 y
        /\ forall m1 x' m2 y', meet db a b m1 x' m2 y' -> num_of db x' <= num_of db x
    | Err _ => forall a b, fork_index db !! first = Some a -> fork_index db !! second = Some b ->
        forall m1 x' m2 y', ~ meet db a b m1 x' m2 y'
    end.
Proof. apply fetch_branch_spec. Qed.

(** ** The other operations keep it, too *)

Lemma start_block_ok db b : fork_ok db -> fork_ok (start_block db b).
Proof.
  intros Hok. unfold start_block. destruct (allocate db (new_item b None)) as [db1 p] eqn:Ea.
  destruct (allocate_ok db b None db1 p Hok) as (Hok1 & Hp & _); [done|done|].
  pose proof (index_insert_ok db1 p _ Hok1 Hp) as Hok2. destruct (index_insert_frame db1 p (item_id (new_item b None))) as (Fi & _). cbn in Fi.
  destruct Hok2 as [H1 H2 H3 H4]. split; cbn; [done..|]. intros q [= <-]. rewrite Fi. by eexists.
Qed.

Lemma pop_block_spec db db' : fork_ok db -> pop_block db = Ok db' ->
  exists h i h', fork_head db = Some h /\ fork_items db !! h = Some i /\ lock db (item_prev i) = Some h'
    /\ db' = db <| fork_head := Some h' |>.
Proof.
  intros Hok E. unfold pop_block in E. destruct (fork_head db) as [h|] eqn:Hh; [|done]. cbn [rbind] in E.
  unfold item_at in E. destruct (fork_items db !! h) as [i|] eqn:Hi; [|done]. cbn [of_option rbind] in E.
  destruct (lock db (item_prev i)) as [h'|] eqn:Hl; [|done]. injection E as <-. by exists h, i, h'.
Qed.

Lemma pop_block_ok db db' : fork_ok db -> fork_window db -> pop_block db = Ok db' -> fork_ok db' /\ fork_window db'.
Proof.
  intros Hok Hwin E. destruct (pop_block_spec db db' Hok E) as (h & i & h' & Hh & Hi & Hl & ->).
  destruct (lock_prev db h i h' Hok Hi Hl) as (_ & [j Hj] & Hn & _). split.
  - destruct Hok as [H1 H2 H3 H4]. split; cbn; [done..|]. intros q [= <-]. by eexists.
  - intros q k id p [= <-] Hk Hp. change (fork_items db !! h' = Some k) in Hk. change (fork_index db !! id = Some p) in Hp.
    change (item_num k - max_size db <= num_of db p). rewrite Hj in Hk. injection Hk as <-.
    specialize (Hwin h i id p Hh Hi Hp). rewrite (num_of_item _ _ _ Hi), (num_of_item _ _ _ Hj) in Hn. lia.
Qed.

Lemma set_max_size_ok db n db' : fork_ok db -> 0 <= n -> set_max_size db n = Ok db' -> fork_ok db'
  /\ forall id p, fork_index db' !! id = Some p -> fork_index db !! id = Some p
     /\ forall h i, fork_head db = Some h -> fork_items db !! h = Some i -> item_num i - n <= num_of db p.
Proof.
  intros Hok Hn E. unfold set_max_size in E.
  assert (fork_ok (db <| max_size := n |>)) as Hok1 by (destruct Hok as [H1 H2 H3 H4]; split; done).
  change (fork_head (db <| max_size := n |>)) with (fork_head db) in E. destruct (fork_head db) as [h|] eqn:Hh.
  2: { injection E as <-. split; [done|]. intros id p Hp. split; [exact Hp|done]. }
  unfold item_at in E. cbn in E. destruct (fork_items db !! h) as [i|] eqn:Hi; [|done]. cbn [of_option rbind] in E.
  injection E as <-. rewrite erase_by_num. split; [by apply keep_from_ok|].
  intros id p Hp%keep_from_index. destruct Hp as [Hp Hge]. split; [exact Hp|]. intros h' i' [= <-] Hi'.
  assert (i' = i) as -> by congruence. change (Z.max 0 (item_num i - n) <= num_of db p) in Hge. lia.
Qed.

Lemma remove_ok db id db' : fork_ok db -> remove db id = Ok db' -> fork_ok db' /\ fork_index db' = delete id (fork_index db).
Proof.
  intros Hok E. unfold remove in E. set (db1 := db <| fork_index ::= delete id |>) in *.
  assert (fork_ok db1) as Hok1.
  { destruct Hok as [H1 H2 H3 H4]. split; cbn; [done..| |done]. intros id' p [_ Hp]%lookup_delete_Some. by apply H3. }
  destruct (fork_head db1) as [h|] eqn:Hh; [|by injection E as <-].
  unfold item_at in E. destruct (fork_items db1 !! h) as [i|] eqn:Hi; [|done]. cbn [of_option rbind] in E.
  destruct (bool_decide _); [|by injection E as <-]. destruct (pop_block db1) as [db2|] eqn:Ep.
  - injection E as <-. destruct (pop_block_spec db1 db2 Hok1 Ep) as (h0 & i0 & h' & Hh0 & Hi0 & Hl & ->).
    destruct (lock_prev db1 h0 i0 h' Hok1 Hi0 Hl) as (_ & Hk & _). split; [|done].
    destruct Hok1 as [H1 H2 H3 H4]. split; cbn; [done..|]. by intros q [= <-].
  - injection E as <-. split; [|done]. destruct Hok1 as [H1 H2 H3 H4]. by split.
Qed.
End ForkDatabase.

(** ** An example *)

Module Example.
(** Blocks that only differ in what they follow and in their witness. *)
Definition hash (b : signed_block Z) : Z := 100 * snd (previous b) + block_witness b.
Definition block (prev : block_id) (w : Z) : signed_block Z := SignedBlock prev 0 w 0 0 [].
Definition next (b : signed_block Z) (w : Z) : signed_block Z := block (block_id_of hash b) w.

Definition b1 := block (0, 0) 1.
Definition b2 := next b1 2.
Definition b3 := next b2 3.
Definition b4 := next b3 4.
Definition c3 := next b2 5.
Definition c4 := next c3 6.
Definition c5 := next c4 7.

Definition push (r : result (@fork_database Z)) (b : signed_block Z) : result fork_database := let! db := r in push_item hash db b.
Definition db0 : @fork_database Z := start_block hash new_fork_database b1.
Definition db_of (r : result (@fork_database Z)) : fork_database := match r with Ok db => db | Err _ => new_fork_database end.
Definition db := db_of (foldl push (Ok db0) [b2; b3; b4; c3; c4; c5]).

Example branches : fetch_branch_from 10 db (block_id_of hash c5) (block_id_of hash b4) = Some (Ok ([6; 5; 4], [3; 2])).
Proof. vm_compute. reflexivity. Qed.

(** A block that follows an unknown one, and one that is too old. *)
Example rejected : push (Ok db) (next (next c5 9) 1) = Err (thrown "unlinkable_block_exception")
  /\ push (let! d := Ok db in set_max_size d 2) c3 = Err (assert_exception "attempting to push a block that is too old").
Proof. split; vm_compute; reflexivity. Qed.

Lemma db0_live : fork_live hash db0.
Proof.
  assert (fork_ok hash db0) as Hok.
  { apply start_block_ok. split; cbn; try done; intros *; by rewrite lookup_empty. }
  split; [done| |vm_compute; discriminate|by eexists].
  intros h i id p [= <-] Hi Hp. change (fork_index db0) with ({[block_id_of hash b1 := 0]} : gmap block_id Z) in Hp.
  apply lookup_singleton_Some in Hp as [_ <-]. rewrite (num_of_item db0 0 i) by done. change (max_size db0) with 1024. lia.
Qed.

Lemma push_live db b db' : fork_live hash db -> push (Ok db) b = Ok db' -> fork_live hash db'.
Proof. intros Hl E. by apply (push_item_live hash db b). Qed.

Lemma db_live : fork_live hash db.
Proof.
  assert (forall l d d', fork_live hash d -> foldl push (Ok d) l = Ok d' -> fork_live hash d') as Hl.
  { induction l as [|b l IH]; intros d d' Hd E; cbn [foldl] in E; [by injection E as <-|].
    destruct (push (Ok d) b) as [d1|] eqn:Ep; [|].
    - apply (IH d1); [by eapply push_live|done].
    - exfalso. clear -E. induction l as [|b' l IH]; cbn in E; [done|auto]. }
  eassert (foldl push (Ok db0) [b2; b3; b4; c3; c4; c5] = Ok _) as E by (vm_compute; reflexivity).
  unfold db. rewrite E. by apply (Hl _ db0 _ db0_live E).
Qed.
End Example.


Lemma fetch_branch_correct_witness : exists a b l1 x l2 y,
  [6; 5; 4] = l1 ++ [x] /\ [3; 2] = l2 ++ [y] /\ meet Example.db a b l1 x l2 y.
Proof.
  destruct (fetch_branch_correct Example.hash Example.db 10 (block_id_of Example.hash Example.c5) (block_id_of Example.hash Example.b4)
    (fl_ok _ _ Example.db_live)) as (r & E & Hr).
  - intros p. unfold num_of. destruct (fork_items Example.db !! p) as [i|] eqn:Ep; [|lia].
    assert (map_Forall (fun _ i => item_num i < 10) (fork_items Example.db)) as Hall
      by (apply (bool_decide_eq_true_1 _); vm_compute; reflexivity).
    apply (Hall p i Ep).
  - assert (r = Ok ([6; 5; 4], [3; 2])) as -> by (vm_compute in E; congruence).
    destruct Hr as (a & b & l1 & x & l2 & y & _ & _ & H1 & H2 & Hm & _). exists a, b, l1, x, l2, y. split; [exact H1|]. split; [exact H2|exact Hm].
Defined.
