(* ===== verification/Chain.v ===== *)
(** The chain of blocks: [push_block], [pop_block], the switch between forks and the
    pending transactions, of [chain/db_block.cpp] and [db_with.hpp]. What a block or a
    transaction does to the state is behind an interface; the states to go back to form
    the undo history, which [UndoDatabase] shows is what the undo sessions implement. *)
From S2P Require Import Prelude Records Block Schedule ForkDb.

(** ** What the chain asks of the state *)

(** [apply_block] also tells the size it has given to the undo history and the fork
    database, if it came that far. *)
Class BlockMachine (S T : Type) := {
  schedule_of : S -> schedule_state;
  machine_apply_block : S -> signed_block T -> option Z * result S;
  machine_apply_transaction : S -> T -> result S;
  is_known_transaction : S -> T -> bool;
}.

(** A block applies to the state it follows and becomes its head. *)
Class BlockMachineLaws S {T} `{!BlockMachine S T} (header_hash : signed_block T -> Z) : Prop := {
  apply_block_head : forall s b k s', machine_apply_block s b = (k, Ok s') ->
    head_block_id (schedule_of s) = previous b
    /\ head_block_id (schedule_of s') = block_id_of header_hash b
    /\ head_block_number (schedule_of s') = block_num b;
  apply_block_size : forall s b k r, machine_apply_block s b = (Some k, r) -> 0 <= k;
}.

Section Chain.
Context {S T : Type} `{!BlockMachine S T}.
Variable header_hash : signed_block T -> Z.
(** Whether a key signed a block, the clock of the node, whether one of the two checks of
    the block's witness is skipped. *)
Variable signed_by : signed_block T -> Z -> bool.
Variable now : Z.
Variable skip_witness_checks : bool.

(** ** State *)

(** The witnesses scheduled after a block, with their keys, the slot and the time of the
    next one: the fields of a [fork_item] that are filled once the block is applied. *)
Record schedule_entry := ScheduleEntry {
  scheduled_witnesses : list (Z * Z);
  next_block_aslot : Z;
  next_block_time : Z;
}.

Record node := Node {
  chain_state : S;
  undo_history : list S;
  undo_max_size : Z;
  fork_db : @fork_database T;
  scheduled : gmap item_ptr schedule_entry;
  block_log : gmap Z (signed_block T);
  pending_session : option S;
  pending_tx : list T;
  popped_tx : list T;
}.
#[export] Instance eta_node : Eta node :=
  fun r => Node (chain_state r) (undo_history r) (undo_max_size r) (fork_db r) (scheduled r) (block_log r)
    (pending_session r) (pending_tx r) (popped_tx r).

(** A function that changes the node; what it has changed stays when it throws. *)
Definition action (A : Type) : Type := node -> node * result A.

Definition then_do {A B} (m : action A) (f : A -> action B) : action B := fun n =>
  match m n with
  | (n, Ok a) => f a n
  | (n, Err e) => (n, Err e)
  end.
Definition done_with {A} (a : A) : action A := fun n => (n, Ok a).
Definition throw {A} (e : exc) : action A := fun n => (n, Err e).
Definition lift {A} (r : node -> result A) : action A := fun n => (n, r n).
Definition modify (f : node -> node) : action unit := fun n => (f n, Ok tt).

Notation "'let*' x ':=' m 'in' k" := (then_do m (fun x => k)) (at level 10, x pattern, m at level 200, k at level 200).

Definition head_id (n : node) : block_id := head_block_id (schedule_of (chain_state n)).
Definition head_num (n : node) : Z := head_block_number (schedule_of (chain_state n)).

(** ** Sessions of the undo history *)

(** [start_undo_session] *)
Definition start_undo_session : action S := fun n =>
  (n <| undo_history := chain_state n :: take (Z.to_nat (undo_max_size n)) (undo_history n) |>, Ok (chain_state n)).

(** A session whose changes are committed, or undone when [body] throws. *)
Definition in_session {A} (body : action A) : action A := fun n =>
  match start_undo_session n with
  | (n1, Ok s) =>
      match body n1 with
      | (n2, Ok a) => (n2, Ok a)
      | (n2, Err e) => (n2 <| chain_state := s |> <| undo_history := tail (undo_history n2) |>, Err e)
      end
  | (n1, Err e) => (n1, Err e)
  end.

(** [pop_undo] *)
Definition pop_undo : action unit := fun n =>
  match undo_history n with
  | s :: l => (n <| chain_state := s |> <| undo_history := l |>, Ok tt)
  | [] => (n, Err (assert_exception "!_stack.empty()"))
  end.

(** [_pending_tx_session.reset()] *)
Definition reset_pending_session : action unit := modify (fun n =>
  match pending_session n with
  | Some s => n <| chain_state := s |> <| pending_session := None |>
  | None => n
  end).

(** ** Applying and popping a block *)

Definition apply_block (b : signed_block T) : action unit := fun n =>
  let (size, r) := machine_apply_block (chain_state n) b in
  let sized := match size with
               | Some k => match set_max_size (fork_db n) k with
                           | Ok db => Ok (n <| undo_max_size := k |> <| fork_db := db |>)
                           | Err e => Err e
                           end
               | None => Ok n
               end in
  match sized, r with
  | Err e, _ => (n, Err e)
  | Ok n, Ok s => (n <| chain_state := s |>, Ok tt)
  | Ok n, Err e => (n, Err e)
  end.

Fixpoint witness_keys (s : schedule_state) (ws : list Z) : result (list (Z * Z)) :=
  match ws with
  | [] => Ok []
  | w :: ws =>
      let! r := of_option "witness" (witness_records s !! w) in
      let! l := witness_keys s ws in
      Ok ((w, signing_key r) :: l)
  end.

(** [update_witnesses] *)
Definition update_witnesses (p : item_ptr) : action unit := fun n =>
  match scheduled n !! p with
  | Some _ => (n, Ok tt)
  | None =>
      let s := schedule_of (chain_state n) in
      match witness_keys s (current_shuffled_witnesses s) with
      | Ok l => (n <| scheduled ::= <[p := ScheduleEntry l (u64 (current_aslot s + 1)) (get_slot_time s 1)]> |>, Ok tt)
      | Err e => (n, Err e)
      end
  end.

(** [_block_id_to_block.store]: the log has one block for each number. *)
Definition store (b : signed_block T) : action unit := modify (fun n => n <| block_log ::= <[block_num b := b]> |>).

(** [verify_signing_witness] *)
Definition verify_signing_witness (s : schedule_state) (b : signed_block T) (e : schedule_entry) : result unit :=
  assert! timestamp b >=? next_block_time e @ "" in
  let slot_num := u32 ((timestamp b - next_block_time e) / block_interval s) in
  let index := u64 (next_block_aslot e + slot_num) mod Z.of_nat (length (scheduled_witnesses e)) in
  let! (w, key) := of_option "scheduled_witnesses" (scheduled_witnesses e !! Z.to_nat index) in
  assert! block_witness b =? w @ "Witness produced block at wrong time" in
  assert! signed_by b key @ "" in Ok tt.

(** [pop_block] *)
Definition pop_block : action unit :=
  let* _ := reset_pending_session in
  let* h := lift (fun n => match fork_head (fork_db n) with
                           | Some h => Ok h
                           | None => Err (assert_exception "Trying to pop() from empty fork database!?")
                           end) in
  let* i := lift (fun n => item_at (fork_db n) h) in
  let* b := fun n =>
    if bool_decide (item_id i = head_id n) then
      match ForkDb.pop_block (fork_db n) with
      | Ok db => (n <| fork_db := db |>, Ok (item_data i))
      | Err e => (n, Err e)
      end
    else
      match fetch_block (fork_db n) (head_id n) with
      | Some p => (n, rbind (item_at (fork_db n) p) (fun i => Ok (item_data i)))
      | None => (n, Err (assert_exception "Trying to pop() block that's not in fork database!?"))
      end in
  let* _ := pop_undo in
  modify (fun n => n <| popped_tx ::= app (transactions b) |>).

(** [while( head_block_id() != target ) pop_block();] every round takes a state off the
    history. *)
Fixpoint pop_until (fuel : nat) (target : block_id) : action unit := fun n =>
  if bool_decide (head_id n = target) then (n, Ok tt)
  else match fuel with
       | O => (n, Err (thrown "out of fuel"))
       | Datatypes.S fuel => then_do pop_block (fun _ => pop_until fuel target) n
       end.

(** ** Pushing a block *)

(** The session in which a block of a branch is applied. *)
Definition apply_item (update : bool) (p : item_ptr) : action unit :=
  let* i := lift (fun n => item_at (fork_db n) p) in
  in_session (
    let* _ := apply_block (item_data i) in
    let* _ := (if update then update_witnesses p else done_with tt) in
    store (item_data i)).

(** The blocks of the new branch; when one fails, that one and those after it. *)
Fixpoint push_branch (ps : list item_ptr) : action (option (exc * list item_ptr)) := fun n =>
  match ps with
  | [] => (n, Ok None)
  | p :: ps' =>
      match apply_item true p n with
      | (n, Ok _) => push_branch ps' n
      | (n, Err e) => (n, Ok (Some (e, ps)))
      end
  end.

Fixpoint remove_items (ps : list item_ptr) : action unit := fun n =>
  match ps with
  | [] => (n, Ok tt)
  | p :: ps =>
      match item_at (fork_db n) p with
      | Ok i => match ForkDb.remove (fork_db n) (item_id i) with
                | Ok db => remove_items ps (n <| fork_db := db |>)
                | Err e => (n, Err e)
                end
      | Err e => (n, Err e)
      end
  end.

(** Back to the branch the chain was on. *)
Fixpoint restore_branch (ps : list item_ptr) : action unit := fun n =>
  match ps with
  | [] => (n, Ok tt)
  | p :: ps => then_do (apply_item false p) (fun _ => restore_branch ps) n
  end.

(** The identifier the last block of a branch follows ([back()->data.previous]). *)
Definition branch_root (db : @fork_database T) (l : list item_ptr) : result block_id :=
  let! p := of_option "back" (last l) in
  let! i := item_at db p in
  Ok (previous (item_data i)).

Definition switch_fork (fuel : nat) (new_head_id : block_id) : action unit :=
  let* (first, second) := lift (fun n =>
    match fetch_branch_from fuel (fork_db n) new_head_id (head_id n) with
    | Some r => r
    | None => Err (thrown "out of fuel")
    end) in
  let* root := lift (fun n => branch_root (fork_db n) second) in
  let* _ := fun n => pop_until (Datatypes.S (length (undo_history n))) root n in
  let* failure := push_branch (rev first) in
  match failure with
  | None => done_with tt
  | Some (e, rest) =>
      let* _ := remove_items rest in
      let* front := lift (fun _ => of_option "front" (head second)) in
      let* _ := modify (fun n => n <| fork_db ::= fun db => set_head db front |>) in
      let* _ := fun n => pop_until (Datatypes.S (length (undo_history n))) root n in
      let* _ := restore_branch (rev second) in
      throw e
  end.

(** The check of a recent block's witness before it enters the fork database. *)
Definition check_recent_block (b : signed_block T) : action unit := lift (fun n =>
  match fork_head (fork_db n) with
  | Some _ =>
      if timestamp b >? u32 (now - 86400) then
        match fetch_block (fork_db n) (previous b) with
        | None => Err (thrown "unlinkable_block_exception")
        | Some p =>
            match scheduled n !! p with
            | Some e => if skip_witness_checks then Ok tt else verify_signing_witness (schedule_of (chain_state n)) b e
            | None => Ok tt
            end
        end
      else Ok tt
  | None => Ok tt
  end).

(** A block that follows the head. *)
Definition extend_chain (b : signed_block T) (new_head : item_ptr) : action unit := fun n =>
  match in_session (
    let* _ := apply_block b in
    let* _ := (if timestamp b >? u32 (now - 86400) then update_witnesses new_head else done_with tt) in
    store b) n with
  | (n, Ok _) => (n, Ok tt)
  | (n, Err e) =>
      match ForkDb.remove (fork_db n) (block_id_of header_hash b) with
      | Ok db => (n <| fork_db := db |>, Err e)
      | Err e' => (n, Err e')
      end
  end.

(** What [_push_block] does once the fork database has the block. *)
Definition advance (fuel : nat) (b : signed_block T) (new_head : item_ptr) : action bool :=
  let* i := lift (fun n => item_at (fork_db n) new_head) in
  let* follows := lift (fun n => Ok (bool_decide (previous (item_data i) = head_id n))) in
  if follows : bool then let* _ := extend_chain b new_head in done_with false
  else
    let* higher := lift (fun n => Ok (block_num (item_data i) >? head_num n)) in
    if higher : bool then let* _ := switch_fork fuel (block_id_of header_hash (item_data i)) in done_with true
    else done_with false.

(** [_push_block]: tells whether the chain has switched to another fork. *)
Definition push_block_inner (fuel : nat) (b : signed_block T) : action bool :=
  let* _ := check_recent_block b in
  let* new_head := fun n =>
    match fork_push_block header_hash (fork_db n) b with
    | Ok (db, Some h) => (n <| fork_db := db |>, Ok h)
    | Ok (db, None) => (n <| fork_db := db |>, Err (thrown "no head"))
    | Err e => (n, Err e)
    end in
  advance fuel b new_head.

(** ** Transactions that wait for a block *)

(** [_push_transaction]; the sessions of the pending transactions and of this one take
    places in the undo history. *)
Definition push_transaction (tx : T) : action unit := fun n =>
  let n := match pending_session n with
           | Some _ => n
           | None => n <| pending_session := Some (chain_state n) |>
           end in
  let n := n <| undo_history ::= take (Z.to_nat (undo_max_size n - 1)) |> in
  match machine_apply_transaction (chain_state n) tx with
  | Ok s => (n <| chain_state := s |> <| pending_tx ::= fun l => l ++ [tx] |>, Ok tt)
  | Err e => (n, Err e)
  end.

(** [clear_pending] *)
Definition clear_pending : action unit :=
  let* _ := modify (fun n => n <| pending_tx := [] |>) in reset_pending_session.

(** Pushes transactions again, but those that are known; failures are ignored. *)
Fixpoint push_again (txs : list T) (n : node) : node :=
  match txs with
  | [] => n
  | tx :: txs => push_again txs (if is_known_transaction (chain_state n) tx then n else fst (push_transaction tx n))
  end.

(** [without_pending_transactions]: what the destructor of its guard does is done whether
    [body] throws or not. *)
Definition without_pending_transactions {A} (body : action A) : action A := fun n =>
  let pending := pending_tx n in
  let (n, _) := clear_pending (n <| pending_tx := [] |>) in
  let (n, r) := body n in
  let n := push_again (popped_tx n) n in
  let n := push_again pending (n <| popped_tx := [] |>) in
  (n, r).

(** [push_block] *)
Definition push_block (fuel : nat) (b : signed_block T) : action bool := without_pending_transactions (push_block_inner fuel b).

(** The state of the chain without the pending transactions. *)
Definition clean_state (n : node) : S := match pending_session n with Some s => s | None => chain_state n end.

(** ** What the steps leave alone *)

(** Every part of the node but the state, its history, its size and the fork database. *)
Record same_pending (n n' : node) : Prop := {
  sp_session : pending_session n' = pending_session n;
  sp_pending : pending_tx n' = pending_tx n;
}.

#[export] Instance same_pending_preorder : PreOrder same_pending.
Proof. split; [by intros n|]. intros a b c [H1 H2] [H3 H4]. split; congruence. Qed.

(** The fork database has lost items of its index at most, none within [depth] of its head. *)
Record fork_keeps (depth : Z) (db db' : @fork_database T) : Prop := {
  fk_items : fork_items db' = fork_items db;
  fk_head : fork_head db' = fork_head db;
  fk_index : fork_index db' ⊆ fork_index db;
  fk_kept : forall h i id p, fork_head db = Some h -> fork_items db !! h = Some i -> fork_index db !! id = Some p ->
    item_num i - depth <= num_of db p -> fork_index db' !! id = Some p;
  fk_ok : fork_ok header_hash db -> fork_ok header_hash db';
}.

Lemma fork_keeps_refl depth db : fork_keeps depth db db.
Proof. by split. Qed.

Lemma fork_keeps_num depth db db' p : fork_keeps depth db db' -> num_of db' p = num_of db p.
Proof. intros [Hi _ _ _ _]. unfold num_of. by rewrite Hi. Qed.

Lemma fork_keeps_trans depth a b c : fork_keeps depth a b -> fork_keeps depth b c -> fork_keeps depth a c.
Proof.
  intros Hab Hbc. pose proof (fun p => fork_keeps_num depth a b p Hab) as Hnum. destruct Hab as [A1 A2 A3 A4 A5], Hbc as [B1 B2 B3 B4 B5].
  split; [congruence|congruence|by transitivity (fork_index b)| |auto].
  intros h i id p Hh Hi Hp Hle. apply (B4 h i); [congruence|congruence|by apply (A4 h i)|by rewrite Hnum].
Qed.

Lemma set_max_size_keeps depth db k db' : fork_ok header_hash db -> 0 <= k -> depth <= k -> set_max_size db k = Ok db' ->
  fork_keeps depth db db'.
Proof.
  intros Hok H0 Hk E. pose proof E as E'. unfold set_max_size in E.
  change (fork_head (db <| max_size := k |>)) with (fork_head db) in E. destruct (fork_head db) as [h|] eqn:Hh.
  2: { injection E as <-. split; try done. intros [H1 H2 H3 H4]. by split. }
  unfold item_at in E. change (fork_items (db <| max_size := k |>)) with (fork_items db) in E.
  destruct (fork_items db !! h) as [i|] eqn:Hi; [|done]. cbn [of_option rbind] in E.
  rewrite erase_by_num in E. injection E as <-. split; try done.
  - apply map_filter_subseteq.
  - intros h' i' id p Hh' Hi' Hp Hle. apply keep_from_index. assert (h' = h) as -> by congruence. assert (i' = i) as -> by congruence.
    split; [done|]. change (Z.max 0 (item_num i - k) <= num_of db p).
    destruct (fo_index _ db Hok _ _ Hp) as (j & Hj & _). destruct (fo_items _ db Hok _ _ Hj) as (_ & Hjn & _).
    rewrite (num_of_item _ _ _ Hj) in *. pose proof (block_num_bounds (item_data j)). lia.
  - intros _. by destruct (set_max_size_ok header_hash db k _ Hok H0 E').
Qed.

(** The states the chain may be in: those for which the last irreversible block is not
    beyond where the branches part. *)
Variable covered : S -> Prop.

(** The sizes a block asks for in these states leave room for [depth] blocks, and it leads
    to such a state again. *)
Record leaves_room (depth : Z) (b : signed_block T) : Prop := {
  lr_size : forall s k r, covered s -> machine_apply_block s b = (Some k, r) -> depth <= k;
  lr_covered : forall s k s', covered s -> machine_apply_block s b = (k, Ok s') -> covered s';
}.

(** ** The steps *)

Context `{!BlockMachineLaws S header_hash}.

Lemma apply_block_spec depth b n n' r : fork_ok header_hash (fork_db n) -> covered (chain_state n) -> leaves_room depth b -> apply_block b n = (n', r) ->
  fork_keeps depth (fork_db n) (fork_db n') /\ same_pending n n' /\ undo_history n' = undo_history n
  /\ (undo_max_size n' = undo_max_size n \/ depth <= undo_max_size n')
  /\ match r with
     | Ok _ => exists k, machine_apply_block (chain_state n) b = (k, Ok (chain_state n'))
     | Err _ => chain_state n' = chain_state n
     end.
Proof.
  intros Hok Hcov [Hroom _] E. unfold apply_block in E. destruct (machine_apply_block (chain_state n) b) as [size o] eqn:Em.
  destruct size as [k|].
  - destruct (set_max_size (fork_db n) k) as [db|e] eqn:Es.
    2: { injection E as <- <-. split_and!; [apply fork_keeps_refl|done|done|by left|done]. }
    pose proof (set_max_size_keeps depth _ k db Hok (apply_block_size _ _ _ _ Em) (Hroom _ _ _ Hcov Em) Es).
    destruct o as [s|e]; injection E as <- <-; split_and!; cbn; try done; try (right; by apply (Hroom _ _ _ Hcov Em)). by exists (Some k).
  - destruct o as [s|e]; injection E as <- <-; split_and!; try done; try apply fork_keeps_refl; try by left. by exists None.
Qed.

Lemma update_witnesses_spec p n n' r : update_witnesses p n = (n', r) ->
  fork_db n' = fork_db n /\ same_pending n n' /\ undo_history n' = undo_history n /\ undo_max_size n' = undo_max_size n
  /\ chain_state n' = chain_state n.
Proof.
  unfold update_witnesses. intros E. destruct (scheduled n !! p); [by injection E as <- <-|].
  destruct (witness_keys _ _); by injection E as <- <-.
Qed.

(** What a block is applied with, in a session of its own. *)
Definition block_session (b : signed_block T) (update : bool) (p : item_ptr) : action unit :=
  in_session (
    let* _ := apply_block b in
    let* _ := (if update then update_witnesses p else done_with tt) in
    store b).

Lemma block_session_spec depth b update p n n' r : fork_ok header_hash (fork_db n) -> covered (chain_state n) -> leaves_room depth b ->
  block_session b update p n = (n', r) ->
  fork_keeps depth (fork_db n) (fork_db n') /\ same_pending n n'
  /\ (undo_max_size n' = undo_max_size n \/ depth <= undo_max_size n')
  /\ match r with
     | Ok _ => exists k, machine_apply_block (chain_state n) b = (k, Ok (chain_state n'))
         /\ undo_history n' = chain_state n :: take (Z.to_nat (undo_max_size n)) (undo_history n)
     | Err _ => chain_state n' = chain_state n /\ undo_history n' = take (Z.to_nat (undo_max_size n)) (undo_history n)
     end.
Proof.
  intros Hok Hcov Hroom E. unfold block_session, in_session, start_undo_session in E.
  set (n1 := n <| undo_history := _ |>) in E. unfold then_do in E.
  destruct (apply_block b n1) as [n2 r2] eqn:E2.
  destruct (apply_block_spec depth b n1 n2 r2 Hok Hcov Hroom E2) as (Hk & Hsp & Hu & Hm & Hr).
  change (fork_db n1) with (fork_db n) in Hk. change (undo_max_size n1) with (undo_max_size n) in Hm.
  assert (same_pending n n2) as Hsp' by (destruct Hsp; by split).
  destruct r2 as [[]|e].
  2: { injection E as <- <-. cbn. rewrite Hu. split_and!; try done. by destruct Hsp'. }
  destruct Hr as [k Hr]. destruct ((if update then update_witnesses p else done_with tt) n2) as [n3 r3] eqn:E3.
  assert (fork_db n3 = fork_db n2 /\ same_pending n2 n3 /\ undo_history n3 = undo_history n2
    /\ undo_max_size n3 = undo_max_size n2 /\ chain_state n3 = chain_state n2) as (F3 & S3 & U3 & M3 & C3).
  { destruct update; [by eapply update_witnesses_spec|]. by injection E3 as <- <-. }
  rewrite <- F3 in Hk. destruct r3 as [[]|e].
  - unfold store, modify in E. injection E as <- <-. cbn. rewrite U3, M3, Hu, C3. split_and!; [done| |done|by exists k].
    destruct Hsp' as [H1 H2], S3 as [H3 H4]. split; cbn; congruence.
  - injection E as <- <-. cbn. rewrite U3, M3, Hu. split_and!; [done| |done|done|done].
    destruct Hsp' as [H1 H2], S3 as [H3 H4]. split; cbn; congruence.
Qed.

Lemma apply_item_block update p i n : fork_items (fork_db n) !! p = Some i -> apply_item update p n = block_session (item_data i) update p n.
Proof. intros Hi. unfold apply_item, then_do, lift, item_at. by rewrite Hi. Qed.

(** Popping a block that is not the head of the fork database. *)
Lemma pop_block_below n h i p j s u : pending_session n = None -> fork_head (fork_db n) = Some h -> fork_items (fork_db n) !! h = Some i ->
  item_id i <> head_id n -> fork_index (fork_db n) !! head_id n = Some p -> fork_items (fork_db n) !! p = Some j ->
  undo_history n = s :: u ->
  pop_block n = (n <| chain_state := s |> <| undo_history := u |> <| popped_tx ::= app (transactions (item_data j)) |>, Ok tt).
Proof.
  intros Hp Hh Hi Hne Hidx Hj Hu. unfold pop_block, reset_pending_session, modify, then_do, lift, fetch_block, item_at, pop_undo.
  rewrite Hp, Hh. cbn [of_option]. rewrite Hi. cbn [of_option]. rewrite bool_decide_eq_false_2 by done. rewrite Hidx, Hj.
  cbn [of_option rbind]. by rewrite Hu.
Qed.

Definition head_of (s : S) : block_id := head_block_id (schedule_of s).

(** Popping the states of a branch, none of which has the head of the fork database. *)
Lemma pop_until_spec target ss : forall n fuel a u h i, pending_session n = None ->
  fork_head (fork_db n) = Some h -> fork_items (fork_db n) !! h = Some i ->
  chain_state n :: undo_history n = ss ++ a :: u -> (length ss <= fuel)%nat -> head_of a = target ->
  (forall s, s ∈ ss -> head_of s <> target /\ head_of s <> item_id i
     /\ exists p j, fork_index (fork_db n) !! head_of s = Some p /\ fork_items (fork_db n) !! p = Some j) ->
  exists n', pop_until fuel target n = (n', Ok tt) /\ chain_state n' = a /\ undo_history n' = u
    /\ fork_db n' = fork_db n /\ same_pending n n' /\ undo_max_size n' = undo_max_size n.
Proof.
  induction ss as [|s ss IH]; intros n fuel a u h i Hp Hh Hi Hss Hf Ha Hin; cbn [app length] in *.
  - injection Hss as Hs Hu. exists n. destruct fuel; cbn [pop_until];
      (rewrite bool_decide_eq_true_2 by (unfold head_id; rewrite Hs; exact Ha)); by split_and!.
  - destruct (Hin s) as (Hne1 & Hne2 & p & j & Hidx & Hj); [left|].
    destruct fuel as [|fuel]; [lia|]. injection Hss as Hs Hu. cbn [pop_until].
    rewrite bool_decide_eq_false_2 by (unfold head_id; rewrite Hs; exact Hne1).
    destruct (undo_history n) as [|s' u'] eqn:Eu; [by destruct ss|].
    unfold then_do. rewrite (pop_block_below n h i p j s' u' Hp Hh Hi); [|unfold head_id; rewrite Hs; intros E; by apply Hne2|
      unfold head_id; by rewrite Hs|done|done].
    set (n1 := n <| chain_state := s' |> <| undo_history := u' |> <| popped_tx ::= _ |>).
    destruct (IH n1 fuel a u h i Hp Hh Hi Hu ltac:(lia) Ha) as (n' & -> & Hc & Hu' & Hf' & Hsp & Hm).
    { intros s0 Hs0. apply Hin. by right. }
    exists n'. split_and!; try done. destruct Hsp as [H1 H2]. by split.
Qed.

(** ** Applying a branch *)

(** [ps] are items with blocks that leave room for [depth] others. *)
Definition branch_items (depth : Z) (db : @fork_database T) (ps : list item_ptr) (bs : list (signed_block T)) : Prop :=
  Forall2 (fun p b => exists i, fork_items db !! p = Some i /\ item_data i = b /\ leaves_room depth b) ps bs.

Lemma branch_items_same depth db db' ps bs : fork_items db' = fork_items db -> branch_items depth db ps bs -> branch_items depth db' ps bs.
Proof. unfold branch_items. by intros ->. Qed.

(** [run s bs ss]: applying [bs] to [s] one after the other gives the states [ss], the
    last one first, [s] itself left out. *)
Fixpoint run (s : S) (bs : list (signed_block T)) : option (list S) :=
  match bs with
  | [] => Some []
  | b :: bs =>
      match snd (machine_apply_block s b) with
      | Ok s' => ss ← run s' bs; Some (ss ++ [s'])
      | Err _ => None
      end
  end.

Lemma run_length bs : forall s ss, run s bs = Some ss -> length ss = length bs.
Proof.
  induction bs as [|b bs IH]; cbn; intros s ss E; [by injection E as <-|].
  destruct (machine_apply_block s b) as [k [s'|e]]; [|done]. cbn in E. destruct (run s' bs) as [ss'|] eqn:Er; [|done].
  injection E as <-. rewrite length_app. cbn. rewrite (IH _ _ Er). lia.
Qed.

Lemma run_heads bs : forall s ss, run s bs = Some ss -> map head_of ss = rev (map (block_id_of header_hash) bs).
Proof.
  induction bs as [|b bs IH]; cbn; intros s ss E; [by injection E as <-|].
  destruct (machine_apply_block s b) as [k [s'|e]] eqn:Em; [|done]. cbn in E. destruct (run s' bs) as [ss'|] eqn:Er; [|done].
  injection E as <-. rewrite map_app, (IH _ _ Er). cbn. f_equal. f_equal.
  unfold head_of. by destruct (apply_block_head _ _ _ _ Em) as (_ & -> & _).
Qed.

Lemma fork_keeps_items depth db db' ps bs : fork_keeps depth db db' -> branch_items depth db ps bs -> branch_items depth db' ps bs.
Proof. intros [Hi _ _ _ _]. by apply branch_items_same. Qed.

(** A session puts the state on top of what the size leaves of the history. *)
Lemma sessions_history (s0 s1 : S) ss st u1 u k m l depth : st :: u1 = ss ++ s1 :: take k (s0 :: take m u) ->
  depth <= Z.of_nat (k + l) -> depth <= Z.of_nat m -> Z.of_nat (Datatypes.S l) <= depth ->
  exists k', st :: u1 = (ss ++ [s1]) ++ s0 :: take k' u /\ depth <= Z.of_nat (k' + Datatypes.S l).
Proof.
  intros -> Hk Hm Hl. destruct k as [|k]; [lia|]. exists (Nat.min k m). cbn. rewrite take_take, <- app_assoc. split; [done|lia].
Qed.

Lemma push_branch_spec depth ps : forall bs n n' r, fork_ok header_hash (fork_db n) -> covered (chain_state n) -> branch_items depth (fork_db n) ps bs ->
  Z.of_nat (length ps) <= depth -> depth <= undo_max_size n -> push_branch ps n = (n', r) ->
  fork_keeps depth (fork_db n) (fork_db n') /\ same_pending n n' /\ depth <= undo_max_size n'
  /\ exists o done rest ss k, r = Ok o /\ ps = done ++ rest /\ run (chain_state n) (take (length done) bs) = Some ss /\ Forall covered ss
     /\ chain_state n' :: undo_history n' = ss ++ chain_state n :: take k (undo_history n)
     /\ depth <= Z.of_nat (k + length ps)
     /\ match o with None => rest = [] | Some (_, ps') => ps' = rest /\ rest <> [] end.
Proof.
  induction ps as [|p ps IH]; cbn [push_branch length]; intros bs n n' r Hok Hcov Hbs Hl Hmax E.
  { injection E as <- <-. split_and!; [apply fork_keeps_refl|done|done|].
    exists None, [], [], [], (length (undo_history n) + Z.to_nat depth)%nat. rewrite (take_ge (undo_history n)) by lia. split_and!; [done..|lia|done]. }
  apply Forall2_cons_inv_l in Hbs as (b & bs' & (i & Hi & Hib & Hroom) & Hbs' & ->).
  rewrite (apply_item_block true p i n Hi), Hib in E. destruct (block_session b true p n) as [n1 r1] eqn:E1.
  destruct (block_session_spec depth b true p n n1 r1 Hok Hcov Hroom E1) as (Hk & Hsp & Hm & Hr).
  assert (depth <= undo_max_size n1) as Hmax1 by (destruct Hm; lia). destruct r1 as [[]|e].
  - destruct Hr as (k & Hr & Hu). pose proof (lr_covered _ _ Hroom _ _ _ Hcov Hr) as Hcov1.
    destruct (IH bs' n1 n' r (fk_ok _ _ _ Hk Hok) Hcov1 (fork_keeps_items _ _ _ _ _ Hk Hbs') ltac:(lia) Hmax1 E)
      as (Hk' & Hsp' & Hmax' & o & dn & rest & ss & k' & -> & -> & Hrun & Hcovs & Hhist & Hk'' & Ho).
    rewrite Hu in Hhist. rewrite length_app in Hl, Hk''.
    destruct (sessions_history _ _ _ _ _ _ _ _ _ _ Hhist Hk'' ltac:(lia) ltac:(lia)) as (k2 & Hhist2 & Hk2).
    split_and!; [by eapply fork_keeps_trans|by etransitivity|done|].
    exists o, (p :: dn), rest, (ss ++ [chain_state n1]), k2. cbn [app length take run]. rewrite Hr. cbn [snd]. rewrite Hrun. cbn.
    split_and!; [done|done|done|apply Forall_app; by repeat constructor|done|rewrite length_app; lia|done].
  - injection E as <- <-. destruct Hr as [Hc Hu]. split_and!; [done..|].
    exists (Some (e, p :: ps)), [], (p :: ps), [], (Z.to_nat (undo_max_size n)). rewrite Hc, Hu. cbn [length] in Hl |- *. split_and!; try done; lia.
Qed.

Lemma block_session_total b p n k s' : fork_ok header_hash (fork_db n) -> machine_apply_block (chain_state n) b = (k, Ok s') ->
  exists n', block_session b false p n = (n', Ok tt).
Proof.
  intros Hok Hm. unfold block_session, in_session, start_undo_session, then_do, apply_block. cbn -[set_max_size]. rewrite Hm.
  destruct k as [k|]; [|by eexists]. destruct (set_max_size (fork_db n) k) as [db|e] eqn:Es; [by eexists|]. exfalso.
  unfold set_max_size in Es. change (fork_head ((fork_db n) <| max_size := k |>)) with (fork_head (fork_db n)) in Es.
  destruct (fork_head (fork_db n)) as [h|] eqn:Hh; [|done]. destruct (fo_head _ _ Hok h Hh) as [i Hi].
  unfold item_at in Es. change (fork_items ((fork_db n) <| max_size := k |>)) with (fork_items (fork_db n)) in Es. by rewrite Hi in Es.
Qed.

Lemma restore_branch_spec depth ps : forall bs n ss, fork_ok header_hash (fork_db n) -> covered (chain_state n) -> branch_items depth (fork_db n) ps bs ->
  Z.of_nat (length ps) <= depth -> depth <= undo_max_size n -> run (chain_state n) bs = Some ss ->
  exists n' k, restore_branch ps n = (n', Ok tt) /\ fork_keeps depth (fork_db n) (fork_db n') /\ same_pending n n'
    /\ depth <= undo_max_size n'
    /\ chain_state n' :: undo_history n' = ss ++ chain_state n :: take k (undo_history n)
    /\ depth <= Z.of_nat (k + length ps).
Proof.
  induction ps as [|p ps IH]; cbn [restore_branch length]; intros bs n ss Hok Hcov Hbs Hl Hmax Hrun.
  { apply Forall2_nil_inv_l in Hbs as ->. injection Hrun as <-. exists n, (length (undo_history n) + Z.to_nat depth)%nat.
    split_and!; [done|apply fork_keeps_refl|done|done|by rewrite (take_ge (undo_history n)) by lia|lia]. }
  apply Forall2_cons_inv_l in Hbs as (b & bs' & (i & Hi & Hib & Hroom) & Hbs' & ->). cbn in Hrun.
  destruct (machine_apply_block (chain_state n) b) as [k [s'|e]] eqn:Em; [|done]. cbn in Hrun.
  destruct (run s' bs') as [ss'|] eqn:Er; [|done]. injection Hrun as <-.
  unfold then_do. rewrite (apply_item_block false p i n Hi), Hib. destruct (block_session_total b p n k s' Hok Em) as [n1 E1]. rewrite E1.
  destruct (block_session_spec depth b false p n n1 (Ok tt) Hok Hcov Hroom E1) as (Hk & Hsp & Hm & (k1 & Em1 & Hu)).
  pose proof (lr_covered _ _ Hroom _ _ _ Hcov Em1) as Hcov1.
  assert (chain_state n1 = s') as Hs1 by congruence. assert (depth <= undo_max_size n1) as Hmax1 by (destruct Hm; lia). rewrite <- Hs1 in Er.
  destruct (IH bs' n1 ss' (fk_ok _ _ _ Hk Hok) Hcov1 (fork_keeps_items _ _ _ _ _ Hk Hbs') ltac:(lia) Hmax1 Er)
    as (n' & k' & -> & Hk' & Hsp' & Hmax' & Hhist & Hk'').
  rewrite Hu in Hhist. destruct (sessions_history _ _ _ _ _ _ _ _ _ _ Hhist Hk'' ltac:(lia) ltac:(lia)) as (k2 & Hhist2 & Hk2).
  exists n', k2. rewrite <- Hs1. split_and!; [done|by eapply fork_keeps_trans|by etransitivity|done|done|lia].
Qed.

Lemma remove_items_spec ps : forall n, fork_ok header_hash (fork_db n) -> (forall p, p ∈ ps -> is_Some (fork_items (fork_db n) !! p)) ->
  exists db', remove_items ps n = (n <| fork_db := db' |>, Ok tt) /\ fork_ok header_hash db' /\ fork_items db' = fork_items (fork_db n)
    /\ (forall id p, fork_index db' !! id = Some p <->
          fork_index (fork_db n) !! id = Some p
          /\ forall q i, q ∈ ps -> fork_items (fork_db n) !! q = Some i -> item_id i <> id).
Proof.
  induction ps as [|p ps IH]; cbn [remove_items]; intros n Hok Hin.
  { exists (fork_db n). split_and!; [by destruct n|done|done|]. intros id q. split; [|by intros [? _]].
    intros Hq. split; [done|]. by intros ? ? ?%not_elem_of_nil. }
  destruct (Hin p) as [i Hi]; [left|]. unfold item_at. rewrite Hi. cbn [of_option].
  assert (exists db1, ForkDb.remove (fork_db n) (item_id i) = Ok db1 /\ fork_items db1 = fork_items (fork_db n)) as (db1 & E1 & Hit1).
  { unfold ForkDb.remove. set (db0 := (fork_db n) <| fork_index ::= _ |>). change (fork_head db0) with (fork_head (fork_db n)).
    destruct (fork_head (fork_db n)) as [h|] eqn:Hh; [|by exists db0]. destruct (fo_head _ _ Hok h Hh) as [j Hj].
    unfold item_at. change (fork_items db0) with (fork_items (fork_db n)). rewrite Hj. cbn [of_option rbind].
    destruct (bool_decide _); [|by exists db0]. destruct (ForkDb.pop_block db0) as [db2|] eqn:Ep; [|by eexists].
    exists db2. split; [done|]. unfold ForkDb.pop_block in Ep. change (fork_head db0) with (fork_head (fork_db n)) in Ep.
    rewrite Hh in Ep. cbn [rbind] in Ep. unfold item_at in Ep. change (fork_items db0) with (fork_items (fork_db n)) in Ep.
    rewrite Hj in Ep. cbn [of_option rbind] in Ep. destruct (lock _ _); [|done]. by injection Ep as <-. }
  rewrite E1. destruct (remove_ok header_hash _ _ _ Hok E1) as [Hok1 Hidx1].
  destruct (IH (n <| fork_db := db1 |>)) as (db' & -> & Hok' & Hit' & Hidx').
  { exact Hok1. }
  { intros q Hq. cbn. rewrite Hit1. apply Hin. by right. }
  exists db'. split_and!; [done|done|cbn in Hit'; congruence|]. intros id q. rewrite Hidx'. cbn. rewrite Hidx1, Hit1, lookup_delete_Some.
  split.
  - intros [[Hne Hq] Hps]. split; [done|]. intros r j [->|Hr]%elem_of_cons Hj; [congruence|by eapply Hps].
  - intros [Hq Hps]. split_and!; [|done|].
    + apply (Hps p i); [left|done].
    + intros r j Hr. apply Hps. by right.
Qed.

(** ** The states of the chain *)

(** [linked s u bs]: [s] and the states [u] before it, the latest first, are what applying
    the blocks [bs] leads to. *)
Inductive linked : S -> list S -> list (signed_block T) -> Prop :=
  | linked_start s : covered s -> linked s [] []
  | linked_block s s' u b bs k : machine_apply_block s b = (k, Ok s') -> covered s' -> linked s u bs -> linked s' (s :: u) (b :: bs).

Lemma linked_length s u bs : linked s u bs -> length u = length bs.
Proof. induction 1; cbn; congruence. Qed.

Lemma linked_covered s u bs : linked s u bs -> covered s.
Proof. by inversion 1. Qed.

Lemma linked_take s u bs k : linked s u bs -> linked s (take k u) (take k bs).
Proof.
  intros Hl. revert k. induction Hl as [s Hc|s s' u b bs size Hm Hc Hl IH]; intros k; [rewrite !take_nil; by constructor|].
  destruct k as [|k]; cbn; [by constructor|]. econstructor; [done|done|apply IH].
Qed.

Lemma linked_head s u b bs : linked s u (b :: bs) -> head_of s = block_id_of header_hash b.
Proof. inversion 1; subst. unfold head_of. by eapply apply_block_head. Qed.

Lemma run_snoc l b k s' : forall a ss, run a l = Some ss -> machine_apply_block (hd a ss) b = (k, Ok s') ->
  run a (l ++ [b]) = Some (s' :: ss).
Proof.
  induction l as [|b0 l IH]; cbn; intros a ss Hr Hm.
  - injection Hr as <-. cbn in Hm. by rewrite Hm.
  - destruct (machine_apply_block a b0) as [k0 [s0|e]]; [|done]. cbn in *. destruct (run s0 l) as [ss0|] eqn:Er; [|done].
    injection Hr as <-. rewrite (IH s0 ss0 Er); [done|]. destruct ss0; exact Hm.
Qed.

(** The last [m] blocks lead from an earlier state to this one. *)
Lemma linked_split m : forall s u bs, linked s u bs -> (m <= length bs)%nat ->
  exists ss a u', s :: u = ss ++ a :: u' /\ length ss = m /\ run a (rev (take m bs)) = Some ss /\ linked a u' (drop m bs).
Proof.
  induction m as [|m IH]; intros s u bs Hl Hm; [by exists [], s, u|].
  inversion Hl as [|s0 s' u0 b bs0 k Hap _ Hl0]; subst; cbn [length] in Hm; [lia|].
  destruct (IH s0 u0 bs0 Hl0 ltac:(lia)) as (ss & a & u' & Hss & Hlen & Hrun & Hl'). exists (s :: ss), a, u'.
  cbn [take rev drop length app]. rewrite Hss. split_and!; [done|congruence| |done]. apply (run_snoc _ b k s); [done|].
  assert (hd a ss = s0) as -> by (destruct ss; by injection Hss). done.
Qed.

Lemma linked_run bs : forall a u bs0 ss s u', linked a u bs0 -> run a bs = Some ss -> Forall covered ss -> s :: u' = ss ++ a :: u ->
  linked s u' (rev bs ++ bs0).
Proof.
  induction bs as [|b bs IH]; cbn; intros a u bs0 ss s u' Hl Hr Hc Hs.
  - injection Hr as <-. injection Hs as -> ->. done.
  - destruct (machine_apply_block a b) as [k [s1|e]] eqn:Em; [|done]. cbn in Hr. destruct (run s1 bs) as [ss1|] eqn:Er; [|done].
    injection Hr as <-. apply Forall_app in Hc as [Hc Hc1]. inversion Hc1; subst; clear Hc1. rewrite <- app_assoc in *. cbn in *.
    apply (IH s1 (a :: u) (b :: bs0) ss1); [eapply linked_block; [exact Em|done|exact Hl]|done|done|done].
Qed.

(** ** A node whose chain and fork database agree *)

Record consistent (n : node) (bs : list (signed_block T)) : Prop := {
  co_fork : fork_ok header_hash (fork_db n);
  co_linked : linked (chain_state n) (undo_history n) bs;
  co_known : forall b p i, b ∈ bs -> fork_index (fork_db n) !! block_id_of header_hash b = Some p ->
    fork_items (fork_db n) !! p = Some i -> item_data i = b;
  co_head : exists h, fork_head (fork_db n) = Some h /\ fork_index (fork_db n) !! head_id n = Some h;
  co_top : forall id p, fork_index (fork_db n) !! id = Some p -> num_of (fork_db n) p <= head_num n;
  co_num : head_num n = num_from_id (head_id n);
  co_positive : 0 < head_num n;
  co_session : pending_session n = None;
}.

(** The node after a block of another fork, one higher than the head, has been pushed. *)
Record switching (n : node) (bs : list (signed_block T)) (b : signed_block T) (p : item_ptr) : Prop := {
  sw_fork : fork_ok header_hash (fork_db n);
  sw_linked : linked (chain_state n) (undo_history n) bs;
  sw_known : forall b p i, b ∈ bs -> fork_index (fork_db n) !! block_id_of header_hash b = Some p ->
    fork_items (fork_db n) !! p = Some i -> item_data i = b;
  sw_old : is_Some (fork_index (fork_db n) !! head_id n);
  sw_head : fork_head (fork_db n) = Some p;
  sw_item : exists i, fork_items (fork_db n) !! p = Some i /\ item_data i = b;
  sw_index : fork_index (fork_db n) !! block_id_of header_hash b = Some p;
  sw_top : forall id r, fork_index (fork_db n) !! id = Some r -> num_of (fork_db n) r <= head_num n \/ r = p;
  sw_num : head_num n = num_from_id (head_id n);
  sw_positive : 0 < head_num n;
  sw_above : block_num b = head_num n + 1;
  sw_prev : previous b <> head_id n;
  sw_session : pending_session n = None;
}.

Lemma item_num_id db p i : fork_ok header_hash db -> fork_items db !! p = Some i -> num_of db p = num_from_id (item_id i).
Proof.
  intros Hok Hi. destruct (fo_items _ _ Hok _ _ Hi) as (_ & Hn & ->). by rewrite (num_of_item _ _ _ Hi).
Qed.

(** An owned item other than the head is in the index under its identifier. *)
Lemma lock_index db p i q j : fork_ok header_hash db -> fork_items db !! p = Some i -> lock db (item_prev i) = Some q ->
  fork_items db !! q = Some j -> fork_head db <> Some q -> fork_index db !! item_id j = Some q.
Proof.
  intros Hok Hi Hl Hj Hh. unfold lock in Hl. apply bind_Some in Hl as (q' & Hq & Hb).
  destruct (bool_decide _) eqn:Ho; [|done]. injection Hb as ->. apply bool_decide_eq_true in Ho as [Ho|Ho]; [done|].
  destruct Ho as (id & r & Hr & ->). destruct (fo_index _ _ Hok _ _ Hr) as (j' & Hj' & <-). congruence.
Qed.

Lemma path_snoc (db : @fork_database T) a l c : path db a l c ->
  l = [] /\ a = c \/ exists l' w i, l = l' ++ [w] /\ path db a l' w /\ fork_items db !! w = Some i /\ lock db (item_prev i) = Some c.
Proof.
  induction 1 as [a|a i q l c Hi Hq Hp IH]; [by left|right]. destruct IH as [[-> ->]|(l' & w & j & -> & Hw & Hj & Hc)].
  - exists [], a, i. split_and!; [done|constructor|done|done].
  - exists (a :: l'), w, j. split_and!; [done|by econstructor|done|done].
Qed.

Lemma linked_lookup s u bs i s' b : linked s u bs -> (s :: u) !! i = Some s' -> bs !! i = Some b ->
  head_of s' = block_id_of header_hash b.
Proof.
  intros Hl. revert i. induction Hl as [s _|s0 s1 u b0 bs k Hm _ Hl IH]; intros i Hs Hb; [done|].
  destruct i as [|i]; cbn in *; [|by apply (IH i)]. injection Hs as <-. injection Hb as <-. unfold head_of. by eapply apply_block_head.
Qed.

Lemma linked_previous s u bs i a b : linked s u bs -> (s :: u) !! Datatypes.S i = Some a -> bs !! i = Some b -> head_of a = previous b.
Proof.
  intros Hl. revert i. induction Hl as [s _|s0 s1 u b0 bs k Hm _ Hl IH]; intros i Hs Hb; [done|].
  destruct i as [|i]; cbn in *; [|by apply (IH i)]. injection Hs as <-. injection Hb as <-. unfold head_of. by eapply apply_block_head.
Qed.

(** The items back from the head of the chain are those of the blocks of its history. *)
Lemma path_blocks n bs b p q l y : switching n bs b p -> path (fork_db n) q l y -> forall s u bs',
  linked s u bs' -> (forall x, x ∈ bs' -> x ∈ bs) -> fork_index (fork_db n) !! head_of s = Some q ->
  num_of (fork_db n) q < num_of (fork_db n) p -> (length l < length bs')%nat ->
  Forall2 (fun r b' => exists i, fork_items (fork_db n) !! r = Some i /\ item_data i = b'
     /\ fork_index (fork_db n) !! block_id_of header_hash b' = Some r) (l ++ [y]) (take (Datatypes.S (length l)) bs').
Proof.
  intros Hsw. pose proof (sw_fork _ _ _ _ Hsw) as Hok. induction 1 as [q|q i q' l y Hi Hq Hp IH]; intros s u bs' Hl Hsub Hidx Hnum Hlen;
    (destruct Hl as [s _|s0 s u b0 bs0 k Hm _ Hl]; cbn [length] in Hlen; [lia|]);
    (assert (head_of s = block_id_of header_hash b0) as Hhead by (unfold head_of; by eapply apply_block_head)); rewrite Hhead in Hidx;
    destruct (fo_index _ _ Hok _ _ Hidx) as (j & Hj & Hjid);
    (assert (item_data j = b0) as Hdata by (apply (sw_known _ _ _ _ Hsw b0 q j); [apply Hsub; left|done|done])).
  - cbn. constructor; [by exists j|constructor].
  - assert (j = i) as -> by congruence. cbn [app length take]. constructor; [by exists i|].
    destruct (lock_prev header_hash _ q i q' Hok Hi Hq) as (Hprev & [j' Hj'] & Hn & _).
    destruct (prev_num header_hash _ q i q' j' Hok Hi Hprev Hj') as [_ Hid'].
    apply (IH s0 u bs0); [done|intros x Hx; apply Hsub; by right| |lia|lia].
    assert (head_of s0 = item_id j') as -> by (rewrite Hid', Hdata; unfold head_of; by eapply apply_block_head).
    apply (lock_index _ q i q' j' Hok Hi Hq Hj'). rewrite (sw_head _ _ _ _ Hsw). intros [= <-]. lia.
Qed.

(** The numbers of the items of a path. *)
Lemma path_member db a l c r : fork_ok header_hash db -> path db a l c -> r ∈ l ++ [c] ->
  exists m, path db a m r /\ num_of db c <= num_of db r <= num_of db a
    /\ (num_of db a - num_of db r) = Z.of_nat (length m) /\ (length m <= length l)%nat.
Proof.
  intros Hok. induction 1 as [a|a i q l c Hi Hq Hp IH]; intros Hr.
  - apply list_elem_of_singleton in Hr as ->. exists []. split_and!; [constructor|lia|lia|cbn; lia|cbn; lia].
  - destruct (lock_prev header_hash _ a i q Hok Hi Hq) as (_ & _ & Hn & _). pose proof (path_num header_hash db q l c Hok Hp).
    cbn [app] in Hr. apply elem_of_cons in Hr as [->|Hr].
    + exists []. cbn [length]. split_and!; [constructor|lia|lia|lia|lia].
    + destruct (IH Hr) as (m & Hm & ? & ? & ?). exists (a :: m). cbn [length]. split_and!; [by econstructor|lia|lia|lia|lia].
Qed.

Lemma path_end_same db a l c l' c' : fork_ok header_hash db -> path db a l c -> path db a l' c' -> num_of db c = num_of db c' -> c = c' /\ l = l'.
Proof.
  intros Hok Hp Hp' Hn. destruct (path_through header_hash db a l c l' c' Hok Hp Hp' ltac:(lia)) as (m & -> & Hm).
  pose proof (path_num header_hash db c m c' Hok Hm). destruct m; [|cbn in *; lia]. inversion Hm; subst. by rewrite app_nil_r.
Qed.

(** The two branches have no item in common. *)
Lemma branches_disjoint n bs b p q l1 x l2 y r : switching n bs b p -> fork_index (fork_db n) !! head_id n = Some q ->
  meet (fork_db n) p q l1 x l2 y ->
  (forall m1 x' m2 y', meet (fork_db n) p q m1 x' m2 y' -> num_of (fork_db n) x' <= num_of (fork_db n) x) ->
  r ∈ l1 ++ [x] -> r ∈ l2 ++ [y] -> False.
Proof.
  intros Hsw Hq [M1 M2 M3 M4] Hmax Hr1 Hr2. pose proof (sw_fork _ _ _ _ Hsw) as Hok.
  destruct (sw_item _ _ _ _ Hsw) as (ip & Hip & Hb). destruct (fo_index _ _ Hok _ _ Hq) as (iq & Hiq & Hidq). set (db := fork_db n) in *.
  assert (num_of db p = num_of db q + 1) as Hpq.
  { destruct (fo_items _ _ Hok _ _ Hip) as (_ & Hn & _). rewrite (num_of_item _ _ _ Hip), Hn, Hb, (sw_above _ _ _ _ Hsw).
    rewrite (item_num_id db q iq Hok Hiq), Hidq. by rewrite (sw_num _ _ _ _ Hsw). }
  destruct (path_member db p l1 x r Hok M1 Hr1) as (m1 & Pm1 & Hnr1 & _). destruct (path_member db q l2 y r Hok M2 Hr2) as (m2 & Pm2 & Hnr2 & _).
  assert (num_of db r <= num_of db x) as Hle by (apply (Hmax m1 r m2 r); by split).
  destruct (path_end_same db p l1 x m1 r Hok M1 Pm1) as [-> ->]; [lia|].
  destruct (path_end_same db q l2 y m2 r Hok M2 Pm2) as [-> ->]; [lia|].
  destruct (path_snoc db p m1 r M1) as [[-> ->]|(l1' & w & iw & -> & Pw & Hiw & Hlw)]; [pose proof (path_num header_hash db q m2 r Hok M2); lia|].
  destruct (lock_prev header_hash db w iw r Hok Hiw Hlw) as (Hpw & [ir Hir] & Hnw & _).
  destruct (prev_num header_hash db w iw r ir Hok Hiw Hpw Hir) as [_ Hidw].
  destruct (path_snoc db q m2 r M2) as [[-> ->]|(l2' & v & iv & -> & Pv & Hiv & Hlv)].
  - assert (w = p) as ->.
    { pose proof (path_num header_hash db p l1' w Hok Pw). destruct l1'; [by inversion Pw|cbn in *; lia]. }
    assert (iw = ip) as -> by congruence. assert (ir = iq) as -> by congruence.
    apply (sw_prev _ _ _ _ Hsw). rewrite <- Hb, <- Hidw. exact Hidq.
  - destruct (lock_prev header_hash db v iv r Hok Hiv Hlv) as (Hpv & _ & Hnv & _).
    destruct (prev_num header_hash db v iv r ir Hok Hiv Hpv Hir) as [_ Hidv].
    assert (num_of db w <= num_of db r); [|lia]. apply (Hmax l1' w l2' v). split; [done|done|lia|].
    unfold prev_id. rewrite Hiw, Hiv. cbn. congruence.
Qed.

Lemma path_front (db : @fork_database T) a l c : path db a l c -> exists t, l ++ [c] = a :: t.
Proof. inversion 1; subst; by eexists. Qed.

Lemma path_nodup db a l c : fork_ok header_hash db -> path db a l c -> NoDup (l ++ [c]).
Proof.
  intros Hok. induction 1 as [a|a i q l c Hi Hq Hp IH]; [apply NoDup_singleton|]. cbn. apply NoDup_cons. split; [|done].
  intros Hin. destruct (path_member db q l c a Hok Hp Hin) as (m & _ & Hn & _).
  destruct (lock_prev header_hash db a i q Hok Hi Hq) as (_ & _ & ? & _). lia.
Qed.

(** Every item of a path is in the index under its identifier, when its start is and no
    later one is the head. *)
Lemma path_indexed db a l c : fork_ok header_hash db -> path db a l c ->
  (forall i, fork_items db !! a = Some i -> fork_index db !! item_id i = Some a) ->
  (forall h, fork_head db = Some h -> num_of db a <= num_of db h) ->
  forall r i, r ∈ l ++ [c] -> fork_items db !! r = Some i -> fork_index db !! item_id i = Some r.
Proof.
  intros Hok. induction 1 as [a|a j q l c Hj Hq Hp IH]; intros Ha Hh r i Hr Hi.
  - apply list_elem_of_singleton in Hr as ->. by apply Ha.
  - destruct (lock_prev header_hash db a j q Hok Hj Hq) as (_ & _ & Hn & _).
    cbn in Hr. apply elem_of_cons in Hr as [->|Hr]; [by apply Ha|]. apply (IH) ; [| |done|done].
    + intros i' Hi'. apply (lock_index db a j q i' Hok Hj Hq Hi'). intros Hhq. specialize (Hh q Hhq). lia.
    + intros h Hh'. specialize (Hh h Hh'). lia.
Qed.

(** What is known of the two branches once they are found. *)
Record branches (n : node) (bs : list (signed_block T)) (p q : item_ptr) (f g : list item_ptr) (bs1 : list (signed_block T))
    (ss : list S) (a : S) (u : list S) : Prop := {
  br_history : chain_state n :: undo_history n = ss ++ a :: u;
  br_length : length ss = length g;
  br_run : run a (rev (take (length g) bs)) = Some ss;
  br_linked : linked a u (drop (length g) bs);
  br_old : Forall2 (fun r b' => exists i, fork_items (fork_db n) !! r = Some i /\ item_data i = b'
     /\ fork_index (fork_db n) !! block_id_of header_hash b' = Some r) g (take (length g) bs);
  br_new : Forall2 (fun r b' => exists i, fork_items (fork_db n) !! r = Some i /\ item_data i = b'
     /\ fork_index (fork_db n) !! block_id_of header_hash b' = Some r) f bs1;
  br_root : branch_root (fork_db n) g = Ok (head_of a);
  br_nodup : NoDup f;
  br_disjoint : forall r, r ∈ f -> r ∈ g -> False;
  br_front : exists f' g', f = p :: f' /\ g = q :: g';
  br_old_num : forall r, r ∈ g -> num_of (fork_db n) r <> num_from_id (head_of a)
     /\ num_of (fork_db n) p - Z.of_nat (length g) <= num_of (fork_db n) r < num_of (fork_db n) p;
  br_new_num : forall r, r ∈ f -> num_of (fork_db n) r <> num_from_id (head_of a)
     /\ num_of (fork_db n) p - Z.of_nat (length f) < num_of (fork_db n) r <= num_of (fork_db n) p;
}.

(** No block at or above the end of a branch has the number of the block that end follows. *)
Lemma number_above (b : signed_block T) k : block_num b <= k < 2 ^ 32 - 1 -> k <> num_from_id (previous b).
Proof.
  intros Hk E. subst k. unfold block_num in Hk. pose proof (block_num_bounds b) as Hb. unfold block_num in Hb.
  rewrite u32_small in Hk; lia.
Qed.

Lemma branches_found fuel n bs b p f g bs1 : switching n bs b p -> block_num b < 2 ^ 32 - 1 ->
  (forall r, num_of (fork_db n) r < Z.of_nat fuel) ->
  fetch_branch_from fuel (fork_db n) (block_id_of header_hash b) (head_id n) = Some (Ok (f, g)) ->
  Forall2 (fun r b' => exists i, fork_items (fork_db n) !! r = Some i /\ item_data i = b') f bs1 ->
  (length g <= length (undo_history n))%nat ->
  exists q ss a u, fork_index (fork_db n) !! head_id n = Some q /\ branches n bs p q f g bs1 ss a u.
Proof.
  intros Hsw Hb32 Hf E Hbs1 Hlen. pose proof (sw_fork _ _ _ _ Hsw) as Hok.
  destruct (fetch_branch_spec header_hash (fork_db n) fuel (block_id_of header_hash b) (head_id n) Hok Hf) as (r & Er & Hr).
  rewrite E in Er. injection Er as <-. destruct Hr as (p' & q & l1 & x & l2 & y & Hp' & Hq & -> & -> & Hmeet & Hmax).
  rewrite (sw_index _ _ _ _ Hsw) in Hp'. injection Hp' as <-. pose proof Hmeet as [M1 M2 M3 M4].
  destruct (sw_item _ _ _ _ Hsw) as (ip & Hip & Hb). destruct (fo_index _ _ Hok _ _ Hq) as (iq & Hiq & Hidq).
  assert (num_of (fork_db n) p = block_num b) as Hpn.
  { destruct (fo_items _ _ Hok _ _ Hip) as (_ & Hn & _). by rewrite (num_of_item _ _ _ Hip), Hn, Hb. }
  assert (num_of (fork_db n) p = num_of (fork_db n) q + 1) as Hpq.
  { rewrite Hpn, (sw_above _ _ _ _ Hsw), (item_num_id _ q iq Hok Hiq), Hidq. by rewrite (sw_num _ _ _ _ Hsw). }
  pose proof (linked_length _ _ _ (sw_linked _ _ _ _ Hsw)) as Hul. set (m := length (l2 ++ [y])) in *.
  assert (m = Datatypes.S (length l2)) as Hm by (unfold m; rewrite length_app; cbn; lia).
  destruct (linked_split m _ _ _ (sw_linked _ _ _ _ Hsw) ltac:(lia)) as (ss & a & u & Hss & Hssl & Hrun & Hlink).
  assert (Forall2 (fun r b' => exists i, fork_items (fork_db n) !! r = Some i /\ item_data i = b'
     /\ fork_index (fork_db n) !! block_id_of header_hash b' = Some r) (l2 ++ [y]) (take m bs)) as Hold.
  { rewrite Hm. apply (path_blocks n bs b p q l2 y Hsw M2 (chain_state n) (undo_history n) bs); [apply Hsw|done|exact Hq|lia|lia]. }
  (* the block the old branch follows *)
  destruct (lookup_lt_is_Some_2 bs (length l2)) as [by' Hby]; [lia|].
  assert (exists iy, fork_items (fork_db n) !! y = Some iy /\ item_data iy = by') as (iy & Hiy & Hdy).
  { destruct (Forall2_lookup_l _ _ _ (length l2) y Hold) as (b' & Hb' & i & Hi & Hd & _); [by apply list_lookup_middle|].
    rewrite lookup_take_Some in Hb'. exists i. split; [done|]. destruct Hb' as [Hb' _]. congruence. }
  assert (head_of a = previous by') as Hroot.
  { apply (linked_previous (chain_state n) (undo_history n) bs (length l2)); [apply Hsw| |done].
    rewrite Hss, lookup_app_r by lia. by replace (Datatypes.S (length l2) - length ss)%nat with 0%nat by lia. }
  assert (forall k, num_of (fork_db n) y <= k < 2 ^ 32 - 1 -> k <> num_from_id (head_of a)) as Habove.
  { intros k Hk. rewrite Hroot. apply number_above. destruct (fo_items _ _ Hok _ _ Hiy) as (_ & Hn & _).
    rewrite (num_of_item _ _ _ Hiy), Hn, Hdy in Hk. lia. }
  exists q, ss, a, u. split; [done|]. split; try done.
  - apply Forall2_same_length_lookup in Hbs1 as [Hl1 Hbs1]. apply Forall2_same_length_lookup. split; [done|].
    intros k r b' Hr Hb'. destruct (Hbs1 k r b' Hr Hb') as (i & Hi & Hd). exists i. split_and!; [done|done|].
    rewrite <- Hd. destruct (fo_items _ _ Hok _ _ Hi) as (_ & _ & <-).
    apply (path_indexed (fork_db n) p l1 x Hok M1); [| |by eapply list_elem_of_lookup_2|done].
    + intros i' Hi'. assert (i' = ip) as -> by congruence. destruct (fo_items _ _ Hok _ _ Hip) as (_ & _ & ->). rewrite Hb. apply Hsw.
    + intros h Hh. rewrite (sw_head _ _ _ _ Hsw) in Hh. injection Hh as <-. lia.
  - unfold branch_root. rewrite last_snoc. cbn [of_option rbind]. unfold item_at. rewrite Hiy. cbn. by rewrite Hdy, Hroot.
  - by apply (path_nodup (fork_db n) p l1 x).
  - intros r. by apply (branches_disjoint n bs b p q l1 x l2 y).
  - destruct (path_front _ _ _ _ M1) as [f' ->]. destruct (path_front _ _ _ _ M2) as [g' ->]. by exists f', g'.
  - intros r Hr. destruct (path_member (fork_db n) q l2 y r Hok M2 Hr) as (k & _ & Hk1 & Hk2 & Hk3). split; [apply Habove; lia|lia].
  - intros r Hr. destruct (path_member (fork_db n) p l1 x r Hok M1 Hr) as (k & _ & Hk1 & Hk2 & Hk3). split; [apply Habove; lia|].
    rewrite length_app. cbn. lia.
Qed.

(** *** Going back to where the branches part *)

Lemma switch_pop n bs b p q f g bs1 ss a u : switching n bs b p -> fork_index (fork_db n) !! head_id n = Some q ->
  branches n bs p q f g bs1 ss a u ->
  exists n1, pop_until (Datatypes.S (length (undo_history n))) (head_of a) n = (n1, Ok tt)
    /\ chain_state n1 = a /\ undo_history n1 = u /\ fork_db n1 = fork_db n /\ same_pending n n1 /\ undo_max_size n1 = undo_max_size n.
Proof.
  intros Hsw Hq Hbr. pose proof (sw_fork _ _ _ _ Hsw) as Hok. destruct (sw_item _ _ _ _ Hsw) as (ip & Hip & Hb).
  apply (pop_until_spec (head_of a) ss n _ a u p ip); [apply Hsw|apply Hsw|done|apply Hbr| |done|].
  - pose proof (f_equal length (br_history _ _ _ _ _ _ _ _ _ _ Hbr)) as Hl. rewrite length_app in Hl. cbn in Hl. lia.
  - intros s [k Hk]%list_elem_of_lookup.
    destruct (lookup_lt_is_Some_2 g k) as [r Hr]; [rewrite <- (br_length _ _ _ _ _ _ _ _ _ _ Hbr); by apply lookup_lt_Some in Hk|].
    destruct (Forall2_lookup_l _ _ _ k r (br_old _ _ _ _ _ _ _ _ _ _ Hbr) Hr) as (b' & Hb' & i & Hi & Hd & Hidx).
    apply lookup_take_Some in Hb' as [Hb' _].
    assert (head_of s = block_id_of header_hash b') as Hhs.
    { apply (linked_lookup (chain_state n) (undo_history n) bs k); [apply Hsw| |done].
      rewrite (br_history _ _ _ _ _ _ _ _ _ _ Hbr). by apply lookup_app_l_Some. }
    assert (num_from_id (head_of s) = num_of (fork_db n) r) as Hns.
    { rewrite (item_num_id _ r i Hok Hi). destruct (fo_items _ _ Hok _ _ Hi) as (_ & _ & ->). by rewrite Hhs, Hd. }
    apply list_elem_of_lookup_2 in Hr. destruct (br_old_num _ _ _ _ _ _ _ _ _ _ Hbr r Hr) as [Hne [_ Hlt]]. split_and!.
    + intros E. apply Hne. by rewrite <- Hns, E.
    + intros E. rewrite E, <- (item_num_id _ p ip Hok Hip) in Hns. lia.
    + exists r, i. by rewrite Hhs.
Qed.

(** *** A switch that succeeds *)

Lemma run_number bs : forall s ss, run s bs = Some ss -> forall s', s' ∈ ss ->
  head_block_number (schedule_of s') = num_from_id (head_of s').
Proof.
  induction bs as [|b bs IH]; cbn; intros s ss E s' Hs'; [injection E as <-; by apply not_elem_of_nil in Hs'|].
  destruct (machine_apply_block s b) as [k [s1|e]] eqn:Em; [|done]. cbn in E. destruct (run s1 bs) as [ss1|] eqn:Er; [|done].
  injection E as <-. apply elem_of_app in Hs' as [Hs'|Hs'%list_elem_of_singleton]; [by apply (IH s1 ss1)|]. subst s'.
  destruct (apply_block_head _ _ _ _ Em) as (_ & H1 & H2). unfold head_of. by rewrite H1, H2, num_from_block_id.
Qed.

Lemma switch_success depth n bs b p q f g bs1 ss a u n2 ss1 k : switching n bs b p -> fork_index (fork_db n) !! head_id n = Some q ->
  branches n bs p q f g bs1 ss a u -> 0 <= depth -> fork_keeps depth (fork_db n) (fork_db n2) -> same_pending n n2 ->
  run a (rev bs1) = Some ss1 -> Forall covered ss1 -> chain_state n2 :: undo_history n2 = ss1 ++ a :: take k u ->
  consistent n2 (bs1 ++ take k (drop (length g) bs)) /\ head_id n2 = block_id_of header_hash b.
Proof.
  intros Hsw Hq Hbr Hd Hk Hsp Hrun Hcovs Hhist. pose proof (sw_fork _ _ _ _ Hsw) as Hok.
  destruct (sw_item _ _ _ _ Hsw) as (ip & Hip & Hb). destruct (br_front _ _ _ _ _ _ _ _ _ _ Hbr) as (f' & g' & Ef & Eg).
  assert (exists bs1', bs1 = b :: bs1') as [bs1' Ebs1].
  { pose proof (br_new _ _ _ _ _ _ _ _ _ _ Hbr) as Hnew. rewrite Ef in Hnew.
    apply Forall2_cons_inv_l in Hnew as (b' & bs1' & (i & Hi & Hd' & _) & _ & ->). exists bs1'. f_equal. congruence. }
  pose proof (run_heads _ _ _ Hrun) as Hheads. rewrite map_rev, rev_involutive, Ebs1 in Hheads.
  destruct ss1 as [|s1 ss1]; [done|]. cbn in Hheads. injection Hheads as Hs1 _. cbn in Hhist. injection Hhist as Hc Hu.
  assert (head_id n2 = block_id_of header_hash b) as Hid by (unfold head_id; by rewrite Hc).
  assert (head_num n2 = block_num b) as Hnum.
  { unfold head_num. rewrite Hc. rewrite (run_number _ _ _ Hrun s1) by left. by rewrite Hs1, num_from_block_id. }
  split; [|done]. split.
  - by apply (fk_ok _ _ _ Hk).
  - rewrite <- (rev_involutive bs1). apply (linked_run (rev bs1) a (take k u) _ (s1 :: ss1)); [|done|done|by rewrite Hu, Hc].
    apply linked_take. apply (br_linked _ _ _ _ _ _ _ _ _ _ Hbr).
  - intros b' r i Hb' Hr Hi. rewrite (fk_items _ _ _ Hk) in Hi. pose proof (lookup_weaken _ _ _ _ Hr (fk_index _ _ _ Hk)) as Hr'.
    apply elem_of_app in Hb' as [Hb'|Hb'].
    + apply list_elem_of_lookup in Hb' as [j Hj].
      destruct (Forall2_lookup_r _ _ _ j b' (br_new _ _ _ _ _ _ _ _ _ _ Hbr) Hj) as (r' & _ & i' & Hi' & Hd' & Hidx'). congruence.
    + apply (sw_known _ _ _ _ Hsw b' r i); [|done|done]. apply elem_of_take in Hb' as (j & Hj & _).
      rewrite lookup_drop in Hj. by eapply list_elem_of_lookup_2.
  - exists p. rewrite (fk_head _ _ _ Hk), Hid. split; [apply Hsw|].
    apply (fk_kept _ _ _ Hk p ip); [apply Hsw|done|apply Hsw|rewrite (num_of_item _ _ _ Hip); lia].
  - intros id r Hr. rewrite (fork_keeps_num _ _ _ _ Hk), Hnum, (sw_above _ _ _ _ Hsw).
    pose proof (lookup_weaken _ _ _ _ Hr (fk_index _ _ _ Hk)) as Hr'. destruct (sw_top _ _ _ _ Hsw id r Hr') as [| ->]; [lia|].
    destruct (fo_items _ _ Hok _ _ Hip) as (_ & Hn & _). rewrite (num_of_item _ _ _ Hip), Hn, Hb, (sw_above _ _ _ _ Hsw). lia.
  - by rewrite Hid, Hnum, num_from_block_id.
  - rewrite Hnum, (sw_above _ _ _ _ Hsw). pose proof (sw_positive _ _ _ _ Hsw). lia.
  - rewrite (sp_session _ _ Hsp). apply Hsw.
Qed.

(** *** A switch that fails *)

(** Removing the blocks that fail leaves the others of the new branch and the old branch. *)
Lemma switch_remove depth n bs b p q f g bs1 ss a u n2 done rest : switching n bs b p -> fork_index (fork_db n) !! head_id n = Some q ->
  branches n bs p q f g bs1 ss a u -> Z.of_nat (length f) <= depth -> Z.of_nat (length g) <= depth ->
  fork_keeps depth (fork_db n) (fork_db n2) -> rev f = done ++ rest -> rest <> [] ->
  exists db3, remove_items rest n2 = (n2 <| fork_db := db3 |>, Ok tt) /\ fork_ok header_hash db3
    /\ fork_items db3 = fork_items (fork_db n) /\ fork_index db3 ⊆ fork_index (fork_db n)
    /\ (forall id r, fork_index db3 !! id = Some r -> num_of (fork_db n) r <= head_num n)
    /\ forall r i, r ∈ done \/ r ∈ g -> fork_items (fork_db n) !! r = Some i -> fork_index db3 !! item_id i = Some r.
Proof.
  intros Hsw Hq Hbr Hdf Hdg Hk Hrev Hrest. pose proof (sw_fork _ _ _ _ Hsw) as Hok. destruct (sw_item _ _ _ _ Hsw) as (ip & Hip & Hb).
  destruct (br_front _ _ _ _ _ _ _ _ _ _ Hbr) as (f' & g' & Ef & Eg).
  assert (forall r, r ∈ f <-> r ∈ done \/ r ∈ rest) as Hf by (intros r; rewrite <- elem_of_app, <- Hrev; by rewrite <- (Permutation_rev f)).
  assert (NoDup (done ++ rest)) as Hnd by (rewrite <- Hrev, <- (Permutation_rev f); apply Hbr).
  assert (p ∈ rest) as Hp.
  { rewrite Ef in Hrev. cbn in Hrev. destruct (exists_last Hrest) as (rest' & z & ->). rewrite app_assoc in Hrev.
    apply app_inj_tail in Hrev as [_ ->]. apply elem_of_app. right. left. }
  assert (forall r, r ∈ f \/ r ∈ g -> exists i, fork_items (fork_db n) !! r = Some i
    /\ fork_index (fork_db n) !! item_id i = Some r) as Hindexed.
  { intros r [[j Hj]%list_elem_of_lookup|[j Hj]%list_elem_of_lookup].
    - destruct (Forall2_lookup_l _ _ _ j r (br_new _ _ _ _ _ _ _ _ _ _ Hbr) Hj) as (b' & _ & i & Hi & Hd & Hidx).
      exists i. split; [done|]. destruct (fo_items _ _ Hok _ _ Hi) as (_ & _ & ->). by rewrite Hd.
    - destruct (Forall2_lookup_l _ _ _ j r (br_old _ _ _ _ _ _ _ _ _ _ Hbr) Hj) as (b' & _ & i & Hi & Hd & Hidx).
      exists i. split; [done|]. destruct (fo_items _ _ Hok _ _ Hi) as (_ & _ & ->). by rewrite Hd. }
  destruct (remove_items_spec rest n2) as (db3 & E3 & Hok3 & Hit3 & Hidx3); [by apply (fk_ok _ _ _ Hk)| |].
  { intros r Hr. rewrite (fk_items _ _ _ Hk). destruct (Hindexed r) as (i & Hi & _); [left; apply Hf; by right|by eexists]. }
  rewrite (fk_items _ _ _ Hk) in Hit3, Hidx3.
  exists db3. split_and!; [done|done|done| | |].
  - apply map_subseteq_spec. intros id r Hr. apply Hidx3 in Hr as [Hr _]. by eapply lookup_weaken; [|apply Hk].
  - intros id r Hr. apply Hidx3 in Hr as [Hr Hno]. pose proof (lookup_weaken _ _ _ _ Hr (fk_index _ _ _ Hk)) as Hr'.
    destruct (sw_top _ _ _ _ Hsw id r Hr') as [|Erp]; [done|]. subst r. exfalso. apply (Hno p ip Hp Hip).
    destruct (fo_index _ _ Hok _ _ Hr') as (i' & Hi' & <-). congruence.
  - intros r i Hr Hi. apply Hidx3.
    assert (fork_index (fork_db n) !! item_id i = Some r) as Hidx.
    { destruct (Hindexed r) as (i' & Hi' & Hx); [destruct Hr as [Hr|Hr]; [left; apply Hf; by left|by right]|]. congruence. }
    split.
    + apply (fk_kept _ _ _ Hk p ip); [apply Hsw|done|done|]. rewrite <- (num_of_item _ _ _ Hip).
      destruct Hr as [Hr|Hr]; [destruct (br_new_num _ _ _ _ _ _ _ _ _ _ Hbr r) as [_ ?]; [apply Hf; by left|lia]
        |destruct (br_old_num _ _ _ _ _ _ _ _ _ _ Hbr r Hr) as [_ ?]; lia].
    + intros r' i' Hr' Hi' E. destruct (Hindexed r') as (i2 & Hi2 & Hx2); [left; apply Hf; by right|].
      assert (r' = r) as -> by congruence. destruct Hr as [Hr|Hr].
      * apply NoDup_app in Hnd as (_ & Hnd & _). by apply (Hnd r).
      * apply (br_disjoint _ _ _ _ _ _ _ _ _ _ Hbr r); [|done]. apply Hf. by right.
Qed.

Lemma Forall2_rev {A B} (P : A -> B -> Prop) l k : Forall2 P l k -> Forall2 P (rev l) (rev k).
Proof. induction 1; cbn; [constructor|]. apply Forall2_app; [done|]. by repeat constructor. Qed.

(** The blocks of the part of the new branch that was applied are popped again. *)
Lemma switch_pop_again n bs b p q iq f g bs1 ss a u n4 done rest ss1 k : switching n bs b p ->
  fork_index (fork_db n) !! head_id n = Some q -> fork_items (fork_db n) !! q = Some iq ->
  branches n bs p q f g bs1 ss a u -> rev f = done ++ rest -> pending_session n4 = None ->
  fork_items (fork_db n4) = fork_items (fork_db n) -> fork_head (fork_db n4) = Some q ->
  (forall r i, r ∈ done -> fork_items (fork_db n) !! r = Some i -> fork_index (fork_db n4) !! item_id i = Some r) ->
  run a (take (length done) (rev bs1)) = Some ss1 -> chain_state n4 :: undo_history n4 = ss1 ++ a :: take k u ->
  exists n5, pop_until (Datatypes.S (length (undo_history n4))) (head_of a) n4 = (n5, Ok tt)
    /\ chain_state n5 = a /\ undo_history n5 = take k u /\ fork_db n5 = fork_db n4 /\ same_pending n4 n5 /\ undo_max_size n5 = undo_max_size n4.
Proof.
  intros Hsw Hq Hiq Hbr Hrev Hps Hit Hhd Hidx Hrun Hhist. pose proof (sw_fork _ _ _ _ Hsw) as Hok.
  apply (pop_until_spec (head_of a) ss1 n4 _ a (take k u) q iq); [done|done|by rewrite Hit|done| |done|].
  - pose proof (f_equal length Hhist) as Hl. rewrite length_app in Hl. cbn in Hl. lia.
  - intros s Hs. pose proof (run_heads _ _ _ Hrun) as Hheads.
    assert (head_of s ∈ map head_of ss1) as Hin by (by apply list_elem_of_fmap_2).
    rewrite Hheads in Hin. rewrite <- Permutation_rev in Hin. apply list_elem_of_fmap in Hin as (b' & Hb' & [j Hj]%list_elem_of_lookup).
    apply lookup_take_Some in Hj as [Hj Hjl].
    destruct (Forall2_lookup_r _ _ _ j b' (Forall2_rev _ _ _ (br_new _ _ _ _ _ _ _ _ _ _ Hbr)) Hj) as (r & Hr & i & Hi & Hd & Hx).
    assert (r ∈ done) as Hrd. { rewrite Hrev, lookup_app_l in Hr by lia. by eapply list_elem_of_lookup_2. }
    assert (r ∈ f) as Hrf by (rewrite (Permutation_rev f), Hrev; apply elem_of_app; by left).
    destruct (fo_items _ _ Hok _ _ Hi) as (_ & _ & Hid). rewrite Hd in Hid. rewrite Hb', <- Hid. split_and!.
    + intros E. destruct (br_new_num _ _ _ _ _ _ _ _ _ _ Hbr r Hrf) as [Hne _]. apply Hne. by rewrite (item_num_id _ r i Hok Hi), E.
    + intros E. apply (br_disjoint _ _ _ _ _ _ _ _ _ _ Hbr r Hrf).
      destruct (br_front _ _ _ _ _ _ _ _ _ _ Hbr) as (_ & g' & _ & ->).
      destruct (fo_index _ _ Hok _ _ Hq) as (iq' & Hiq' & Hidq). assert (iq' = iq) as -> by congruence.
      rewrite <- Hid, E, Hidq, Hq in Hx. injection Hx as ->. left.
    + exists r, i. split; [by apply Hidx|by rewrite Hit].
Qed.

(** The old branch is applied again; its blocks lead to the state they had led to. *)
Lemma switch_restore depth n bs b p q f g bs1 bs2 ss a u n5 done rest k : switching n bs b p ->
  fork_index (fork_db n) !! head_id n = Some q -> branches n bs p q f g bs1 ss a u -> rev f = done ++ rest ->
  branch_items depth (fork_db n) g bs2 -> Z.of_nat (length g) <= depth -> depth <= undo_max_size n5 -> pending_session n5 = None ->
  fork_ok header_hash (fork_db n5) -> fork_items (fork_db n5) = fork_items (fork_db n) -> fork_head (fork_db n5) = Some q ->
  fork_index (fork_db n5) ⊆ fork_index (fork_db n) ->
  (forall id r, fork_index (fork_db n5) !! id = Some r -> num_of (fork_db n) r <= head_num n) ->
  fork_index (fork_db n5) !! head_id n = Some q ->
  chain_state n5 = a -> undo_history n5 = take k u ->
  exists n6 j, restore_branch (rev g) n5 = (n6, Ok tt) /\ chain_state n6 = chain_state n /\ consistent n6 (take j bs) /\ same_pending n5 n6.
Proof.
  intros Hsw Hq Hbr Hrev Hbs2 Hdg Hmax Hps Hok5 Hit Hhd Hsub Htop Hidxq Ha Hu. pose proof (sw_fork _ _ _ _ Hsw) as Hok.
  set (m := length g) in *.
  assert (branch_items depth (fork_db n5) (rev g) (rev (take m bs))) as Hitems.
  { apply (branch_items_same depth (fork_db n)); [done|]. apply Forall2_rev. apply Forall2_same_length_lookup.
    pose proof (br_old _ _ _ _ _ _ _ _ _ _ Hbr) as Hold. fold m in Hold. apply Forall2_same_length_lookup in Hold as [Hlen Hold].
    split; [done|]. intros j r b' Hr Hb'. destruct (Hold j r b' Hr Hb') as (i & Hi & Hd & _).
    destruct (Forall2_lookup_l _ _ _ j r Hbs2 Hr) as (b2 & _ & i' & Hi' & Hd' & Hroom).
    exists i. split_and!; [done|done|]. assert (b2 = b') as <- by congruence. done. }
  pose proof (br_run _ _ _ _ _ _ _ _ _ _ Hbr) as Hrun. fold m in Hrun. rewrite <- Ha in Hrun.
  assert (covered (chain_state n5)) as Hcov by (rewrite Ha; apply (linked_covered _ _ _ (br_linked _ _ _ _ _ _ _ _ _ _ Hbr))).
  destruct (restore_branch_spec depth (rev g) _ n5 ss Hok5 Hcov Hitems ltac:(by rewrite length_rev) Hmax Hrun)
    as (n6 & k' & E6 & Hk6 & Hsp6 & _ & Hhist & _).
  pose proof (br_length _ _ _ _ _ _ _ _ _ _ Hbr) as Hssl. fold m in Hssl.
  pose proof (br_history _ _ _ _ _ _ _ _ _ _ Hbr) as Hhist0.
  destruct (br_front _ _ _ _ _ _ _ _ _ _ Hbr) as (f' & g' & Ef & Eg).
  rewrite Ha, Hu, take_take in Hhist. destruct ss as [|s0 ss']; [unfold m in Hssl; rewrite Eg in Hssl; done|].
  cbn [app] in Hhist, Hhist0. injection Hhist as Hc6 Hu6. injection Hhist0 as Hc0 Hu0.
  assert (chain_state n6 = chain_state n) as Hc by congruence.
  assert (undo_history n6 = take (m + Nat.min k' k) (undo_history n)) as Hu6'.
  { rewrite Hu6, Hu0. cbn [length] in Hssl. change (ss' ++ a :: take (Nat.min k' k) u) with (ss' ++ [a] ++ take (Nat.min k' k) u).
    change (ss' ++ a :: u) with (ss' ++ [a] ++ u). rewrite !app_assoc.
    by rewrite take_app_add' by (rewrite length_app; cbn; lia). }
  exists n6, (m + Nat.min k' k)%nat. split_and!; [done|done| |done].
  assert (head_id n6 = head_id n) as Hhid by (unfold head_id; by rewrite Hc).
  assert (head_num n6 = head_num n) as Hhnum by (unfold head_num; by rewrite Hc).
  destruct (fo_index _ _ Hok _ _ Hq) as (iq & Hiq & _).
  split.
  - by apply (fk_ok _ _ _ Hk6).
  - rewrite Hc, Hu6'. apply linked_take, Hsw.
  - intros b' r i Hb' Hr Hi. rewrite (fk_items _ _ _ Hk6), Hit in Hi. pose proof (lookup_weaken _ _ _ _ Hr (fk_index _ _ _ Hk6)) as Hr'.
    apply (sw_known _ _ _ _ Hsw b' r i); [|by eapply lookup_weaken|done].
    apply elem_of_take in Hb' as (j & Hj & _). by eapply list_elem_of_lookup_2.
  - exists q. rewrite (fk_head _ _ _ Hk6), Hhid. split; [done|].
    apply (fk_kept _ _ _ Hk6 q iq); [done|by rewrite Hit|done|].
    rewrite (num_of_item _ q iq) by (by rewrite Hit). lia.
  - intros id r Hr. rewrite (fork_keeps_num _ _ _ _ Hk6), Hhnum. pose proof (lookup_weaken _ _ _ _ Hr (fk_index _ _ _ Hk6)) as Hr'.
    unfold num_of. rewrite Hit. by apply (Htop id r).
  - rewrite Hhid, Hhnum. apply Hsw.
  - rewrite Hhnum. apply Hsw.
  - rewrite (sp_session _ _ Hsp6). done.
Qed.

Lemma switch_fork_spec depth fuel n bs b p f g bs1 bs2 n' r : switching n bs b p -> block_num b < 2 ^ 32 - 1 ->
  (forall x, num_of (fork_db n) x < Z.of_nat fuel) ->
  fetch_branch_from fuel (fork_db n) (block_id_of header_hash b) (head_id n) = Some (Ok (f, g)) ->
  branch_items depth (fork_db n) f bs1 -> branch_items depth (fork_db n) g bs2 ->
  Z.of_nat (length f) <= depth -> Z.of_nat (length g) <= depth -> depth <= undo_max_size n ->
  (length g <= length (undo_history n))%nat ->
  switch_fork fuel (block_id_of header_hash b) n = (n', r) ->
  same_pending n n' /\
  match r with
  | Ok _ => (exists bs', consistent n' bs') /\ head_id n' = block_id_of header_hash b
  | Err _ => chain_state n' = chain_state n /\ exists k, consistent n' (take k bs)
  end.
Proof.
  intros Hsw Hb32 Hf Efetch Hbs1 Hbs2 Hdf Hdg Hmax Hlen E. pose proof (sw_fork _ _ _ _ Hsw) as Hok.
  destruct (branches_found fuel n bs b p f g bs1 Hsw Hb32 Hf Efetch) as (q & ss & a & u & Hq & Hbr); [|done|].
  { apply (Forall2_impl _ _ _ _ Hbs1). intros x y (i & ? & ? & _). by exists i. }
  destruct (switch_pop n bs b p q f g bs1 ss a u Hsw Hq Hbr) as (n1 & E1 & Hc1 & Hu1 & Hdb1 & Hsp1 & Hm1).
  unfold switch_fork, then_do, lift in E. rewrite Efetch in E. cbn beta iota in E.
  rewrite (br_root _ _ _ _ _ _ _ _ _ _ Hbr) in E. cbn beta iota in E. rewrite E1 in E.
  destruct (push_branch (rev f) n1) as [n2 r2] eqn:E2.
  destruct (push_branch_spec depth (rev f) (rev bs1) n1 n2 r2) as (Hk & Hsp2 & Hmax2 & o & dn & rest & ss1 & k & -> & Hrev & Hrun & Hcovs & Hhist & _ & Ho);
    [by rewrite Hdb1|rewrite Hc1; apply (linked_covered _ _ _ (br_linked _ _ _ _ _ _ _ _ _ _ Hbr))|rewrite Hdb1; by apply Forall2_rev|by rewrite length_rev|by rewrite Hm1|done|].
  rewrite Hdb1 in Hk. rewrite Hc1, Hu1 in Hhist. rewrite Hc1 in Hrun. assert (same_pending n n2) as Hsp by (by etransitivity).
  assert (length g <> 0)%nat as Hg0 by (destruct (br_front _ _ _ _ _ _ _ _ _ _ Hbr) as (? & ? & _ & ->); done).
  destruct o as [[e rest']|]; cbn beta iota in E.
  2: { unfold done_with in E. injection E as <- <-. split; [done|]. subst rest. rewrite app_nil_r in Hrev.
       pose proof (Forall2_length _ _ _ Hbs1) as Hl1. rewrite take_ge in Hrun by (rewrite <- Hrev, !length_rev; lia).
       destruct (switch_success depth n bs b p q f g bs1 ss a u n2 ss1 k Hsw Hq Hbr ltac:(lia) Hk Hsp Hrun Hcovs Hhist) as [Hco Hid].
       split; [by eexists|done]. }
  destruct Ho as [-> Hrest].
  destruct (switch_remove depth n bs b p q f g bs1 ss a u n2 dn rest Hsw Hq Hbr Hdf Hdg Hk Hrev Hrest)
    as (db3 & E3 & Hok3 & Hit3 & Hsub3 & Htop3 & Hkeep3).
  rewrite E3 in E. destruct (br_front _ _ _ _ _ _ _ _ _ _ Hbr) as (f' & g' & Ef & Eg). rewrite Eg in E at 1. cbn [head of_option] in E.
  cbn beta iota in E. unfold modify in E. set (n4 := (n2 <| fork_db := db3 |>) <| fork_db ::= _ |>) in E. cbn beta iota in E.
  destruct (fo_index _ _ Hok _ _ Hq) as (iq & Hiq & Hidq).
  assert (q ∈ g) as Hqg by (rewrite Eg; left).
  destruct (switch_pop_again n bs b p q iq f g bs1 ss a u n4 dn rest ss1 k Hsw Hq Hiq Hbr Hrev) as (n5 & E5 & Hc5 & Hu5 & Hdb5 & Hsp5 & Hm5);
    [rewrite <- (sw_session _ _ _ _ Hsw); apply (sp_session _ _ Hsp)|exact Hit3|done|intros x i Hx Hi; apply Hkeep3; [by left|done]|done|exact Hhist|].
  rewrite E5 in E.
  assert (fork_ok header_hash (fork_db n4)) as Hok4.
  { destruct Hok3 as [H1 H2 H3 H4]. split; cbn; [done..|]. intros x [= <-]. rewrite Hit3. by eexists. }
  destruct (switch_restore depth n bs b p q f g bs1 bs2 ss a u n5 dn rest k Hsw Hq Hbr Hrev Hbs2 Hdg) as (n6 & j & E6 & Hc6 & Hco6 & Hsp6);
    try (by rewrite Hdb5); try done; try (by rewrite Hm5).
  - rewrite (sp_session _ _ Hsp5). rewrite <- (sw_session _ _ _ _ Hsw). apply (sp_session _ _ Hsp).
  - rewrite Hdb5. change (fork_index db3 !! head_id n = Some q). rewrite <- Hidq. apply Hkeep3; [by right|done].
  - rewrite E6 in E. unfold throw in E. injection E as <- <-. split; [|split; [done|by exists j]].
    transitivity n2; [done|]. transitivity n5; [|done]. destruct Hsp5 as [H1 H2]. split; [by rewrite H1|by rewrite H2].
Qed.

(** ** Pushing a block *)

(** What pushing [b] relies on: the sizes of the undo history and the fork database cover
    [depth] blocks before and after each block involved; the history has no other block
    with its identifier; a higher block that does not follow the head is on a branch that
    leaves the chain within that depth. *)
Record room (fuel : nat) (depth : Z) (n : node) (bs : list (signed_block T)) (b : signed_block T) : Prop := {
  rm_depth : 1 <= depth /\ depth <= undo_max_size n /\ depth <= max_size (fork_db n);
  rm_block : leaves_room depth b;
  rm_number : block_num b < 2 ^ 32 - 1;
  rm_fuel : block_num b < Z.of_nat fuel /\ forall x, num_of (fork_db n) x < Z.of_nat fuel;
  rm_same : forall b', b' ∈ bs -> block_id_of header_hash b' = block_id_of header_hash b -> b' = b;
  rm_fork : forall db h, fork_push_block header_hash (fork_db n) b = Ok (db, h) -> head_num n < block_num b -> previous b <> head_id n ->
    exists f g bs1 bs2, fetch_branch_from fuel db (block_id_of header_hash b) (head_id n) = Some (Ok (f, g))
      /\ branch_items depth db f bs1 /\ branch_items depth db g bs2
      /\ Z.of_nat (length f) <= depth /\ Z.of_nat (length g) <= depth /\ (length g <= length (undo_history n))%nat;
}.

Lemma pushed_num db b h0 n0 db' fuel : fork_ok header_hash db -> pushed header_hash db b h0 n0 db' -> block_num b < Z.of_nat fuel ->
  (forall x, num_of db x < Z.of_nat fuel) -> forall id r, fork_index db' !! id = Some r -> num_of db' r < Z.of_nat fuel.
Proof.
  intros Hok Hp Hb Hf id r Hr. destruct (pu_index _ _ _ _ _ _ Hp id r Hr) as [Hr'|(_ & i & Hi & Hd)].
  - destruct (fo_index _ _ Hok _ _ Hr') as (j & Hj & _). rewrite (num_of_item _ _ j); [|by eapply lookup_weaken; [|apply Hp]].
    rewrite <- (num_of_item db r j Hj). apply Hf.
  - rewrite (num_of_item _ _ _ Hi). destruct (fo_items _ _ (pu_ok _ _ _ _ _ _ Hp) _ _ Hi) as (_ & -> & _). by rewrite Hd.
Qed.

(** The head goes back to the block before it when it is removed. *)
Lemma remove_head db p i q id : fork_ok header_hash db -> fork_head db = Some p -> fork_items db !! p = Some i -> item_prev i = Some q ->
  fork_index db !! id = Some q -> id <> item_id i ->
  ForkDb.remove db (item_id i) = Ok ((db <| fork_index ::= delete (item_id i) |>) <| fork_head := Some q |>).
Proof.
  intros Hok Hh Hi Hq Hidx Hne. unfold ForkDb.remove. set (db1 := db <| fork_index ::= _ |>).
  change (fork_head db1) with (fork_head db). rewrite Hh. unfold item_at. change (fork_items db1) with (fork_items db). rewrite Hi.
  cbn [of_option rbind]. rewrite bool_decide_eq_true_2 by done. unfold ForkDb.pop_block. change (fork_head db1) with (fork_head db).
  rewrite Hh. cbn [rbind]. unfold item_at. change (fork_items db1) with (fork_items db). rewrite Hi. cbn [of_option rbind].
  unfold lock. rewrite Hq. cbn. rewrite bool_decide_eq_true_2; [done|]. right. exists id, q. split; [|done].
  cbn. rewrite lookup_delete_ne; [done|congruence].
Qed.

(** A block that follows the head. *)
Lemma extend_chain_spec depth n bs b db p i q n' r : consistent n bs -> pushed header_hash (fork_db n) b q (head_num n) db ->
  head_num n < block_num b -> previous b = head_id n -> 1 <= depth -> depth <= undo_max_size n -> depth <= max_size (fork_db n) ->
  leaves_room depth b -> (forall b', b' ∈ bs -> block_id_of header_hash b' = block_id_of header_hash b -> b' = b) ->
  fork_index (fork_db n) !! head_id n = Some q -> fork_head db = Some p -> fork_items db !! p = Some i -> item_data i = b ->
  item_prev i = Some q -> fork_index db !! block_id_of header_hash b = Some p -> fork_index db !! head_id n = Some q ->
  extend_chain b p (n <| fork_db := db |>) = (n', r) ->
  same_pending n n' /\
  match r with
  | Ok _ => (exists bs', consistent n' bs') /\ head_id n' = block_id_of header_hash b
  | Err _ => chain_state n' = chain_state n /\ exists k, consistent n' (take k bs)
  end.
Proof.
  intros Hco Hpu Hnum Hprev Hd0 Hd1 Hd2 Hroom Hsame Hq Hp Hi Hib Hiq Hidx Hidxq E.
  set (n1 := n <| fork_db := db |>) in E. pose proof (pu_ok _ _ _ _ _ _ Hpu) as Hok.
  unfold extend_chain in E. fold (block_session b (timestamp b >? u32 (now - 86400)) p) in E.
  destruct (block_session b _ p n1) as [n2 r2] eqn:E2.
  destruct (block_session_spec depth b _ p n1 n2 r2 Hok (linked_covered _ _ _ (co_linked _ _ Hco)) Hroom E2) as (Hk & Hsp & _ & Hr).
  change (fork_db n1) with db in Hk. assert (same_pending n n2) as Hsp' by (destruct Hsp as [H1 H2]; by split).
  assert (num_of db p = block_num b) as Hpn.
  { destruct (fo_items _ _ Hok _ _ Hi) as (_ & Hn & _). by rewrite (num_of_item _ _ _ Hi), Hn, Hib. }
  destruct (fo_index _ _ Hok _ _ Hidxq) as (iq & Hiq' & Hidq).
  destruct (prev_num header_hash db p i q iq Hok Hi Hiq Hiq') as [Hpq _]. rewrite <- (num_of_item db p i Hi), Hpn, <- (num_of_item db q iq Hiq') in Hpq.
  assert (num_of db q = head_num n) as Hqn by (rewrite (item_num_id _ _ _ Hok Hiq'), Hidq; symmetry; apply Hco).
  assert (forall id x, fork_index db !! id = Some x -> id <> block_id_of header_hash b -> num_of db x <= head_num n) as Htop.
  { intros id x Hx Hne. destruct (pu_index _ _ _ _ _ _ Hpu id x Hx) as [Hx'|[-> _]]; [|done].
    pose proof (co_top _ _ Hco id x Hx') as Ht. destruct (fo_index _ _ (co_fork _ _ Hco) _ _ Hx') as (j & Hj & _).
    rewrite (num_of_item _ _ _ Hj) in Ht. rewrite (num_of_item db x j); [done|]. by eapply lookup_weaken; [|apply Hpu]. }
  assert (forall b' x j, b' ∈ bs -> fork_index db !! block_id_of header_hash b' = Some x -> fork_items db !! x = Some j -> item_data j = b') as Hknown.
  { intros b' x j Hb' Hx Hj. destruct (pu_index _ _ _ _ _ _ Hpu _ x Hx) as [Hx'|(Hid & i' & Hi' & Hd')].
    - destruct (fo_index _ _ (co_fork _ _ Hco) _ _ Hx') as (j' & Hj' & _).
      assert (j' = j) as -> by (pose proof (lookup_weaken _ _ _ _ Hj' (pu_items _ _ _ _ _ _ Hpu)); congruence).
      by apply (co_known _ _ Hco b' x j).
    - rewrite (Hsame b' Hb' Hid). congruence. }
  destruct r2 as [[]|e].
  - injection E as <- <-. split; [done|]. destruct Hr as (k & Hm & Hu).
    destruct (apply_block_head _ _ _ _ Hm) as (_ & Hh1 & Hh2).
    assert (head_id n2 = block_id_of header_hash b) as Hid by exact Hh1. assert (head_num n2 = block_num b) as Hnum2 by exact Hh2.
    split; [|done]. exists (b :: take (Z.to_nat (undo_max_size n)) bs). split.
    + by apply (fk_ok _ _ _ Hk).
    + rewrite Hu. econstructor; [exact Hm|by apply (lr_covered _ _ Hroom _ _ _ (linked_covered _ _ _ (co_linked _ _ Hco)) Hm)|]. apply linked_take. apply (co_linked _ _ Hco).
    + intros b' x j Hb' Hx Hj. rewrite (fk_items _ _ _ Hk) in Hj. pose proof (lookup_weaken _ _ _ _ Hx (fk_index _ _ _ Hk)) as Hx'.
      apply elem_of_cons in Hb' as [->|Hb'].
      * rewrite Hidx in Hx'. injection Hx' as <-. congruence.
      * apply (Hknown b' x j); [|done|done]. apply elem_of_take in Hb' as (y & Hy & _). by eapply list_elem_of_lookup_2.
    + exists p. rewrite (fk_head _ _ _ Hk), Hid. split; [done|]. apply (fk_kept _ _ _ Hk p i); [done|done|done|].
      rewrite (num_of_item _ _ _ Hi). lia.
    + intros id x Hx. rewrite (fork_keeps_num _ _ _ _ Hk), Hnum2. pose proof (lookup_weaken _ _ _ _ Hx (fk_index _ _ _ Hk)) as Hx'.
      destruct (decide (id = block_id_of header_hash b)) as [->|Hne]; [|specialize (Htop id x Hx' Hne); lia].
      rewrite Hidx in Hx'. injection Hx' as <-. lia.
    + by rewrite Hid, Hnum2, num_from_block_id.
    + rewrite Hnum2. pose proof (co_positive _ _ Hco). lia.
    + rewrite (sp_session _ _ Hsp'). apply Hco.
  - destruct Hr as [Hc Hu]. assert (item_id i = block_id_of header_hash b) as Hidi.
    { destruct (fo_items _ _ Hok _ _ Hi) as (_ & _ & ->). by rewrite Hib. }
    assert (head_id n <> item_id i) as Hne.
    { intros Ee. rewrite Ee, Hidi, Hidx in Hidxq. injection Hidxq as <-. lia. }
    assert (fork_index (fork_db n2) !! head_id n = Some q) as Hq2.
    { apply (fk_kept _ _ _ Hk p i); [done|done|done|]. rewrite <- (num_of_item _ _ _ Hi). lia. }
    rewrite <- Hidi in E. rewrite (remove_head (fork_db n2) p i q (head_id n)) in E;
      [|by apply (fk_ok _ _ _ Hk)|by rewrite (fk_head _ _ _ Hk)|by rewrite (fk_items _ _ _ Hk)|done|done|done].
    injection E as <- <-. split; [destruct Hsp' as [H1 H2]; by split|]. split; [exact Hc|].
    exists (Z.to_nat (undo_max_size n)).
    assert (forall m, chain_state m = chain_state n -> head_id m = head_id n) as Hhid by (intros m Em; unfold head_id; by rewrite Em).
    assert (forall m, chain_state m = chain_state n -> head_num m = head_num n) as Hhnum by (intros m Em; unfold head_num; by rewrite Em).
    split.
    + destruct (fk_ok _ _ _ Hk Hok) as [H1 H2 H3 H4]. split; cbn; [done..| |].
      * intros id x [_ Hx]%lookup_delete_Some. by apply H3.
      * intros x [= <-]. rewrite (fk_items _ _ _ Hk). by eexists.
    + change (linked (chain_state n2) (undo_history n2) (take (Z.to_nat (undo_max_size n)) bs)). rewrite Hc, Hu.
      apply linked_take. apply (co_linked _ _ Hco).
    + intros b' x j Hb' Hx Hj. cbn in Hx, Hj. apply lookup_delete_Some in Hx as [_ Hx]. rewrite (fk_items _ _ _ Hk) in Hj.
      apply (Hknown b' x j); [|by eapply lookup_weaken; [|apply Hk]|done].
      apply elem_of_take in Hb' as (y & Hy & _). by eapply list_elem_of_lookup_2.
    + exists q. rewrite Hhid by exact Hc. split; [done|]. cbn. rewrite lookup_delete_ne by congruence. done.
    + intros id x Hx. rewrite Hhnum by exact Hc. cbn in Hx. apply lookup_delete_Some in Hx as [Hne' Hx].
      pose proof (lookup_weaken _ _ _ _ Hx (fk_index _ _ _ Hk)) as Hx'.
      change (num_of (fork_db n2) x <= head_num n). rewrite (fork_keeps_num _ _ _ _ Hk). apply (Htop id x Hx'). congruence.
    + rewrite Hhid, Hhnum by exact Hc. apply Hco.
    + rewrite Hhnum by exact Hc. apply Hco.
    + change (pending_session n2 = None). rewrite (sp_session _ _ Hsp'). apply Hco.
Qed.

Lemma consistent_take n bs : consistent n bs -> consistent n (take (length bs) bs).
Proof. by rewrite take_ge. Qed.

(** A block that is not higher than the head does not change the chain. *)
Lemma push_lower n bs db b q : consistent n bs -> pushed header_hash (fork_db n) b q (head_num n) db -> block_num b <= head_num n ->
  fork_index (fork_db n) !! head_id n = Some q ->
  (forall b', b' ∈ bs -> block_id_of header_hash b' = block_id_of header_hash b -> b' = b) -> consistent (n <| fork_db := db |>) bs.
Proof.
  intros Hco Hpu Hle Hq Hsame. pose proof (pu_ok _ _ _ _ _ _ Hpu) as Hok. destruct (pu_lower _ _ _ _ _ _ Hpu Hle) as [Hh Hsub].
  split; try apply Hco.
  - done.
  - intros b' x j Hb' Hx Hj. cbn in Hx, Hj. destruct (pu_index _ _ _ _ _ _ Hpu _ x Hx) as [Hx'|(Hid & i' & Hi' & Hd')].
    + destruct (fo_index _ _ (co_fork _ _ Hco) _ _ Hx') as (j' & Hj' & _).
      assert (j' = j) as -> by (pose proof (lookup_weaken _ _ _ _ Hj' (pu_items _ _ _ _ _ _ Hpu)); congruence).
      by apply (co_known _ _ Hco b' x j).
    + rewrite (Hsame b' Hb' Hid). congruence.
  - exists q. split; [done|]. cbn. by eapply lookup_weaken.
  - intros id x Hx. change (num_of db x <= head_num n). destruct (pu_index _ _ _ _ _ _ Hpu id x Hx) as [Hx'|(-> & i & Hi & Hd)].
    + destruct (fo_index _ _ (co_fork _ _ Hco) _ _ Hx') as (j & Hj & _).
      rewrite (num_of_item db x j); [|by eapply lookup_weaken; [|apply Hpu]].
      rewrite <- (num_of_item (fork_db n) x j Hj). by apply (co_top _ _ Hco id).
    + rewrite (num_of_item _ _ _ Hi). destruct (fo_items _ _ Hok _ _ Hi) as (_ & -> & _). by rewrite Hd.
Qed.

(** A higher block of another fork has been pushed. *)
Lemma push_switching n bs db b p i q : consistent n bs -> pushed header_hash (fork_db n) b q (head_num n) db ->
  head_num n < block_num b -> previous b <> head_id n -> fork_head db = Some p -> fork_items db !! p = Some i -> item_data i = b ->
  fork_index db !! block_id_of header_hash b = Some p -> fork_index db !! head_id n = Some q -> head_num n + 1 = block_num b ->
  (forall id r, fork_index db !! id = Some r -> fork_index (fork_db n) !! id = Some r \/ r = p) ->
  (forall b', b' ∈ bs -> block_id_of header_hash b' = block_id_of header_hash b -> b' = b) -> switching (n <| fork_db := db |>) bs b p.
Proof.
  intros Hco Hpu Hnum Hne Hp Hi Hib Hidx Hidxq Hbn Hold Hsame. pose proof (pu_ok _ _ _ _ _ _ Hpu) as Hok.
  assert (forall id r, fork_index (fork_db n) !! id = Some r -> num_of db r <= head_num n) as Htop.
  { intros id r Hr. destruct (fo_index _ _ (co_fork _ _ Hco) _ _ Hr) as (j & Hj & _).
    rewrite (num_of_item db r j); [|by eapply lookup_weaken; [|apply Hpu]].
    rewrite <- (num_of_item (fork_db n) r j Hj). by apply (co_top _ _ Hco id). }
  split; try apply Hco; try done.
  - intros b' x j Hb' Hx Hj. cbn in Hx, Hj. destruct (pu_index _ _ _ _ _ _ Hpu _ x Hx) as [Hx'|(Hid & i' & Hi' & Hd')].
    + destruct (fo_index _ _ (co_fork _ _ Hco) _ _ Hx') as (j' & Hj' & _).
      assert (j' = j) as -> by (pose proof (lookup_weaken _ _ _ _ Hj' (pu_items _ _ _ _ _ _ Hpu)); congruence).
      by apply (co_known _ _ Hco b' x j).
    + rewrite (Hsame b' Hb' Hid). congruence.
  - by exists i.
  - intros id r Hr. destruct (Hold id r Hr) as [Hr'| ->]; [left|by right]. by apply (Htop id r).
Qed.

(** A higher block is one higher than the head: the block it follows is known. *)
Lemma pushed_above n bs db b p i q : consistent n bs -> pushed header_hash (fork_db n) b q (head_num n) db ->
  head_num n < block_num b -> fork_items db !! p = Some i -> item_data i = b ->
  (previous b <> null_block_id -> exists r, fork_index (fork_db n) !! previous b = Some r /\ item_prev i = Some r) ->
  head_num n + 1 = block_num b.
Proof.
  intros Hco Hpu Hlt Hi Hib Hprev. pose proof (pu_ok _ _ _ _ _ _ Hpu) as Hok. pose proof (co_positive _ _ Hco).
  destruct (decide (previous b = null_block_id)) as [E0|E0].
  - exfalso. unfold block_num in Hlt. rewrite E0 in Hlt. change (u32 _) with 1 in Hlt. lia.
  - destruct (Hprev E0) as (x & Hx & Hix). pose proof (co_top _ _ Hco _ _ Hx) as Ht.
    destruct (fo_index _ _ (co_fork _ _ Hco) _ _ Hx) as (j & Hj & _). rewrite (num_of_item _ _ _ Hj) in Ht.
    pose proof (lookup_weaken _ _ _ _ Hj (pu_items _ _ _ _ _ _ Hpu)) as Hj'.
    destruct (prev_num header_hash db p i x j Hok Hi Hix Hj') as [Hn _].
    destruct (fo_items _ _ Hok _ _ Hi) as (_ & Hni & _). rewrite Hni, Hib in Hn. lia.
Qed.

(** No block follows itself. *)
Lemma follows_other (b : signed_block T) id : block_num b = num_from_id id -> previous b <> id.
Proof.
  intros Hn E. unfold block_num in Hn. rewrite E in Hn. pose proof (block_num_bounds b) as Hb. unfold block_num in Hb.
  rewrite E, Hn in Hb. unfold u32 in Hn. destruct (decide (num_from_id id = 2 ^ 32 - 1)) as [E1|E1]; [rewrite E1 in Hn; done|].
  rewrite Z.mod_small in Hn; lia.
Qed.

(** The outcome of a push: a higher block becomes the head, any other one and a failure
    leave the chain as it is. *)
Definition push_outcome (n n' : node) (bs : list (signed_block T)) (b : signed_block T) (r : result bool) : Prop :=
  match r with
  | Ok _ => if head_num n <? block_num b then (exists bs', consistent n' bs') /\ head_id n' = block_id_of header_hash b
            else chain_state n' = chain_state n /\ consistent n' bs
  | Err _ => chain_state n' = chain_state n /\ exists k, consistent n' (take k bs)
  end.

Lemma push_failed n bs b e : consistent n bs -> same_pending n n /\ push_outcome n n bs b (Err e).
Proof. intros Hco. split; [done|]. split; [done|]. exists (length bs). by rewrite take_ge. Qed.

Lemma advance_follow fuel depth n bs b db p i q n' r : consistent n bs -> room fuel depth n bs b ->
  pushed header_hash (fork_db n) b q (head_num n) db -> fork_index (fork_db n) !! head_id n = Some q ->
  head_num n < block_num b -> previous b = head_id n -> fork_head db = Some p -> fork_items db !! p = Some i -> item_data i = b ->
  (previous b <> null_block_id -> exists r, fork_index (fork_db n) !! previous b = Some r /\ item_prev i = Some r) ->
  fork_index db !! block_id_of header_hash b = Some p -> fork_index db !! head_id n = Some q ->
  advance fuel b p (n <| fork_db := db |>) = (n', r) -> same_pending n n' /\ push_outcome n n' bs b r.
Proof.
  intros Hco Hrm Hpu Hq Hlt Hfollow Hp Hi Hib Hprev Hidx Hidxq E. unfold advance, then_do, lift in E. set (n1 := n <| fork_db := db |>) in E.
  change (fork_db n1) with db in E. unfold item_at in E. rewrite Hi in E. cbn [of_option] in E. rewrite Hib in E.
  change (head_id n1) with (head_id n) in E. rewrite bool_decide_eq_true_2 in E by done.
  destruct (extend_chain b p n1) as [n2 r2] eqn:E2. destruct (rm_depth _ _ _ _ _ Hrm) as (Hd0 & Hd1 & Hd2). destruct Hprev as (q' & Hq' & Hiq').
  { rewrite Hfollow. intros En. pose proof (co_num _ _ Hco) as Hcn. rewrite En in Hcn. cbn in Hcn. pose proof (co_positive _ _ Hco). lia. }
  assert (q' = q) as -> by congruence.
  destruct (extend_chain_spec depth n bs b db p i q n2 r2 Hco Hpu Hlt Hfollow Hd0 Hd1 Hd2 (rm_block _ _ _ _ _ Hrm) (rm_same _ _ _ _ _ Hrm)
    Hq Hp Hi Hib Hiq' Hidx Hidxq E2) as [Hsp Hr].
  unfold push_outcome. rewrite (proj2 (Z.ltb_lt _ _) Hlt). destruct r2 as [[]|e]; injection E as <- <-; (split; [done|exact Hr]).
Qed.

Lemma advance_switch fuel depth n bs b db p i q n' r : consistent n bs -> room fuel depth n bs b ->
  pushed header_hash (fork_db n) b q (head_num n) db -> fork_push_block header_hash (fork_db n) b = Ok (db, fork_head db) ->
  head_num n < block_num b -> previous b <> head_id n -> fork_head db = Some p -> fork_items db !! p = Some i -> item_data i = b ->
  head_num n + 1 = block_num b -> fork_index db !! block_id_of header_hash b = Some p -> fork_index db !! head_id n = Some q ->
  (forall id r, fork_index db !! id = Some r -> fork_index (fork_db n) !! id = Some r \/ r = p) ->
  advance fuel b p (n <| fork_db := db |>) = (n', r) -> same_pending n n' /\ push_outcome n n' bs b r.
Proof.
  intros Hco Hrm Hpu Epush Hlt Hne Hp Hi Hib Hbn Hidx Hidxq Hold E. pose proof (pu_ok _ _ _ _ _ _ Hpu) as Hok.
  pose proof (push_switching n bs db b p i q Hco Hpu Hlt Hne Hp Hi Hib Hidx Hidxq Hbn Hold (rm_same _ _ _ _ _ Hrm)) as Hsw.
  unfold advance, then_do, lift in E. set (n1 := n <| fork_db := db |>) in *.
  change (fork_db n1) with db in E. unfold item_at in E. rewrite Hi in E. cbn [of_option] in E. rewrite Hib in E.
  change (head_id n1) with (head_id n) in E. change (head_num n1) with (head_num n) in E. rewrite bool_decide_eq_false_2 in E by done. cbn beta iota in E. change (head_num n1) with (head_num n) in E.
  assert ((block_num b >? head_num n) = true) as Hgt by (rewrite Z.gtb_ltb; by apply Z.ltb_lt). rewrite Hgt in E.
  destruct (rm_fork _ _ _ _ _ Hrm db (fork_head db) Epush Hlt Hne) as (f & g & bs1 & bs2 & Ef & Hb1 & Hb2 & Hl1 & Hl2 & Hl3).
  destruct (switch_fork fuel (block_id_of header_hash b) n1) as [n2 r2] eqn:E2. destruct (rm_fuel _ _ _ _ _ Hrm) as [Hfb Hfn].
  destruct (switch_fork_spec depth fuel n1 bs b p f g bs1 bs2 n2 r2 Hsw (rm_number _ _ _ _ _ Hrm)) as [Hsp Hr]; try done.
  { intros x. change (num_of db x < Z.of_nat fuel). unfold num_of. destruct (fork_items db !! x) as [j|] eqn:Ex; [|pose proof (block_num_bounds b); lia].
    destruct (pu_data _ _ _ _ _ _ Hpu x j Ex) as [Hj|Hj]; [rewrite <- (num_of_item _ _ _ Hj); apply Hfn|].
    destruct (fo_items _ _ Hok _ _ Ex) as (_ & -> & _). by rewrite Hj. }
  { apply (rm_depth _ _ _ _ _ Hrm). }
  unfold push_outcome. rewrite (proj2 (Z.ltb_lt _ _) Hlt). assert (same_pending n n2) by (destruct Hsp as [H1 H2]; by split).
  destruct r2 as [[]|e]; injection E as <- <-; (split; [done|exact Hr]).
Qed.

Lemma advance_stay fuel n bs b db q iq n' r : consistent n bs ->
  pushed header_hash (fork_db n) b q (head_num n) db -> fork_index (fork_db n) !! head_id n = Some q ->
  fork_items (fork_db n) !! q = Some iq -> item_num iq = head_num n -> block_num b <= head_num n ->
  (forall b', b' ∈ bs -> block_id_of header_hash b' = block_id_of header_hash b -> b' = b) ->
  advance fuel b q (n <| fork_db := db |>) = (n', r) -> same_pending n n' /\ push_outcome n n' bs b r.
Proof.
  intros Hco Hpu Hq Hiq Hnq Hge Hsame E. pose proof (lookup_weaken _ _ _ _ Hiq (pu_items _ _ _ _ _ _ Hpu)) as Hiq'.
  destruct (fo_items _ _ (co_fork _ _ Hco) _ _ Hiq) as (_ & Hn & _). rewrite Hnq in Hn.
  unfold advance, then_do, lift in E. set (n1 := n <| fork_db := db |>) in *.
  change (fork_db n1) with db in E. unfold item_at in E. rewrite Hiq' in E. cbn [of_option] in E.
  change (head_id n1) with (head_id n) in E. change (head_num n1) with (head_num n) in E.
  rewrite bool_decide_eq_false_2 in E by (apply follows_other; rewrite <- (co_num _ _ Hco); lia).
  cbn beta iota in E. change (head_num n1) with (head_num n) in E.
  assert ((block_num (item_data iq) >? head_num n) = false) as Hgt by (rewrite Z.gtb_ltb; apply Z.ltb_ge; lia). rewrite Hgt in E.
  injection E as <- <-. split; [done|]. unfold push_outcome. rewrite (proj2 (Z.ltb_ge _ _) Hge). split; [done|].
  by apply (push_lower n bs db b q).
Qed.

Lemma push_block_inner_spec fuel depth n bs b n' r : consistent n bs -> room fuel depth n bs b ->
  push_block_inner fuel b n = (n', r) -> same_pending n n' /\ push_outcome n n' bs b r.
Proof.
  intros Hco Hrm E. unfold push_block_inner in E. unfold then_do in E.
  assert (exists o, check_recent_block b n = (n, o)) as [o Eo] by (unfold check_recent_block, lift; by eexists).
  rewrite Eo in E. destruct o as [[]|e]; [|injection E as <- <-; by apply push_failed].
  destruct (co_head _ _ Hco) as (q & Hhq & Hq). destruct (fo_index _ _ (co_fork _ _ Hco) _ _ Hq) as (iq & Hiq & Hidq).
  assert (item_num iq = head_num n) as Hnq.
  { rewrite <- (num_of_item _ _ _ Hiq), (item_num_id _ _ _ (co_fork _ _ Hco) Hiq), Hidq. symmetry. apply Hco. }
  destruct (fork_push_block header_hash (fork_db n) b) as [[db h]|e] eqn:Epush; [|injection E as <- <-; by apply push_failed].
  pose proof Epush as Ei. unfold fork_push_block in Ei. destruct (push_item header_hash (fork_db n) b) as [db'|] eqn:Eitem; [|done].
  injection Ei as -> <-. destruct (rm_depth _ _ _ _ _ Hrm) as (Hd0 & Hd1 & Hd2).
  pose proof (push_item_pushed header_hash _ b db q iq (co_fork _ _ Hco) ltac:(lia) Hhq Hiq Eitem) as Hpu. rewrite Hnq in Hpu.
  destruct (Z_lt_le_dec (head_num n) (block_num b)) as [Hlt|Hge].
  2: { destruct (pu_lower _ _ _ _ _ _ Hpu Hge) as [Hh _]. rewrite Hh in E. by apply (advance_stay fuel n bs b db q iq n' r Hco Hpu); [..|apply Hrm|]. }
  destruct (pu_higher _ _ _ _ _ _ Hpu Hlt) as (p & i & Hp & Hi & Hib & Hprev & Hnew & Hkeep & Hold). rewrite Hp in E.
  assert (fork_index db !! block_id_of header_hash b = Some p) as Hidx.
  { apply Hnew. destruct (fork_index (fork_db n) !! block_id_of header_hash b) as [x|] eqn:Ex; [|done].
    pose proof (co_top _ _ Hco _ _ Ex) as Ht. destruct (fo_index _ _ (co_fork _ _ Hco) _ _ Ex) as (j & Hj & Hjid).
    rewrite (item_num_id _ _ _ (co_fork _ _ Hco) Hj), Hjid, num_from_block_id in Ht. lia. }
  pose proof (pushed_above n bs db b p i q Hco Hpu Hlt Hi Hib Hprev) as Hbn.
  assert (fork_index db !! head_id n = Some q) as Hidxq by (apply Hkeep; [done|rewrite (num_of_item _ _ _ Hiq); lia]).
  destruct (decide (previous b = head_id n)) as [Hf|Hf].
  - by apply (advance_follow fuel depth n bs b db p i q).
  - by apply (advance_switch fuel depth n bs b db p i q).
Qed.

(** ** With the pending transactions *)

(** The node without its pending transactions. *)
Definition cleaned (n : node) : node := fst (clear_pending n).

Lemma cleaned_spec n : chain_state (cleaned n) = clean_state n /\ undo_history (cleaned n) = undo_history n
  /\ fork_db (cleaned n) = fork_db n /\ undo_max_size (cleaned n) = undo_max_size n /\ pending_session (cleaned n) = None.
Proof.
  unfold cleaned, clear_pending, clean_state, then_do, modify, reset_pending_session.
  destruct n as [c u m f sc l [s|] pt po]; by split_and!.
Qed.

Lemma consistent_ext k n n' bs : consistent n bs -> chain_state n' = chain_state n -> fork_db n' = fork_db n ->
  undo_history n' = take k (undo_history n) -> pending_session n' = None -> consistent n' (take k bs).
Proof.
  intros [H1 H2 H3 H4 H5 H6 H7 H8] Hc Hf Hu Hp. split; unfold head_id, head_num in *; rewrite ?Hf, ?Hc, ?Hu; try done.
  - by apply linked_take.
  - intros b p i Hb. apply H3. apply elem_of_take in Hb as (j & Hj & _). by eapply list_elem_of_lookup_2.
Qed.

Lemma push_transaction_clean tx n : let n' := fst (push_transaction tx n) in
  clean_state n' = clean_state n /\ fork_db n' = fork_db n /\ exists k, undo_history n' = take k (undo_history n).
Proof.
  unfold push_transaction, clean_state. destruct n as [c u m f sc l [s|] pt po]; cbn;
    (destruct (machine_apply_transaction c tx); cbn; split_and!; [done|done|by eexists|done|done|by eexists]) ||
    (destruct (machine_apply_transaction c tx); cbn; split_and!; try done; by eexists).
Qed.

Lemma push_again_clean txs : forall n bs, consistent (cleaned n) bs ->
  clean_state (push_again txs n) = clean_state n /\ exists k, consistent (cleaned (push_again txs n)) (take k bs).
Proof.
  induction txs as [|tx txs IH]; intros n bs Hco; cbn [push_again]; [split; [done|]; exists (length bs); by rewrite take_ge|].
  destruct (is_known_transaction (chain_state n) tx); [by apply IH|].
  destruct (push_transaction_clean tx n) as (Hc & Hf & k & Hu). set (n1 := fst (push_transaction tx n)) in *.
  destruct (cleaned_spec n) as (C1 & C2 & C3 & _ & _). destruct (cleaned_spec n1) as (D1 & D2 & D3 & _ & D5).
  assert (consistent (cleaned n1) (take k bs)) as Hco1 by (apply (consistent_ext k (cleaned n)); congruence).
  destruct (IH n1 _ Hco1) as (-> & k' & Hk'). split; [done|]. rewrite take_take in Hk'. by eexists.
Qed.

(** C2: pushing a block is atomic. Take a node whose undo history is that of a chain of blocks its
    fork database knows, whatever transactions wait, and a block with room for it: numbers
    below 2^32 - 1, no other block of the chain under its identifier, and, when it makes
    another branch the longer one, branches whose fork point both the fork database and the
    undo history still reach. When the push succeeds and the block is higher than the head,
    the chain has the block as its head; when the block is not higher, or the push fails,
    also in the midst of a switch to another fork, the chain without the waiting
    transactions is in the state it was in. In each case the undo history is again that of a
    chain of blocks the fork database knows. *)
Theorem push_block_atomic fuel depth n bs b n' r : consistent (cleaned n) bs -> room fuel depth (cleaned n) bs b ->
  push_block fuel b n = (n', r) ->
  (exists bs', consistent (cleaned n') bs') /\
  match r with
  | Ok _ => if head_num (cleaned n) <? block_num b then head_of (clean_state n') = block_id_of header_hash b
            else clean_state n' = clean_state n
  | Err _ => clean_state n' = clean_state n
  end.
Proof.
  intros Hco Hrm E. unfold push_block, without_pending_transactions in E.
  assert (clear_pending (n <| pending_tx := [] |>) = (cleaned n, Ok tt)) as Ec by (by destruct n as [c u m f sc l [s|] pt po]).
  rewrite Ec in E. destruct (push_block_inner fuel b (cleaned n)) as [n1 r1] eqn:E1. apply pair_equal_spec in E as [<- <-].
  destruct (push_block_inner_spec fuel depth (cleaned n) bs b n1 r1 Hco Hrm E1) as [Hsp Hout].
  destruct (cleaned_spec n) as (C1 & _ & _ & _ & C5). rewrite <- C1.
  assert (forall bs1, consistent n1 bs1 -> consistent (cleaned n1) bs1) as Hclean.
  { intros bs1 H1. rewrite <- (take_ge bs1 (Nat.max (length bs1) (length (undo_history n1)))) by lia.
    destruct (cleaned_spec n1) as (D1 & D2 & D3 & _ & D5). apply (consistent_ext _ n1); [done| |done| |done].
    - rewrite D1. unfold clean_state. by rewrite (co_session _ _ H1).
    - rewrite take_ge by lia. done. }
  assert (forall bs1, consistent n1 bs1 -> let n2 := push_again (pending_tx n) ((push_again (popped_tx n1) n1) <| popped_tx := [] |>) in
    clean_state n2 = chain_state n1 /\ exists bs', consistent (cleaned n2) bs') as Hagain.
  { intros bs1 H1 n2. destruct (push_again_clean (popped_tx n1) n1 bs1 (Hclean _ H1)) as (E2 & k & H2).
    set (n3 := (push_again (popped_tx n1) n1) <| popped_tx := [] |>) in *.
    assert (consistent (cleaned n3) (take k bs1)) as H3.
    { rewrite <- (take_ge (take k bs1) (Nat.max (length (take k bs1)) (length (undo_history n3)))) by lia.
      destruct (cleaned_spec n3) as (D1 & D2 & D3 & _ & D5).
      destruct (cleaned_spec (push_again (popped_tx n1) n1)) as (F1 & F2 & F3 & _ & _).
      apply (consistent_ext _ _ _ _ H2); [by rewrite D1, F1|by rewrite D3, F3| |done].
      rewrite D2, F2. change (undo_history n3) with (undo_history (push_again (popped_tx n1) n1)). by rewrite take_ge by (cbn; lia). }
    destruct (push_again_clean (pending_tx n) n3 _ H3) as (E3 & k' & H4). split; [|by eexists].
    transitivity (clean_state n3); [exact E3|]. change (clean_state n3) with (clean_state (push_again (popped_tx n1) n1)). rewrite E2.
    unfold clean_state. by rewrite (co_session _ _ H1). }
  unfold push_outcome in Hout. destruct r1 as [sw|e]; [destruct (head_num (cleaned n) <? block_num b)|].
  - destruct Hout as [[bs' Hco'] Hid]. destruct (Hagain _ Hco') as [-> Hex]. by split.
  - destruct Hout as [Hc Hco']. destruct (Hagain _ Hco') as [-> Hex]. by split.
  - destruct Hout as (Hc & k & Hco'). destruct (Hagain _ Hco') as [-> Hex]. by split.
Qed.
End Chain.
