(* ===== verification/Apply.v ===== *)
(** Applying transactions and blocks: [apply_transaction], [apply_block] and
    [_generate_block] of [chain/db_block.cpp], [create_block_summary] and
    [clear_expired_transactions]. What operations and the periodic updates do to the rest
    of the database is behind an interface. *)
From S2P Require Import Prelude Records Block Schedule ForkDb Chain.

(** ** Transactions *)

Record signed_transaction (O : Type) := SignedTransaction {
  ref_block_num : Z;
  ref_block_prefix : Z;
  expiration : Z;
  operations : list O;
  signatures : list Z;
}.
Arguments SignedTransaction {O} _ _ _ _ _.
Arguments ref_block_num {O} _.
Arguments ref_block_prefix {O} _.
Arguments expiration {O} _.
Arguments operations {O} _.
Arguments signatures {O} _.

(** The second word of an identifier. *)
Definition second_word (id : block_id) : Z := u32 (snd id).

(** [transaction::set_reference_block]; [ref_block_num] has 16 bits. *)
Definition set_reference_block {O} (t : signed_transaction O) (id : block_id) : signed_transaction O :=
  SignedTransaction (num_from_id id mod 2 ^ 16) (second_word id) (expiration t) (operations t) (signatures t).

(** ** The parameters and the flags that are looked at *)

Record limits := Limits {
  maximum_block_size : Z;
  maximum_transaction_size : Z;
  maximum_time_until_expiration : Z;
}.

Definition skip_witness_signature : Z := 1.
Definition skip_transaction_signatures : Z := 2.
Definition skip_transaction_dupe_check : Z := 4.
Definition skip_block_size_check : Z := 16.
Definition skip_tapos_check : Z := 32.
Definition skip_merkle_check : Z := 128.
Definition skip_undo_history_check : Z := 512.
Definition skip_witness_schedule_check : Z := 1024.

Definition skipped (skip flag : Z) : bool := negb (Z.land skip flag =? 0).

Definition HARDFORK_CORE_1573_TIME : Z := 1556028120.

(** The updates of a block, in the order of [_apply_block]. *)
Inductive block_update :=
  | refresh_gold_feeds
  | pay_signing_witness
  | process_tickets
  | perform_chain_maintenance
  | clear_expired_proposals
  | clear_expired_orders
  | clear_expired_force_settlements
  | clear_expired_htlcs
  | update_expired_feeds
  | update_core_exchange_rates
  | update_withdraw_permissions
  | update_credit_offers_and_deals
  | apply_debug_updates.

(** What the rest of the database, [R], offers: the evaluators of the operations [O], the
    checks of a transaction and the updates. They may also change the part of the state
    that the schedule of the witnesses is computed from. *)
Class Ledger (O R : Type) := {
  limits_of : R -> limits;
  operation_validate : O -> result unit;
  verify_transaction : schedule_state -> R -> signed_transaction O -> result unit;
  apply_operation : schedule_state -> R -> O -> result (schedule_state * R);
  unpaid_samet_fund : R -> bool;
  run_update : block_update -> schedule_state -> R -> signed_block (signed_transaction O) -> result (schedule_state * R);
}.

(** Neither operations nor updates touch the head of the chain. *)
Definition same_head (s s' : schedule_state) : Prop :=
  head_block_id s' = head_block_id s /\ head_block_number s' = head_block_number s /\ head_time s' = head_time s.

Class LedgerLaws O R `{!Ledger O R} : Prop := {
  operation_head : forall s r op s' r', apply_operation s r op = Ok (s', r') -> same_head s s';
  update_head : forall u s r b s' r', run_update u s r b = Ok (s', r') -> same_head s s';
}.

Section Apply.
Context {O R : Type} `{!Ledger O R}.
Abbreviation trx := (signed_transaction O).
Abbreviation block := (signed_block trx).

(** Hashes and sizes of what is serialised, the signatures of blocks, the checkpoints. *)
Variable header_hash : block -> Z.
Variable trx_id merkle_digest : trx -> Z.
(** [get_packed_size], and the size in a block with signatures and no results. *)
Variable trx_size processed_size : trx -> Z.
Variable block_size : block -> Z.
Variable hash_pair : Z -> Z -> Z.
Variable checksum : Z -> Z.
Variable signed_by : block -> Z -> bool.
Variable checkpoint_id : Z -> option block_id.

(** ** State *)

Record chain := MkChain {
  schedule : schedule_state;
  block_summaries : gmap Z block_id;
  transaction_history : gmap Z trx;
  ledger : R;
}.
#[export] Instance eta_chain : Eta chain :=
  fun r => MkChain (schedule r) (block_summaries r) (transaction_history r) (ledger r).

Definition with_ledger (c : chain) (x : schedule_state * R) : chain := c <| schedule := fst x |> <| ledger := snd x |>.

(** [is_known_transaction] *)
Definition known_transaction (c : chain) (t : trx) : bool := bool_decide (is_Some (transaction_history c !! trx_id t)).

(** ** Transactions *)

Fixpoint validate_operations (ops : list O) : result unit :=
  match ops with
  | [] => Ok tt
  | op :: ops => do! operation_validate op in validate_operations ops
  end.

(** [transaction::validate] *)
Definition validate_transaction (t : trx) : result unit :=
  assert! negb (bool_decide (operations t = [])) @ "A transaction must have at least one operation" in
  validate_operations (operations t).

(** The reference to a recent block and the time of expiration. *)
Definition check_expiration (skip : Z) (c : chain) (t : trx) : result unit :=
  let now := head_time (schedule c) in
  let l := limits_of (ledger c) in
  if head_block_number (schedule c) >? 0 then
    do! (if skipped skip skip_tapos_check then Ok tt
         else
           let! id := of_option "block_summary" (block_summaries c !! ref_block_num t) in
           assert! ref_block_prefix t =? second_word id @ "" in Ok tt) in
    assert! expiration t <=? u32 (now + maximum_time_until_expiration l) @ "" in
    assert! now <=? expiration t @ "" in
    if skipped skip skip_block_size_check then Ok tt
    else assert! (now <=? HARDFORK_CORE_1573_TIME) || (trx_size t <=? maximum_transaction_size l)
           @ "Transaction exceeds maximum transaction size." in Ok tt
  else Ok tt.

Fixpoint apply_operations (c : chain) (ops : list O) : result chain :=
  match ops with
  | [] => Ok c
  | op :: ops => let! x := apply_operation (schedule c) (ledger c) op in apply_operations (with_ledger c x) ops
  end.

(** [_apply_transaction] *)
Definition apply_transaction (skip : Z) (c : chain) (t : trx) : result chain :=
  do! validate_transaction t in
  do! (if skipped skip skip_transaction_dupe_check then Ok tt
       else if known_transaction c t then Err (thrown "duplicate_transaction") else Ok tt) in
  do! (if skipped skip skip_transaction_signatures then Ok tt else verify_transaction (schedule c) (ledger c) t) in
  do! check_expiration skip c t in
  let c := if skipped skip skip_transaction_dupe_check then c else c <| transaction_history ::= <[trx_id t := t]> |> in
  let! c := apply_operations c (operations t) in
  assert! negb (unpaid_samet_fund (ledger c)) @ "Unpaid SameT Fund debt detected" in
  Ok c.

Fixpoint apply_transactions (skip : Z) (c : chain) (ts : list trx) : result chain :=
  match ts with
  | [] => Ok c
  | t :: ts => let! c := apply_transaction skip c t in apply_transactions skip c ts
  end.

(** ** The records of blocks and transactions *)

(** [create_block_summary]: one for each value of the number's last 16 bits. *)
Definition create_block_summary (c : chain) (b : block) : result chain :=
  let sid := Z.land (block_num b) 65535 in
  let! _ := of_option "block_summary" (block_summaries c !! sid) in
  Ok (c <| block_summaries ::= <[sid := block_id_of header_hash b]> |>).

(** The transactions of the history in the order of their expiration. *)
Definition by_expiration (h : gmap Z trx) : list (Z * trx) :=
  insertion_sort (fun x y => expiration (snd x) <? expiration (snd y)) (map_to_list h).

Fixpoint clear_front (now : Z) (h : gmap Z trx) (l : list (Z * trx)) : gmap Z trx :=
  match l with
  | [] => h
  | (id, t) :: l => if now >? expiration t then clear_front now (delete id h) l else h
  end.

(** [clear_expired_transactions] *)
Definition clear_expired_transactions (c : chain) : chain :=
  c <| transaction_history ::= fun h => clear_front (head_time (schedule c)) h (by_expiration h) |>.

(** ** Blocks *)

(** [calculate_merkle_root] of the transactions; the checksum of no transactions is zero. *)
Definition merkle_root (b : block) : option Z := calculate_merkle_root hash_pair checksum 0 (map merkle_digest (transactions b)).

(** What [_apply_block] checks of a block. *)
Definition check_block (skip : Z) (c : chain) (b : block) : result unit :=
  do! (if skipped skip skip_block_size_check then Ok tt
       else assert! block_size b <=? maximum_block_size (limits_of (ledger c)) @ "" in Ok tt) in
  assert! skipped skip skip_merkle_check || bool_decide (Some (transaction_merkle_root b) = merkle_root b) @ "" in
  let! _ := validate_block_header signed_by (skipped skip skip_witness_signature) (skipped skip skip_witness_schedule_check)
              (schedule c) b in
  Ok tt.

(** The transactions of a block and the new head. *)
Definition apply_block_body (skip : Z) (c : chain) (b : block) : result chain :=
  let! c := apply_transactions skip c (transactions b) in
  let! (s, missed) := update_witness_missed_blocks (schedule c) b in
  let! s := update_global_dynamic_data header_hash (skipped skip skip_undo_history_check) s b missed in
  Ok (c <| schedule := s |>).

Definition update (u : block_update) (b : block) (c : chain) : result chain :=
  let! x := run_update u (schedule c) (ledger c) b in Ok (with_ledger c x).

Fixpoint updates (us : list block_update) (b : block) (c : chain) : result chain :=
  match us with
  | [] => Ok c
  | u :: us => let! c := update u b c in updates us b c
  end.

Definition on_schedule (f : schedule_state -> result schedule_state) (c : chain) : result chain :=
  let! s := f (schedule c) in Ok (c <| schedule := s |>).

(** What follows the new head. *)
Definition finish_block (maint_needed : bool) (c : chain) (b : block) : result chain :=
  let! c := updates [refresh_gold_feeds; pay_signing_witness] b c in
  let! c := on_schedule (fun s => confirm_block s b) c in
  let! c := on_schedule update_last_irreversible_block c in
  let! c := updates (process_tickets :: if maint_needed then [perform_chain_maintenance] else []) b c in
  let! c := create_block_summary c b in
  let c := clear_expired_transactions c in
  let! c := updates [clear_expired_proposals; clear_expired_orders; clear_expired_force_settlements; clear_expired_htlcs;
                     update_expired_feeds; update_core_exchange_rates; update_withdraw_permissions;
                     update_credit_offers_and_deals] b c in
  let c := c <| schedule ::= fun s => update_witness_schedule (update_maintenance_flag s maint_needed) |> in
  updates [apply_debug_updates] b c.

(** [_apply_block]; also tells the size given to the undo history, if it came that far. *)
Definition _apply_block (skip : Z) (c : chain) (b : block) : option Z * result chain :=
  let maint_needed := next_maintenance (schedule c) <=? timestamp b in
  match (do! check_block skip c b in apply_block_body skip c b) with
  | Ok c => (Some (undo_history_size (schedule c)), finish_block maint_needed c b)
  | Err e => (None, Err e)
  end.

(** The checkpoint at the number of a block; below the last one nearly every check is
    skipped ([skip = ~0]). *)
Definition checkpoint_flags (skip : Z) (c : chain) (b : block) : result Z :=
  match last_checkpoint (schedule c) with
  | Some last =>
      if bool_decide (checkpoint_id last = Some null_block_id) then Ok skip
      else
        do! (match checkpoint_id (block_num b) with
             | Some id => assert! bool_decide (block_id_of header_hash b = id) @ "Block did not match checkpoint" in Ok tt
             | None => Ok tt
             end) in
        Ok (if last >=? block_num b then 2 ^ 32 - 1 else skip)
  | None => Ok skip
  end.

(** [apply_block] *)
Definition apply_block (skip : Z) (c : chain) (b : block) : option Z * result chain :=
  match checkpoint_flags skip c b with
  | Ok skip => _apply_block skip c b
  | Err e => (None, Err e)
  end.

(** Blocks one after the other. *)
Fixpoint apply_blocks (skip : Z) (c : chain) (bs : list block) : result chain :=
  match bs with
  | [] => Ok c
  | b :: bs => let! c := snd (_apply_block skip c b) in apply_blocks skip c bs
  end.

(** ** Making a block *)

(** The loop of [_generate_block] over the pending transactions, each with its size as it
    waits: those that fit and apply, and the state they lead to. *)
Fixpoint select_transactions (skip max_size : Z) (c : chain) (total : Z) (pending : list (trx * Z)) : chain * list trx :=
  match pending with
  | [] => (c, [])
  | (t, size) :: pending =>
      if total + size >? max_size then select_transactions skip max_size c total pending
      else
        match apply_transaction skip c t with
        | Ok c' =>
            if total + processed_size t >? max_size then select_transactions skip max_size c total pending
            else let (c', l) := select_transactions skip max_size c' (total + processed_size t) pending in (c', t :: l)
        | Err _ => select_transactions skip max_size c total pending
        end
  end.

(** The fields of the new block; [sign] is [None] when it is not signed. *)
Definition make_block (c : chain) (when witness_id : Z) (ts : list trx) (sign : option (block -> Z)) : result block :=
  let! root := of_option "merkle root" (calculate_merkle_root hash_pair checksum 0 (map merkle_digest ts)) in
  let unsigned := SignedBlock (head_block_id (schedule c)) when witness_id root 0 ts in
  Ok (match sign with
      | Some sign => SignedBlock (previous unsigned) when witness_id root (sign unsigned) ts
      | None => unsigned
      end).

(** [_generate_block] up to the push of the block; [header_size] is the space its header
    is given, [public_key] and [sign] those of the signature scheme. *)
Definition generate_block (public_key : Z -> Z) (sign : Z -> block -> Z) (header_size : Z)
    (skip : Z) (c : chain) (pending : list (trx * Z)) (when witness_id key : Z) : result block :=
  let slot_num := get_slot_at_time (schedule c) when in
  assert! slot_num >? 0 @ "" in
  let! scheduled_witness := get_scheduled_witness (schedule c) slot_num in
  assert! scheduled_witness =? witness_id @ "" in
  do! (if skipped skip skip_witness_signature then Ok tt
       else
         let! w := of_option "witness" (witness_records (schedule c) !! witness_id) in
         assert! signing_key w =? public_key key @ "" in Ok tt) in
  let (_, ts) := select_transactions skip (maximum_block_size (limits_of (ledger c))) c header_size pending in
  make_block c when witness_id ts (if skipped skip skip_witness_signature then None else Some (sign key)).

(** ** The head of the chain *)

#[local] Instance same_head_preorder : PreOrder same_head.
Proof. split; [by intros s|]. intros a b c (A1 & A2 & A3) (B1 & B2 & B3). unfold same_head. split_and!; congruence. Qed.

Context `{!LedgerLaws O R}.

Lemma apply_operations_frame ops : forall c c', apply_operations c ops = Ok c' ->
  same_head (schedule c) (schedule c') /\ transaction_history c' = transaction_history c /\ block_summaries c' = block_summaries c.
Proof.
  induction ops as [|op ops IH]; cbn; intros c c' E; [by injection E as <-|].
  destruct (apply_operation (schedule c) (ledger c) op) as [[s r]|] eqn:Eop; [|done]. cbn [rbind] in E.
  destruct (IH _ _ E) as (Hh & Ht & Hb). split_and!; [|done|done]. etransitivity; [by eapply operation_head|exact Hh].
Qed.

(** What a transaction that applies has passed. *)
Lemma apply_transaction_inv skip c t c' : apply_transaction skip c t = Ok c' ->
  (skipped skip skip_transaction_dupe_check = false -> known_transaction c t = false)
  /\ check_expiration skip c t = Ok tt
  /\ same_head (schedule c) (schedule c') /\ block_summaries c' = block_summaries c
  /\ transaction_history c' = if skipped skip skip_transaction_dupe_check then transaction_history c
                              else <[trx_id t := t]> (transaction_history c).
Proof.
  unfold apply_transaction. intros E. destruct (validate_transaction t); [|done]. cbn [rbind] in E.
  match type of E with rbind ?m _ = _ => destruct m as [[]|] eqn:Ed; [|done] end. cbn [rbind] in E.
  match type of E with rbind ?m _ = _ => destruct m; [|done] end. cbn [rbind] in E.
  destruct (check_expiration skip c t) as [[]|]; [|done]. cbn [rbind] in E.
  match type of E with rbind (apply_operations ?x _) _ = _ => set (c1 := x) in E end.
  destruct (apply_operations c1 (operations t)) as [c2|] eqn:Eops; [|done]. cbn [rbind] in E.
  destruct (negb _); [|done]. injection E as <-. destruct (apply_operations_frame _ _ _ Eops) as (Hh & Ht & Hb).
  split_and!; [|done| | |].
  - intros Hs. rewrite Hs in Ed. by destruct (known_transaction c t).
  - unfold c1 in Hh. by destruct (skipped skip skip_transaction_dupe_check).
  - rewrite Hb. unfold c1. by destruct (skipped skip skip_transaction_dupe_check).
  - rewrite Ht. unfold c1. by destruct (skipped skip skip_transaction_dupe_check).
Qed.

Lemma apply_transactions_head skip ts : forall c c', apply_transactions skip c ts = Ok c' -> same_head (schedule c) (schedule c').
Proof.
  induction ts as [|t ts IH]; cbn [apply_transactions]; intros c c' E; [by injection E as <-|].
  destruct (apply_transaction skip c t) as [c1|] eqn:E1; [|done]. cbn [rbind] in E.
  destruct (apply_transaction_inv _ _ _ _ E1) as (_ & _ & Hh & _). etransitivity; [exact Hh|by apply IH].
Qed.

Lemma count_missed_head rounds : forall s i s', count_missed s rounds i = Ok s' -> same_head s s'.
Proof.
  induction rounds as [|rounds IH]; cbn [count_missed]; intros s i s' E; [by injection E as <-|].
  destruct (get_scheduled_witness s (i + 1)); [|done]. cbn [rbind] in E. destruct (witness_records s !! _); [|done].
  cbn [of_option rbind] in E. by apply IH in E.
Qed.

Lemma apply_block_body_spec skip c b c' : apply_block_body skip c b = Ok c' ->
  head_block_number (schedule c') = block_num b /\ head_block_id (schedule c') = block_id_of header_hash b
  /\ head_time (schedule c') = timestamp b
  /\ exists c1, apply_transactions skip c (transactions b) = Ok c1 /\ transaction_history c' = transaction_history c1.
Proof.
  unfold apply_block_body. intros E. destruct (apply_transactions skip c (transactions b)) as [c1|] eqn:E1; [|done]. cbn [rbind] in E.
  destruct (update_witness_missed_blocks (schedule c1) b) as [[s missed]|] eqn:E2; [|done]. cbn [rbind] in E.
  destruct (update_global_dynamic_data header_hash _ s b missed) as [s'|] eqn:E3; [|done]. cbn [rbind] in E. injection E as <-.
  destruct (update_global_dynamic_data_head _ _ _ _ _ _ E3) as (H1 & H2 & H3). split_and!; [done..|]. by exists c1.
Qed.

Definition same_history (c c' : chain) : Prop := same_head (schedule c) (schedule c') /\ transaction_history c' = transaction_history c.

#[local] Instance same_history_preorder : PreOrder same_history.
Proof.
  split; [by intros c|]. intros a b c [A1 A2] [B1 B2]. split; [by etransitivity|congruence].
Qed.

Lemma updates_frame us b : forall c c', updates us b c = Ok c' -> same_history c c'.
Proof.
  induction us as [|u us IH]; cbn; intros c c' E; [by injection E as <-|].
  unfold update in E. destruct (run_update u (schedule c) (ledger c) b) as [[s r]|] eqn:Eu; [|done]. cbn [rbind] in E.
  etransitivity; [|by apply IH]. split; [by eapply update_head|done].
Qed.

Lemma on_schedule_frame f c c' : (forall s s', f s = Ok s' -> same_head s s') -> on_schedule f c = Ok c' -> same_history c c'.
Proof.
  unfold on_schedule. intros Hf E. destruct (f (schedule c)) as [s|] eqn:Es; [|done]. cbn [rbind] in E. injection E as <-.
  split; [by apply Hf|done].
Qed.

Lemma finish_block_spec maint_needed c b c' : finish_block maint_needed c b = Ok c' ->
  same_head (schedule c) (schedule c')
  /\ transaction_history c' = clear_front (head_time (schedule c)) (transaction_history c) (by_expiration (transaction_history c)).
Proof.
  unfold finish_block. intros E.
  destruct (updates [refresh_gold_feeds; pay_signing_witness] b c) as [c1|] eqn:E1; [|done]. cbn [rbind] in E.
  destruct (on_schedule _ c1) as [c2|] eqn:E2; [|done]. cbn [rbind] in E.
  destruct (on_schedule _ c2) as [c3|] eqn:E3; [|done]. cbn [rbind] in E.
  destruct (updates _ b c3) as [c4|] eqn:E4; [|done]. cbn [rbind] in E.
  destruct (create_block_summary c4 b) as [c5|] eqn:E5; [|done]. cbn [rbind] in E.
  destruct (updates _ b (clear_expired_transactions c5)) as [c6|] eqn:E6; [|done]. cbn [rbind] in E.
  assert (same_history c c5) as [Hh Ht].
  { transitivity c1; [by eapply updates_frame|]. transitivity c2; [|transitivity c3].
    - apply (on_schedule_frame _ _ _) in E2; [done|]. intros s s'. unfold confirm_block. destruct (witness_records s !! _); [|done].
      cbn. by intros [= <-].
    - apply (on_schedule_frame _ _ _) in E3; [done|]. intros s s'. unfold update_last_irreversible_block.
      destruct (confirmed_blocks _ _); [|done]. cbn [rbind]. destruct (_ !! _); [|done]. cbn [of_option rbind].
      destruct (_ >? _); by intros [= <-].
    - transitivity c4; [by eapply updates_frame|]. unfold create_block_summary in E5. destruct (block_summaries c4 !! _); [|done].
      cbn [of_option rbind] in E5. by injection E5 as <-. }
  destruct (updates_frame _ _ _ _ E6) as [H6 T6]. destruct (updates_frame _ _ _ _ E) as [H7 T7].
  assert (same_head (schedule c6) (schedule c')) as H7'.
  { etransitivity; [|exact H7]. cbn. unfold update_witness_schedule, update_maintenance_flag. cbn. by destruct (_ =? 0). }
  split.
  - etransitivity; [exact Hh|]. etransitivity; [exact H6|exact H7'].
  - rewrite T7. cbn. rewrite T6. cbn. destruct Hh as (_ & _ & ->). by rewrite Ht.
Qed.

Lemma check_block_spec skip c b : check_block skip c b = Ok tt ->
  head_block_id (schedule c) = previous b /\ head_time (schedule c) < timestamp b.
Proof.
  unfold check_block. intros E. match type of E with rbind ?m _ = _ => destruct m; [|done] end. cbn [rbind] in E.
  destruct (skipped skip skip_merkle_check || _); [|done]. cbn [fc_assert rbind] in E.
  destruct (validate_block_header _ _ _ (schedule c) b) as [w|] eqn:Ev; [|done]. unfold validate_block_header in Ev.
  destruct (bool_decide _) eqn:Hb; [|done]. cbn [fc_assert rbind] in Ev. destruct (_ <? _) eqn:Ht; [|done]. by reflect_bools.
Qed.

Lemma applied_block_spec skip c b k c' : _apply_block skip c b = (k, Ok c') ->
  head_block_id (schedule c) = previous b /\ head_time (schedule c) < timestamp b
  /\ head_block_id (schedule c') = block_id_of header_hash b /\ head_block_number (schedule c') = block_num b
  /\ head_time (schedule c') = timestamp b
  /\ exists c1, apply_transactions skip c (transactions b) = Ok c1
     /\ transaction_history c' = clear_front (timestamp b) (transaction_history c1) (by_expiration (transaction_history c1)).
Proof.
  unfold _apply_block. intros E. destruct (check_block skip c b) as [[]|] eqn:Ec; [|done]. cbn [rbind] in E.
  destruct (apply_block_body skip c b) as [c1|] eqn:Eb; [|done]. injection E as _ Ef.
  destruct (check_block_spec _ _ _ Ec) as [H1 H2]. destruct (apply_block_body_spec _ _ _ _ Eb) as (H3 & H4 & H5 & c2 & H6 & H7).
  destruct (finish_block_spec _ _ _ _ Ef) as [(F1 & F2 & F3) F4]. rewrite H5, H7 in F4. split_and!; [done|done|congruence..|].
  by exists c2.
Qed.

(** ** No transaction is applied twice *)

Lemma clear_front_spec now l : forall h, l ≡ₚ map_to_list h ->
  ascending (fun x y => expiration (snd x) <? expiration (snd y)) l ->
  forall id t, clear_front now h l !! id = Some t <-> h !! id = Some t /\ now <= expiration t.
Proof.
  induction l as [|[id0 t0] l IH]; intros h Hl Ha id t; cbn [clear_front].
  - symmetry in Hl. apply Permutation_nil_r, map_to_list_empty_iff in Hl. subst h. rewrite lookup_empty. by split; [|intros [? _]].
  - apply ascending_cons in Ha as [Hmin Ha]. assert (h !! id0 = Some t0) as Hid by (apply elem_of_map_to_list; rewrite <- Hl; left).
    destruct (now >? expiration t0) eqn:Hn; reflect_bools.
    + rewrite IH; [| |done].
      * rewrite lookup_delete_Some. split; [by intros [[_ ?] ?]|]. intros [Ht Hle]. split; [|done]. split; [|done].
        intros <-. assert (t = t0) as -> by congruence. lia.
      * rewrite <- (insert_id _ _ _ Hid), <- insert_delete_eq in Hl.
        rewrite map_to_list_insert in Hl by apply lookup_delete_eq. by apply Permutation_cons_inv in Hl.
    + split; [|by intros [? _]]. intros Ht. split; [done|]. apply elem_of_map_to_list in Ht. rewrite <- Hl in Ht.
      apply elem_of_cons in Ht as [[= -> ->]|Ht]; [lia|]. specialize (Hmin _ Ht). apply Z.ltb_ge in Hmin. cbn in Hmin. lia.
Qed.

Lemma clear_expired now h id t : clear_front now h (by_expiration h) !! id = Some t <-> h !! id = Some t /\ now <= expiration t.
Proof.
  apply clear_front_spec; [apply insertion_sort_perm|]. apply insertion_sort_ascending. split; intros *; rewrite ?Z.ltb_lt, ?Z.ltb_ge; lia.
Qed.

(** The history files its transactions under their identifiers. *)
Definition history_ok (c : chain) : Prop := forall id t, transaction_history c !! id = Some t -> trx_id t = id.

(** The transactions that were applied are in the history or have expired. *)
Definition remembered (c : chain) (applied : list trx) : Prop :=
  forall t, t ∈ applied -> is_Some (transaction_history c !! trx_id t)
    \/ 0 < head_block_number (schedule c) /\ expiration t < head_time (schedule c).

Section Twice.
Hypothesis trx_id_expiration : forall t t', trx_id t = trx_id t' -> expiration t = expiration t'.
Variable skip : Z.
Hypothesis dupes_checked : skipped skip skip_transaction_dupe_check = false.

Lemma apply_transaction_new c t c' applied : history_ok c -> remembered c applied -> apply_transaction skip c t = Ok c' ->
  (trx_id t ∉ map trx_id applied) /\ history_ok c' /\ remembered c' (applied ++ [t]).
Proof.
  intros Hok Hrem E. destruct (apply_transaction_inv _ _ _ _ E) as (Hnew & Hexp & (_ & Hnum & Htime) & _ & Hhist).
  specialize (Hnew dupes_checked). rewrite dupes_checked in Hhist. split_and!.
  - intros Hin. apply list_elem_of_fmap in Hin as (t0 & Hid & Ht0). destruct (Hrem t0 Ht0) as [Hk|[Hpos Hlt]].
    + unfold known_transaction in Hnew. apply bool_decide_eq_false in Hnew. apply Hnew. by rewrite Hid.
    + unfold check_expiration in Hexp. assert ((head_block_number (schedule c) >? 0) = true) as Hg by (rewrite Z.gtb_ltb; by apply Z.ltb_lt).
      rewrite Hg in Hexp. match type of Hexp with rbind ?m _ = _ => destruct m; [|done] end. cbn [rbind] in Hexp.
      destruct (_ <=? u32 _); [|done]. cbn [fc_assert rbind] in Hexp. destruct (_ <=? expiration t) eqn:Hle; [|done]. reflect_bools.
      rewrite (trx_id_expiration _ _ Hid) in *. lia.
  - intros id t0. rewrite Hhist, lookup_insert_Some. intros [[<- <-]|[_ Ht0]]; [done|by apply Hok].
  - intros t0 Ht0. rewrite Hhist, Hnum, Htime. destruct (decide (trx_id t0 = trx_id t)) as [->|Hne]; [left; by rewrite lookup_insert_eq|].
    rewrite lookup_insert_ne by done. apply elem_of_app in Ht0 as [Ht0| ->%list_elem_of_singleton]; [by apply Hrem|done].
Qed.

Lemma apply_transactions_new ts : forall c c' applied, history_ok c -> remembered c applied -> NoDup (map trx_id applied) ->
  apply_transactions skip c ts = Ok c' ->
  NoDup (map trx_id (applied ++ ts)) /\ history_ok c' /\ remembered c' (applied ++ ts).
Proof.
  induction ts as [|t ts IH]; cbn [apply_transactions]; intros c c' applied Hok Hrem Hnd E.
  { injection E as <-. by rewrite app_nil_r. }
  destruct (apply_transaction skip c t) as [c1|] eqn:E1; [|done]. cbn [rbind] in E.
  destruct (apply_transaction_new c t c1 applied Hok Hrem E1) as (Hnew & Hok1 & Hrem1).
  change (t :: ts) with ([t] ++ ts). rewrite app_assoc. apply (IH c1 c'); [done|done| |done].
  rewrite map_app. apply NoDup_app. split_and!; [done| |apply NoDup_singleton]. intros x Hx Hx1%list_elem_of_singleton; subst x. done.
Qed.

Lemma apply_block_new c b k c' applied : history_ok c -> remembered c applied -> NoDup (map trx_id applied) -> 0 < block_num b ->
  _apply_block skip c b = (k, Ok c') ->
  NoDup (map trx_id (applied ++ transactions b)) /\ history_ok c' /\ remembered c' (applied ++ transactions b).
Proof.
  intros Hok Hrem Hnd Hpos E. destruct (applied_block_spec _ _ _ _ _ E) as (_ & Hlt & _ & Hnum & Htime & c1 & E1 & Hhist).
  destruct (apply_transactions_new _ c c1 applied Hok Hrem Hnd E1) as (Hnd1 & Hok1 & Hrem1).
  destruct (apply_transactions_head _ _ _ _ E1) as (_ & _ & Ht1). split_and!; [done| |].
  - intros id t. rewrite Hhist. intros [Ht _]%clear_expired. by apply Hok1.
  - intros t Ht. rewrite Hnum, Htime. destruct (Hrem1 t Ht) as [[t' Ht']|[_ He]]; [|right; rewrite Ht1 in He; lia].
    pose proof (trx_id_expiration _ _ (Hok1 _ _ Ht')) as He. destruct (decide (timestamp b <= expiration t')).
    + left. exists t'. rewrite Hhist. by apply clear_expired.
    + right. lia.
Qed.

Lemma apply_blocks_new bs : forall c c' applied, history_ok c -> remembered c applied -> NoDup (map trx_id applied) ->
  (forall b, b ∈ bs -> 0 < block_num b) -> apply_blocks skip c bs = Ok c' ->
  NoDup (map trx_id (applied ++ concat (map transactions bs))).
Proof.
  induction bs as [|b bs IH]; cbn [apply_blocks]; intros c c' applied Hok Hrem Hnd Hpos E; [by rewrite app_nil_r|].
  destruct (_apply_block skip c b) as [k [c1|]] eqn:E1; [|done]. cbn [snd rbind] in E.
  destruct (apply_block_new c b k c1 applied Hok Hrem Hnd (Hpos b ltac:(left)) E1) as (Hnd1 & Hok1 & Hrem1).
  cbn [map concat]. rewrite app_assoc. apply (IH c1 c'); [done..| |done]. intros b' Hb'. apply Hpos. by right.
Qed.
End Twice.

(** C4: no transaction is applied twice. As long as the duplicate check is on and equal identifiers
    mean equal expirations, the identifiers of the transactions of any chain of blocks (with
    positive numbers) that applies are all different, and none of them was known before the
    first block, although the history of transactions forgets those that have expired. *)
Theorem no_transaction_twice skip c bs c' : (forall t t', trx_id t = trx_id t' -> expiration t = expiration t') ->
  skipped skip skip_transaction_dupe_check = false -> history_ok c -> (forall b, b ∈ bs -> 0 < block_num b) ->
  apply_blocks skip c bs = Ok c' ->
  let ts := concat (map transactions bs) in
  NoDup (map trx_id ts) /\ forall t, t ∈ ts -> known_transaction c t = false.
Proof.
  intros Hid Hskip Hok Hpos E ts. set (old := map snd (map_to_list (transaction_history c))).
  assert (map trx_id old = map fst (map_to_list (transaction_history c))) as Hold.
  { unfold old. rewrite map_map. apply map_ext_in. intros [id t] Hin%list_elem_of_In%elem_of_map_to_list. by apply Hok. }
  assert (NoDup (map trx_id (old ++ ts))) as Hnd.
  { apply (apply_blocks_new Hid skip Hskip bs c c'); [done| | |done|done].
    - intros t Ht. left. apply list_elem_of_fmap in Ht as ([id t'] & -> & Hin%elem_of_map_to_list). cbn [snd]. rewrite (Hok _ _ Hin). by eexists.
    - rewrite Hold. apply (NoDup_fst_map_to_list (transaction_history c)). }
  rewrite map_app in Hnd. apply NoDup_app in Hnd as (_ & Hdis & Hnd). split; [done|]. intros t Ht.
  apply bool_decide_eq_false. intros [t' Ht']. apply (Hdis (trx_id t)).
  - rewrite Hold. apply list_elem_of_fmap. exists (trx_id t, t'). split; [done|]. by apply elem_of_map_to_list.
  - by apply list_elem_of_fmap_2.
Qed.

(** ** What a witness makes, the others accept *)

Lemma skipped_lor skip f g : Z.land f g = 0 -> skipped (Z.lor skip f) g = skipped skip g.
Proof. intros H. unfold skipped. by rewrite Z.land_lor_distr_l, H, Z.lor_0_r. Qed.

Lemma skipped_self skip f : f <> 0 -> skipped (Z.lor skip f) f = true.
Proof.
  intros H. unfold skipped. rewrite Z.land_lor_distr_l, Z.land_diag. apply negb_true_iff, Z.eqb_neq.
  intros E. by apply Z.lor_eq_0_iff in E as [_ ?].
Qed.

(** Leaving out the check of the signatures does not change what a transaction does. *)
Lemma apply_transaction_unsigned skip c t c' : apply_transaction skip c t = Ok c' ->
  apply_transaction (Z.lor skip skip_transaction_signatures) c t = Ok c'.
Proof.
  unfold apply_transaction, check_expiration. intros E. rewrite (skipped_self skip skip_transaction_signatures) by done.
  rewrite !skipped_lor by done. destruct (validate_transaction t); [|done]. cbn [rbind] in *.
  match type of E with rbind ?m _ = _ => destruct m; [|done] end. cbn [rbind] in *.
  match type of E with rbind ?m _ = _ => destruct m; [|done] end. exact E.
Qed.

Definition total_size (ts : list trx) : Z := foldr (fun t n => processed_size t + n) 0 ts.

Lemma select_transactions_spec skip max_size pending : forall c total c' ts,
  select_transactions skip max_size c total pending = (c', ts) -> total <= max_size ->
  apply_transactions skip c ts = Ok c' /\ apply_transactions (Z.lor skip skip_transaction_signatures) c ts = Ok c'
  /\ total + total_size ts <= max_size.
Proof.
  induction pending as [|[t size] pending IH]; cbn [select_transactions]; intros c total c' ts E Ht.
  { injection E as <- <-. split_and!; [done|done|cbn; lia]. }
  destruct (total + size >? max_size); [by apply IH|]. destruct (apply_transaction skip c t) as [c1|] eqn:E1; [|by apply IH].
  destruct (total + processed_size t >? max_size) eqn:Hfit; [by apply IH|]. reflect_bools.
  destruct (select_transactions skip max_size c1 _ pending) as [c2 l] eqn:E2. injection E as <- <-.
  destruct (IH c1 _ c2 l E2 ltac:(lia)) as (H1 & H2 & H3). cbn [apply_transactions].
  rewrite E1, (apply_transaction_unsigned _ _ _ _ E1). cbn [rbind]. split_and!; [done|done|].
  change (total_size (t :: l)) with (processed_size t + total_size l). lia.
Qed.

Lemma make_block_fields c when w ts sign b : make_block c when w ts sign = Ok b ->
  previous b = head_block_id (schedule c) /\ timestamp b = when /\ block_witness b = w /\ transactions b = ts
  /\ Some (transaction_merkle_root b) = merkle_root b
  /\ forall f, sign = Some f -> exists u, b = SignedBlock (previous u) (timestamp u) (block_witness u) (transaction_merkle_root u) (f u) (transactions u).
Proof.
  unfold make_block, merkle_root. intros E. destruct (calculate_merkle_root _ _ _ _) as [root|] eqn:Er; [|done]. cbn [of_option rbind] in E.
  injection E as <-. destruct sign as [f|]; cbn; rewrite Er; split_and!; try done. intros g [= <-]. by eexists (SignedBlock _ _ _ _ 0 _).
Qed.

(** C8: a block that a witness generates from the waiting transactions passes the checks of every
    node with the same head: it follows the head, is later than it, comes from the witness
    of its slot and is signed with that witness's key, is not too big and has the right
    root; and all of its transactions, whose signatures were checked when they were
    received, apply one after the other. The next slot's time fits in 32 bits, the witness
    exists, the signature made with a key verifies under it, a block packs to no more than
    its header and its transactions, and an empty block fits the maximum. *)
Theorem generated_block_accepted public_key sign header_size skip c pending when w key b :
  schedule_ok (schedule c) -> slot_fits (schedule c) 1 -> is_Some (witness_records (schedule c) !! w) ->
  (forall u : block, signed_by (SignedBlock (previous u) (timestamp u) (block_witness u) (transaction_merkle_root u) (sign key u) (transactions u))
     (public_key key) = true) ->
  (forall u, block_size u <= header_size + total_size (transactions u)) ->
  header_size <= maximum_block_size (limits_of (ledger c)) ->
  generate_block public_key sign header_size skip c pending when w key = Ok b ->
  let push_skip := Z.lor skip skip_transaction_signatures in
  check_block push_skip c b = Ok tt /\ exists c', apply_transactions push_skip c (transactions b) = Ok c'.
Proof.
  intros Hok Hfits [r Hr] Hsign Hsize Hheader E push_skip. unfold generate_block in E.
  destruct (get_slot_at_time (schedule c) when >? 0) eqn:Hslot; [|done]. cbn [fc_assert rbind] in E.
  destruct (get_scheduled_witness (schedule c) (get_slot_at_time (schedule c) when)) as [sw|] eqn:Hsw; [|done]. cbn [rbind] in E.
  destruct (sw =? w) eqn:Hw; [|done]. cbn [fc_assert rbind] in E. apply Z.eqb_eq in Hw. subst sw.
  match type of E with rbind ?m _ = _ => destruct m as [[]|] eqn:Hkey; [|done] end. cbn [rbind] in E.
  destruct (select_transactions skip _ c header_size pending) as [c' ts] eqn:Esel.
  destruct (select_transactions_spec _ _ _ _ _ _ _ Esel Hheader) as (_ & Hts & Htot).
  destruct (make_block_fields _ _ _ _ _ _ E) as (Hp & Ht & Hbw & Htr & Hroot & Hsig). split; [|exists c'; by rewrite Htr].
  assert (head_time (schedule c) < when) as Htime.
  { unfold get_slot_at_time in Hslot. destruct (Z.ltb_spec when (get_slot_time (schedule c) 1)) as [|Hge]; [done|].
    rewrite get_slot_time_linear in Hge by (done || lia).
    pose proof (slot_base_bounds _ Hok). pose proof (slot_skip_bounds _ Hok). destruct Hok. nia. }
  unfold check_block, push_skip. rewrite !skipped_lor by done.
  assert ((block_size b <=? maximum_block_size (limits_of (ledger c))) = true) as ->
    by (apply Z.leb_le; specialize (Hsize b); rewrite Htr in Hsize; lia).
  rewrite bool_decide_eq_true_2 by done. rewrite orb_true_r. unfold validate_block_header.
  rewrite bool_decide_eq_true_2 by done. rewrite Ht. apply Z.ltb_lt in Htime as ->. rewrite Hbw, Hr. cbn [fc_assert of_option rbind].
  rewrite Hslot, Hsw. cbn [fc_assert rbind]. rewrite Z.eqb_refl. cbn [fc_assert rbind].
  destruct (skipped skip skip_witness_signature) eqn:Hskip; cbn [rbind].
  - by destruct (skipped skip skip_block_size_check), (skipped skip skip_witness_schedule_check).
  - rewrite Hr in Hkey. cbn [of_option rbind] in Hkey. destruct (signing_key r =? public_key key) eqn:Hk; [|done].
    apply Z.eqb_eq in Hk. rewrite Hk. destruct (Hsig _ eq_refl) as [u Hu]. rewrite Hu, Hsign. cbn [fc_assert rbind].
    by destruct (skipped skip skip_block_size_check), (skipped skip skip_witness_schedule_check).
Qed.

(** ** The interface of the chain of blocks *)

Definition chain_machine (skip : Z) : BlockMachine chain trx := {|
  schedule_of := schedule;
  machine_apply_block := apply_block skip;
  machine_apply_transaction := apply_transaction skip;
  is_known_transaction := known_transaction;
|}.

Lemma chain_machine_laws skip : @BlockMachineLaws chain trx (chain_machine skip) header_hash.
Proof.
  split; cbn; unfold apply_block; intros c b k.
  - intros c' E. destruct (checkpoint_flags skip c b) as [skip'|]; [|done].
    destruct (applied_block_spec _ _ _ _ _ E) as (H1 & _ & H2 & H3 & _). by split_and!.
  - intros r E. destruct (checkpoint_flags skip c b) as [skip'|]; [|done]. unfold _apply_block in E.
    match type of E with match ?m with _ => _ end = _ => destruct m; [|done] end. injection E as <- _.
    unfold undo_history_size, u32. apply Z.mod_pos_bound. lia.
Qed.
End Apply.
