(* ===== verification/ChainExample.v ===== *)
(** A small chain, on which the theorems about pushing, applying and generating blocks are
    applied: one account whose balance operations change, two competing branches. *)
From S2P Require Import Prelude Records Block Schedule ForkDb Chain Apply.

(** ** A ledger *)

Module Small.
(** An operation changes the balance, which must not become negative. *)
#[export] Instance small_ledger : Ledger Z Z := {|
  limits_of _ := Limits 2000 1000 86400;
  operation_validate op := assert! negb (op =? 0) @ "amount" in Ok tt;
  verify_transaction _ _ t := assert! bool_decide (signatures t <> []) @ "missing signature" in Ok tt;
  apply_operation s r op := assert! 0 <=? r + op @ "Insufficient Balance" in Ok (s, r + op);
  unpaid_samet_fund _ := false;
  run_update _ s r _ := Ok (s, r);
|}.

#[export] Instance small_laws : LedgerLaws Z Z.
Proof.
  split.
  - intros s r op s' r'. cbn. destruct (0 <=? r + op); [|done]. cbn. by intros [= <- _].
  - intros u s r b s' r' [= <- _]. done.
Qed.

Definition trx := signed_transaction Z.
Definition header_hash (b : signed_block trx) : Z := 10 * snd (previous b) + block_witness b.
Definition trx_id (t : trx) : Z := expiration t * 65536 + ref_block_num t mod 65536.
Definition size (t : trx) : Z := 40 + Z.of_nat (length (operations t)).
Definition block_size (b : signed_block trx) : Z := 100 + foldr (fun t n => size t + n) 0 (transactions b).
Definition signed_by (b : signed_block trx) (key : Z) : bool := witness_signature b =? key.
Definition hash_pair (x y : Z) : Z := x * 31 + y.
Definition checksum (x : Z) : Z := x mod 2 ^ 64.
Definition public_key (key : Z) : Z := key + 100.
Definition sign (key : Z) (b : signed_block trx) : Z := public_key key.

Lemma trx_id_expiration t t' : trx_id t = trx_id t' -> expiration t = expiration t'.
Proof.
  unfold trx_id. pose proof (Z.mod_pos_bound (ref_block_num t) 65536 ltac:(lia)).
  pose proof (Z.mod_pos_bound (ref_block_num t') 65536 ltac:(lia)). lia.
Qed.

#[export] Instance machine : BlockMachine (@chain Z Z) trx :=
  chain_machine header_hash trx_id trx_id size block_size hash_pair checksum signed_by (fun _ => None) 0.
#[export] Instance machine_laws : BlockMachineLaws (@chain Z Z) header_hash.
Proof. apply chain_machine_laws, _. Qed.

(** ** Blocks *)

(** The head of the chain is block 8. *)
Definition b8 : signed_block trx := SignedBlock (7, 7) 1700000001 7 0 107 [].
Definition s8 : @chain Z Z :=
  MkChain sample_schedule (list_to_map (map (fun k => (Z.of_nat k, if (k =? 8)%nat then (8, 77) else null_block_id)) (seq 0 16))) ∅ 50.

(** Two deposits and a withdrawal that only one of the branches can pay for. *)
Definition deposit : trx := SignedTransaction 8 77 1700000100 [30] [1].
Definition wait : trx := SignedTransaction 8 77 1700000200 [5] [1].
Definition spend : trx := SignedTransaction 8 77 1700000300 [-60] [1].

Definition make (c : @chain Z Z) (when w : Z) (ts : list trx) : signed_block trx :=
  match generate_block trx_id trx_id size size hash_pair checksum public_key sign 100 0 c (map (fun t => (t, size t)) ts) when w w with
  | Ok b => b
  | Err _ => b8
  end.
Definition after (c : @chain Z Z) (b : signed_block trx) : @chain Z Z :=
  match snd (machine_apply_block c b) with Ok c => c | Err _ => c end.

Definition a9 := make s8 1700000010 3 [deposit].
Definition s9 := after s8 a9.
Definition c9 := make s8 1700000013 7 [].
Definition t9 := after s8 c9.
Definition c10 := make t9 1700000016 5 [wait].
Definition t10 := after t9 c10.
(** A block that does not apply after [c9], as the balance is too small. *)
Definition bad10 : signed_block trx := SignedBlock (previous c10) (timestamp c10) 5 (checksum (trx_id spend)) 105 [spend].

Example blocks_numbers : map block_num [a9; c9; c10; bad10] = [9; 9; 10; 10] /\ map ledger [s9; t9; t10] = [80; 50; 55]
  /\ snd (machine_apply_block t9 bad10) = Err (assert_exception "Insufficient Balance").
Proof. split_and!; vm_compute; reflexivity. Qed.

(** ** A node with two branches *)

Definition push_all (db : @fork_database trx) (bs : list (signed_block trx)) : @fork_database trx :=
  foldl (fun db b => match push_item header_hash db b with Ok db => db | Err _ => db end) db bs.
Definition branches9 : @fork_database trx := push_all (start_block header_hash new_fork_database b8) [a9; c9].

(** The chain has followed [a9], and a transaction waits. *)
Definition node9 : @node (@chain Z Z) trx :=
  Node (match machine_apply_transaction s9 wait with Ok c => c | Err _ => s9 end) [s8] 1024 branches9 ∅ ∅ (Some s9) [wait] [].
Notation push b := (push_block header_hash signed_by 1700000020 false 20 b node9).

(** The states of the two branches. *)
Definition covered (s : @chain Z Z) : Prop := s = s8 \/ s = s9 \/ s = t9 \/ s = t10.

Lemma node9_clean : cleaned node9 = Node s9 [s8] 1024 branches9 ∅ ∅ None [] [].
Proof. reflexivity. Qed.

Lemma push_all_live bs : forall db, fork_live header_hash db -> fork_live header_hash (push_all db bs).
Proof.
  induction bs as [|b bs IH]; cbn; intros db Hl; [done|]. apply IH. destruct (push_item header_hash db b) as [db'|] eqn:E; [|done].
  by eapply push_item_live.
Qed.

Lemma branches9_live : fork_live header_hash branches9.
Proof.
  apply push_all_live. assert (fork_ok header_hash (start_block header_hash new_fork_database b8)) as Hok.
  { apply start_block_ok. split; cbn; try done; intros *; by rewrite lookup_empty. }
  split; [done| |vm_compute; discriminate|by eexists]. intros h i id p [= <-] Hi Hp.
  change (fork_index (start_block header_hash new_fork_database b8)) with ({[block_id_of header_hash b8 := 0]} : gmap block_id Z) in Hp.
  apply lookup_singleton_Some in Hp as [_ <-]. rewrite (num_of_item _ 0 i) by done.
  change (max_size (start_block header_hash new_fork_database b8)) with 1024. lia.
Qed.

Lemma node9_consistent : consistent header_hash covered (cleaned node9) [a9].
Proof.
  rewrite node9_clean. split.
  - apply branches9_live.
  - apply (linked_block covered s8 s9 [] a9 [] (Some 6)); [vm_compute; reflexivity|right; by left|]. apply linked_start. by left.
  - intros b p i Hb%list_elem_of_singleton Hp Hi. subst b. vm_compute in Hp. injection Hp as <-. vm_compute in Hi. injection Hi as <-.
    vm_compute. reflexivity.
  - exists 1. split; vm_compute; reflexivity.
  - intros id p Hp. assert (map_Forall (fun _ p => num_of branches9 p <= 9) (fork_index branches9)) as Hall
      by (apply (bool_decide_eq_true_1 _); vm_compute; reflexivity).
    specialize (Hall id p Hp). cbn in Hall. change (head_num _) with 9. exact Hall.
  - reflexivity.
  - reflexivity.
  - reflexivity.
Qed.

(** No block of the branches asks for less room than two blocks. *)
Lemma small_room b : b = a9 \/ b = c9 \/ b = c10 \/ b = bad10 -> leaves_room covered 2 b.
Proof.
  intros Hb. split.
  - intros s k r [-> |[-> |[-> | ->]]]; destruct Hb as [-> |[-> |[-> | ->]]]; intros E; vm_compute in E; try discriminate E;
      apply (f_equal fst) in E; cbn in E; injection E as <-; lia.
  - intros s k s' [-> |[-> |[-> | ->]]]; destruct Hb as [-> |[-> |[-> | ->]]]; intros E; apply (f_equal snd) in E; cbn [snd] in E;
      first [ vm_compute in E; discriminate E
            | right; left; unfold s9, after; by rewrite E
            | right; right; left; unfold t9, after; by rewrite E
            | right; right; right; unfold t10, after; by rewrite E ].
Qed.

Ltac by_computation := vm_compute; reflexivity.

Lemma node9_room b : b = c10 \/ b = bad10 -> room header_hash covered 20 2 (cleaned node9) [a9] b.
Proof.
  intros Hb. rewrite node9_clean. split.
  - split_and!; vm_compute; discriminate.
  - apply small_room. tauto.
  - by destruct Hb as [-> | ->].
  - split; [by destruct Hb as [-> | ->]|]. intros x. cbn [fork_db]. unfold num_of. destruct (fork_items branches9 !! x) as [i|] eqn:Ex; [|lia].
    assert (map_Forall (fun _ i => item_num i < 20) (fork_items branches9)) as Hall by (apply (bool_decide_eq_true_1 _); by_computation).
    apply (Hall x i Ex).
  - intros b' ->%list_elem_of_singleton E. destruct Hb as [-> | ->]; vm_compute in E; discriminate E.
  - intros db h E _ _. exists [3; 2], [1], [b; c9], [a9].
    assert (db = push_all branches9 [b]) as ->.
    { unfold fork_push_block in E. cbn [push_all foldl fork_db] in *. destruct (push_item header_hash branches9 b); [|done].
      by injection E as -> _. }
    destruct Hb as [-> | ->]; (split; [by_computation|]); (split; [|split; [|split_and!; cbn; lia]]); unfold branch_items; cbn [fork_db];
      repeat constructor; eexists; (split; [by_computation|]); (split; [by_computation|]); apply small_room; tauto.
Qed.
End Small.

Import Small.

(** A block that switches to the other branch, and one that fails in the midst of it. *)
Lemma push_block_atomic_witness : exists n' n'',
  push c10 = (n', Ok true) /\ head_of (clean_state n') = block_id_of header_hash c10
  /\ push bad10 = (n'', Err (assert_exception "Insufficient Balance")) /\ clean_state n'' = s9
  /\ pending_tx n' = [deposit] /\ pending_tx n'' = [wait].
Proof.
  destruct (push c10) as [n' r'] eqn:E'. destruct (push bad10) as [n'' r''] eqn:E''.
  assert (r' = Ok true) as -> by (apply (f_equal snd) in E'; cbn [snd] in E'; rewrite <- E'; by_computation).
  assert (r'' = Err (assert_exception "Insufficient Balance")) as -> by (apply (f_equal snd) in E''; cbn [snd] in E''; rewrite <- E''; by_computation).
  destruct (push_block_atomic header_hash signed_by 1700000020 false covered 20 2 node9 [a9] c10 n' (Ok true)
    node9_consistent (node9_room c10 (or_introl eq_refl)) E') as [_ H'].
  destruct (push_block_atomic header_hash signed_by 1700000020 false covered 20 2 node9 [a9] bad10 n'' (Err (assert_exception "Insufficient Balance"))
    node9_consistent (node9_room bad10 (or_intror eq_refl)) E'') as [_ H''].
  exists n', n''. split; [reflexivity|]. split; [exact H'|]. split; [reflexivity|]. split; [exact H''|].
  apply (f_equal fst) in E'. apply (f_equal fst) in E''. cbn [fst] in E', E''. rewrite <- E', <- E''. split; by_computation.
Defined.

(** Two blocks; the transaction of the second one cannot be applied after them. *)
Lemma no_transaction_twice_witness :
  (let ts := concat (map transactions [c9; c10]) in
   NoDup (map trx_id ts) /\ forall t, t ∈ ts -> known_transaction trx_id s8 t = false)
  /\ apply_transaction trx_id size 0 t10 wait = Err (thrown "duplicate_transaction").
Proof.
  split; [|by_computation].
  apply (no_transaction_twice header_hash trx_id trx_id size block_size hash_pair checksum signed_by 0 s8 [c9; c10] t10);
    [exact trx_id_expiration|reflexivity|intros id t Ht; vm_compute in Ht; discriminate Ht| |by_computation].
  intros b [->|[->|[]%elem_of_nil]%elem_of_cons]%elem_of_cons; reflexivity.
Defined.

(** Of two waiting transactions one can be paid for. *)
Lemma generated_block_accepted_witness :
  generate_block trx_id trx_id size size hash_pair checksum public_key sign 100 0 t9 [(spend, 41); (wait, 41)] 1700000016 5 5 = Ok c10
  /\ check_block trx_id block_size hash_pair checksum signed_by 2 t9 c10 = Ok tt
  /\ exists c', apply_transactions trx_id size 2 t9 (transactions c10) = Ok c'.
Proof.
  assert (generate_block trx_id trx_id size size hash_pair checksum public_key sign 100 0 t9 [(spend, 41); (wait, 41)] 1700000016 5 5 = Ok c10)
    as E by by_computation.
  split; [exact E|].
  apply (generated_block_accepted trx_id trx_id size size block_size hash_pair checksum signed_by public_key sign 100 0 t9
    [(spend, 41); (wait, 41)] 1700000016 5 5 c10); [split; vm_compute; congruence|unfold slot_fits; by_computation|by eexists| | |vm_compute; congruence|exact E].
  - intros u. apply Z.eqb_refl.
  - intros u. unfold block_size. apply Z.le_refl.
Defined.
