(* ===== verification/UndoDatabase.v ===== *)
(** The object database and its undo history: [libraries/db], files [object_id.hpp]
    (of the protocol library), [index.hpp], [generic_index.hpp], [object_database.hpp],
    [object_database.cpp], [undo_database.hpp] and [undo_database.cpp]. *)
From S2P Require Import Prelude Records.

(** ** Object ids *)

Definition instance_bits : Z := 48.
Definition type_and_instance_bits : Z := 56.
Definition one_byte_mask : Z := 255.
Definition max_instance : Z := 281474976710655.

(** An [object_id_type] is its 64-bit [number]. *)
Definition object_id_type := Z.

Definition make_id (s t i : Z) : result object_id_type :=
  assert! Z.shiftr i instance_bits =? 0 @ "instance overflow" in
  Ok (Z.lor (Z.lor (Z.shiftl s type_and_instance_bits) (Z.shiftl t instance_bits)) i).

Definition space (id : object_id_type) : Z := Z.shiftr id type_and_instance_bits.
Definition type (id : object_id_type) : Z := Z.land (Z.shiftr id instance_bits) one_byte_mask.
Definition instance_of (id : object_id_type) : Z := Z.land id max_instance.

(** The loops over the unordered containers visit every entry once, in an order the
    code cannot rely on. *)
Class IterationOrder := {
  map_items : forall {A : Type}, gmap object_id_type A -> list (object_id_type * A);
  set_items : gset object_id_type -> list object_id_type;
  map_items_perm : forall {A : Type} (m : gmap object_id_type A), map_items m ≡ₚ map_to_list m;
  set_items_perm : forall s : gset object_id_type, set_items s ≡ₚ elements s;
}.

(** One of the orders. *)
#[refine] Definition key_order : IterationOrder :=
  {| map_items := fun _ m => map_to_list m; set_items := elements |}.
Proof. all: done. Defined.

Section Undo.
(** [V] is the contents of an object, its id apart. *)
Context {V : Type} {order : IterationOrder}.

(** ** Indexes and the undo state *)

Record object := Object { obj_id : object_id_type; obj_value : V }.

Record index := Index { ix_next_id : object_id_type; ix_rows : gmap object_id_type object }.
#[local] Instance eta_index : Eta index := fun r => Index (ix_next_id r) (ix_rows r).

(** [_index]: the indexes by space and type. *)
Abbreviation indexes := (gmap (Z * Z) index).

Record undo_state := UndoState {
  old_values : gmap object_id_type object;
  old_index_next_ids : gmap object_id_type object_id_type;
  new_ids : gset object_id_type;
  removed : gmap object_id_type object;
}.
#[local] Instance eta_undo_state : Eta undo_state := fun r =>
  UndoState (old_values r) (old_index_next_ids r) (new_ids r) (removed r).

(** The back of the [std::deque] is the head of the list. *)
Record undo_database := UndoDatabase {
  active_sessions : Z;
  disabled : bool;
  undo_stack : list undo_state;
  undo_max_size : Z;
}.
#[local] Instance eta_undo_database : Eta undo_database := fun r =>
  UndoDatabase (active_sessions r) (disabled r) (undo_stack r) (undo_max_size r).

Record object_database := ObjectDatabase { db_index : indexes; db_undo : undo_database }.
#[local] Instance eta_object_database : Eta object_database := fun r =>
  ObjectDatabase (db_index r) (db_undo r).

Definition empty_state : undo_state := UndoState ∅ ∅ ∅ ∅.

(** [_stack.back()] after [if( _stack.empty() ) _stack.emplace_back()] *)
Definition on_back (f : undo_state -> undo_state) (st : list undo_state) : list undo_state :=
  match st with
  | [] => [f empty_state]
  | s :: st' => f s :: st'
  end.

Definition index_id (id : object_id_type) : object_id_type :=
  Z.lor (Z.shiftl (space id) type_and_instance_bits) (Z.shiftl (type id) instance_bits).

Definition state_on_create (o : object) (s : undo_state) : undo_state :=
  let s := match old_index_next_ids s !! index_id (obj_id o) with
           | None => s <| old_index_next_ids ::= <[index_id (obj_id o) := obj_id o]> |>
           | Some _ => s
           end in
  s <| new_ids ::= union {[obj_id o]} |>.

Definition state_on_modify (o : object) (s : undo_state) : undo_state :=
  if bool_decide (obj_id o ∈ new_ids s) then s
  else match old_values s !! obj_id o with
       | Some _ => s
       | None => s <| old_values ::= <[obj_id o := o]> |>
       end.

Definition state_on_remove (o : object) (s : undo_state) : undo_state :=
  if bool_decide (obj_id o ∈ new_ids s) then s <| new_ids := new_ids s ∖ {[obj_id o]} |>
  else match old_values s !! obj_id o with
       | Some v => s <| removed ::= <[obj_id o := v]> |> <| old_values ::= delete (obj_id o) |>
       | None => match removed s !! obj_id o with
                 | Some _ => s
                 | None => s <| removed ::= <[obj_id o := o]> |>
                 end
       end.

Definition on_create (o : object) (u : undo_database) : undo_database :=
  if disabled u then u else u <| undo_stack ::= on_back (state_on_create o) |>.
Definition on_modify (o : object) (u : undo_database) : undo_database :=
  if disabled u then u else u <| undo_stack ::= on_back (state_on_modify o) |>.
Definition on_remove (o : object) (u : undo_database) : undo_database :=
  if disabled u then u else u <| undo_stack ::= on_back (state_on_remove o) |>.

(** ** The object database *)

Definition get_index (db : object_database) (s t : Z) : result index :=
  of_option "Database index" (db_index db !! (s, t)).

Definition set_index (db : object_database) (s t : Z) (ix : index) : object_database :=
  db <| db_index ::= <[(s, t) := ix]> |>.

Definition find_object (db : object_database) (id : object_id_type) : result (option object) :=
  let! ix := get_index db (space id) (type id) in
  Ok (ix_rows ix !! id).

Definition get_object (db : object_database) (id : object_id_type) : result object :=
  let! o := find_object db id in
  of_option "Unable to find Object" o.

Definition use_next_id (ix : index) : index := ix <| ix_next_id ::= fun n => u64 (n + 1) |>.

(** [primary_index::create], over [generic_index::create] *)
Definition create (db : object_database) (s t : Z) (v : V) : result (object_database * object) :=
  let! ix := get_index db s t in
  let o := Object (ix_next_id ix) v in
  assert! bool_decide (ix_rows ix !! obj_id o = None)
    @ "Could not create object! Most likely a uniqueness constraint is violated." in
  let db := set_index db s t (use_next_id (ix <| ix_rows ::= <[obj_id o := o]> |>)) in
  Ok (db <| db_undo ::= on_create o |>, o).

Definition insert_object (db : object_database) (o : object) : result object_database :=
  let! ix := get_index db (space (obj_id o)) (type (obj_id o)) in
  assert! bool_decide (ix_rows ix !! obj_id o = None)
    @ "Could not insert object, most likely a uniqueness constraint was violated" in
  let db := set_index db (space (obj_id o)) (type (obj_id o)) (ix <| ix_rows ::= <[obj_id o := o]> |>) in
  Ok (db <| db_undo ::= on_create o |>).

(** [modify( obj, m )]: a reference to the stored object is what the caller holds. *)
Definition modify (db : object_database) (obj : object) (m : object -> object) : result object_database :=
  let! ix := get_index db (space (obj_id obj)) (type (obj_id obj)) in
  let db := db <| db_undo ::= on_modify obj |> in
  Ok (set_index db (space (obj_id obj)) (type (obj_id obj))
        (ix <| ix_rows ::= <[obj_id obj := m obj]> |>)).

Definition remove (db : object_database) (obj : object) : result object_database :=
  let! ix := get_index db (space (obj_id obj)) (type (obj_id obj)) in
  let db := db <| db_undo ::= on_remove obj |> in
  Ok (set_index db (space (obj_id obj)) (type (obj_id obj)) (ix <| ix_rows ::= delete (obj_id obj) |>)).

Definition set_next_id (db : object_database) (key id : object_id_type) : result object_database :=
  let! ix := get_index db (space key) (type key) in
  Ok (set_index db (space key) (type key) (ix <| ix_next_id := id |>)).

(** ** Sessions *)

Definition set_disabled (b : bool) (db : object_database) : object_database :=
  db <| db_undo ::= fun u => u <| disabled := b |> |>.
Definition enable : object_database -> object_database := set_disabled false.
Definition disable : object_database -> object_database := set_disabled true.

Definition set_max_size (n : Z) (db : object_database) : object_database :=
  db <| db_undo ::= fun u => u <| undo_max_size := n |> |>.

Record session := Session { apply_undo : bool; disable_on_exit : bool }.

(** [while( size() > max_size() ) _stack.pop_front();] *)
Fixpoint pop_front_while (fuel : nat) (max : Z) (st : list undo_state) : list undo_state :=
  if Z.of_nat (length st) >? max then
    match fuel with
    | O => st
    | S fuel' => pop_front_while fuel' max (removelast st)
    end
  else st.

Definition start_undo_session (force_enable : bool) (db : object_database) : object_database * session :=
  let u := db_undo db in
  if disabled u && negb force_enable then (db, Session true false)
  else
    let disable_on_exit := disabled u && force_enable in
    let u := if force_enable then u <| disabled := false |> else u in
    let u := u <| undo_stack ::= fun st => pop_front_while (length st) (undo_max_size u) st |> in
    let u := u <| undo_stack ::= cons empty_state |> in
    let u := u <| active_sessions ::= fun n => u32 (n + 1) |> in
    (db <| db_undo := u |>, Session true disable_on_exit).

Definition restore_value (db : object_database) (item : object_id_type * object) : result object_database :=
  let! o := get_object db (obj_id item.2) in
  modify db o (fun _ => item.2).

Definition remove_new (db : object_database) (id : object_id_type) : result object_database :=
  let! o := get_object db id in
  remove db o.

(** The four loops of [undo] and [pop_commit]. *)
Definition apply_undo_state (db : object_database) (s : undo_state) : result object_database :=
  let! db := rfold restore_value db (map_items (old_values s)) in
  let! db := rfold remove_new db (set_items (new_ids s)) in
  let! db := rfold (fun db item => set_next_id db item.1 item.2) db (map_items (old_index_next_ids s)) in
  rfold (fun db item => insert_object db item.2) db (map_items (removed s)).

Definition pop_back (db : object_database) : object_database :=
  db <| db_undo ::= fun u => u <| undo_stack ::= fun st => tail st |> |>.

Definition dec_active (db : object_database) : object_database :=
  db <| db_undo ::= fun u => u <| active_sessions ::= fun n => u32 (n - 1) |> |>.

(** [_stack.back()] of an empty deque is undefined. *)
Definition back (db : object_database) : result undo_state :=
  of_option "undefined behaviour: back() of an empty deque" (head (undo_stack (db_undo db))).

Definition undo (db : object_database) : result object_database :=
  assert! negb (disabled (db_undo db)) @ "!_disabled" in
  assert! 0 <? active_sessions (db_undo db) @ "_active_sessions > 0" in
  let db := disable db in
  let! state := back db in
  let! db := apply_undo_state db state in
  Ok (dec_active (enable (pop_back db))).

(** The three loops of [merge], the state [s] into its predecessor [p]. *)
Definition merge_upd (s : undo_state) (p : undo_state) : undo_state :=
  foldl (fun p item =>
    if bool_decide (obj_id item.2 ∈ new_ids p) then p
    else match old_values p !! obj_id item.2 with
         | Some _ => p
         | None => p <| old_values ::= <[obj_id item.2 := item.2]> |>
         end) p (map_items (old_values s)).

Definition merge_new (s : undo_state) (p : undo_state) : undo_state :=
  foldl (fun p id => p <| new_ids ::= union {[id]} |>) p (set_items (new_ids s)).

Definition merge_next_ids (s : undo_state) (p : undo_state) : undo_state :=
  foldl (fun p item => match old_index_next_ids p !! item.1 with
                       | None => p <| old_index_next_ids ::= <[item.1 := item.2]> |>
                       | Some _ => p
                       end) p (map_items (old_index_next_ids s)).

Definition merge_del (s : undo_state) (p : undo_state) : undo_state :=
  foldl (fun p item =>
    let id := obj_id item.2 in
    if bool_decide (id ∈ new_ids p) then p <| new_ids := new_ids p ∖ {[id]} |>
    else match old_values p !! id with
         | Some v => p <| removed ::= <[id := v]> |> <| old_values ::= delete id |>
         | None => p <| removed ::= <[id := item.2]> |>
         end) p (map_items (removed s)).

Definition merge_states (s p : undo_state) : undo_state :=
  merge_del s (merge_next_ids s (merge_new s (merge_upd s p))).

Definition merge (db : object_database) : result object_database :=
  let u := db_undo db in
  assert! 0 <? active_sessions u @ "_active_sessions > 0" in
  if (active_sessions u =? 1) && (length (undo_stack u) =? 1)%nat then Ok (dec_active (pop_back db))
  else
    match undo_stack u with
    | s :: p :: st =>
        Ok (dec_active (db <| db_undo ::= fun u => u <| undo_stack := merge_states s p :: st |> |>))
    | _ => Err (assert_exception "_stack.size() >=2")
    end.

Definition commit (db : object_database) : result object_database :=
  assert! 0 <? active_sessions (db_undo db) @ "_active_sessions > 0" in
  Ok (dec_active db).

Definition pop_commit (db : object_database) : result object_database :=
  assert! active_sessions (db_undo db) =? 0 @ "_active_sessions == 0" in
  assert! negb (bool_decide (undo_stack (db_undo db) = [])) @ "!_stack.empty()" in
  let db := disable db in
  let! state := back db in
  let! db := apply_undo_state db state in
  Ok (enable (pop_back db)).

Definition pop_undo : object_database -> result object_database := pop_commit.

(** The members of [session], and its destructor. *)
Definition session_commit (s : session) (db : object_database) : result (object_database * session) :=
  let! db := commit db in Ok (db, Session false (disable_on_exit s)).

Definition session_undo (s : session) (db : object_database) : result (object_database * session) :=
  let! db := (if apply_undo s then undo db else Ok db) in Ok (db, Session false (disable_on_exit s)).

Definition session_merge (s : session) (db : object_database) : result (object_database * session) :=
  let! db := (if apply_undo s then merge db else Ok db) in Ok (db, Session false (disable_on_exit s)).

Definition session_destroy (s : session) (db : object_database) : result object_database :=
  let! db := (if apply_undo s then undo db else Ok db) in
  Ok (if disable_on_exit s then disable db else db).

(** ** The specification: a stack of snapshots *)

(** What the undo history promises: [past] holds copies of the whole database, the
    newest first; a session starts with a copy of the present one, and undoing goes
    back to it. *)
Record snapshots := Snapshots {
  now : indexes;
  past : list indexes;
  open_sessions : Z;
  depth_limit : Z;
}.

Inductive command :=
  | Create (s t : Z) (v : V)
  | Modify (id : object_id_type) (f : V -> V)
  | Remove (id : object_id_type)
  | Start
  | Undo
  | Merge
  | Commit
  | PopCommit
  | SetMaxSize (n : Z).

Definition change (f : V -> V) (o : object) : object := Object (obj_id o) (f (obj_value o)).

Definition step (db : object_database) (c : command) : result object_database :=
  match c with
  | Create s t v => let! (db, _) := create db s t v in Ok db
  | Modify id f => let! o := get_object db id in modify db o (change f)
  | Remove id => let! o := get_object db id in remove db o
  | Start => Ok (start_undo_session false db).1
  | Undo => undo db
  | Merge => merge db
  | Commit => commit db
  | PopCommit => pop_undo db
  | SetMaxSize n => Ok (set_max_size n db)
  end.

Definition run : object_database -> list command -> result object_database := rfold step.

(** The index an id belongs to, and the views of the contents. *)
Definition st (id : object_id_type) : Z * Z := (space id, type id).
Definition obj (d : indexes) (id : object_id_type) : option object := d !! st id ≫= fun ix => ix_rows ix !! id.
Definition nxt (d : indexes) (k : Z * Z) : option object_id_type := ix_next_id <$> d !! k.

Definition put (d : indexes) (o : object) : indexes :=
  alter (fun ix => ix <| ix_rows ::= <[obj_id o := o]> |>) (st (obj_id o)) d.
Definition del (d : indexes) (id : object_id_type) : indexes :=
  alter (fun ix => ix <| ix_rows ::= delete id |>) (st id) d.
Definition renext (d : indexes) (k : Z * Z) (n : object_id_type) : indexes :=
  alter (fun ix => ix <| ix_next_id := n |>) k d.

#[local] Arguments st : simpl never.
#[local] Arguments put : simpl never.
#[local] Arguments del : simpl never.
#[local] Arguments renext : simpl never.

(** A change outside of any session opens an implicit first state. *)
Definition remembered (a : snapshots) : list indexes :=
  match past a with [] => [now a] | _ => past a end.

Definition change_now (a : snapshots) (d : indexes) : snapshots :=
  Snapshots d (remembered a) (open_sessions a) (depth_limit a).

Definition spec_step (a : snapshots) (c : command) : result snapshots :=
  match c with
  | Create s t v =>
      let! n := of_option "Database index" (nxt (now a) (s, t)) in
      assert! instance_of n <? max_instance @ "instance overflow" in
      Ok (change_now a (renext (put (now a) (Object n v)) (s, t) (n + 1)))
  | Modify id f =>
      let! o := of_option "Unable to find Object" (obj (now a) id) in
      Ok (change_now a (put (now a) (change f o)))
  | Remove id =>
      let! _ := of_option "Unable to find Object" (obj (now a) id) in
      Ok (change_now a (del (now a) id))
  | Start =>
      assert! (open_sessions a <? depth_limit a) && (open_sessions a <? 2 ^ 32 - 1) @ "too many sessions" in
      Ok (Snapshots (now a) (now a :: take (Z.to_nat (depth_limit a)) (past a))
            (open_sessions a + 1) (depth_limit a))
  | Undo =>
      assert! 0 <? open_sessions a @ "no session" in
      match past a with
      | d :: ps => Ok (Snapshots d ps (open_sessions a - 1) (depth_limit a))
      | [] => Err (thrown "no snapshot")
      end
  | Merge =>
      assert! 0 <? open_sessions a @ "no session" in
      match past a with
      | [_] => if open_sessions a =? 1 then Ok (Snapshots (now a) [] 0 (depth_limit a))
               else Err (thrown "no snapshot")
      | _ :: d :: ps => Ok (Snapshots (now a) (d :: ps) (open_sessions a - 1) (depth_limit a))
      | [] => Err (thrown "no snapshot")
      end
  | Commit =>
      assert! 0 <? open_sessions a @ "no session" in
      Ok (Snapshots (now a) (past a) (open_sessions a - 1) (depth_limit a))
  | PopCommit =>
      assert! open_sessions a =? 0 @ "open session" in
      match past a with
      | d :: ps => Ok (Snapshots d ps 0 (depth_limit a))
      | [] => Err (thrown "no snapshot")
      end
  | SetMaxSize n =>
      assert! open_sessions a <=? n @ "below the open sessions" in
      Ok (Snapshots (now a) (past a) (open_sessions a) n)
  end.

Definition spec_run : snapshots -> list command -> result snapshots := rfold spec_step.

(** ** What an undo state records *)

(** The entry of an object in an undo state: new, old value, removed value. *)
Definition entry (s : undo_state) (id : object_id_type) : bool * option object * option object :=
  (bool_decide (id ∈ new_ids s), old_values s !! id, removed s !! id).

(** An entry explains how the object went from [a] to [b]: the four rows of the table
    in [undo_database::merge]. *)
Inductive tracked : bool * option object * option object -> option object -> option object -> Prop :=
  | tracked_new o : tracked (true, None, None) None (Some o)
  | tracked_upd o o' : tracked (false, Some o, None) (Some o) (Some o')
  | tracked_del o : tracked (false, None, Some o) (Some o) None
  | tracked_nop a : tracked (false, None, None) a a.

Record tracks (s : undo_state) (pre cur : indexes) : Prop := {
  tr_entries : forall id, tracked (entry s id) (obj pre id) (obj cur id);
  tr_fresh : forall id n, id ∈ new_ids s -> nxt pre (st id) = Some n -> n <= id;
  tr_next : forall id, match old_index_next_ids s !! index_id id with
                       | Some n => nxt pre (st id) = Some n
                       | None => nxt pre (st id) = nxt cur (st id)
                       end;
  tr_keys : forall k n, old_index_next_ids s !! k = Some n -> k = index_id n;
  tr_indexes : forall k, is_Some (pre !! k) <-> is_Some (cur !! k);
  tr_grows : forall k a b, nxt pre k = Some a -> nxt cur k = Some b -> a <= b;
}.

(** Every index stores its own objects under their ids, below its next id. *)
Definition indexes_wf (d : indexes) : Prop :=
  forall k ix, d !! k = Some ix -> st (ix_next_id ix) = k /\ 0 <= ix_next_id ix < 2 ^ 64
    /\ forall id o, ix_rows ix !! id = Some o -> obj_id o = id /\ st id = k /\ id < ix_next_id ix.

(** The stack of undo states leads from the present back through the snapshots. *)
Fixpoint history (cur : indexes) (states : list undo_state) (ds : list indexes) : Prop :=
  match states, ds with
  | [], [] => True
  | s :: states', d :: ds' => tracks s d cur /\ indexes_wf d /\ history d states' ds'
  | _, _ => False
  end.

Record refines (db : object_database) (a : snapshots) : Prop := {
  ref_now : db_index db = now a;
  ref_wf : indexes_wf (now a);
  ref_enabled : disabled (db_undo db) = false;
  ref_active : active_sessions (db_undo db) = open_sessions a;
  ref_limit : undo_max_size (db_undo db) = depth_limit a;
  ref_history : history (now a) (undo_stack (db_undo db)) (past a);
  ref_open : 0 <= open_sessions a < 2 ^ 32 /\ open_sessions a <= Z.of_nat (length (past a))
             /\ open_sessions a <= depth_limit a;
}.

(** ** Ids and contents *)

Lemma st_quot id : st id = (id / 2 ^ 48 / 256, (id / 2 ^ 48) mod 256).
Proof.
  unfold st, space, type, type_and_instance_bits, instance_bits, one_byte_mask.
  rewrite !Z.shiftr_div_pow2 by lia. rewrite (Z.land_ones _ 8) by lia.
  by rewrite (Z.div_div id (2 ^ 48) 256) by lia.
Qed.

Lemma st_eq a b : st a = st b <-> a / 2 ^ 48 = b / 2 ^ 48.
Proof.
  rewrite !st_quot. split; [|by intros ->]. intros [= H1 H2].
  rewrite (Z.div_mod (a / 2 ^ 48) 256), (Z.div_mod (b / 2 ^ 48) 256) by lia. lia.
Qed.

Lemma index_id_quot id : index_id id = id / 2 ^ 48 * 2 ^ 48.
Proof.
  unfold index_id, space, type, type_and_instance_bits, instance_bits, one_byte_mask.
  change (Z.shiftr id 56) with (Z.shiftr id (48 + 8)). rewrite <- Z.shiftr_shiftr by lia.
  change 56 with (8 + 48). rewrite <- Z.shiftl_shiftl, <- Z.shiftl_lor by lia.
  rewrite Z.shiftl_mul_pow2 by lia. f_equal. rewrite <- (Z.shiftr_div_pow2 id 48) by lia.
  generalize (Z.shiftr id 48). intros q. rewrite (Z.land_ones _ 8) by lia.
  rewrite <- (Z.ldiff_ones_r q 8) by lia. rewrite <- (Z.land_ones _ 8) by lia.
  rewrite Z.lor_comm. apply Z.bits_inj'. intros n Hn.
  rewrite Z.lor_spec, Z.land_spec, Z.ldiff_spec. by destruct (Z.testbit q n), (Z.testbit (Z.ones 8) n).
Qed.

Lemma st_index_id id : st (index_id id) = st id.
Proof. apply st_eq. rewrite index_id_quot. by rewrite Z.div_mul by lia. Qed.

Lemma index_id_eq a b : st a = st b <-> index_id a = index_id b.
Proof.
  split; [|intros E; by rewrite <- (st_index_id a), E, st_index_id].
  rewrite st_eq, !index_id_quot. by intros ->.
Qed.

(** Below the last instance the next id is in the same index. *)
Lemma st_succ n : instance_of n < max_instance -> st (n + 1) = st n.
Proof.
  unfold instance_of. change max_instance with (Z.ones 48). rewrite Z.land_ones by lia.
  change (Z.ones 48) with (2 ^ 48 - 1). intros Hn. apply st_eq.
  symmetry. apply (Z.div_unique _ _ _ (n mod 2 ^ 48 + 1)); pose proof (Z.mod_pos_bound n (2 ^ 48)); [lia|].
  pose proof (Z.div_mod n (2 ^ 48)). lia.
Qed.

Lemma succ_room n : instance_of n < max_instance -> 0 <= n < 2 ^ 64 -> u64 (n + 1) = n + 1.
Proof.
  unfold instance_of, u64. change max_instance with (Z.ones 48). rewrite Z.land_ones by lia.
  change (Z.ones 48) with (2 ^ 48 - 1). intros Hn Hb. apply Z.mod_small. split; [lia|].
  destruct (decide (n = 2 ^ 64 - 1)) as [->|]; [|lia]. by vm_compute in Hn.
Qed.

Implicit Types (d : indexes) (id : object_id_type) (o : object) (k : Z * Z).

Lemma obj_put d o id : is_Some (d !! st (obj_id o)) ->
  obj (put d o) id = if decide (id = obj_id o) then Some o else obj d id.
Proof.
  intros [ix Hix]. unfold obj, put. destruct (decide (st id = st (obj_id o))) as [E|E].
  - rewrite E, lookup_alter_eq, Hix. cbn. case_decide as D.
    + subst id. apply lookup_insert_eq.
    + by apply lookup_insert_ne.
  - rewrite lookup_alter_ne by done. case_decide as D; [by subst id | done].
Qed.

Lemma obj_del d i id : obj (del d i) id = if decide (id = i) then None else obj d id.
Proof.
  unfold obj, del. destruct (decide (st id = st i)) as [E|E].
  - rewrite E, lookup_alter_eq. destruct (d !! st i); cbn; [|by case_decide].
    case_decide as D; [subst id; apply lookup_delete_eq | by apply lookup_delete_ne].
  - rewrite lookup_alter_ne by done. case_decide as D; [by subst id | done].
Qed.

Lemma obj_renext d k n id : obj (renext d k n) id = obj d id.
Proof.
  unfold obj, renext. destruct (decide (k = st id)) as [->|E].
  - rewrite lookup_alter_eq. by destruct (d !! st id).
  - by rewrite lookup_alter_ne.
Qed.

Lemma nxt_alter f d k k' : (forall ix, ix_next_id (f ix) = ix_next_id ix) -> nxt (alter f k' d) k = nxt d k.
Proof.
  intros Hf. unfold nxt. destruct (decide (k' = k)) as [->|E].
  - rewrite lookup_alter_eq. destruct (d !! k); cbn; [by rewrite Hf | done].
  - by rewrite lookup_alter_ne.
Qed.

Lemma nxt_put d o k : nxt (put d o) k = nxt d k.
Proof. by apply nxt_alter. Qed.

Lemma nxt_del d id k : nxt (del d id) k = nxt d k.
Proof. by apply nxt_alter. Qed.

Lemma nxt_renext d k' n k : is_Some (d !! k') ->
  nxt (renext d k' n) k = if decide (k = k') then Some n else nxt d k.
Proof.
  intros [ix Hix]. unfold nxt, renext. case_decide as E.
  - subst k. by rewrite lookup_alter_eq, Hix.
  - by rewrite lookup_alter_ne.
Qed.

Lemma alter_dom (f : index -> index) d k k' : is_Some (alter f k d !! k') <-> is_Some (d !! k').
Proof.
  destruct (decide (k = k')) as [->|E].
  - rewrite lookup_alter_eq. apply fmap_is_Some.
  - by rewrite lookup_alter_ne.
Qed.

Lemma set_index_alter db k (f : index -> index) ix :
  db_index db !! k = Some ix -> db_index (set_index db k.1 k.2 (f ix)) = alter f k (db_index db).
Proof.
  intros E. destruct k as [s t]. cbn. apply map_eq. intros k. destruct (decide (k = (s, t))) as [->|Hne].
  - by rewrite lookup_insert_eq, lookup_alter_eq, E.
  - by rewrite lookup_insert_ne, lookup_alter_ne.
Qed.

(** Objects are filed in the index of their id. *)
Definition filed d : Prop :=
  forall k ix id, d !! k = Some ix -> is_Some (ix_rows ix !! id) -> st id = k.

Lemma wf_filed d : indexes_wf d -> filed d.
Proof. intros W k ix id E [o Ho]. destruct (W _ _ E) as (_ & _ & Hrow). by apply Hrow in Ho as (_ & ? & _). Qed.

Lemma filed_alter (f : index -> index) k0 d : filed d ->
  (forall ix id, is_Some (ix_rows (f ix) !! id) -> is_Some (ix_rows ix !! id) \/ st id = k0) -> filed (alter f k0 d).
Proof.
  intros Hd Hf k ix id E Hid. destruct (decide (k0 = k)) as [->|Hne].
  - rewrite lookup_alter_eq in E. destruct (d !! k) as [ix0|] eqn:E0; [|done]. cbn in E. injection E as <-.
    destruct (Hf _ _ Hid) as [?|?]; [by eapply Hd | done].
  - rewrite lookup_alter_ne in E by done. by eapply Hd.
Qed.

Lemma filed_put d o : filed d -> filed (put d o).
Proof.
  intros Hd. apply filed_alter; [done|]. intros ix id. cbn. destruct (decide (id = obj_id o)) as [->|Hne]; [by right|].
  rewrite lookup_insert_ne by done. by left.
Qed.

Lemma filed_del d i : filed d -> filed (del d i).
Proof. intros Hd. apply filed_alter; [done|]. intros ix id. cbn. rewrite lookup_delete_is_Some. intros [_ ?]. by left. Qed.

Lemma filed_renext d k n : filed d -> filed (renext d k n).
Proof. intros Hd. apply filed_alter; [done|]. intros ix id. by left. Qed.

(** Filed contents are determined by the two views. *)
Lemma indexes_ext d d' : filed d -> filed d' ->
  (forall id, obj d id = obj d' id) -> (forall k, nxt d k = nxt d' k) -> d = d'.
Proof.
  intros W W' Ho Hn. apply map_eq. intros k. specialize (Hn k). unfold nxt in Hn.
  destruct (d !! k) as [ix|] eqn:E, (d' !! k) as [ix'|] eqn:E'; [|done..].
  f_equal. destruct ix as [n rs], ix' as [n' rs']. cbn in Hn. injection Hn as <-. f_equal.
  apply map_eq. intros id. destruct (decide (st id = k)) as [<-|Hk].
  - specialize (Ho id). unfold obj in Ho. by rewrite E, E' in Ho.
  - assert (forall e r, e !! k = Some (Index n r) -> filed e -> r !! id = None) as Hnone.
    { intros e r He We. destruct (r !! id) as [o|] eqn:Hr; [|done].
      destruct Hk. apply (We _ _ _ He). by exists o. }
    by rewrite (Hnone _ _ E W), (Hnone _ _ E' W').
Qed.

Lemma obj_wf d id o : indexes_wf d -> obj d id = Some o ->
  obj_id o = id /\ exists ix, d !! st id = Some ix /\ id < ix_next_id ix.
Proof.
  intros W. unfold obj. destruct (d !! st id) as [ix|] eqn:E; cbn; [|done]. intros Hr.
  destruct (W _ _ E) as (_ & _ & Hrow). apply Hrow in Hr as (? & _ & ?). eauto.
Qed.

(** ** The loops of [undo] *)

Lemma map_items_in {A : Type} (m : gmap object_id_type A) i x : (i, x) ∈ map_items m <-> m !! i = Some x.
Proof. rewrite map_items_perm. apply elem_of_map_to_list. Qed.

Lemma set_items_in s id : id ∈ set_items s <-> id ∈ s.
Proof. rewrite set_items_perm. apply elem_of_elements. Qed.

Lemma map_items_NoDup {A K : Type} (m : gmap object_id_type A) (f : object_id_type * A -> K) :
  (forall x y, m !! x.1 = Some x.2 -> m !! y.1 = Some y.2 -> f x = f y -> x.1 = y.1) ->
  NoDup (f <$> map_items m).
Proof.
  intros Hf. apply NoDup_fmap_2_strong.
  - intros [k x] [k' x'] Hx Hy E. apply map_items_in in Hx, Hy.
    pose proof (Hf (k, x) (k', x') Hx Hy E) as D. cbn in D. subst k'. congruence.
  - rewrite map_items_perm. apply NoDup_map_to_list.
Qed.

(** Undoing runs with the hooks disabled, over a fixed set of indexes. *)
Definition undoing (d : indexes) (db : object_database) : Prop :=
  disabled (db_undo db) = true /\ filed (db_index db)
  /\ forall k, is_Some (db_index db !! k) <-> is_Some (d !! k).

(** What the loops over objects leave alone. *)
Definition same_nexts (db db' : object_database) : Prop :=
  db_undo db' = db_undo db /\ forall k, nxt (db_index db') k = nxt (db_index db) k.

Definition same_objects (db db' : object_database) : Prop :=
  db_undo db' = db_undo db /\ forall id, obj (db_index db') id = obj (db_index db) id.

#[local] Instance same_nexts_preorder : PreOrder same_nexts.
Proof. split; [by split|]. intros x y z [E1 H1] [E2 H2]. split; [congruence|]. intros. by rewrite H2. Qed.

#[local] Instance same_objects_preorder : PreOrder same_objects.
Proof. split; [by split|]. intros x y z [E1 H1] [E2 H2]. split; [congruence|]. intros. by rewrite H2. Qed.

Lemma get_index_some db d id : undoing d db -> is_Some (d !! st id) ->
  exists ix, get_index db (space id) (type id) = Ok ix /\ db_index db !! st id = Some ix.
Proof.
  intros (_ & _ & Hdom) Hd. apply Hdom in Hd as [ix E]. exists ix. unfold get_index, st in *. by rewrite E.
Qed.

Lemma get_object_some db id o : obj (db_index db) id = Some o -> get_object db id = Ok o.
Proof.
  unfold obj, get_object, find_object, get_index, st. intros E.
  destruct (db_index db !! _) as [ix|]; [|done]. cbn in *. by rewrite E.
Qed.

Lemma obj_index d id o : obj d id = Some o -> is_Some (d !! st id).
Proof. unfold obj. by destruct (d !! st id). Qed.

Lemma modify_put db o m : obj_id (m o) = obj_id o -> is_Some (db_index db !! st (obj_id o)) ->
  exists db', modify db o m = Ok db' /\ db_index db' = put (db_index db) (m o)
    /\ db_undo db' = on_modify o (db_undo db).
Proof.
  intros Hid [ix E]. unfold modify, get_index, st in *. rewrite E. eexists. split; [done|]. split; [|done].
  unfold put. rewrite Hid.
  pose (db1 := db <| db_undo ::= on_modify o |>). exact (set_index_alter db1 (st (obj_id o))
    (fun ix => ix <| ix_rows ::= <[obj_id o := m o]> |>) ix E).
Qed.

Lemma remove_del db o : is_Some (db_index db !! st (obj_id o)) ->
  exists db', remove db o = Ok db' /\ db_index db' = del (db_index db) (obj_id o)
    /\ db_undo db' = on_remove o (db_undo db).
Proof.
  intros [ix E]. unfold remove, get_index, st in *. rewrite E. eexists. split; [done|]. split; [|done].
  pose (db1 := db <| db_undo ::= on_remove o |>). exact (set_index_alter db1 (st (obj_id o))
    (fun ix => ix <| ix_rows ::= delete (obj_id o) |>) ix E).
Qed.

Lemma undoing_change d db db' :
  undoing d db -> disabled (db_undo db') = true -> filed (db_index db') ->
  (forall k, is_Some (db_index db' !! k) <-> is_Some (db_index db !! k)) ->
  undoing d db'.
Proof. intros (_ & _ & H) D Hf Hd. split_and!; [done..|]. intros k. by rewrite Hd. Qed.

Lemma hooks_disabled o u : disabled u = true ->
  on_create o u = u /\ on_modify o u = u /\ on_remove o u = u.
Proof. intros E. unfold on_create, on_modify, on_remove. by rewrite E. Qed.

(** Restoring the old values writes each of them back. *)
Lemma restore_values_loop d db (m : gmap object_id_type object) :
  undoing d db -> (forall id o, m !! id = Some o -> obj_id o = id /\ exists o', obj (db_index db) id = Some o' /\ obj_id o' = id) ->
  exists db', rfold restore_value db (map_items m) = Ok db' /\ undoing d db' /\ same_nexts db db'
    /\ forall id, obj (db_index db') id = match m !! id with Some o => Some o | None => obj (db_index db) id end.
Proof.
  intros Hu Hm.
  destruct (rfold_pointwise (undoing d) same_nexts (fun db id => obj (db_index db) id)
    (fun item : object_id_type * object => obj_id item.2) (fun item _ => Some item.2)
    (fun item e => exists o', e = Some o' /\ obj_id o' = obj_id item.2) restore_value (map_items m) db)
    as (db' & E & Hu' & Hs & Hin & Hout); [| done | | |].
  - apply map_items_NoDup. intros [i o] [j o'] Hi Hj. cbn in *. apply Hm in Hi as [Hi _], Hj as [Hj _]. congruence.
  - intros db1 [i o] _ Hu1 (o' & Ho' & Hid). cbn in *. unfold restore_value. cbn.
    rewrite (get_object_some _ _ _ Ho'). cbn.
    assert (is_Some (db_index db1 !! st (obj_id o'))) as Hix by (rewrite Hid; by eapply obj_index).
    destruct (modify_put db1 o' (fun _ => o) (eq_sym Hid) Hix) as (db2 & E2 & Eix & Eu).
    rewrite E2. exists db2. destruct Hu1 as (Hd & Hfl & Hdom). rewrite (proj1 (proj2 (hooks_disabled o' _ Hd))) in Eu.
    split; [done|]. split; [|split].
    + apply (undoing_change _ db1); [done | by rewrite Eu | rewrite Eix; eauto using filed_put, filed_del |].
      intros k. rewrite Eix. apply alter_dom.
    + split; [done|]. intros k. rewrite Eix. apply nxt_put.
    + intros id. rewrite Eix. apply obj_put. by rewrite <- Hid.
  - intros [i o] Hi. apply map_items_in in Hi. by apply Hm in Hi as [<- Hi].
  - exists db'. split_and!; [done..|]. intros id. destruct (m !! id) as [o|] eqn:Ei.
    + destruct (Hm _ _ Ei) as [<- _]. apply (Hin (obj_id o, o)). by apply map_items_in.
    + apply Hout. intros [[i o] [-> Hi]]%list_elem_of_fmap. apply map_items_in in Hi.
      destruct (Hm _ _ Hi) as [<- _]. cbn in *. congruence.
Qed.

Lemma remove_new_loop d db (s : gset object_id_type) :
  undoing d db -> (forall id, id ∈ s -> exists o, obj (db_index db) id = Some o /\ obj_id o = id) ->
  exists db', rfold remove_new db (set_items s) = Ok db' /\ undoing d db' /\ same_nexts db db'
    /\ forall id, obj (db_index db') id = if decide (id ∈ s) then None else obj (db_index db) id.
Proof.
  intros Hu Hm.
  destruct (rfold_pointwise (undoing d) same_nexts (fun db id => obj (db_index db) id)
    (fun id : object_id_type => id) (fun _ _ => None)
    (fun id e => exists o, e = Some o /\ obj_id o = id) remove_new (set_items s) db)
    as (db' & E & Hu' & Hs & Hin & Hout); [| done | | |].
  - rewrite list_fmap_id, set_items_perm. apply NoDup_elements.
  - intros db1 id _ Hu1 (o & Ho & Hid). unfold remove_new.
    rewrite (get_object_some _ _ _ Ho). cbn.
    assert (is_Some (db_index db1 !! st (obj_id o))) as Hix by (rewrite Hid; by eapply obj_index).
    destruct (remove_del db1 o Hix) as (db2 & E2 & Eix & Eu).
    rewrite E2. exists db2. destruct Hu1 as (Hd & Hfl & Hdom). rewrite (proj2 (proj2 (hooks_disabled o _ Hd))) in Eu.
    split; [done|]. split; [|split].
    + apply (undoing_change _ db1); [done | by rewrite Eu | rewrite Eix; eauto using filed_put, filed_del |].
      intros k. rewrite Eix. apply alter_dom.
    + split; [done|]. intros k. rewrite Eix. apply nxt_del.
    + intros i. rewrite Eix, Hid. apply obj_del.
  - intros id Hi. by apply Hm, set_items_in.
  - exists db'. split_and!; [done..|]. intros id. case_decide as Ei.
    + apply (Hin id). by apply set_items_in.
    + apply Hout. rewrite list_fmap_id. by rewrite set_items_in.
Qed.

Lemma set_next_loop d db (m : gmap object_id_type object_id_type) :
  undoing d db -> (forall i n, m !! i = Some n -> i = index_id n /\ is_Some (d !! st n)) ->
  exists db', rfold (fun db item => set_next_id db item.1 item.2) db (map_items m) = Ok db'
    /\ undoing d db' /\ same_objects db db'
    /\ forall id, nxt (db_index db') (st id) = match m !! index_id id with
                                               | Some n => Some n
                                               | None => nxt (db_index db) (st id)
                                               end.
Proof.
  intros Hu Hm.
  destruct (rfold_pointwise (undoing d) same_objects (fun db k => nxt (db_index db) k)
    (fun item : object_id_type * object_id_type => st item.1) (fun item _ => Some item.2)
    (fun item e => is_Some (d !! st item.1)) (fun db item => set_next_id db item.1 item.2) (map_items m) db)
    as (db' & E & Hu' & Hs & Hin & Hout); [| done | | |].
  - apply map_items_NoDup. intros [i n] [j n'] Hi Hj. cbn in *. apply Hm in Hi as [-> _], Hj as [-> _].
    rewrite !st_index_id. by intros ?%index_id_eq.
  - intros db1 [i n] _ Hu1 Hix. cbn in *. destruct (get_index_some _ _ i Hu1 Hix) as (ix & Eg & El).
    unfold set_next_id. rewrite Eg. cbn. eexists. split; [done|].
    pose proof (set_index_alter db1 (space i, type i) (fun ix => ix <| ix_next_id := n |>) ix El) as Ea.
    cbn in Ea. split; [|split].
    + apply (undoing_change _ db1); [done | apply Hu1 | cbn; rewrite Ea; apply filed_renext, Hu1 |].
      intros k. cbn. rewrite Ea. apply alter_dom.
    + split; [done|]. intros id. cbn. rewrite Ea. apply obj_renext.
    + intros k. cbn. rewrite Ea. by apply nxt_renext.
  - intros [i n] Hi. apply map_items_in in Hi. apply Hm in Hi as [-> Hi]. cbn. by rewrite st_index_id.
  - exists db'. split_and!; [done..|]. intros id. destruct (m !! index_id id) as [n|] eqn:Ei.
    + rewrite <- (st_index_id id). apply (Hin (index_id id, n)). by apply map_items_in.
    + apply Hout. intros [[i n] [Hst Hi]]%list_elem_of_fmap. apply map_items_in in Hi. cbn in *.
      destruct (Hm _ _ Hi) as [-> _]. rewrite st_index_id in Hst. apply index_id_eq in Hst. congruence.
Qed.

Lemma insert_removed_loop d db (m : gmap object_id_type object) :
  undoing d db -> (forall id o, m !! id = Some o -> obj_id o = id /\ obj (db_index db) id = None /\ is_Some (d !! st id)) ->
  exists db', rfold (fun db item => insert_object db item.2) db (map_items m) = Ok db'
    /\ undoing d db' /\ same_nexts db db'
    /\ forall id, obj (db_index db') id = match m !! id with Some o => Some o | None => obj (db_index db) id end.
Proof.
  intros Hu Hm.
  destruct (rfold_pointwise (undoing d) same_nexts (fun db id => obj (db_index db) id)
    (fun item : object_id_type * object => obj_id item.2) (fun item _ => Some item.2)
    (fun item e => e = None /\ is_Some (d !! st (obj_id item.2)))
    (fun db item => insert_object db item.2) (map_items m) db)
    as (db' & E & Hu' & Hs & Hin & Hout); [| done | | |].
  - apply map_items_NoDup. intros [i o] [j o'] Hi Hj. cbn in *. apply Hm in Hi as [Hi _], Hj as [Hj _]. congruence.
  - intros db1 [i o] _ Hu1 [Hnone Hix]. cbn in *. destruct (get_index_some _ _ _ Hu1 Hix) as (ix & Eg & El).
    unfold insert_object. rewrite Eg. cbn. unfold obj in Hnone. rewrite El in Hnone. cbn in Hnone.
    rewrite bool_decide_true by done. cbn. eexists. split; [done|].
    pose proof (set_index_alter db1 (space (obj_id o), type (obj_id o)) (fun ix => ix <| ix_rows ::= <[obj_id o := o]> |>) ix El) as Ea.
    cbn in Ea. rewrite (proj1 (hooks_disabled o _ (proj1 Hu1))). split; [|split].
    + apply (undoing_change _ db1); [done | apply Hu1 | cbn; rewrite Ea; apply filed_put, Hu1 |].
      intros k. cbn. rewrite Ea. apply alter_dom.
    + split; [done|]. intros k. cbn. rewrite Ea. apply nxt_put.
    + intros id. cbn. rewrite Ea. apply obj_put. by rewrite El.
  - intros [i o] Hi. apply map_items_in in Hi. by apply Hm in Hi as (<- & ? & ?).
  - exists db'. split_and!; [done..|]. intros id. destruct (m !! id) as [o|] eqn:Ei.
    + destruct (Hm _ _ Ei) as [<- _]. apply (Hin (obj_id o, o)). by apply map_items_in.
    + apply Hout. intros [[i o] [-> Hi]]%list_elem_of_fmap. apply map_items_in in Hi.
      destruct (Hm _ _ Hi) as [<- _]. cbn in *. congruence.
Qed.

Lemma tracked_upd_inv n v r a b : tracked (n, Some v, r) a b -> n = false /\ r = None /\ a = Some v /\ is_Some b.
Proof. inversion 1; subst. eauto. Qed.

Lemma tracked_new_inv u r a b : tracked (true, u, r) a b -> u = None /\ r = None /\ a = None /\ is_Some b.
Proof. inversion 1; subst. eauto. Qed.

Lemma tracked_del_inv n u v a b : tracked (n, u, Some v) a b -> n = false /\ u = None /\ a = Some v /\ b = None.
Proof. inversion 1; subst. eauto. Qed.

Lemma tracked_nop_inv a b : tracked (false, None, None) a b -> a = b.
Proof. by inversion 1. Qed.

(** The entry of an object, one container at a time. *)
Lemma entry_new s pre cur id : tracks s pre cur -> id ∈ new_ids s ->
  old_values s !! id = None /\ removed s !! id = None /\ obj pre id = None /\ is_Some (obj cur id).
Proof.
  intros T Hid. pose proof (tr_entries _ _ _ T id) as E. unfold entry in E.
  rewrite bool_decide_true in E by done. by apply tracked_new_inv in E.
Qed.

Lemma entry_upd s pre cur id v : tracks s pre cur -> old_values s !! id = Some v ->
  (id ∉ new_ids s) /\ removed s !! id = None /\ obj pre id = Some v /\ is_Some (obj cur id).
Proof.
  intros T Hid. pose proof (tr_entries _ _ _ T id) as E. unfold entry in E.
  rewrite Hid in E. apply tracked_upd_inv in E as (B & ?). by apply bool_decide_eq_false in B.
Qed.

Lemma entry_del s pre cur id v : tracks s pre cur -> removed s !! id = Some v ->
  (id ∉ new_ids s) /\ old_values s !! id = None /\ obj pre id = Some v /\ obj cur id = None.
Proof.
  intros T Hid. pose proof (tr_entries _ _ _ T id) as E. unfold entry in E.
  rewrite Hid in E. apply tracked_del_inv in E as (B & ?). by apply bool_decide_eq_false in B.
Qed.

Lemma entry_nop s pre cur id : tracks s pre cur ->
  id ∉ new_ids s -> old_values s !! id = None -> removed s !! id = None -> obj pre id = obj cur id.
Proof.
  intros T Hn Hu Hr. pose proof (tr_entries _ _ _ T id) as E. unfold entry in E.
  rewrite bool_decide_false, Hu, Hr in E by done. by apply tracked_nop_inv in E.
Qed.

(** Undoing a state that tracks the changes since [pre] restores [pre] exactly, and
    none of the lookups and insertions on the way can throw. *)
Lemma apply_undo_restores db s pre :
  disabled (db_undo db) = true -> tracks s pre (db_index db) -> indexes_wf pre -> indexes_wf (db_index db) ->
  exists db', apply_undo_state db s = Ok db' /\ db_index db' = pre /\ db_undo db' = db_undo db.
Proof.
  intros Hd T Wp Wc.
  assert (undoing (db_index db) db) as Hu by (split; [done|]; split; [by apply wf_filed | done]).
  unfold apply_undo_state.
  destruct (restore_values_loop _ db (old_values s) Hu) as (db1 & E1 & Hu1 & [U1 N1] & O1).
  { intros id o Ho. destruct (entry_upd _ _ _ _ _ T Ho) as (_ & _ & Hp & [o' Hc]).
    split; [by eapply (obj_wf pre)|]. exists o'. split; [done|]. by eapply (obj_wf (db_index db)). }
  destruct (remove_new_loop _ db1 (new_ids s) Hu1) as (db2 & E2 & Hu2 & [U2 N2] & O2).
  { intros id Hid. destruct (entry_new _ _ _ _ T Hid) as (Hold & _ & _ & [o Hc]).
    rewrite O1, Hold. exists o. split; [done|]. by eapply (obj_wf (db_index db)). }
  destruct (set_next_loop _ db2 (old_index_next_ids s) Hu2) as (db3 & E3 & Hu3 & [U3 O3] & N3).
  { intros i n Hi. pose proof (tr_keys _ _ _ T _ _ Hi) as ->. split; [done|]. apply (tr_indexes _ _ _ T).
    pose proof (tr_next _ _ _ T n) as Hn. rewrite Hi in Hn. unfold nxt in Hn. by destruct (pre !! st n). }
  destruct (insert_removed_loop _ db3 (removed s) Hu3) as (db4 & E4 & Hu4 & [U4 N4] & O4).
  { intros id o Ho. destruct (entry_del _ _ _ _ _ T Ho) as (Hnew & Hold & Hp & Hc).
    split; [by eapply (obj_wf pre)|]. split.
    - rewrite O3, O2, O1, decide_False by done. by rewrite Hold.
    - apply (tr_indexes _ _ _ T). by eapply obj_index. }
  exists db4. rewrite E1. cbn. rewrite E2. cbn. rewrite E3. cbn. split; [done|]. split; [|congruence].
  apply indexes_ext; [apply Hu4 | by apply wf_filed | |].
  - intros id. rewrite O4, O3, O2, O1. destruct (removed s !! id) as [o|] eqn:Hr.
    + by apply (entry_del _ _ _ _ _ T) in Hr as (_ & _ & -> & _).
    + case_decide as Hn; [by apply (entry_new _ _ _ _ T) in Hn as (_ & _ & -> & _)|].
      destruct (old_values s !! id) as [o|] eqn:Hold.
      * by apply (entry_upd _ _ _ _ _ T) in Hold as (_ & _ & -> & _).
      * symmetry. by apply (entry_nop s).
  - intros k. rewrite N4. destruct (pre !! k) as [ix|] eqn:Ek.
    + destruct (Wp _ _ Ek) as [Hk _]. rewrite <- Hk, N3, N2, N1. pose proof (tr_next _ _ _ T (ix_next_id ix)) as Hn.
      by destruct (old_index_next_ids s !! _).
    + unfold nxt. rewrite Ek. assert (db_index db3 !! k = None) as ->; [|done].
      apply eq_None_not_Some. intros Hs. apply (proj2 (proj2 Hu3)), (tr_indexes _ _ _ T) in Hs.
      rewrite Ek in Hs. by destruct Hs.
Qed.

(** ** Recording changes *)

Implicit Type (ids : gset object_id_type).

Lemma elem_diff_self ids id : id ∉ ids ∖ {[id]}.
Proof. rewrite elem_of_difference, elem_of_singleton. by intros [_ ?]. Qed.

Lemma elem_diff_ne ids id i : i <> id -> i ∈ ids ∖ {[id]} <-> i ∈ ids.
Proof. rewrite elem_of_difference, elem_of_singleton. by intros; split; [intros [? _]|]. Qed.

Lemma elem_diff_sub ids id i : i ∈ ids ∖ {[id]} -> i ∈ ids.
Proof. by intros [? _]%elem_of_difference. Qed.

Lemma elem_add ids id i : i ∈ {[id]} ∪ ids <-> i = id \/ i ∈ ids.
Proof. by rewrite elem_of_union, elem_of_singleton. Qed.

Lemma fresh_id d k ix : indexes_wf d -> d !! k = Some ix -> obj d (ix_next_id ix) = None.
Proof.
  intros W E. destruct (obj d (ix_next_id ix)) as [o|] eqn:Eo; [|done].
  destruct (obj_wf _ _ _ W Eo) as (_ & ix' & E' & Hlt). destruct (W _ _ E) as [Hk _].
  rewrite Hk, E in E'. injection E' as <-. lia.
Qed.

(** What an object's removal in the first of two states excludes in the second. *)
Lemma not_reused s pre cur id o n : indexes_wf pre -> tracks s pre cur ->
  obj pre id = Some o -> nxt cur (st id) = Some n -> id < n.
Proof.
  intros Wp T Ho Hn. destruct (obj_wf _ _ _ Wp Ho) as (_ & ix & E & Hlt).
  assert (nxt pre (st id) = Some (ix_next_id ix)) as Hp by (unfold nxt; by rewrite E).
  pose proof (tr_grows _ _ _ T _ _ _ Hp Hn). lia.
Qed.

Lemma tracks_refl d : indexes_wf d -> tracks empty_state d d.
Proof.
  intros W. split; try done.
  - intros id. unfold entry. cbn. rewrite bool_decide_false by done. rewrite !lookup_empty. constructor.
  - intros k a b -> [= ->]. done.
Qed.

Lemma entry_insert_ne (s s' : undo_state) id : new_ids s' = new_ids s -> old_values s' !! id = old_values s !! id ->
  removed s' !! id = removed s !! id -> entry s' id = entry s id.
Proof. intros E1 E2 E3. unfold entry. by rewrite E1, E2, E3. Qed.

Lemma track_modify s pre cur o o' : tracks s pre cur -> obj cur (obj_id o) = Some o -> obj_id o' = obj_id o ->
  tracks (state_on_modify o s) pre (put cur o').
Proof.
  intros T Ho Hid.
  assert (is_Some (cur !! st (obj_id o'))) as Hix by (rewrite Hid; by eapply obj_index).
  assert (old_index_next_ids (state_on_modify o s) = old_index_next_ids s
          /\ new_ids (state_on_modify o s) = new_ids s) as [En Ei].
  { unfold state_on_modify. case_bool_decide; [done|]. by destruct (old_values s !! obj_id o). }
  pose proof T as [Hent Hfresh Hnext Hkeys Hdom Hgrow]. split.
  - intros id. rewrite obj_put, Hid by done. pose proof (Hent id) as Te. case_decide as D.
    + subst id. unfold entry in *. rewrite Ei. unfold state_on_modify. case_bool_decide as Hn.
      * apply tracked_new_inv in Te as (-> & -> & -> & _). constructor.
      * rewrite Ho in Te. destruct (old_values s !! obj_id o) as [v|] eqn:Hold.
        -- rewrite Hold. apply tracked_upd_inv in Te as (_ & -> & -> & _). constructor.
        -- cbn. rewrite lookup_insert_eq. destruct (removed s !! obj_id o) as [v|] eqn:Hr.
           ++ by apply tracked_del_inv in Te as (_ & _ & _ & ?).
           ++ apply tracked_nop_inv in Te as ->. constructor.
    + replace (entry (state_on_modify o s) id) with (entry s id); [done|]. symmetry.
      unfold state_on_modify. case_bool_decide; [done|]. destruct (old_values s !! obj_id o); [done|].
      apply entry_insert_ne; [done | | done]. cbn. by apply lookup_insert_ne.
  - by rewrite Ei.
  - intros id. rewrite En, nxt_put. apply Hnext.
  - by rewrite En.
  - intros k. rewrite Hdom. symmetry. apply alter_dom.
  - intros k a b Ha. rewrite nxt_put. by apply Hgrow.
Qed.

Lemma track_remove s pre cur o : tracks s pre cur -> obj cur (obj_id o) = Some o ->
  tracks (state_on_remove o s) pre (del cur (obj_id o)).
Proof.
  intros T Ho. pose proof T as [Hent Hfresh Hnext Hkeys Hdom Hgrow].
  assert (old_index_next_ids (state_on_remove o s) = old_index_next_ids s
          /\ forall id, id ∈ new_ids (state_on_remove o s) -> id ∈ new_ids s) as [En Ei].
  { unfold state_on_remove. case_bool_decide; cbn; [split; [done | apply elem_diff_sub]|].
    destruct (old_values s !! obj_id o); [done|]. by destruct (removed s !! obj_id o). }
  split.
  - intros id. rewrite obj_del. pose proof (Hent id) as Te. case_decide as D.
    + subst id. unfold entry in *. rewrite Ho in Te. unfold state_on_remove. case_bool_decide as Hn; cbn.
      * rewrite bool_decide_false by apply elem_diff_self. apply tracked_new_inv in Te as (-> & -> & -> & _). constructor.
      * destruct (old_values s !! obj_id o) as [v|] eqn:Hold; cbn.
        -- rewrite bool_decide_false by done. rewrite lookup_insert_eq, lookup_delete_eq.
           apply tracked_upd_inv in Te as (_ & _ & -> & _). constructor.
        -- destruct (removed s !! obj_id o) as [v|] eqn:Hr; cbn.
           ++ by apply tracked_del_inv in Te as (_ & _ & _ & ?).
           ++ rewrite bool_decide_false, Hold, lookup_insert_eq by done. apply tracked_nop_inv in Te as ->. constructor.
    + replace (entry (state_on_remove o s) id) with (entry s id); [done|]. symmetry.
      unfold state_on_remove. case_bool_decide; cbn.
      * unfold entry. cbn. f_equal. f_equal. apply bool_decide_ext. by apply elem_diff_ne.
      * destruct (old_values s !! obj_id o) as [v|]; cbn.
        -- apply entry_insert_ne; cbn; [done | by apply lookup_delete_ne | by apply lookup_insert_ne].
        -- destruct (removed s !! obj_id o) as [v|]; cbn; [done|].
           apply entry_insert_ne; cbn; [done | done | by apply lookup_insert_ne].
  - intros id n Hid. by apply Hfresh, Ei.
  - intros id. rewrite En, nxt_del. apply Hnext.
  - by rewrite En.
  - intros k. rewrite Hdom. symmetry. apply alter_dom.
  - intros k a b Ha. rewrite nxt_del. by apply Hgrow.
Qed.

Lemma track_create s pre cur k ix v : tracks s pre cur -> indexes_wf pre -> indexes_wf cur -> cur !! k = Some ix ->
  let o := Object (ix_next_id ix) v in
  tracks (state_on_create o s) pre (renext (put cur o) k (ix_next_id ix + 1)).
Proof.
  intros T Wp Wc Ek o. pose proof T as [Hent Hfresh Hnext Hkeys Hdom Hgrow].
  destruct (Wc _ _ Ek) as [Hst _]. set (n := ix_next_id ix) in *.
  assert (obj cur n = None) as Hfree by (by eapply fresh_id).
  assert (nxt cur (st n) = Some n) as Hnxt by (unfold nxt; by rewrite Hst, Ek).
  assert (is_Some (cur !! st (obj_id o))) as Hix by (cbn; rewrite Hst; eauto).
  assert (is_Some (put cur o !! k)) as Hix' by (apply alter_dom; eauto).
  assert (forall id, entry (state_on_create o s) id
            = (bool_decide (id = n \/ id ∈ new_ids s), old_values s !! id, removed s !! id)) as Eent.
  { intros id. unfold entry, state_on_create.
    destruct (old_index_next_ids s !! _); cbn; repeat f_equal; apply bool_decide_ext, elem_add. }
  split.
  - intros id. rewrite Eent, obj_renext, obj_put by done. pose proof (Hent id) as Te. unfold entry in Te.
    destruct (decide (id = obj_id o)) as [D|D]; cbn in D.
    + rewrite D in Te |- *. rewrite bool_decide_true by (by left). rewrite Hfree in Te.
      destruct (removed s !! n) as [v'|] eqn:Hr.
      * apply tracked_del_inv in Te as (_ & _ & Hp & _).
        pose proof (not_reused _ _ _ _ _ _ Wp T Hp Hnxt). lia.
      * destruct (old_values s !! n) as [v'|]; [by apply tracked_upd_inv in Te as (_ & _ & _ & [? ?])|].
        destruct (bool_decide (n ∈ new_ids s)); [by apply tracked_new_inv in Te as (_ & _ & _ & [? ?])|].
        apply tracked_nop_inv in Te as ->. constructor.
    + rewrite (bool_decide_ext _ (id ∈ new_ids s)); [done|]. split; [by intros [?|?] | by right].
  - intros id m Hid Hm.
    assert (id = n \/ id ∈ new_ids s) as [->|Hin]; [| |by apply Hfresh].
    { unfold state_on_create in Hid. destruct (old_index_next_ids s !! _); by apply elem_add in Hid. }
    by apply (Hgrow _ _ _ Hm).
  - intros id. rewrite nxt_renext, nxt_put by done.
    assert (old_index_next_ids (state_on_create o s) !! index_id id
      = if decide (st id = k) then Some (default n (old_index_next_ids s !! index_id n)) else old_index_next_ids s !! index_id id) as ->.
    { unfold state_on_create. cbn. fold n. rewrite <- Hst. case_decide as D.
      - apply index_id_eq in D. destruct (old_index_next_ids s !! index_id n) as [m|] eqn:Em; cbn; rewrite D; [done|].
        apply lookup_insert_eq.
      - destruct (old_index_next_ids s !! index_id n) as [m|] eqn:Em; cbn; [done|].
        apply lookup_insert_ne. intros E. by apply D, index_id_eq. }
    case_decide as D; [|apply Hnext]. rewrite D, <- Hst. pose proof (Hnext n) as Hn.
    destruct (old_index_next_ids s !! index_id n); cbn; congruence.
  - intros i m. unfold state_on_create. cbn. fold n. destruct (old_index_next_ids s !! index_id n); cbn; [apply Hkeys|].
    rewrite lookup_insert_Some. intros [[<- <-]|[_ ?]]; [done | by apply Hkeys].
  - intros k'. rewrite Hdom. unfold renext. rewrite alter_dom. symmetry. apply alter_dom.
  - intros k' a b Ha. rewrite nxt_renext, nxt_put by done. case_decide as D; [|by apply Hgrow].
    intros [= <-]. subst k'. rewrite <- Hst in Ha. pose proof (Hgrow _ _ _ Ha Hnxt). lia.
Qed.

(** ** Merging *)

Definition undo_entry : Type := bool * option object * option object.

(** The table in [undo_database::merge]: the entry of a merged state from the entries
    of the newer state and of the older one. *)
Definition compose_entry (new old : undo_entry) : undo_entry :=
  match new with
  | (true, _, _) => (true, old.1.2, old.2)
  | (false, Some y, _) => match old with (false, None, r) => (false, Some y, r) | _ => old end
  | (false, None, Some y) => match old with
                             | (true, u, r) => (false, u, r)
                             | (false, Some v, _) => (false, None, Some v)
                             | (false, None, _) => (false, None, Some y)
                             end
  | (false, None, None) => old
  end.

Definition same_next_ids (p p' : undo_state) : Prop := old_index_next_ids p' = old_index_next_ids p.
Definition same_entries (p p' : undo_state) : Prop := forall id, entry p' id = entry p id.

#[local] Instance same_next_ids_preorder : PreOrder same_next_ids.
Proof. split; [done|]. unfold same_next_ids. intros x y z. congruence. Qed.

#[local] Instance same_entries_preorder : PreOrder same_entries.
Proof. split; [done|]. intros x y z E1 E2 id. by rewrite E2. Qed.

Section MergeLoops.
Context (s p : undo_state).
Hypothesis old_filed : forall i o, old_values s !! i = Some o -> obj_id o = i.
Hypothesis removed_filed : forall i o, removed s !! i = Some o -> obj_id o = i.

Lemma merge_upd_entries :
  same_next_ids p (merge_upd s p)
  /\ forall id, entry (merge_upd s p) id
       = match old_values s !! id with
         | Some y => compose_entry (false, Some y, None) (entry p id)
         | None => entry p id
         end.
Proof.
  destruct (foldl_pointwise same_next_ids entry (fun item : object_id_type * object => obj_id item.2)
    (fun item e => compose_entry (false, Some item.2, None) e)
    (fun p item => if bool_decide (obj_id item.2 ∈ new_ids p) then p
       else match old_values p !! obj_id item.2 with
            | Some _ => p
            | None => p <| old_values ::= <[obj_id item.2 := item.2]> |>
            end) (map_items (old_values s)) p) as (HF & Hin & Hout).
  - apply map_items_NoDup. intros [i o] [j o'] Hi Hj. cbn in *. apply old_filed in Hi, Hj. congruence.
  - intros q [i o] _. cbn. unfold entry. case_bool_decide as Hn.
    + split; [done|]. intros id. case_decide as D; [|done]. by rewrite D, bool_decide_true.
    + destruct (old_values q !! obj_id o) as [v|] eqn:Hv.
      * split; [done|]. intros id. case_decide as D; [|done]. by rewrite D, bool_decide_false, Hv.
      * split; [done|]. intros id. cbn. case_decide as D.
        -- rewrite D, lookup_insert_eq, bool_decide_false, Hv by done. done.
        -- by rewrite lookup_insert_ne.
  - split; [done|]. intros id. destruct (old_values s !! id) as [o|] eqn:Ho.
    + pose proof (old_filed _ _ Ho) as <-. apply (Hin (obj_id o, o)). by apply map_items_in.
    + apply Hout. intros [[i o] [-> Hi]]%list_elem_of_fmap. apply map_items_in in Hi.
      pose proof (old_filed _ _ Hi). cbn in *. congruence.
Qed.

Lemma merge_new_entries :
  same_next_ids p (merge_new s p)
  /\ forall id, entry (merge_new s p) id
       = if decide (id ∈ new_ids s) then compose_entry (true, None, None) (entry p id) else entry p id.
Proof.
  destruct (foldl_pointwise same_next_ids entry (fun id : object_id_type => id)
    (fun _ e => compose_entry (true, None, None) e)
    (fun p id => p <| new_ids ::= union {[id]} |>) (set_items (new_ids s)) p) as (HF & Hin & Hout).
  - rewrite list_fmap_id, set_items_perm. apply NoDup_elements.
  - intros q i _. split; [done|]. intros id. unfold entry. cbn. case_decide as D.
    + rewrite D, bool_decide_true; [done|]. apply elem_add. by left.
    + rewrite (bool_decide_ext _ (id ∈ new_ids q)); [done|]. rewrite elem_add. split; [by intros [?|?] | by right].
  - split; [done|]. intros id. case_decide as Hid.
    + apply Hin. by apply set_items_in.
    + apply Hout. rewrite list_fmap_id. by rewrite set_items_in.
Qed.

Lemma merge_next_ids_lookup :
  same_entries p (merge_next_ids s p)
  /\ forall i, old_index_next_ids (merge_next_ids s p) !! i
       = match old_index_next_ids p !! i with Some n => Some n | None => old_index_next_ids s !! i end.
Proof.
  destruct (foldl_pointwise same_entries (fun p i => old_index_next_ids p !! i)
    (fun item : object_id_type * object_id_type => item.1) (fun item e => Some (default item.2 e))
    (fun p item => match old_index_next_ids p !! item.1 with
                   | None => p <| old_index_next_ids ::= <[item.1 := item.2]> |>
                   | Some _ => p
                   end) (map_items (old_index_next_ids s)) p) as (HF & Hin & Hout).
  - by apply map_items_NoDup.
  - intros q [i n] _. cbn. destruct (old_index_next_ids q !! i) as [m|] eqn:Em.
    + split; [done|]. intros j. case_decide as D; [|done]. by rewrite D, Em.
    + split; [done|]. intros j. cbn. case_decide as D.
      * by rewrite D, lookup_insert_eq, Em.
      * by rewrite lookup_insert_ne.
  - split; [done|]. intros i. destruct (old_index_next_ids s !! i) as [n|] eqn:En.
    + etransitivity; [apply (Hin (i, n)); by apply map_items_in|]. cbn.
      by destruct (old_index_next_ids p !! i).
    + etransitivity; [apply Hout | by destruct (old_index_next_ids p !! i)].
      intros [[j n] [-> Hi]]%list_elem_of_fmap. apply map_items_in in Hi. cbn in *. congruence.
Qed.

Lemma merge_del_entries :
  same_next_ids p (merge_del s p)
  /\ forall id, entry (merge_del s p) id
       = match removed s !! id with
         | Some y => compose_entry (false, None, Some y) (entry p id)
         | None => entry p id
         end.
Proof.
  destruct (foldl_pointwise same_next_ids entry (fun item : object_id_type * object => obj_id item.2)
    (fun item e => compose_entry (false, None, Some item.2) e)
    (fun p item => let id := obj_id item.2 in
       if bool_decide (id ∈ new_ids p) then p <| new_ids := new_ids p ∖ {[id]} |>
       else match old_values p !! id with
            | Some v => p <| removed ::= <[id := v]> |> <| old_values ::= delete id |>
            | None => p <| removed ::= <[id := item.2]> |>
            end) (map_items (removed s)) p) as (HF & Hin & Hout).
  - apply map_items_NoDup. intros [i o] [j o'] Hi Hj. cbn in *. apply removed_filed in Hi, Hj. congruence.
  - intros q [i o] _. cbn. unfold entry. case_bool_decide as Hn.
    + split; [done|]. intros id. cbn. case_decide as D.
      * rewrite D, (bool_decide_true (_ ∈ new_ids q)) by done. by rewrite bool_decide_false by apply elem_diff_self.
      * by rewrite (bool_decide_ext _ _ (elem_diff_ne _ _ _ D)).
    + destruct (old_values q !! obj_id o) as [v|] eqn:Hv; (split; [done|]); intros id; cbn; case_decide as D.
      * by rewrite D, lookup_insert_eq, lookup_delete_eq, bool_decide_false, Hv.
      * by rewrite lookup_insert_ne, lookup_delete_ne.
      * by rewrite D, lookup_insert_eq, bool_decide_false, Hv.
      * by rewrite lookup_insert_ne.
  - split; [done|]. intros id. destruct (removed s !! id) as [o|] eqn:Ho.
    + pose proof (removed_filed _ _ Ho) as <-. apply (Hin (obj_id o, o)). by apply map_items_in.
    + apply Hout. intros [[i o] [-> Hi]]%list_elem_of_fmap. apply map_items_in in Hi.
      pose proof (removed_filed _ _ Hi). cbn in *. congruence.
Qed.
End MergeLoops.

Lemma merge_entry s p pre cur id : tracks s pre cur -> indexes_wf pre ->
  entry (merge_states s p) id = compose_entry (entry s id) (entry p id).
Proof.
  intros T W. unfold merge_states.
  assert (forall i o, old_values s !! i = Some o -> obj_id o = i) as Ho.
  { intros i o Hi. destruct (entry_upd _ _ _ _ _ T Hi) as (_ & _ & Hp & _). by eapply (obj_wf pre). }
  assert (forall i o, removed s !! i = Some o -> obj_id o = i) as Hr.
  { intros i o Hi. destruct (entry_del _ _ _ _ _ T Hi) as (_ & _ & Hp & _). by eapply (obj_wf pre). }
  rewrite (proj2 (merge_del_entries _ _ Hr)), (proj1 (merge_next_ids_lookup _ _)),
    (proj2 (merge_new_entries _ _)), (proj2 (merge_upd_entries _ _ Ho)).
  generalize (entry p id). intros e. pose proof (tr_entries _ _ _ T id) as Te. unfold entry in *.
  case_decide as Hn; [rewrite bool_decide_true in Te |- * by done | rewrite bool_decide_false in Te |- * by done].
  - apply tracked_new_inv in Te as (-> & -> & _). done.
  - destruct (old_values s !! id) as [v|]; [by apply tracked_upd_inv in Te as (_ & -> & _)|].
    by destruct (removed s !! id).
Qed.

Lemma compose_tracked new old a m b : tracked old a m -> tracked new m b ->
  (new.1.1 = true -> old.2 = None) -> tracked (compose_entry new old) a b.
Proof.
  intros Told Tnew Hex. destruct Told; inversion Tnew; subst; cbn in *; try constructor.
  by specialize (Hex eq_refl).
Qed.

(** The merged state tracks the changes of both. *)
Lemma merge_tracks s p pre mid cur : tracks p pre mid -> tracks s mid cur ->
  indexes_wf pre -> indexes_wf mid -> tracks (merge_states s p) pre cur.
Proof.
  intros Tp Ts Wp Wm.
  assert (forall i, old_index_next_ids (merge_states s p) !! i
    = match old_index_next_ids p !! i with Some n => Some n | None => old_index_next_ids s !! i end) as En.
  { intros i. unfold merge_states.
    assert (forall i o, old_values s !! i = Some o -> obj_id o = i) as Ho.
    { intros j o Hj. destruct (entry_upd _ _ _ _ _ Ts Hj) as (_ & _ & Hp & _). by eapply (obj_wf mid). }
    assert (forall i o, removed s !! i = Some o -> obj_id o = i) as Hr.
    { intros j o Hj. destruct (entry_del _ _ _ _ _ Ts Hj) as (_ & _ & Hp & _). by eapply (obj_wf mid). }
    rewrite (proj1 (merge_del_entries _ _ Hr)), (proj2 (merge_next_ids_lookup _ _)).
    by rewrite (proj1 (merge_new_entries _ _)), (proj1 (merge_upd_entries _ _ Ho)). }
  assert (forall id m, id ∈ new_ids s -> nxt pre (st id) = Some m -> m <= id) as Hnew.
  { intros id m Hid Hm. assert (is_Some (nxt mid (st id))) as [m' Hm'].
    { unfold nxt in *. apply fmap_is_Some, (tr_indexes _ _ _ Tp). by destruct (pre !! st id). }
    pose proof (tr_grows _ _ _ Tp _ _ _ Hm Hm'). pose proof (tr_fresh _ _ _ Ts _ _ Hid Hm'). lia. }
  split.
  - intros id. rewrite (merge_entry _ _ _ _ _ Ts Wm).
    apply (compose_tracked _ _ _ (obj mid id)); [apply (tr_entries _ _ _ Tp) | apply (tr_entries _ _ _ Ts)|].
    cbn. rewrite bool_decide_eq_true. intros Hid. destruct (removed p !! id) as [o|] eqn:Hr; [|done].
    apply (entry_del _ _ _ _ _ Tp) in Hr as (_ & _ & Hp & _).
    destruct (obj_wf _ _ _ Wp Hp) as (_ & ix & E & Hlt).
    pose proof (Hnew id (ix_next_id ix) Hid ltac:(unfold nxt; by rewrite E)). lia.
  - intros id m Hid Hm. pose proof (merge_entry s p _ _ id Ts Wm) as E.
    destruct (decide (id ∈ new_ids s)) as [?|Hns]; [by apply Hnew|].
    apply (tr_fresh _ _ _ Tp); [|done]. unfold entry in E. rewrite bool_decide_true in E by done.
    rewrite bool_decide_false in E by done. destruct (decide (id ∈ new_ids p)) as [?|Hnp]; [done|].
    rewrite (bool_decide_false (id ∈ new_ids p)) in E by done.
    by destruct (old_values s !! id), (removed s !! id), (old_values p !! id).
  - intros id. rewrite En. pose proof (tr_next _ _ _ Tp id) as Hp. pose proof (tr_next _ _ _ Ts id) as Hs.
    destruct (old_index_next_ids p !! index_id id); [done|].
    destruct (old_index_next_ids s !! index_id id); congruence.
  - intros i n. rewrite En. destruct (old_index_next_ids p !! i) eqn:E; [intros [= <-]; by apply (tr_keys _ _ _ Tp)|].
    apply (tr_keys _ _ _ Ts).
  - intros k. rewrite (tr_indexes _ _ _ Tp). apply (tr_indexes _ _ _ Ts).
  - intros k a b Ha Hb. assert (is_Some (nxt mid k)) as [m Hm].
    { unfold nxt in *. apply fmap_is_Some, (tr_indexes _ _ _ Tp). by destruct (pre !! k). }
    pose proof (tr_grows _ _ _ Tp _ _ _ Ha Hm). pose proof (tr_grows _ _ _ Ts _ _ _ Hm Hb). lia.
Qed.

(** ** The refinement *)

Lemma pop_front_while_take (max : Z) states n : 0 <= max -> (length states <= n)%nat ->
  pop_front_while n max states = take (Z.to_nat max) states.
Proof.
  intros Hmax. revert states. induction n as [|n IH]; intros states Hn; cbn.
  - destruct states; [|cbn in Hn; lia]. rewrite take_nil. by destruct (_ >? _).
  - destruct (Z.gtb_spec (Z.of_nat (length states)) max) as [Hgt|Hle]; [|by rewrite take_ge by lia].
    destruct states as [|s states] using rev_ind; [cbn in Hgt; lia|]. clear IHstates.
    rewrite removelast_last. rewrite length_app in *. cbn in *. rewrite IH by lia.
    rewrite take_app_le; [done|lia].
Qed.

Lemma history_length cur states ds : history cur states ds -> length states = length ds.
Proof.
  revert cur ds. induction states as [|s states IH]; intros cur [|d ds]; cbn; try done.
  intros (_ & _ & Hh). f_equal. by eapply IH.
Qed.

Lemma history_take cur states ds n : history cur states ds -> history cur (take n states) (take n ds).
Proof.
  revert cur states ds. induction n as [|n IH]; intros cur [|s states] [|d ds]; cbn; try done.
  intros (? & ? & ?). auto.
Qed.

(** A change of the present is recorded in the newest state, opened when missing. *)
Lemma history_change db a f cur' : refines db a ->
  (forall s pre, indexes_wf pre -> tracks s pre (now a) -> tracks (f s) pre cur') ->
  history cur' (on_back f (undo_stack (db_undo db))) (remembered a).
Proof.
  intros R Hf. pose proof (ref_history _ _ R) as Hh. unfold remembered.
  destruct (undo_stack (db_undo db)) as [|s states], (past a) as [|d ds]; cbn in *; try done.
  - split_and!; [|apply (ref_wf _ _ R) | done]. apply Hf; [apply (ref_wf _ _ R)|].
    by apply tracks_refl, (ref_wf _ _ R).
  - destruct Hh as (T & W & Hh). split_and!; [by apply Hf | done..].
Qed.

Lemma remembered_length a : open_sessions a <= Z.of_nat (length (past a)) ->
  open_sessions a <= Z.of_nat (length (remembered a)).
Proof. unfold remembered. destruct (past a); cbn; lia. Qed.

(** Two databases of equal contents and undo history are the same. *)
Lemma refines_change db db' a f cur' : refines db a -> db_index db' = cur' ->
  db_undo db' = (db_undo db) <| undo_stack ::= on_back f |> -> indexes_wf cur' ->
  (forall s pre, indexes_wf pre -> tracks s pre (now a) -> tracks (f s) pre cur') ->
  refines db' (change_now a cur').
Proof.
  intros R Ei Eu W Hf. pose proof (history_change _ _ _ _ R Hf) as Hh.
  destruct R as [Rn Rw Re Ra Rl Rh (Ro1 & Ro2 & Ro3)]. split; cbn; rewrite ?Ei, ?Eu; cbn; try done.
  split_and!; try done; [lia | lia |]. by apply remembered_length.
Qed.

Lemma wf_alter d k f : indexes_wf d ->
  (forall ix, d !! k = Some ix -> let ix' := f ix in
     st (ix_next_id ix') = k /\ 0 <= ix_next_id ix' < 2 ^ 64
     /\ forall id o, ix_rows ix' !! id = Some o -> obj_id o = id /\ st id = k /\ id < ix_next_id ix') ->
  indexes_wf (alter f k d).
Proof.
  intros W Hf k' ix' E. destruct (decide (k = k')) as [->|Hne].
  - rewrite lookup_alter_eq in E. destruct (d !! k') as [ix|] eqn:E0; [|done]. cbn in E. injection E as <-.
    by apply Hf.
  - rewrite lookup_alter_ne in E by done. by apply W.
Qed.

Lemma wf_put d o v : indexes_wf d -> obj d (obj_id o) = Some v -> indexes_wf (put d o).
Proof.
  intros W Ho. destruct (obj_wf _ _ _ W Ho) as (_ & ix & E & Hlt). apply wf_alter; [done|].
  intros ix1 E1. rewrite E in E1. injection E1 as <-. destruct (W _ _ E) as (Hs & Hb & Hrow).
  split; [done|]. split; [done|]. cbn. intros id x. rewrite lookup_insert_Some. intros [[<- <-]|[_ Hx]]; auto.
Qed.

Lemma wf_del d id : indexes_wf d -> indexes_wf (del d id).
Proof.
  intros W. apply wf_alter; [done|]. intros ix E. destruct (W _ _ E) as (Hs & Hb & Hrow).
  split; [done|]. split; [done|]. cbn. intros i x. rewrite lookup_delete_Some. intros [_ Hx]. auto.
Qed.

Lemma alter_twice (f g : index -> index) d k : alter f k (alter g k d) = alter (fun ix => f (g ix)) k d.
Proof.
  apply map_eq. intros i. destruct (decide (k = i)) as [->|Hne].
  - rewrite !lookup_alter_eq. by destruct (d !! i).
  - by rewrite !lookup_alter_ne.
Qed.

Lemma wf_create d k ix v : indexes_wf d -> d !! k = Some ix -> instance_of (ix_next_id ix) < max_instance ->
  indexes_wf (renext (put d (Object (ix_next_id ix) v)) k (ix_next_id ix + 1)).
Proof.
  intros W E Hroom. destruct (W _ _ E) as (Hs & Hb & Hrow).
  pose proof (succ_room _ Hroom Hb) as Hsucc. pose proof (st_succ _ Hroom) as Hst.
  assert (0 <= ix_next_id ix + 1 < 2 ^ 64) as Hb' by (rewrite <- Hsucc; unfold u64; apply Z.mod_pos_bound; lia).
  unfold renext, put. cbn. rewrite Hs, alter_twice. apply wf_alter; [done|]. intros ix1 E1.
  rewrite E in E1. injection E1 as <-. split; [cbn; congruence|]. split; [done|]. cbn.
  intros id o. rewrite lookup_insert_Some. intros [[<- <-]|[_ Hx]]; cbn; [split_and!; [done | done | lia]|].
  destruct (Hrow _ _ Hx) as (? & ? & ?). split_and!; [done | done | lia].
Qed.

Lemma on_hook_enabled u f : disabled u = false ->
  (if disabled u then u else u <| undo_stack ::= on_back f |>) = u <| undo_stack ::= on_back f |>.
Proof. by intros ->. Qed.

Lemma refines_create db a s t v n : refines db a -> nxt (now a) (s, t) = Some n -> instance_of n < max_instance ->
  exists db', step db (Create s t v) = Ok db'
    /\ refines db' (change_now a (renext (put (now a) (Object n v)) (s, t) (n + 1))).
Proof.
  intros R Hn Hroom. unfold nxt in Hn. destruct (now a !! (s, t)) as [ix|] eqn:E; [|done]. injection Hn as <-.
  pose proof (ref_wf _ _ R) as W. destruct (W _ _ E) as (Hst & Hb & _).
  pose proof (fresh_id _ _ _ W E) as Hf. unfold obj in Hf. rewrite Hst, E in Hf. cbn in Hf.
  cbn. unfold create, get_index. rewrite (ref_now _ _ R), E. cbn. rewrite bool_decide_true by done. cbn.
  eexists. split; [done|]. pose proof (ref_enabled _ _ R) as En.
  apply (refines_change db _ a (state_on_create (Object (ix_next_id ix) v))); [done | | | by apply wf_create |].
  - cbn. rewrite (ref_now _ _ R). unfold renext, put. cbn. rewrite Hst, alter_twice.
    apply map_eq. intros k. destruct (decide ((s, t) = k)) as [<-|Hne].
    + rewrite lookup_insert_eq, lookup_alter_eq, E. unfold use_next_id. cbn. by rewrite succ_room.
    + by rewrite lookup_insert_ne, lookup_alter_ne.
  - exact (on_hook_enabled (db_undo db) (state_on_create _) En).
  - intros st0 pre Wp T. by apply track_create.
Qed.

Lemma refines_modify db a id f o : refines db a -> obj (now a) id = Some o ->
  exists db', step db (Modify id f) = Ok db' /\ refines db' (change_now a (put (now a) (change f o))).
Proof.
  intros R Ho. pose proof (ref_wf _ _ R) as W. destruct (obj_wf _ _ _ W Ho) as (Hid & _).
  assert (obj (db_index db) id = Some o) as Ho' by (by rewrite (ref_now _ _ R)).
  cbn. rewrite (get_object_some _ _ _ Ho'). cbn.
  destruct (modify_put db o (change f)) as (db' & E & Ei & Eu); [done | |].
  { rewrite Hid. by eapply obj_index. }
  exists db'. split; [done|]. rewrite (ref_now _ _ R) in Ei.
  apply (refines_change db _ a (state_on_modify o)); [done | done | | |].
  - rewrite Eu. apply on_hook_enabled, (ref_enabled _ _ R).
  - apply (wf_put _ _ o); [done|]. cbn. by rewrite Hid.
  - intros s pre _ T. apply track_modify; [done | by rewrite Hid | done].
Qed.

Lemma refines_remove db a id o : refines db a -> obj (now a) id = Some o ->
  exists db', step db (Remove id) = Ok db' /\ refines db' (change_now a (del (now a) id)).
Proof.
  intros R Ho. pose proof (ref_wf _ _ R) as W. destruct (obj_wf _ _ _ W Ho) as (Hid & _).
  assert (obj (db_index db) id = Some o) as Ho' by (by rewrite (ref_now _ _ R)).
  cbn. rewrite (get_object_some _ _ _ Ho'). cbn.
  destruct (remove_del db o) as (db' & E & Ei & Eu); [rewrite Hid; by eapply obj_index|].
  exists db'. split; [done|]. rewrite (ref_now _ _ R), Hid in Ei.
  apply (refines_change db _ a (state_on_remove o)); [done | done | | by apply wf_del |].
  - rewrite Eu. apply on_hook_enabled, (ref_enabled _ _ R).
  - intros s pre _ T. rewrite <- Hid. apply track_remove; [done|]. by rewrite Hid.
Qed.

Lemma u32_pred n : 0 < n < 2 ^ 32 -> u32 (n - 1) = n - 1.
Proof. intros. apply u32_small. lia. Qed.

(** The common part of [undo] and [pop_commit]. *)
Lemma refines_restore db a d ds : refines db a -> past a = d :: ds ->
  exists s db', back (disable db) = Ok s /\ apply_undo_state (disable db) s = Ok db'
    /\ db_index db' = d /\ db_undo db' = (db_undo db) <| disabled := true |>
    /\ indexes_wf d /\ history d (tail (undo_stack (db_undo db))) ds.
Proof.
  intros R Ep. pose proof (ref_history _ _ R) as Hh. rewrite Ep in Hh.
  destruct (undo_stack (db_undo db)) as [|s states] eqn:Es; [done|]. destruct Hh as (T & W & Hh).
  destruct (apply_undo_restores (disable db) s d) as (db' & E & Ei & Eu); [done | | done | |].
  - cbn. by rewrite (ref_now _ _ R).
  - cbn. rewrite (ref_now _ _ R). apply (ref_wf _ _ R).
  - exists s, db'. split; [unfold back, disable, set_disabled; cbn; by rewrite Es|]. by rewrite Eu.
Qed.

Lemma refines_undo db a d ds : refines db a -> past a = d :: ds -> 0 < open_sessions a ->
  exists db', undo db = Ok db' /\ refines db' (Snapshots d ds (open_sessions a - 1) (depth_limit a)).
Proof.
  intros R Ep Ho. destruct (refines_restore _ _ _ _ R Ep) as (s & db1 & Eb & Ea & Ei & Eu & W & Hh).
  unfold undo. rewrite (ref_enabled _ _ R), (ref_active _ _ R). cbn.
  destruct (Z.ltb_spec 0 (open_sessions a)); [|lia]. cbn. rewrite Eb. cbn. rewrite Ea. cbn.
  eexists. split; [done|]. pose proof (ref_open _ _ R) as (Ro & Rp & Rd). rewrite Ep in Rp. cbn in Rp.
  split; cbn; rewrite ?Eu, ?Ei; cbn; try done.
  - rewrite (ref_active _ _ R). apply u32_pred. lia.
  - apply (ref_limit _ _ R).
  - lia.
Qed.

Lemma refines_pop_commit db a d ds : refines db a -> past a = d :: ds -> open_sessions a = 0 ->
  exists db', pop_undo db = Ok db' /\ refines db' (Snapshots d ds 0 (depth_limit a)).
Proof.
  intros R Ep Ho. destruct (refines_restore _ _ _ _ R Ep) as (s & db1 & Eb & Ea & Ei & Eu & W & Hh).
  unfold pop_undo, pop_commit. rewrite (ref_active _ _ R), Ho. cbn.
  rewrite bool_decide_false. 2:{ intros E0. unfold back in Eb. cbn in Eb. by rewrite E0 in Eb. }
  cbn. rewrite Eb. cbn. rewrite Ea. cbn.
  eexists. split; [done|]. pose proof (ref_open _ _ R) as (Ro & Rp & Rd).
  split; cbn; rewrite ?Eu, ?Ei; cbn; try done.
  - by rewrite (ref_active _ _ R).
  - apply (ref_limit _ _ R).
  - lia.
Qed.

Lemma refines_start db a : refines db a -> open_sessions a < depth_limit a -> open_sessions a < 2 ^ 32 - 1 ->
  refines (start_undo_session false db).1
    (Snapshots (now a) (now a :: take (Z.to_nat (depth_limit a)) (past a)) (open_sessions a + 1) (depth_limit a)).
Proof.
  intros R Hl Hb. pose proof (ref_open _ _ R) as (Ro & Rp & Rd).
  unfold start_undo_session. rewrite (ref_enabled _ _ R). cbn. split; cbn.
  - apply (ref_now _ _ R).
  - apply (ref_wf _ _ R).
  - apply (ref_enabled _ _ R).
  - rewrite (ref_active _ _ R). apply u32_small. lia.
  - apply (ref_limit _ _ R).
  - rewrite (ref_limit _ _ R), pop_front_while_take by (lia || done).
    split_and!; [by apply tracks_refl, (ref_wf _ _ R) | apply (ref_wf _ _ R) |].
    apply history_take, (ref_history _ _ R).
  - rewrite length_take. lia.
Qed.

Lemma refines_merge db a a' : refines db a -> spec_step a Merge = Ok a' ->
  exists db', merge db = Ok db' /\ refines db' a'.
Proof.
  intros R E. pose proof (ref_open _ _ R) as (Ro & Rp & Rd). pose proof (ref_history _ _ R) as Hh.
  cbn in E. mon. unfold merge. rewrite (ref_active _ _ R).
  destruct (Z.ltb_spec 0 (open_sessions a)); [|lia]. cbn.
  assert (u32 (open_sessions a - 1) = open_sessions a - 1) as Hu by (apply u32_pred; lia).
  destruct (undo_stack (db_undo db)) as [|s [|p states]] eqn:Es, (past a) as [|d [|d' ds]] eqn:Ep;
    cbn in Hh; try done; try tauto.
  - destruct (Z.eqb_spec (open_sessions a) 1) as [Eo|]; [|done]. cbn. injection E as <-.
    eexists. split; [done|]. split; cbn; rewrite ?Es; cbn; try done; try apply R; [|lia].
    rewrite (ref_active _ _ R), Eo. done.
  - rewrite andb_false_r. injection E as <-. destruct Hh as (T & W & Tp & Wp & Hh).
    eexists. split; [done|]. split; cbn; try apply R.
    + rewrite (ref_active _ _ R). by apply u32_pred; lia.
    + split_and!; [by eapply merge_tracks | done | done].
    + cbn in Rp. lia.
Qed.

Lemma refines_step db a c a' : refines db a -> spec_step a c = Ok a' ->
  exists db', step db c = Ok db' /\ refines db' a'.
Proof.
  intros R E. pose proof (ref_open _ _ R) as (Ro & Rp & Rd). destruct c as [s t v|id f|id| | | | | |n].
  - cbn -[step] in E. mon. by eapply refines_create.
  - cbn -[step] in E. mon. by eapply refines_modify.
  - cbn -[step] in E. mon. by eapply refines_remove.
  - cbn -[step] in E. mon. eexists. split; [done|]. by apply refines_start.
  - cbn -[step] in E. mon. destruct (past a) as [|d ds] eqn:Ep; [done|]. injection E as <-. by eapply refines_undo.
  - by eapply refines_merge.
  - cbn -[step] in E. mon. cbn. unfold commit. rewrite (ref_active _ _ R).
    destruct (Z.ltb_spec 0 (open_sessions a)); [|lia]. cbn. eexists. split; [done|].
    split; cbn; try apply R; [|lia]. rewrite (ref_active _ _ R). apply u32_pred. lia.
  - cbn -[step] in E. mon. destruct (past a) as [|d ds] eqn:Ep; [done|]. injection E as <-. by eapply refines_pop_commit.
  - cbn -[step] in E. mon. eexists. split; [done|]. split; cbn; try apply R; [done | lia].
Qed.

Lemma refines_run db a cs a' : refines db a -> spec_run a cs = Ok a' ->
  exists db', run db cs = Ok db' /\ refines db' a'.
Proof.
  revert db a. induction cs as [|c cs IH]; cbn; intros db a R E; [injection E as <-; eauto|].
  apply rbind_ok in E as (a1 & E1 & E2). destruct (refines_step _ _ _ _ R E1) as (db1 & -> & R1).
  cbn. by eapply IH.
Qed.

(** A database without history, as it is when the undo database is enabled. *)
Definition no_history (d : indexes) (max : Z) : object_database :=
  ObjectDatabase d (UndoDatabase 0 false [] max).

Lemma refines_initial d max : indexes_wf d -> 0 <= max -> refines (no_history d max) (Snapshots d [] 0 max).
Proof. intros W Hm. by split. Qed.

(** *** Sessions *)

Definition is_change (c : command) : bool :=
  match c with Create _ _ _ | Modify _ _ | Remove _ => true | _ => false end.

(** What a session may contain: changes, and inner sessions that are undone or merged. *)
Inductive balanced : list command -> Prop :=
  | balanced_nil : balanced []
  | balanced_change c cs : is_change c = true -> balanced cs -> balanced (c :: cs)
  | balanced_session cs e cs' : e = Undo \/ e = Merge -> balanced cs -> balanced cs' ->
      balanced (Start :: cs ++ e :: cs').

Lemma rfold_app {S A} (f : S -> A -> result S) l l' s :
  rfold f s (l ++ l') = rbind (rfold f s l) (fun s' => rfold f s' l').
Proof. revert s. induction l as [|x l IH]; cbn; intros s; [done|]. destruct (f s x); cbn; [apply IH | done]. Qed.

Lemma change_spec a c a' : is_change c = true -> spec_step a c = Ok a' ->
  exists d, a' = change_now a d.
Proof. destruct c; try done; intros _ E; cbn in E; mon; eauto. Qed.

(** The sessions open at [a] and their snapshots are still there at [a']. *)
Record keeps_sessions (a a' : snapshots) : Prop := {
  keeps_open : open_sessions a' = open_sessions a;
  keeps_limit : depth_limit a' = depth_limit a;
  keeps_past : take (Z.to_nat (open_sessions a)) (past a') = take (Z.to_nat (open_sessions a)) (past a);
}.

Definition in_session (a : snapshots) : Prop := 0 < open_sessions a <= Z.of_nat (length (past a)).

Lemma keeps_trans a b c : keeps_sessions a b -> keeps_sessions b c -> keeps_sessions a c.
Proof. intros [O1 L1 P1] [O2 L2 P2]. rewrite O1 in *. split; congruence. Qed.

Lemma keeps_in_session a b : keeps_sessions a b -> in_session a -> in_session b.
Proof.
  intros [O L P] [H1 H2]. unfold in_session. rewrite O. split; [done|].
  apply (f_equal length) in P. rewrite !length_take in P. lia.
Qed.

Lemma balanced_keeps cs a a' : balanced cs -> in_session a -> spec_run a cs = Ok a' -> keeps_sessions a a'.
Proof.
  intros Hb. revert a a'. induction Hb as [|c cs Hc Hb IH|cs e cs' He Hb IH Hb' IH']; intros a a' Hs E.
  - injection E as <-. done.
  - cbn in E. apply rbind_ok in E as (a1 & E1 & E2). apply (change_spec _ _ _ Hc) in E1 as [d ->].
    assert (keeps_sessions a (change_now a d)) as K.
    { split; cbn; try done. unfold remembered. destruct Hs as [? Hl]. by destruct (past a); [cbn in Hl; lia|]. }
    eapply keeps_trans; [exact K|]. apply IH; [by eapply keeps_in_session | done].
  - cbn -[spec_step] in E. apply rbind_ok in E as (a1 & E1 & E). unfold spec_run in *. rewrite rfold_app in E.
    apply rbind_ok in E as (a2 & E2 & E). cbn -[spec_step] in E. apply rbind_ok in E as (a3 & E3 & E).
    cbn in E1. mon. destruct Hs as [Ho Hl].
    set (a1 := Snapshots _ _ _ _) in E2.
    assert (in_session a1) as Hs1 by (unfold in_session; cbn; rewrite length_take; lia).
    destruct (IH _ _ Hs1 E2) as [O2 L2 P2]. cbn in O2, L2, P2.
    replace (Z.to_nat (open_sessions a + 1)) with (S (Z.to_nat (open_sessions a))) in P2 by lia.
    destruct (past a2) as [|d2 [|d3 ds]] eqn:Ep2; [done | |].
    { apply (f_equal length) in P2. cbn in P2. rewrite !length_take in P2. cbn in P2. lia. }
    cbn in P2. injection P2 as -> P2. rewrite take_take in P2.
    replace (Z.to_nat (open_sessions a) `min` Z.to_nat (depth_limit a))%nat with (Z.to_nat (open_sessions a)) in P2 by lia.
    assert (keeps_sessions a a3) as K3.
    { destruct He as [-> | ->]; cbn in E3; rewrite Ep2 in E3; mon; split; cbn; try done; lia. }
    eapply keeps_trans; [exact K3|]. apply IH'; [by eapply keeps_in_session | done].
Qed.

Lemma session_undone cs a a' : balanced cs -> 0 <= open_sessions a <= Z.of_nat (length (past a)) ->
  spec_run a (Start :: cs ++ [Undo]) = Ok a' -> now a' = now a /\ open_sessions a' = open_sessions a.
Proof.
  intros Hb Ho E. cbn -[spec_step] in E. apply rbind_ok in E as (a1 & E1 & E). unfold spec_run in *.
  rewrite rfold_app in E. apply rbind_ok in E as (a2 & E2 & E). cbn in E1, E. mon.
  set (a1 := Snapshots _ _ _ _) in E2.
  assert (in_session a1) as Hs1 by (unfold in_session; cbn; rewrite length_take; lia).
  destruct (balanced_keeps _ _ _ Hb Hs1 E2) as [O2 _ P2]. cbn in O2, P2.
  replace (Z.to_nat (open_sessions a + 1)) with (S (Z.to_nat (open_sessions a))) in P2 by lia.
  destruct (past a2) as [|d2 ds]; [done|]. cbn in P2. injection P2 as -> _. mon. cbn. split; [done | lia].
Qed.

(** *** Blocks *)

(** A block is applied in a session of its own, which is committed. *)
Definition block (cs : list command) : list command := Start :: cs ++ [Commit].
Definition blocks (bs : list (list command)) : list command := concat (block <$> bs).

Lemma changes_past cs a a' : forallb is_change cs = true -> past a <> [] -> spec_run a cs = Ok a' ->
  past a' = past a /\ open_sessions a' = open_sessions a /\ depth_limit a' = depth_limit a.
Proof.
  revert a. induction cs as [|c cs IH]; cbn; intros a Hc Hp E; [by injection E as <-|].
  apply andb_true_iff in Hc as [Hc Hcs]. apply rbind_ok in E as (a1 & E1 & E2).
  apply (change_spec _ _ _ Hc) in E1 as [d ->].
  assert (past (change_now a d) = past a) as Ep by (cbn; unfold remembered; by destruct (past a)).
  apply IH in E2 as (E2 & ? & ?); [|done | by rewrite Ep]. by rewrite E2.
Qed.

Lemma block_past cs a a' : forallb is_change cs = true -> open_sessions a = 0 -> spec_run a (block cs) = Ok a' ->
  past a' = now a :: take (Z.to_nat (depth_limit a)) (past a) /\ open_sessions a' = 0
  /\ depth_limit a' = depth_limit a.
Proof.
  intros Hc Ho E. unfold block in E. cbn -[spec_step] in E. apply rbind_ok in E as (a1 & E1 & E).
  unfold spec_run in *. rewrite rfold_app in E. apply rbind_ok in E as (a2 & E2 & E). cbn in E1, E. mon.
  apply changes_past in E2 as (E2 & ? & ?); [|done | done]. cbn in *. split_and!; [done | lia | done].
Qed.

(** Popping the last [n] blocks goes back to before them, even with a history cut off
    after [m] snapshots. *)
Lemma blocks_popped bs : forall a a' m, forallb (forallb is_change) bs = true -> open_sessions a = 0 ->
  (length bs <= S (Z.to_nat (depth_limit a)))%nat -> (length bs <= m)%nat -> spec_run a (blocks bs) = Ok a' ->
  depth_limit a' = depth_limit a /\ open_sessions a' = 0 /\
  exists ds, spec_run (Snapshots (now a') (take m (past a')) 0 (depth_limit a')) (repeat PopCommit (length bs))
             = Ok (Snapshots (now a) ds 0 (depth_limit a)).
Proof.
  induction bs as [|b bs IH] using rev_ind; intros a a' m Hc Ho Hl Hm E.
  - injection E as <-. split_and!; [done..|]. eexists. cbn. done.
  - rewrite forallb_app in Hc. apply andb_true_iff in Hc as [Hcs Hc]. cbn in Hc. rewrite andb_true_r in Hc.
    unfold blocks in E. rewrite fmap_app, concat_app in E. cbn [fmap list_fmap concat] in E.
    rewrite app_nil_r in E. unfold spec_run in E. rewrite rfold_app in E. apply rbind_ok in E as (a1 & E1 & E2).
    rewrite length_app in *. cbn in Hl, Hm. destruct m as [|m]; [lia|].
    destruct (IH a a1 (m `min` Z.to_nat (depth_limit a))%nat) as (L1 & O1 & ds & Ep); [done | done | lia | lia | done |].
    apply block_past in E2 as (P2 & O2 & L2); [|done | done]. rewrite L1 in *.
    split_and!; [done | done |]. exists ds. rewrite Nat.add_1_r. cbn. rewrite P2. cbn. rewrite take_take, L2.
    exact Ep.
Qed.

(** C33: The undo history implements a stack of snapshots: whatever sequence of object
    creations, modifications and removals, session starts, undos, merges, commits and
    pops a stack of database copies accepts, the undo database runs through it
    without an error, whatever order its unordered containers are visited in, and
    ends with the same contents and a history that still refines the copies. *)
Theorem undo_refines_snapshots d max cs a' : indexes_wf d -> 0 <= max ->
  spec_run (Snapshots d [] 0 max) cs = Ok a' ->
  exists db', run (no_history d max) cs = Ok db' /\ db_index db' = now a' /\ refines db' a'.
Proof.
  intros W Hm E. destruct (refines_run _ _ _ _ (refines_initial _ _ W Hm) E) as (db' & Er & R).
  exists db'. split; [done|]. split; [apply (ref_now _ _ R) | done].
Qed.

(** Undoing a session restores the database: after any history, whatever changes
    were made inside the session, in whatever inner sessions that were undone or
    merged, the undo brings back exactly the contents the session started from. *)
Theorem session_undo_restores d max before a cs a' : indexes_wf d -> 0 <= max -> balanced cs ->
  spec_run (Snapshots d [] 0 max) before = Ok a -> spec_run a (Start :: cs ++ [Undo]) = Ok a' ->
  exists db db', run (no_history d max) before = Ok db /\ run db (Start :: cs ++ [Undo]) = Ok db'
    /\ db_index db' = db_index db /\ active_sessions (db_undo db') = active_sessions (db_undo db).
Proof.
  intros W Hm Hb E E'. destruct (refines_run _ _ _ _ (refines_initial _ _ W Hm) E) as (db & Er & R).
  destruct (refines_run _ _ _ _ R E') as (db' & Er' & R'). exists db, db'. split; [done|]. split; [done|].
  destruct (ref_open _ _ R) as ([Hlo _] & Hle & _).
  destruct (session_undone _ _ _ Hb (conj Hlo Hle) E') as [Hn Ho].
  rewrite (ref_now _ _ R), (ref_now _ _ R'), (ref_active _ _ R), (ref_active _ _ R'). done.
Qed.

(** C34: Blocks can be taken back: when every block is applied in a session that is
    committed, popping the last [n] of them, up to one more than the maximal size of
    the history, runs through and restores exactly the contents before them. *)
Theorem popped_blocks_restored d max old a recent a' : indexes_wf d -> 0 <= max ->
  forallb (forallb is_change) (old ++ recent) = true -> Z.of_nat (length recent) <= max + 1 ->
  spec_run (Snapshots d [] 0 max) (blocks old) = Ok a -> spec_run a (blocks recent) = Ok a' ->
  exists db db', run (no_history d max) (blocks old) = Ok db
    /\ run db (blocks recent ++ repeat PopCommit (length recent)) = Ok db' /\ db_index db' = db_index db.
Proof.
  intros W Hm Hc Hl E E'. rewrite forallb_app in Hc. apply andb_true_iff in Hc as [Hco Hcr].
  destruct (refines_run _ _ _ _ (refines_initial _ _ W Hm) E) as (db & Er & R).
  assert (open_sessions a = 0 /\ depth_limit a = max) as [Ho Hd].
  { clear -E Hco. revert a E. induction old as [|b old IH] using rev_ind; intros a E; [by injection E as <-|].
    rewrite forallb_app in Hco. apply andb_true_iff in Hco as [Hcs Hc]. cbn in Hc. rewrite andb_true_r in Hc.
    unfold blocks in E. rewrite fmap_app, concat_app in E. cbn [fmap list_fmap concat] in E.
    rewrite app_nil_r in E. unfold spec_run in E. rewrite rfold_app in E. apply rbind_ok in E as (a1 & E1 & E2).
    destruct (IH Hcs _ E1) as [O1 L1]. apply block_past in E2 as (_ & O2 & L2); [|done | done]. by rewrite L2. }
  destruct (blocks_popped recent a a' (length (past a') + length recent) Hcr Ho) as (L & O & ds & Ep);
    [rewrite Hd; lia | lia | done |].
  destruct (refines_run db a (blocks recent ++ repeat PopCommit (length recent)) (Snapshots (now a) ds 0 (depth_limit a)))
    as (db' & Er' & R'); [done | |].
  - unfold spec_run in *. rewrite rfold_app, E'. cbn. rewrite take_ge in Ep by lia. rewrite <- Ep.
    destruct a' as [n p o l]. cbn in *. by rewrite O.
  - exists db, db'. split_and!; [done..|]. rewrite (ref_now _ _ R), (ref_now _ _ R'). done.
Qed.
End Undo.

(** ** A sample history *)

(** One index, of space 1 and type 7, with one object of contents 10. *)
Definition sample_first_id : Z := 2 ^ 56 + 7 * 2 ^ 48.

Definition sample_indexes : gmap (Z * Z) (@index Z) :=
  {[(1, 7) := Index (sample_first_id + 1) {[sample_first_id := Object sample_first_id 10]}]}.

Definition sample_session : list (@command Z) :=
  [Modify sample_first_id (Z.add 5); Start; Create 1 7 20; Remove sample_first_id; Merge;
   Create 1 7 30; Start; Modify (sample_first_id + 1) (Z.mul 2); Undo].

Lemma sample_indexes_wf : indexes_wf sample_indexes.
Proof.
  intros k ix. unfold sample_indexes. rewrite lookup_singleton_Some. intros [<- <-].
  split; [by vm_compute|]. split; [by vm_compute|]. intros id o. cbn. rewrite lookup_singleton_Some.
  intros [<- <-]. by vm_compute.
Qed.

Lemma sample_session_balanced : balanced sample_session.
Proof.
  apply balanced_change; [done|].
  apply (balanced_session [Create 1 7 20; Remove sample_first_id] Merge
    [Create 1 7 30; Start; Modify (sample_first_id + 1) (Z.mul 2); Undo]); [by right | by repeat constructor |].
  apply balanced_change; [done|].
  apply (balanced_session [Modify (sample_first_id + 1) (Z.mul 2)] Undo []); [by left | by repeat constructor | constructor].
Qed.

Lemma undo_refines_snapshots_witness :
  exists db', run (order := key_order) (no_history sample_indexes 5) (Start :: sample_session ++ [Merge]) = Ok db'
    /\ obj (db_index db') (sample_first_id + 1) = Some (Object (sample_first_id + 1) 20)
    /\ obj (db_index db') sample_first_id = None.
Proof.
  eassert (spec_run (Snapshots sample_indexes [] 0 5) (Start :: sample_session ++ [Merge]) = Ok _) as E
    by (vm_compute; reflexivity).
  destruct (undo_refines_snapshots (order := key_order) sample_indexes 5 _ _ sample_indexes_wf ltac:(discriminate) E)
    as (db' & Er & Ei & _).
  exists db'. split; [exact Er|]. rewrite Ei. split; vm_compute; reflexivity.
Defined.

Lemma session_undo_restores_witness :
  exists db db', run (order := key_order) (no_history sample_indexes 5) [Start] = Ok db
    /\ run (order := key_order) db (Start :: sample_session ++ [Undo]) = Ok db' /\ db_index db' = db_index db.
Proof.
  eassert (spec_run (Snapshots sample_indexes [] 0 5) [Start] = Ok _) as E by (vm_compute; reflexivity).
  eassert (spec_run _ (Start :: sample_session ++ [Undo]) = Ok _) as E'; [|
    destruct (session_undo_restores (order := key_order) sample_indexes 5 [Start] _ _ _ sample_indexes_wf ltac:(discriminate)
      sample_session_balanced E E') as (db & db' & H1 & H2 & H3 & _);
    exists db, db'; split; [exact H1|]; split; [exact H2 | exact H3]].
  vm_compute. reflexivity.
Defined.

Definition sample_block (n : Z) : list (@command Z) := [Create 1 7 n; Modify sample_first_id (Z.add n)].

Lemma popped_blocks_restored_witness :
  exists db db', run (order := key_order) (no_history sample_indexes 1) (blocks [sample_block 1]) = Ok db
    /\ run (order := key_order) db (blocks [sample_block 2; sample_block 3] ++ [PopCommit; PopCommit]) = Ok db'
    /\ db_index db' = db_index db.
Proof.
  eassert (spec_run (Snapshots sample_indexes [] 0 1) (blocks [sample_block 1]) = Ok _) as E
    by (vm_compute; reflexivity).
  eassert (spec_run _ (blocks [sample_block 2; sample_block 3]) = Ok _) as E'; [|
    exact (popped_blocks_restored (order := key_order) sample_indexes 1 [sample_block 1] _ [sample_block 2; sample_block 3] _
      sample_indexes_wf ltac:(discriminate) eq_refl ltac:(discriminate) E E')].
  vm_compute. reflexivity.
Defined.
