(* ===== verification/AssetRules.v ===== *)
(** What an asset may look like: symbols ([is_valid_symbol]), the options of assets and
    of market-issued assets with their checks ([protocol/asset_ops.cpp]), issuer
    permissions and flags ([protocol/types.hpp]), and the checks of [asset_evaluator.cpp]
    that depend on a hard fork. *)
From S2P Require Import Prelude Records Fc Asset Objects Vesting Database.
From Stdlib Require Import Strings.Ascii.
From Stdlib Require Strings.String.

(** ** Symbols *)

Definition GRAPHENE_MIN_ASSET_SYMBOL_LENGTH : nat := 3.
Definition GRAPHENE_MAX_ASSET_SYMBOL_LENGTH : nat := 16.

(** The classes of the classic locale. *)
Definition in_chars (lo hi c : ascii) : bool := (nat_of_ascii lo <=? nat_of_ascii c)%nat && (nat_of_ascii c <=? nat_of_ascii hi)%nat.
Definition isupper : ascii -> bool := in_chars "A" "Z".
Definition isdigit : ascii -> bool := in_chars "0" "9".
Definition isalpha (c : ascii) : bool := isupper c || in_chars "a" "z" c.
Definition isalnum (c : ascii) : bool := isalpha c || isdigit c.
Definition is_dot (c : ascii) : bool := bool_decide (c = "."%char).

(** The loop over the characters; [dot_already_present]. *)
Fixpoint symbol_chars (dot : bool) (l : list ascii) : bool :=
  match l with
  | [] => true
  | c :: l' =>
      if (isalpha c && isupper c) || isdigit c then symbol_chars dot l'
      else if is_dot c then if dot then false else symbol_chars true l'
      else false
  end.

Definition is_valid_symbol (symbol : string) : bool :=
  let l := String.list_ascii_of_string symbol in
  if (length l <? GRAPHENE_MIN_ASSET_SYMBOL_LENGTH)%nat then false
  else if bool_decide (take 3 l = ["B"; "I"; "T"]%char) then false
  else if (GRAPHENE_MAX_ASSET_SYMBOL_LENGTH <? length l)%nat then false
  else if negb (from_option isalpha false (head l)) then false
  else if negb (from_option isalnum false (last l)) then false
  else symbol_chars false l.

(** [symbol.rfind('.')] and the part of the symbol before it. *)
Fixpoint before_last_dot (l : list ascii) : option (list ascii) :=
  match l with
  | [] => None
  | c :: l' =>
      match before_last_dot l' with
      | Some p => Some (c :: p)
      | None => if is_dot c then Some [] else None
      end
  end.

Definition symbol_prefix (symbol : string) : option string :=
  String.string_of_list_ascii <$> before_last_dot (String.list_ascii_of_string symbol).

(** ** Permissions and flags *)

Definition disable_force_settle : Z := 16.
Definition global_settle : Z := 32.
Definition disable_confidential : Z := 64.
Definition witness_fed_asset : Z := 128.
Definition committee_fed_asset : Z := 256.
Definition lock_max_supply : Z := 512.
Definition disable_mcr_update : Z := 2048.
Definition disable_icr_update : Z := 4096.
Definition disable_mssr_update : Z := 8192.
Definition disable_bsrm_update : Z := 16384.
Definition disable_collateral_bidding : Z := 32768.

Infix "|||" := Z.lor (at level 50, left associativity) : Z_scope.

(** [(uint16_t)(~x)] *)
Definition not16 (x : Z) : Z := u16 (Z.lnot x).

Definition ASSET_ISSUER_PERMISSION_ENABLE_BITS_MASK : Z :=
  charge_market_fee ||| white_list ||| override_authority ||| transfer_restricted ||| disable_force_settle
  ||| global_settle ||| disable_confidential ||| witness_fed_asset ||| committee_fed_asset.
Definition ASSET_ISSUER_PERMISSION_DISABLE_BITS_MASK : Z :=
  lock_max_supply ||| disable_new_supply ||| disable_mcr_update ||| disable_icr_update ||| disable_mssr_update
  ||| disable_bsrm_update ||| disable_collateral_bidding.
Definition ASSET_ISSUER_PERMISSION_MASK : Z :=
  charge_market_fee ||| white_list ||| override_authority ||| transfer_restricted ||| disable_force_settle
  ||| global_settle ||| disable_confidential ||| witness_fed_asset ||| committee_fed_asset ||| lock_max_supply
  ||| disable_new_supply ||| disable_mcr_update ||| disable_icr_update ||| disable_mssr_update
  ||| disable_bsrm_update ||| disable_collateral_bidding.
Definition UIA_ASSET_ISSUER_PERMISSION_MASK : Z :=
  charge_market_fee ||| white_list ||| override_authority ||| transfer_restricted ||| disable_confidential
  ||| lock_max_supply ||| disable_new_supply.
Definition NON_UIA_ONLY_ISSUER_PERMISSION_MASK : Z :=
  Z.lxor ASSET_ISSUER_PERMISSION_MASK UIA_ASSET_ISSUER_PERMISSION_MASK.
Definition PERMISSION_ONLY_MASK : Z :=
  global_settle ||| disable_mcr_update ||| disable_icr_update ||| disable_mssr_update ||| disable_bsrm_update.
Definition VALID_FLAGS_MASK : Z := Z.land ASSET_ISSUER_PERMISSION_MASK (not16 PERMISSION_ONLY_MASK).
Definition UIA_VALID_FLAGS_MASK : Z := UIA_ASSET_ISSUER_PERMISSION_MASK.

(** No bit of [mask] is set in [x]. *)
Definition unset (x mask : Z) : bool := 0 =? Z.land x mask.

Definition can_force_settle (a : asset_object) : bool := unset (ao_flags (as_options a)) disable_force_settle.
Definition can_global_settle (a : asset_object) : bool :=
  negb (unset (ao_issuer_permissions (as_options a)) global_settle).
Definition can_update_max_supply (a : asset_object) : bool := unset (ao_flags (as_options a)) lock_max_supply.
Definition can_owner_update_mcr (a : asset_object) : bool := unset (ao_issuer_permissions (as_options a)) disable_mcr_update.
Definition can_owner_update_icr (a : asset_object) : bool := unset (ao_issuer_permissions (as_options a)) disable_icr_update.
Definition can_owner_update_mssr (a : asset_object) : bool := unset (ao_issuer_permissions (as_options a)) disable_mssr_update.
Definition can_owner_update_bsrm (a : asset_object) : bool := unset (ao_issuer_permissions (as_options a)) disable_bsrm_update.
Definition can_bid_collateral (a : asset_object) : bool := unset (ao_flags (as_options a)) disable_collateral_bidding.

(** ** Checks of the options *)

(** An optional percentage or ratio within its bounds. *)
Definition opt_within (lo hi : Z) (o : option Z) : bool :=
  match o with Some x => (lo <=? x) && (x <=? hi) | None => true end.

Definition asset_options_validate (o : asset_options) : result unit :=
  assert! 0 <? ao_max_supply o @ "max_supply > 0" in
  assert! ao_max_supply o <=? GRAPHENE_MAX_SHARE_SUPPLY @ "max_supply <= GRAPHENE_MAX_SHARE_SUPPLY" in
  assert! ao_market_fee_percent o <=? GRAPHENE_100_PERCENT @ "market_fee_percent" in
  assert! opt_within 0 GRAPHENE_100_PERCENT (ao_taker_fee_percent o) @ "taker_fee_percent" in
  assert! (0 <=? ao_max_market_fee o) && (ao_max_market_fee o <=? GRAPHENE_MAX_SHARE_SUPPLY) @ "max_market_fee" in
  assert! unset (ao_issuer_permissions o) (not16 ASSET_ISSUER_PERMISSION_MASK) @ "unknown permission" in
  assert! unset (ao_flags o) global_settle
    @ "Can not set global_settle flag, it is for issuer permission only" in
  assert! negb (Z.land (ao_flags o) (witness_fed_asset ||| committee_fed_asset)
                =? (witness_fed_asset ||| committee_fed_asset)) @ "witness_fed and committee_fed" in
  do! price_validate false (ao_core_exchange_rate o) in
  assert! (asset_id (base (ao_core_exchange_rate o)) =? 0) || (asset_id (quote (ao_core_exchange_rate o)) =? 0)
    @ "core_exchange_rate" in
  assert! bool_decide (ao_whitelist_authorities o = ∅) && bool_decide (ao_blacklist_authorities o = ∅)
          || negb (unset (ao_flags o) white_list) @ "0 != (flags & white_list)" in
  assert! bool_decide (set_Forall (fun i => i ∉ ao_blacklist_markets o) (ao_whitelist_markets o)) @ "blacklist_markets" in
  assert! bool_decide (set_Forall (fun i => i ∉ ao_whitelist_markets o) (ao_blacklist_markets o)) @ "whitelist_markets" in
  assert! opt_within 0 GRAPHENE_100_PERCENT (ao_reward_percent o) @ "reward_percent" in
  Ok tt.

Definition validate_flags (o : asset_options) (is_market_issued allow_disable_collateral_bid : bool) : result unit :=
  let flags := ao_flags o in
  assert! unset flags (not16 ASSET_ISSUER_PERMISSION_MASK) @ "Can not set an unknown bit in flags" in
  assert! allow_disable_collateral_bid || unset flags disable_collateral_bidding @ "disable_collateral_bidding" in
  assert! unset flags disable_mcr_update @ "Can not set disable_mcr_update flag" in
  assert! unset flags disable_icr_update @ "Can not set disable_icr_update flag" in
  assert! unset flags disable_mssr_update @ "Can not set disable_mssr_update flag" in
  assert! unset flags disable_bsrm_update @ "Can not set disable_bsrm_update flag" in
  assert! is_market_issued || unset flags (not16 UIA_ASSET_ISSUER_PERMISSION_MASK)
    @ "Can not set a flag for bitassets only to UIA" in
  Ok tt.

(** The bits of the flags the issuer may change: set permissions that enable, and
    permissions that disable when they are not set. *)
Definition get_enabled_issuer_permissions_mask (o : asset_options) : Z :=
  Z.land (ao_issuer_permissions o) ASSET_ISSUER_PERMISSION_ENABLE_BITS_MASK
  ||| Z.land (not16 (ao_issuer_permissions o)) ASSET_ISSUER_PERMISSION_DISABLE_BITS_MASK.

(** [asset_object::validate] *)
Definition asset_object_validate (a : asset_object) : result unit :=
  if negb (as_market_issued a) then
    assert! unset (ao_flags (as_options a)) disable_force_settle && unset (ao_flags (as_options a)) global_settle @ "flags" in
    assert! unset (ao_issuer_permissions (as_options a)) disable_force_settle
            && unset (ao_issuer_permissions (as_options a)) global_settle @ "issuer_permissions" in
    Ok tt
  else Ok tt.

(** [black_swan_response_type] *)
Definition global_settlement : Z := 0.
Definition no_settlement : Z := 1.
Definition individual_settlement_to_fund : Z := 2.
Definition individual_settlement_to_order : Z := 3.
Definition BSRM_TYPE_COUNT : Z := 4.

Definition get_black_swan_response_method (o : bitasset_options) : Z :=
  match bo_black_swan_response_method o with None => global_settlement | Some m => m end.

Definition bitasset_options_validate (o : bitasset_options) : result unit :=
  assert! 0 <? bo_minimum_feeds o @ "minimum_feeds > 0" in
  assert! bo_force_settlement_offset_percent o <=? GRAPHENE_100_PERCENT @ "force_settlement_offset_percent" in
  assert! bo_maximum_force_settlement_volume o <=? GRAPHENE_100_PERCENT @ "maximum_force_settlement_volume" in
  assert! opt_within 0 GRAPHENE_MAX_COLLATERAL_RATIO (bo_margin_call_fee_ratio o) @ "margin_call_fee_ratio" in
  assert! opt_within GRAPHENE_MIN_COLLATERAL_RATIO GRAPHENE_MAX_COLLATERAL_RATIO (bo_initial_collateral_ratio o) @ "ICR" in
  assert! opt_within GRAPHENE_MIN_COLLATERAL_RATIO GRAPHENE_MAX_COLLATERAL_RATIO (bo_maintenance_collateral_ratio o) @ "MCR" in
  assert! opt_within GRAPHENE_MIN_COLLATERAL_RATIO GRAPHENE_MAX_COLLATERAL_RATIO (bo_maximum_short_squeeze_ratio o) @ "MSSR" in
  assert! opt_within 0 GRAPHENE_100_PERCENT (bo_force_settle_fee_percent o) @ "force_settle_fee_percent" in
  assert! match bo_black_swan_response_method o with Some m => m <? BSRM_TYPE_COUNT | None => true end @ "BSRM" in
  Ok tt.

(** ** Checks that depend on a hard fork *)

Definition HARDFORK_385_TIME : Z := 1445558400.
Definition HARDFORK_CORE_199_TIME : Z := 1532008920.
Definition HARDFORK_CORE_429_TIME : Z := 1512747600.
Definition HARDFORK_CORE_BSIP74_TIME : Z := 1596117300.
Definition HARDFORK_CORE_BSIP87_TIME : Z := 1596117300.
Definition HARDFORK_CORE_BSIP_87_74_COLLATFEE_TIME : Z := 1596117300.
Definition HARDFORK_BSIP_81_TIME : Z := 1596117300.
Definition HARDFORK_BSIP_48_75_PASSED (now : Z) : bool := now >=? 1596117300.
Definition HARDFORK_BSIP_77_PASSED (now : Z) : bool := now >=? 1596117300.
Definition HARDFORK_CORE_2281_PASSED (next_maint_time : Z) : bool := next_maint_time >? 1641909720.
Definition HARDFORK_CORE_2282_PASSED (next_maint_time : Z) : bool := next_maint_time >? 1641909720.
Definition HARDFORK_CORE_2467_PASSED (next_maint_time : Z) : bool := next_maint_time >? 1641909720.

Definition is_set {A} (o : option A) : bool := match o with Some _ => true | None => false end.

Definition check_asset_options_hf_1774 (now : Z) (o : asset_options) : result unit :=
  if now <? HARDFORK_1774_TIME then
    assert! match ao_reward_percent o with Some p => p <? GRAPHENE_100_PERCENT | None => true end @ "reward percent" in Ok tt
  else Ok tt.

Definition check_bitasset_options_hf_bsip74 (now : Z) (o : bitasset_options) : result unit :=
  assert! (now >=? HARDFORK_CORE_BSIP74_TIME) || negb (is_set (bo_margin_call_fee_ratio o)) @ "MCFR before BSIP74" in Ok tt.

Definition check_asset_options_hf_bsip81 (now : Z) (o : asset_options) : result unit :=
  if now <? HARDFORK_BSIP_81_TIME then
    assert! negb (is_set (ao_taker_fee_percent o)) @ "taker fee before BSIP81" in Ok tt
  else Ok tt.

Definition check_asset_options_hf_bsip_48_75 (now : Z) (o : asset_options) : result unit :=
  if negb (HARDFORK_BSIP_48_75_PASSED now) then
    assert! unset (ao_issuer_permissions o) (not16 ASSET_ISSUER_PERMISSION_ENABLE_BITS_MASK) @ "permissions before BSIP48/75" in Ok tt
  else Ok tt.

Definition check_bitasset_options_hf_bsip_48_75 (now : Z) (o : bitasset_options) : result unit :=
  if negb (HARDFORK_BSIP_48_75_PASSED now) then
    assert! negb (is_set (bo_maintenance_collateral_ratio o)) @ "MCR before BSIP48/75" in
    assert! negb (is_set (bo_maximum_short_squeeze_ratio o)) @ "MSSR before BSIP48/75" in Ok tt
  else Ok tt.

Definition check_asset_update_extensions_hf_bsip_48_75 (now : Z) (new_precision : option Z)
    (skip_core_exchange_rate : option bool) : result unit :=
  if negb (HARDFORK_BSIP_48_75_PASSED now) then
    assert! negb (is_set new_precision) @ "new_precision before BSIP48/75" in
    assert! negb (is_set skip_core_exchange_rate) @ "skip_core_exchange_rate before BSIP48/75" in Ok tt
  else Ok tt.

Definition check_asset_publish_feed_extensions_hf_bsip77 (now : Z) (initial_collateral_ratio : option Z) : result unit :=
  if negb (HARDFORK_BSIP_77_PASSED now) then
    assert! negb (is_set initial_collateral_ratio) @ "ICR before BSIP77" in Ok tt
  else Ok tt.

Definition check_bitasset_options_hf_bsip77 (now : Z) (o : bitasset_options) : result unit :=
  if negb (HARDFORK_BSIP_77_PASSED now) then
    assert! negb (is_set (bo_initial_collateral_ratio o)) @ "ICR before BSIP77" in Ok tt
  else Ok tt.

Definition check_bitasset_options_hf_bsip87 (now : Z) (o : bitasset_options) : result unit :=
  assert! negb (is_set (bo_force_settle_fee_percent o)) || (now >=? HARDFORK_CORE_BSIP87_TIME) @ "FSFP before BSIP87" in Ok tt.

Definition check_asset_claim_fees_hardfork_87_74_collatfee (now : Z) (claim_from_asset_id : option asset_id_type) : result unit :=
  assert! negb (is_set claim_from_asset_id) || (now >=? HARDFORK_CORE_BSIP_87_74_COLLATFEE_TIME)
    @ "Collateral-denominated fees are not yet active" in Ok tt.

Definition check_asset_options_hf_core2281 (next_maint_time : Z) (o : asset_options) : result unit :=
  if negb (HARDFORK_CORE_2281_PASSED next_maint_time) then
    assert! unset (ao_issuer_permissions o) disable_collateral_bidding @ "permission before core-2281" in Ok tt
  else Ok tt.

Definition check_asset_options_hf_core2467 (next_maint_time : Z) (o : asset_options) : result unit :=
  if negb (HARDFORK_CORE_2467_PASSED next_maint_time) then
    assert! unset (ao_issuer_permissions o) disable_bsrm_update @ "permission before core-2467" in Ok tt
  else Ok tt.

Definition check_bitasset_opts_hf_core2467 (next_maint_time : Z) (o : bitasset_options) : result unit :=
  if negb (HARDFORK_CORE_2467_PASSED next_maint_time) then
    assert! negb (is_set (bo_black_swan_response_method o)) @ "BSRM before core-2467" in Ok tt
  else Ok tt.

(** All the checks of the options of an asset, and of those of a market-issued one. *)
Definition check_asset_options_hardforks (d : database) (o : asset_options) : result unit :=
  let now := head_block_time d in
  let maint := next_maintenance_time d in
  do! check_asset_options_hf_1774 now o in
  do! check_asset_options_hf_bsip_48_75 now o in
  do! check_asset_options_hf_bsip81 now o in
  do! check_asset_options_hf_core2281 maint o in
  check_asset_options_hf_core2467 maint o.

Definition check_bitasset_options_hardforks (d : database) (o : bitasset_options) : result unit :=
  let now := head_block_time d in
  do! check_bitasset_options_hf_bsip_48_75 now o in
  do! check_bitasset_options_hf_bsip74 now o in
  do! check_bitasset_options_hf_bsip77 now o in
  do! check_bitasset_options_hf_bsip87 now o in
  check_bitasset_opts_hf_core2467 (next_maintenance_time d) o.

(** The flags, with the rules in force. *)
Definition check_flags (d : database) (is_market_issued : bool) (o : asset_options) : result unit :=
  if HARDFORK_CORE_2281_PASSED (next_maintenance_time d) then validate_flags o is_market_issued true
  else if HARDFORK_BSIP_48_75_PASSED (head_block_time d) then validate_flags o is_market_issued false
  else Ok tt.

(** ** The grammar of symbols *)

Definition symbol_char (c : ascii) : Prop := isupper c = true \/ isdigit c = true.

(** An upper case letter followed by letters and digits, then possibly a dot and a
    non-empty part of letters and digits. *)
Inductive symbol_shape : list ascii -> Prop :=
  | symbol_plain c p : isupper c = true -> Forall symbol_char p -> symbol_shape (c :: p)
  | symbol_sub c p q : isupper c = true -> Forall symbol_char p -> q <> [] -> Forall symbol_char q ->
      symbol_shape (c :: p ++ "."%char :: q).

Lemma digit_not_alpha c : isdigit c = true -> isalpha c = false.
Proof. by destruct c as [[] [] [] [] [] [] [] []]; vm_compute. Qed.

Lemma symbol_char_bool c : (isalpha c && isupper c) || isdigit c = true <-> symbol_char c.
Proof. unfold symbol_char, isalpha. destruct (isupper c), (isdigit c), (in_chars "a" "z" c); cbn; intuition. Qed.

Lemma symbol_char_not_dot c : symbol_char c -> is_dot c = false.
Proof.
  intros Hc. apply bool_decide_eq_false. intros ->. destruct Hc as [Hc|Hc]; discriminate Hc.
Qed.

Lemma symbol_chars_parts l dot : symbol_chars dot l = true <->
  Forall symbol_char l \/ (dot = false /\ exists p q, l = p ++ "."%char :: q /\ Forall symbol_char p /\ Forall symbol_char q).
Proof.
  revert dot. induction l as [|c l IH]; intros dot; cbn.
  { split; [by left|]. intros [?|(_ & p & q & E & _)]; [done|]. by destruct p. }
  destruct ((isalpha c && isupper c) || isdigit c) eqn:Ec.
  - apply symbol_char_bool in Ec. rewrite IH. split.
    + intros [Hl|(-> & p & q & -> & Hp & Hq)]; [left; by constructor|].
      right. split; [done|]. exists (c :: p), q. split_and!; [done | by constructor | done].
    + intros [Hl|(-> & p & q & E & Hp & Hq)]; [inversion Hl; by left|].
      destruct p as [|c' p].
      * injection E as -> ->. by apply symbol_char_not_dot in Ec.
      * injection E as -> ->. right. split; [done|]. exists p, q. inversion Hp. done.
  - assert (~ symbol_char c) as Hc by (rewrite <- symbol_char_bool; congruence).
    destruct (is_dot c) eqn:Ed.
    + apply bool_decide_eq_true in Ed. subst c. destruct dot.
      * split; [done|]. intros [Hl|(? & _)]; [by inversion Hl | done].
      * rewrite IH. split.
        -- intros [Hl|(? & _)]; [|done]. right. split; [done|]. by exists [], l.
        -- intros [Hl|(_ & p & q & E & Hp & Hq)]; [by inversion Hl|].
           destruct p as [|c' p]; [injection E as ->; by left|].
           injection E as <- ->. by inversion Hp.
    + split; [done|]. intros [Hl|(_ & p & q & E & Hp & Hq)]; [by inversion Hl|].
      destruct p as [|c' p]; [injection E as -> ->; discriminate Ed|].
      injection E as -> ->. by inversion Hp.
Qed.

Lemma isalnum_char c : symbol_char c -> isalnum c = true.
Proof. unfold isalnum, isalpha. intros [-> | ->]; [done|]. by rewrite orb_true_r. Qed.

Lemma symbol_ends l : symbol_shape l <->
  from_option isalpha false (head l) = true /\ from_option isalnum false (last l) = true /\ symbol_chars false l = true.
Proof.
  rewrite symbol_chars_parts. split.
  - intros [c p Hc Hp | c p q Hc Hp Hq Hq'].
    + split_and!; [cbn; unfold isalpha; by rewrite Hc | | left; constructor; [by left|done]].
      destruct p as [|x p] using rev_ind; [cbn; apply isalnum_char; by left|].
      rewrite app_comm_cons, last_snoc. cbn. apply isalnum_char.
      apply Forall_app in Hp as [_ Hx]. by inversion Hx.
    + split_and!; [cbn; unfold isalpha; by rewrite Hc | | right].
      * destruct q as [|x q _] using rev_ind; [done|].
        change (c :: p ++ "."%char :: q ++ [x]) with ((c :: p) ++ ("."%char :: q) ++ [x]).
        rewrite app_assoc, last_snoc. cbn. apply isalnum_char.
        apply Forall_app in Hq' as [_ Hx]. by inversion Hx.
      * split; [done|]. exists (c :: p), q. split_and!; [done | constructor; [by left|done] | done].
  - intros (Hh & Hl & [Hc|(_ & p & q & -> & Hp & Hq)]).
    + destruct l as [|c l]; [done|]. inversion Hc as [|? ? Hcc Hcl]. subst. apply symbol_plain; [|done].
      cbn in Hh. destruct Hcc as [|Hd]; [done|]. by rewrite digit_not_alpha in Hh.
    + destruct p as [|c p]; [discriminate Hh|]. inversion Hp as [|? ? Hcc Hcl]. subst. cbn [app].
      apply symbol_sub; [| done | | done].
      * cbn in Hh. destruct Hcc as [|Hd]; [done|]. by rewrite digit_not_alpha in Hh.
      * intros ->. rewrite last_snoc in Hl. discriminate Hl.
Qed.

(** C36: Exactly these symbols are valid: between three and sixteen
    characters that do not begin with BIT, an upper case letter followed by upper case
    letters and digits, and possibly one dot followed by at least one more of them. *)
Theorem symbol_grammar (symbol : string) : let l := String.list_ascii_of_string symbol in
  is_valid_symbol symbol = true
  <-> (3 <= length l <= 16)%nat /\ take 3 l <> ["B"; "I"; "T"]%char /\ symbol_shape l.
Proof.
  cbn zeta. unfold is_valid_symbol. set (l := String.list_ascii_of_string symbol).
  rewrite symbol_ends. unfold GRAPHENE_MIN_ASSET_SYMBOL_LENGTH, GRAPHENE_MAX_ASSET_SYMBOL_LENGTH.
  destruct (Nat.ltb_spec (length l) 3); [split; [done | lia]|].
  case_bool_decide as Hbit; [intuition; done|].
  destruct (Nat.ltb_spec 16 (length l)); [split; [done | lia]|].
  destruct (from_option isalpha false (head l)); cbn [negb]; [|split; [done | by intros (_ & _ & ? & _)]].
  destruct (from_option isalnum false (last l)); cbn [negb]; [|split; [done | by intros (_ & _ & _ & ? & _)]].
  intuition lia.
Qed.
