(* ===== verification/BitassetFeed.v ===== *)
(** The current feed of a market-issued asset ([update_bitasset_current_feed] of
    [db_update.cpp]): the median after the feed policy, capped by the position with the
    least collateral or by the pool of individual settlements, with the order that sells
    the settled debt; and the lookups of [db_getter.cpp] it uses. *)
From S2P Require Import Prelude Records Fc Asset Objects Vesting Database Holdings Sample Fees Evaluator Feed Market AssetRules.

(** ** Margin positions *)

Definition debt_type (c : call_order_object) : asset_id_type := asset_id (quote (ca_call_price c)).
Definition collateral_type (c : call_order_object) : asset_id_type := asset_id (base (ca_call_price c)).
Definition get_collateral (c : call_order_object) : asset := Asset (ca_collateral c) (collateral_type c).
Definition get_debt (c : call_order_object) : asset := Asset (ca_debt c) (debt_type c).

(** The two assets differ: the indexes of the class compute this value when an object is
    stored, and the division checks it then. *)
Definition collateralization (c : call_order_object) : price := Price (get_collateral c) (get_debt c).

(** The order of the index [by_collateral]. *)
Definition by_collateral (a b : Z * call_order_object) : bool :=
  if price_lt (collateralization (snd a)) (collateralization (snd b)) then true
  else if price_lt (collateralization (snd b)) (collateralization (snd a)) then false
  else fst a <? fst b.

(** With [force_by_collateral_index], as every caller after hard fork core-1270 has it. *)
Definition find_least_collateralized_short (d : database) (b : asset_bitasset_data_object)
    : result (option (Z * call_order_object)) :=
  let! call_min := price_min (bo_short_backing_asset (ba_options b)) (ba_asset_id b) in
  Ok (match list_min by_collateral
              (filter (fun x => price_ge (collateralization (snd x)) call_min = true)
                 (map_to_list (rows (call_orders d)))) with
      | Some (id, c) => if debt_type c =? ba_asset_id b then Some (id, c) else None
      | None => None
      end).

Definition find_settled_debt_order (d : database) (a : asset_id_type) : option (Z * limit_order_object) :=
  list_min (fun x y => fst x <? fst y)
    (filter (fun x => lo_is_settled_debt (snd x) && (receive_asset_id (snd x) =? a) = true)
       (map_to_list (rows (limit_orders d)))).

Definition price_std_max (a b : price) : price := if price_lt a b then b else a.

Definition is_individually_settled_to_fund (b : asset_bitasset_data_object) : bool :=
  negb (ba_individual_settlement_debt b =? 0)
  && (get_black_swan_response_method (ba_options b) =? individual_settlement_to_fund).

Section BitassetFeed.
Context `{Rational} `{NthElement} `{LongDouble}.

Definition get_margin_call_order_price (b : asset_bitasset_data_object) : result price :=
  margin_call_order_price (pf_feed (ba_current_feed b)) (bo_margin_call_fee_ratio (ba_options b)).
Definition get_margin_call_order_ratio (b : asset_bitasset_data_object) : result rational :=
  margin_call_order_ratio (pf_feed (ba_current_feed b)) (bo_margin_call_fee_ratio (ba_options b)).

(** The price the current feed must have, [None] when it has it. *)
Definition get_derived_current_feed_price (d : database) (b : asset_bitasset_data_object) : result (option price) :=
  let median := feed_price (ba_median_feed b) in
  let current := feed_price (ba_current_feed b) in
  if price_is_null median then Ok (if price_is_null current then None else Some median)
  else
    let bsrm := get_black_swan_response_method (ba_options b) in
    let! r :=
      if bsrm =? no_settlement then
        let! call := find_least_collateralized_short d b in
        match call with
        | Some (_, c) =>
            let! mssr := rat_make GRAPHENE_COLLATERAL_RATIO_DENOM (feed_mssr (ba_current_feed b)) in
            let! lowest := price_div_ratio (price_inv (collateralization c)) mssr in
            Ok (price_std_max median lowest)
        | None => Ok median
        end
      else if (bsrm =? individual_settlement_to_fund) && (0 <? ba_individual_settlement_debt b) then
        let! fund_price := get_individual_settlement_price b in
        let! mcor := get_margin_call_order_ratio b in
        let! lowest := price_mul_ratio fund_price mcor in
        Ok (price_std_max median lowest)
      else Ok median in
    Ok (if price_eq r current then None else Some r).

Definition update_settled_debt_order (d : database) (b : asset_bitasset_data_object) : result database :=
  if price_is_null (feed_price (ba_current_feed b)) then Ok d
  else
    match find_settled_debt_order d (ba_asset_id b) with
    | None => Ok d
    | Some (id, o) =>
        let! mcop := get_margin_call_order_price b in
        let sell_price := price_inv mcop in
        let sell_all :=
          let! all := get_individual_settlement_price b in
          Ok (o <| lo_for_sale := ba_individual_settlement_fund b |> <| lo_sell_price := price_inv all |>) in
        let! o' :=
          match multiply_and_round_up (Asset (ba_individual_settlement_debt b) (receive_asset_id o)) sell_price with
          | Ok for_sale =>
              if amount for_sale <=? ba_individual_settlement_fund b
              then Ok (o <| lo_for_sale := amount for_sale |> <| lo_sell_price := sell_price |>)
              else sell_all
          | Err _ => sell_all
          end in
        Ok (set_order d id o')
    end.

Definition set_bitasset (d : database) (id : asset_id_type) (b : asset_bitasset_data_object) : database :=
  d <| bitassets ::= <[id := b]> |>.

(** The lambda of [update_bitasset_current_feed]. *)
Definition renew_feed (d : database) (skip_median_update : bool) (new_price : option price)
    (b : asset_bitasset_data_object) : result asset_bitasset_data_object :=
  let bsrm := get_black_swan_response_method (ba_options b) in
  let! (b, new_price) :=
    if skip_median_update then Ok (b, new_price)
    else
      let! b := update_median_feeds (head_block_time d) (next_maintenance_time d) b in
      let b := b <| ba_current_feed := ba_median_feed b |> in
      let! b := apply_feed_policy d b in
      if (bsrm =? no_settlement) || (bsrm =? individual_settlement_to_fund) then
        let! p := get_derived_current_feed_price d b in Ok (b, p)
      else Ok (b, new_price) in
  match new_price with
  | Some p => refresh_cache (b <| ba_current_feed ::= fun f => f <| pf_feed ::= fun x => x <| settlement_price := p |> |> |>)
  | None => Ok b
  end.

Definition update_bitasset_current_feed (d : database) (id : asset_id_type) (b : asset_bitasset_data_object)
    (skip_median_update : bool) : result database :=
  let bsrm := get_black_swan_response_method (ba_options b) in
  let! new_price :=
    if skip_median_update then
      if negb (bsrm =? no_settlement) && negb (bsrm =? individual_settlement_to_fund) then
        Ok (if price_eq (feed_price (ba_current_feed b)) (feed_price (ba_median_feed b)) then None
            else Some (feed_price (ba_median_feed b)))
      else get_derived_current_feed_price d b
    else Ok None in
  if skip_median_update && negb (is_set new_price) then Ok d
  else
    let! b' := renew_feed d skip_median_update new_price b in
    let d' := set_bitasset d id b' in
    if negb skip_median_update && (bsrm =? individual_settlement_to_order) && HARDFORK_CORE_2591_PASSED (head_block_time d)
    then update_settled_debt_order d' b'
    else Ok d'.

(** ** What an update leaves alone *)

(** Everything but the feeds. *)
Record same_funds (b b' : asset_bitasset_data_object) : Prop := {
  bf_id : ba_asset_id b' = ba_asset_id b;
  bf_options : ba_options b' = ba_options b;
  bf_pm : ba_is_prediction_market b' = ba_is_prediction_market b;
  bf_price : ba_settlement_price b' = ba_settlement_price b;
  bf_fund : ba_settlement_fund b' = ba_settlement_fund b;
  bf_debt : ba_individual_settlement_debt b' = ba_individual_settlement_debt b;
  bf_pool : ba_individual_settlement_fund b' = ba_individual_settlement_fund b;
}.

#[export] Instance same_funds_preorder : PreOrder same_funds.
Proof.
  split; [by split|]. intros b0 b1 b2 [E1 E2 E3 E4 E5 E6 E7] [F1 F2 F3 F4 F5 F6 F7].
  split; etrans; eassumption.
Qed.

Lemma refresh_cache_same b b' : refresh_cache b = Ok b' -> same_funds b b'.
Proof. unfold refresh_cache. intros E. mon. by split. Qed.

Lemma refresh_after_1270_same t b b' : refresh_after_1270 t b = Ok b' -> same_funds b b'.
Proof. unfold refresh_after_1270. intros E. case_match; [by apply refresh_cache_same | by mon]. Qed.

Lemma update_median_feeds_same now mt b b' : update_median_feeds now mt b = Ok b' -> same_funds b b'.
Proof.
  unfold update_median_feeds. intros E.
  repeat case_match; first [apply refresh_after_1270_same in E | apply refresh_cache_same in E | mon];
    first [by split | by destruct E; split].
Qed.

Lemma apply_feed_policy_same d b b' : apply_feed_policy d b = Ok b' -> same_funds b b'.
Proof.
  unfold apply_feed_policy. intros E. mon. revert E.
  repeat case_match; intros E; mon;
    match goal with E : refresh_cache _ = Ok _ |- _ => apply refresh_cache_same in E; by destruct E; split end.
Qed.

Lemma renew_feed_same d skip p b b' : renew_feed d skip p b = Ok b' -> same_funds b b'.
Proof.
  unfold renew_feed. intros E. mon.
  match goal with E : (if skip then _ else _) = Ok ?x |- _ =>
    rename E into Er; destruct x as [b1 p1] end.
  assert (same_funds b b1) as Hs.
  { destruct skip; mon; [done|].
    match goal with E : update_median_feeds _ _ _ = Ok ?x, F : apply_feed_policy _ _ = Ok ?y |- _ =>
      assert (same_funds b y) as Hy by
        (etrans; [by eapply update_median_feeds_same|]; apply apply_feed_policy_same in F; by destruct F; split) end.
    destruct (_ || _)%bool in Er; mon; done. }
  destruct p1 as [p1|]; [|by mon].
  etrans; [exact Hs|]. apply refresh_cache_same in E. by destruct E; split.
Qed.

Lemma set_bitasset_same d i b : bitassets d !! i = Some b -> set_bitasset d i b = d.
Proof. intros Hb. destruct d. unfold set_bitasset. cbn in *. by rewrite insert_id. Qed.

Lemma set_orders_same d t : t = limit_orders d -> d <| limit_orders := t |> = d.
Proof. intros ->. by destruct d. Qed.

(** Only the price and the amount of an order that sells a settled debt change. *)
Definition repriced (t t' : table limit_order_object) : Prop :=
  t' = t \/ exists id o n p, rows t !! id = Some o /\ lo_is_settled_debt o = true
    /\ t' = tmodify t id (o <| lo_for_sale := n |> <| lo_sell_price := p |>).

Lemma find_settled_debt_order_Some d a id o : find_settled_debt_order d a = Some (id, o) ->
  rows (limit_orders d) !! id = Some o /\ lo_is_settled_debt o = true /\ receive_asset_id o = a.
Proof.
  unfold find_settled_debt_order. intros E. apply list_min_in in E.
  apply list_elem_of_filter in E as [E Hin]. apply elem_of_map_to_list in Hin. cbn in E. reflect_bools. done.
Qed.

Lemma update_settled_debt_order_frame d b d' : update_settled_debt_order d b = Ok d' ->
  exists t, d' = d <| limit_orders := t |> /\ repriced (limit_orders d) t.
Proof.
  assert (exists t, d = d <| limit_orders := t |> /\ repriced (limit_orders d) t) as Hsame.
  { exists (limit_orders d). split; [by rewrite set_orders_same | by left]. }
  unfold update_settled_debt_order. intros E. case_match; [by mon|].
  destruct (find_settled_debt_order _ _) as [[id o]|] eqn:Ef; [|by mon].
  apply find_settled_debt_order_Some in Ef as (Ho & Hs & _). mon.
  unfold set_order. eexists. split; [reflexivity|].
  match goal with E : match multiply_and_round_up ?x ?y with _ => _ end = Ok _ |- _ =>
    destruct (multiply_and_round_up x y); [case_match|] end; mon; right; by eauto 8.
Qed.

(** An update changes the feeds of one asset, and the price of the order that sells its
    settled debt. *)
Definition feed_step (i : asset_id_type) (b b' : asset_bitasset_data_object) (d d' : database) : Prop :=
  same_funds b b' /\ exists t, d' = (set_bitasset d i b') <| limit_orders := t |> /\ repriced (limit_orders d) t.

Lemma feed_step_refl i b d d' : bitassets d !! i = Some b -> d' = d -> feed_step i b b d d'.
Proof.
  intros Hb ->. split; [done|]. exists (limit_orders d). rewrite set_bitasset_same by done.
  split; [by destruct d | by left].
Qed.

Lemma update_feed_cases d i b skip d' : update_bitasset_current_feed d i b skip = Ok d' ->
  d' = d \/ exists b', same_funds b b'
    /\ (d' = set_bitasset d i b' \/ update_settled_debt_order (set_bitasset d i b') b' = Ok d').
Proof.
  intros E. unfold update_bitasset_current_feed in E. mon.
  destruct (skip && _); mon; [by left|]. right.
  match goal with E : renew_feed _ _ _ _ = Ok ?x |- _ => exists x; apply renew_feed_same in E end.
  split; [done|]. match type of E with (if ?x then _ else _) = _ => destruct x end; mon; [by right | by left].
Qed.

Lemma feed_step_set d i b b' d' : same_funds b b' -> d' = set_bitasset d i b' -> feed_step i b b' d d'.
Proof.
  intros Hs ->. split; [exact Hs|]. exists (limit_orders d). split; [|by left].
  symmetry. by apply set_orders_same.
Qed.

Lemma feed_step_order d i b b' d' : same_funds b b' ->
  update_settled_debt_order (set_bitasset d i b') b' = Ok d' -> feed_step i b b' d d'.
Proof.
  intros Hs E. apply update_settled_debt_order_frame in E as (t & -> & Ht).
  split; [exact Hs|]. exists t. split; [reflexivity | exact Ht].
Qed.

Lemma update_feed_step d i b skip d' : bitassets d !! i = Some b ->
  update_bitasset_current_feed d i b skip = Ok d' -> exists b', feed_step i b b' d d'.
Proof.
  intros Hb E. apply update_feed_cases in E as [E|(b' & Hs & [E|E])].
  - exists b. by apply feed_step_refl.
  - exists b'. by apply feed_step_set.
  - exists b'. by apply feed_step_order.
Qed.

Lemma repriced_wf t t' : repriced t t' -> table_wf t -> table_wf t'.
Proof. intros [->|(id & o & n & p & Ho & _ & ->)] Hwf; [done | by eapply tmodify_wf]. Qed.

(** What an order of a settled debt sells is in the fund: its price does not count. *)
Lemma repriced_sum a t t' : repriced t t' -> limit_sum a t' = limit_sum a t.
Proof.
  intros [->|(id & o & n & p & Ho & Hs & ->)]; [done|].
  unfold limit_sum. erewrite tsum_modify by exact Ho. unfold order_sum. cbn. rewrite Hs. lia.
Qed.

Lemma repriced_shifts d t : repriced (limit_orders d) t -> shifts d (fun _ => 0) (d <| limit_orders := t |>).
Proof.
  intros Ht Hwf. pose proof (repriced_wf _ _ Ht (wf_limit_orders _ Hwf)). split; [destruct Hwf; wf|].
  intros a. unfold excess, holdings, supply. cbn. rewrite (repriced_sum _ _ _ Ht). lia.
Qed.

Lemma feed_step_shifts i b b' d d' : bitassets d !! i = Some b -> feed_step i b b' d d' -> shifts d (fun _ => 0) d'.
Proof.
  intros Hb ([Ei Eo _ _ Ef _ Ep] & t & -> & Ht).
  eapply shifts_trans; [apply (set_bitasset_shifts d i b b' Hb Eo) | by apply repriced_shifts|].
  intros a. cbn. rewrite Ef, Ep. lia.
Qed.

Lemma feed_step_get i b b' d d' : feed_step i b b' d d' -> bitassets d' !! i = Some b'.
Proof. intros (_ & t & -> & _). apply lookup_insert_eq. Qed.
End BitassetFeed.
