(* ===== verification/Bids.v ===== *)
(** Requests for settlement and bids of collateral: cancelling them ([cancel_settle_order],
    [cancel_bid] of [db_market.cpp]), reviving a globally settled asset, and the operation
    [bid_collateral] of [market_evaluator.cpp]. Nothing here ends by matching: while
    margin calls are disabled, [check_call_orders] returns before it looks at an order. *)
From S2P Require Import Prelude Records Fc Asset Objects Vesting Database Holdings Sample Fees Evaluator Feed Market AssetRules BitassetFeed.

Definition HARDFORK_CORE_216_TIME : Z := 1512747600.
Definition HARDFORK_CORE_460_TIME : Z := 1596117300.
Definition HARDFORK_CORE_1692_TIME : Z := 1596117300.

(** [asset_object::bitasset_data] *)
Definition get_bitasset (d : database) (id : asset_id_type) (a : asset_object) : result asset_bitasset_data_object :=
  assert! as_market_issued a @ "Asset is not a market issued asset" in
  of_option "bitasset data" (bitassets d !! id).

(** Whether some order was called. The matching of margin calls is not modelled: the
    policy of this chain leaves no asset whose positions could be called. *)
Definition check_call_orders (d : database) (mia : asset_object) (b : asset_bitasset_data_object)
    : result (database * bool) :=
  if negb (as_market_issued mia) then Ok (d, false)
  else if margin_calls_disabled b then Ok (d, false)
  else if (next_maintenance_time d >=? HARDFORK_CORE_460_TIME) && ba_is_prediction_market b then Ok (d, false)
  else Err (thrown "margin calls of a prediction market before hard fork core-460").

(** The order of the index [by_expiration] within an asset. *)
Definition by_settlement_date (x y : Z * force_settlement_object) : bool :=
  (fs_settlement_date (snd x) <? fs_settlement_date (snd y))
  || (fs_settlement_date (snd x) =? fs_settlement_date (snd y)) && (fst x <? fst y).

Definition first_settlement (d : database) (a : asset_id_type) : option (Z * force_settlement_object) :=
  list_min by_settlement_date
    (filter (fun x => (asset_id (fs_balance (snd x)) =? a) = true) (map_to_list (rows (settlements d)))).

Definition bid_debt_type (b : collateral_bid_object) : asset_id_type := asset_id (quote (bd_inv_swan_price b)).

(** The order of the index [by_price] within an asset: the best bid first. *)
Definition by_bid_price (x y : Z * collateral_bid_object) : bool :=
  if price_gt (bd_inv_swan_price (snd x)) (bd_inv_swan_price (snd y)) then true
  else if price_gt (bd_inv_swan_price (snd y)) (bd_inv_swan_price (snd x)) then false
  else fst x <? fst y.

Definition first_bid (d : database) (a : asset_id_type) : option (Z * collateral_bid_object) :=
  list_min by_bid_price
    (filter (fun x => (bid_debt_type (snd x) =? a) = true) (map_to_list (rows (collateral_bids d)))).

(** The bid of an account for the debt of an asset. *)
Definition find_bid (d : database) (debt : asset_id_type) (bidder : account_id_type) : option (Z * collateral_bid_object) :=
  tsearch (fun b => (bid_debt_type b =? debt) && (bd_bidder b =? bidder)) (collateral_bids d).

(** [create] and [remove] of the object database. *)
Definition remove_settlement (d : database) (id : Z) : database := d <| settlements := tremove (settlements d) id |>.
Definition remove_bid (d : database) (id : Z) : database := d <| collateral_bids := tremove (collateral_bids d) id |>.
Definition create_bid (d : database) (b : collateral_bid_object) : database :=
  d <| collateral_bids := tcreate (collateral_bids d) b |>.
Definition create_call_order (d : database) (c : call_order_object) : database :=
  d <| call_orders := tcreate (call_orders d) c |>.

Section Bids.
Context `{SafeInt64}.

Definition cancel_settle_order (d : database) (id : Z) (o : force_settlement_object) : result database :=
  let! d := adjust_balance d (fs_owner o) (fs_balance o) in
  let d := push_applied_operation d (vop_asset_settle_cancel id (fs_owner o) (fs_balance o)) in
  Ok (remove_settlement d id).

Definition cancel_bid (d : database) (id : Z) (b : collateral_bid_object) (create_virtual_op : bool) : result database :=
  let collateral := base (bd_inv_swan_price b) in
  let! d := adjust_balance d (bd_bidder b) collateral in
  let d := if create_virtual_op
           then push_applied_operation d (vop_bid_collateral (bd_bidder b) collateral (Asset 0 (bid_debt_type b)))
           else d in
  Ok (remove_bid d id).

(** The loops that cancel everything of one asset. *)
Fixpoint cancel_settle_orders (fuel : nat) (d : database) (a : asset_id_type) : option (result database) :=
  match first_settlement d a with
  | None => Some (Ok d)
  | Some (id, o) =>
      match fuel with
      | O => None
      | S fuel' =>
          match cancel_settle_order d id o with
          | Ok d' => cancel_settle_orders fuel' d' a
          | Err e => Some (Err e)
          end
      end
  end.

Fixpoint cancel_bids (fuel : nat) (d : database) (a : asset_id_type) : option (result database) :=
  match first_bid d a with
  | None => Some (Ok d)
  | Some (id, b) =>
      match fuel with
      | O => None
      | S fuel' =>
          match cancel_bid d id b true with
          | Ok d' => cancel_bids fuel' d' a
          | Err e => Some (Err e)
          end
      end
  end.

(** A loop that is given enough fuel. *)
Definition run_loop {A} (r : option (result A)) : result A :=
  match r with Some r => r | None => Err (thrown "out of fuel") end.

Definition cancel_all_settle_orders (d : database) (a : asset_id_type) : result database :=
  run_loop (cancel_settle_orders (size (rows (settlements d))) d a).

Definition cancel_all_bids (d : database) (a : asset_id_type) : result database :=
  run_loop (cancel_bids (size (rows (collateral_bids d))) d a).

Definition execute_bid (d : database) (id : Z) (b : collateral_bid_object) (debt_covered collateral_from_fund : share_type)
    : result database :=
  let p := bd_inv_swan_price b in
  let! collateral := safe_add (amount (base p)) collateral_from_fund in
  let! call_price :=
    if next_maintenance_time d >? HARDFORK_CORE_1270_TIME
    then Ok (Price (Asset 1 (asset_id (base p))) (Asset 1 (asset_id (quote p))))
    else Err (thrown "call prices before hard fork core-1270 are not modelled") in
  let c := CallOrder (bd_bidder b) collateral debt_covered call_price None in
  let! _ := asset_div (get_collateral c) (get_debt c) in
  let d := create_call_order d c in
  let! d := if asset_id (base p) =? CORE then add_core_in_orders d (bd_bidder b) collateral else Ok d in
  let d := push_applied_operation d (vop_execute_bid (bd_bidder b) (Asset debt_covered (asset_id (quote p)))
                                       (Asset collateral (asset_id (base p)))) in
  Ok (remove_bid d id).

Definition cancel_bids_and_revive_mpa (d : database) (id : asset_id_type) (a : asset_object)
    (b : asset_bitasset_data_object) : result database :=
  assert! as_market_issued a @ "bitasset.is_market_issued()" in
  assert! is_globally_settled b @ "bad.is_globally_settled()" in
  assert! negb (ba_is_prediction_market b) @ "!bad.is_prediction_market" in
  let! d := cancel_all_bids d (ba_asset_id b) in
  Ok (set_bitasset d id (b <| ba_settlement_price := null_price |> <| ba_settlement_fund := 0 |>)).

Definition revive_bitasset (d : database) (id : asset_id_type) (a : asset_object) (b : asset_bitasset_data_object)
    : result database :=
  assert! as_market_issued a @ "bitasset.is_market_issued()" in
  assert! id =? ba_asset_id b @ "bitasset.id == bad.asset_id" in
  assert! is_globally_settled b @ "bad.is_globally_settled()" in
  assert! negb (ba_is_prediction_market b) @ "!bad.is_prediction_market" in
  assert! negb (price_is_null (feed_price (ba_current_feed b))) @ "!bad.current_feed.settlement_price.is_null()" in
  let! bdd := get_dyn d id in
  let! d :=
    if 0 <? dd_current_supply bdd then
      let! p := asset_div (Asset 0 (bo_short_backing_asset (ba_options b))) (Asset (dd_current_supply bdd) (ba_asset_id b)) in
      let bid := CollateralBid (as_issuer a) p in
      let bid_id := next_id (collateral_bids d) in
      execute_bid (create_bid d bid) bid_id bid (dd_current_supply bdd)
        (ba_settlement_fund b)
    else
      assert! ba_settlement_fund b =? 0 @ "bad.settlement_fund == 0" in Ok d in
  cancel_bids_and_revive_mpa d id a b.
End Bids.

(** ** The operation *)

Record bid_collateral_operation := BidCollateral {
  bc_fee : asset;
  bc_bidder : account_id_type;
  bc_additional_collateral : asset;
  bc_debt_covered : asset;
}.

Definition bid_collateral_validate (op : bid_collateral_operation) : result unit :=
  assert! 0 <=? amount (bc_fee op) @ "fee.amount >= 0" in
  assert! (amount (bc_debt_covered op) =? 0)
          || ((0 <? amount (bc_debt_covered op)) && (0 <? amount (bc_additional_collateral op)))
    @ "debt_covered and additional_collateral" in
  Ok tt.

Section BidOperation.
Context `{SafeInt64}.

(** Returns the bid that is replaced, if any. *)
Definition bid_collateral_do_evaluate (d : database) (op : bid_collateral_operation)
    : result (option (Z * collateral_bid_object)) :=
  assert! head_block_time d >? HARDFORK_CORE_216_TIME @ "Not yet!" in
  let debt := asset_id (bc_debt_covered op) in
  let! debt_asset := get_asset d debt in
  assert! as_market_issued debt_asset @ "Unable to cover as it is not a collateralized asset" in
  do! (if HARDFORK_CORE_2281_PASSED (next_maintenance_time d) then
         assert! can_bid_collateral debt_asset @ "Collateral bidding is disabled for this asset" in Ok tt
       else Ok tt) in
  let! b := get_bitasset d debt debt_asset in
  let backing := bo_short_backing_asset (ba_options b) in
  assert! is_globally_settled b @ "Cannot bid since the asset is not globally settled" in
  assert! asset_id (bc_additional_collateral op) =? backing @ "additional_collateral.asset_id" in
  assert! negb (ba_is_prediction_market b) @ "Cannot bid on a prediction market!" in
  let bid := find_bid d debt (bc_bidder op) in
  assert! is_set bid || (0 <? amount (bc_debt_covered op)) @ "Can't find bid to cancel?!" in
  do! (if 0 <? amount (bc_additional_collateral op) then
         let balance := get_balance d (bc_bidder op) backing in
         let! needed :=
           match bid with
           | Some (_, old) =>
               if head_block_time d >=? HARDFORK_CORE_1692_TIME
               then asset_sub (bc_additional_collateral op) (base (bd_inv_swan_price old))
               else Ok (bc_additional_collateral op)
           | None => Ok (bc_additional_collateral op)
           end in
         let! ok := asset_ge balance needed in
         assert! ok @ "Cannot bid more collateral than the payer has" in Ok tt
       else Ok tt) in
  do! (if HARDFORK_CORE_973_PASSED (head_block_time d) then
         let! payer := get_account d (bc_bidder op) in
         assert! is_authorized_asset d (bc_bidder op) payer debt debt_asset
           @ "The account is not allowed to transact the debt asset" in
         let! collateral_asset := get_asset d backing in
         assert! is_authorized_asset d (bc_bidder op) payer backing collateral_asset
           @ "The account is not allowed to transact the collateral asset" in Ok tt
       else Ok tt) in
  Ok bid.

Definition bid_collateral_do_apply (d : database) (op : bid_collateral_operation)
    (bid : option (Z * collateral_bid_object)) : result (database * unit) :=
  let! d := match bid with Some (id, old) => cancel_bid d id old false | None => Ok d end in
  if amount (bc_debt_covered op) =? 0 then Ok (d, tt)
  else
    let! minus := asset_neg (bc_additional_collateral op) in
    let! d := adjust_balance d (bc_bidder op) minus in
    let! p := asset_div (bc_additional_collateral op) (bc_debt_covered op) in
    Ok (create_bid d (CollateralBid (bc_bidder op) p), tt).

#[export] Instance bid_collateral_evaluator :
    Evaluator bid_collateral_operation (option (Z * collateral_bid_object)) unit := {
  fee_payer := bc_bidder;
  op_fee := bc_fee;
  validate := bid_collateral_validate;
  do_evaluate := bid_collateral_do_evaluate;
  do_apply := bid_collateral_do_apply;
}.
End BidOperation.

(** ** Conservation and the ends of the loops *)

Section BidLaws.
Context `{SafeInt64Laws}.

Lemma shifts_comp d f d1 g d2 : shifts d f d1 -> shifts d1 g d2 -> shifts d (fun a => f a + g a) d2.
Proof. intros H1' H2'. by eapply shifts_trans. Qed.

Lemma push_push_shifts d op d0 : d0 = push_applied_operation d op -> shifts d (fun _ => 0) d0.
Proof. intros ->. apply push_shifts. Qed.

Lemma remove_settlement_shifts d id o : rows (settlements d) !! id = Some o ->
  shifts d (fun a => - asset_in a (fs_balance o)) (remove_settlement d id).
Proof.
  intros Ho Hwf. split; [destruct Hwf; wf|]. intros a. unfold excess, holdings, supply, settle_sum. cbn.
  erewrite tsum_remove by exact Ho. lia.
Qed.

Lemma remove_bid_shifts d id b : rows (collateral_bids d) !! id = Some b ->
  shifts d (fun a => - asset_in a (base (bd_inv_swan_price b))) (remove_bid d id).
Proof.
  intros Hb Hwf. split; [destruct Hwf; wf|]. intros a. unfold excess, holdings, supply, bid_sum. cbn.
  erewrite tsum_remove by exact Hb. lia.
Qed.

Lemma create_bid_shifts d b :
  shifts d (fun a => asset_in a (base (bd_inv_swan_price b))) (create_bid d b).
Proof.
  intros Hwf. split; [destruct Hwf; wf|]. intros a. unfold excess, holdings, supply, bid_sum. cbn.
  rewrite tsum_create by apply Hwf. lia.
Qed.

Lemma create_call_shifts d c :
  shifts d (fun a => asset_in a (get_collateral c)) (create_call_order d c).
Proof.
  intros Hwf. split; [destruct Hwf; wf|]. intros a. unfold excess, holdings, supply, call_sum. cbn.
  rewrite tsum_create by apply Hwf. unfold asset_in, get_collateral, collateral_type. cbn. lia.
Qed.

(** What cancelling leaves alone: everything but balances, the table and the log. *)
Lemma adjust_balance_bids d acc x d' : adjust_balance d acc x = Ok d' ->
  exists m, d' = d <| balances := m |>.
Proof. intros E. destruct (adjust_balance_frame _ _ _ _ E) as (m & -> & _). by exists m. Qed.

(** Only balances, requests, bids and the log differ. *)
Definition cancel_frame (d d' : database) : Prop :=
  exists m l s b, d' = d <| balances := m |> <| applied_ops := l |> <| settlements := s |> <| collateral_bids := b |>.

Lemma cancel_frame_refl d : cancel_frame d d.
Proof. exists (balances d), (applied_ops d), (settlements d), (collateral_bids d). by destruct d. Qed.

Lemma cancel_frame_trans d0 d1 d2 : cancel_frame d0 d1 -> cancel_frame d1 d2 -> cancel_frame d0 d2.
Proof. intros (m & l & s & b & ->) (m' & l' & s' & b' & ->). by exists m', l', s', b'. Qed.

Lemma cancel_settle_order_frame d id o d' : cancel_settle_order d id o = Ok d' ->
  cancel_frame d d' /\ settlements d' = tremove (settlements d) id /\ collateral_bids d' = collateral_bids d.
Proof.
  unfold cancel_settle_order. intros E. mon.
  match goal with E : adjust_balance _ _ _ = Ok _ |- _ => apply adjust_balance_bids in E as (m & ->) end.
  split; [|done].
  by exists m, (vop_asset_settle_cancel id (fs_owner o) (fs_balance o) :: applied_ops d),
    (tremove (settlements d) id), (collateral_bids d).
Qed.

Lemma cancel_bid_frame d id b v d' : cancel_bid d id b v = Ok d' ->
  cancel_frame d d' /\ settlements d' = settlements d /\ collateral_bids d' = tremove (collateral_bids d) id.
Proof.
  unfold cancel_bid. intros E. mon.
  match goal with E : adjust_balance _ _ _ = Ok _ |- _ => apply adjust_balance_bids in E as (m & ->) end.
  split; [|by destruct v]. destruct v.
  - by exists m, (vop_bid_collateral (bd_bidder b) (base (bd_inv_swan_price b)) (Asset 0 (bid_debt_type b)) :: applied_ops d),
      (settlements d), (tremove (collateral_bids d) id).
  - by exists m, (applied_ops d), (settlements d), (tremove (collateral_bids d) id).
Qed.

Lemma cancel_settle_order_shifts d id o d' : rows (settlements d) !! id = Some o ->
  cancel_settle_order d id o = Ok d' -> shifts d (fun _ => 0) d'.
Proof.
  unfold cancel_settle_order. intros Ho E. mon.
  match goal with E : adjust_balance _ _ _ = Ok _ |- _ =>
    pose proof (adjust_balance_bids _ _ _ _ E) as (m & Em); apply adjust_shifts in E as [Hs _] end.
  eapply shifts_trans; [exact Hs | eapply shifts_trans; [by eapply push_push_shifts | | ] |].
  - apply remove_settlement_shifts. by subst.
  - intros a. reflexivity.
  - intros a. cbn. lia.
Qed.

Lemma cancel_bid_shifts d id b v d' : rows (collateral_bids d) !! id = Some b ->
  cancel_bid d id b v = Ok d' -> shifts d (fun _ => 0) d'.
Proof.
  unfold cancel_bid. intros Hb E. mon.
  match goal with E : adjust_balance _ _ _ = Ok _ |- _ =>
    pose proof (adjust_balance_bids _ _ _ _ E) as (m & Em); apply adjust_shifts in E as [Hs _] end.
  eapply shifts_trans; [exact Hs | eapply shifts_trans; [| apply remove_bid_shifts |] |].
  - instantiate (1 := fun _ => 0). destruct v; [by eapply push_push_shifts | by apply shifts_refl].
  - destruct v; by subst.
  - intros a. reflexivity.
  - intros a. cbn. lia.
Qed.

(** A loop that takes the first matching row of a table until none is left. *)
Lemma first_matching {A} (lt : Z * A -> Z * A -> bool) (P : A -> bool) (t : table A) :
  match list_min lt (filter (fun x => P (snd x) = true) (map_to_list (rows t))) with
  | Some (id, x) => rows t !! id = Some x /\ P x = true
  | None => forall id x, rows t !! id = Some x -> P x = false
  end.
Proof.
  destruct (list_min _ _) as [[id x]|] eqn:E.
  - apply list_min_in, list_elem_of_filter in E as [HP Hin]. by apply elem_of_map_to_list in Hin.
  - apply list_min_None in E. intros id x Hx. destruct (P x) eqn:HP; [|done]. exfalso.
    apply elem_of_map_to_list in Hx.
    assert ((id, x) ∈ filter (fun y : Z * A => P (snd y) = true) (map_to_list (rows t))) as Hin by (by apply list_elem_of_filter).
    rewrite E in Hin. by apply not_elem_of_nil in Hin.
Qed.

(** The rows of [t'] are those of [t] that do not match. *)
Definition rows_left {A} (P : A -> bool) (t t' : table A) : Prop :=
  next_id t' = next_id t /\ forall id x, rows t' !! id = Some x <-> rows t !! id = Some x /\ P x = false.

Lemma rows_left_none {A} (P : A -> bool) (t : table A) :
  (forall id x, rows t !! id = Some x -> P x = false) -> rows_left P t t.
Proof. intros HP. split; [done|]. intros id x. split; [eauto | by intros []]. Qed.

Lemma rows_left_remove {A} (P : A -> bool) (t t' : table A) id x : rows t !! id = Some x -> P x = true ->
  rows_left P (tremove t id) t' -> rows_left P t t'.
Proof.
  intros Hx HP [En Hr]. split; [done|]. intros i y. rewrite Hr. unfold tremove. cbn.
  rewrite lookup_delete_Some. split; [tauto|]. intros [Hy HPy]. split; [|done]. split; [|done].
  intros ->. congruence.
Qed.

Lemma rows_left_trans {A} (P : A -> bool) (t1 t2 t3 : table A) : rows_left P t1 t2 -> t3 = t2 -> rows_left P t1 t3.
Proof. by intros ? ->. Qed.

Definition of_asset (a : asset_id_type) (o : force_settlement_object) : bool := asset_id (fs_balance o) =? a.
Definition for_debt (a : asset_id_type) (b : collateral_bid_object) : bool := bid_debt_type b =? a.

(** What cancelling all the requests of an asset, or all the bids for it, does. *)
Definition cancelled (a : asset_id_type) (settle bids : bool) (d d' : database) : Prop :=
  cancel_frame d d' /\ shifts d (fun _ => 0) d'
  /\ (if settle then rows_left (of_asset a) (settlements d) (settlements d') else settlements d' = settlements d)
  /\ (if bids then rows_left (for_debt a) (collateral_bids d) (collateral_bids d') else collateral_bids d' = collateral_bids d).

Lemma cancel_settle_orders_ok fuel d a : (size (rows (settlements d)) <= fuel)%nat ->
  exists r, cancel_settle_orders fuel d a = Some r /\ forall d', r = Ok d' -> cancelled a true false d d'.
Proof.
  revert d. induction fuel as [|fuel IH]; intros d Hf; cbn;
    pose proof (first_matching by_settlement_date (of_asset a) (settlements d)) as Hm; unfold first_settlement;
    change (fun x : Z * force_settlement_object => (asset_id (fs_balance x.2) =? a) = true)
      with (fun x : Z * force_settlement_object => of_asset a (snd x) = true);
    destruct (list_min _ _) as [[id o]|].
  - exfalso. destruct Hm as [Hm _]. assert (size (rows (settlements d)) = 0%nat) as Hs by lia.
    apply map_size_empty_inv in Hs. by rewrite Hs, lookup_empty in Hm.
  - eexists. split; [done|]. intros d' [= <-]. split_and!; [apply cancel_frame_refl | by apply shifts_refl | by apply rows_left_none | done].
  - destruct Hm as [Ho HP]. destruct (cancel_settle_order d id o) as [d1|e] eqn:E; [|by eexists].
    pose proof (cancel_settle_order_shifts _ _ _ _ Ho E) as Hs.
    apply cancel_settle_order_frame in E as (Hfr & E1 & E2).
    destruct (IH d1) as (r & -> & Hr).
    { rewrite E1, tremove_size by eauto. lia. }
    exists r. split; [done|]. intros d' ->. destruct (Hr d' eq_refl) as (Hfr' & Hs' & Hset & Hb).
    split_and!; [by eapply cancel_frame_trans | by eapply shifts_trans | | congruence].
    rewrite E1 in Hset. by eapply rows_left_remove.
  - eexists. split; [done|]. intros d' [= <-]. split_and!; [apply cancel_frame_refl | by apply shifts_refl | by apply rows_left_none | done].
Qed.

Lemma cancel_bids_ok fuel d a : (size (rows (collateral_bids d)) <= fuel)%nat ->
  exists r, cancel_bids fuel d a = Some r /\ forall d', r = Ok d' -> cancelled a false true d d'.
Proof.
  revert d. induction fuel as [|fuel IH]; intros d Hf; cbn;
    pose proof (first_matching by_bid_price (for_debt a) (collateral_bids d)) as Hm; unfold first_bid;
    change (fun x : Z * collateral_bid_object => (bid_debt_type x.2 =? a) = true)
      with (fun x : Z * collateral_bid_object => for_debt a (snd x) = true);
    destruct (list_min _ _) as [[id o]|].
  - exfalso. destruct Hm as [Hm _]. assert (size (rows (collateral_bids d)) = 0%nat) as Hs by lia.
    apply map_size_empty_inv in Hs. by rewrite Hs, lookup_empty in Hm.
  - eexists. split; [done|]. intros d' [= <-]. split_and!; [apply cancel_frame_refl | by apply shifts_refl | done | by apply rows_left_none].
  - destruct Hm as [Ho HP]. destruct (cancel_bid d id o true) as [d1|e] eqn:E; [|by eexists].
    pose proof (cancel_bid_shifts _ _ _ _ _ Ho E) as Hs.
    apply cancel_bid_frame in E as (Hfr & E1 & E2).
    destruct (IH d1) as (r & -> & Hr).
    { rewrite E2, tremove_size by eauto. lia. }
    exists r. split; [done|]. intros d' ->. destruct (Hr d' eq_refl) as (Hfr' & Hs' & Hset & Hb).
    split_and!; [by eapply cancel_frame_trans | by eapply shifts_trans | congruence |].
    rewrite E2 in Hb. by eapply rows_left_remove.
  - eexists. split; [done|]. intros d' [= <-]. split_and!; [apply cancel_frame_refl | by apply shifts_refl | done | by apply rows_left_none].
Qed.

Lemma cancel_all_settle_orders_ok d a d' : cancel_all_settle_orders d a = Ok d' -> cancelled a true false d d'.
Proof.
  unfold cancel_all_settle_orders. destruct (cancel_settle_orders_ok _ d a (Nat.le_refl _)) as (r & -> & Hr). apply Hr.
Qed.

Lemma cancel_all_bids_ok d a d' : cancel_all_bids d a = Ok d' -> cancelled a false true d d'.
Proof. unfold cancel_all_bids. destruct (cancel_bids_ok _ d a (Nat.le_refl _)) as (r & -> & Hr). apply Hr. Qed.

Lemma core_in_orders_frame d owner n d' :
  add_core_in_orders d owner n = Ok d' \/ sub_core_in_orders d owner n = Ok d' ->
  shifts d (fun _ => 0) d' /\ exists st, d' = d <| account_stats := st |>.
Proof.
  intros E. split; [by apply (core_in_orders_shifts _ _ _ _ E)|].
  unfold add_core_in_orders, sub_core_in_orders, get_stats in E. destruct E as [E|E]; mon; by eexists.
Qed.

Lemma set_stats_same d : d = d <| account_stats := account_stats d |>.
Proof. by destruct d. Qed.

(** A bid is executed: its collateral and the part of the fund become a position. *)
Lemma execute_bid_shifts d id b debt fund d' : rows (collateral_bids d) !! id = Some b ->
  execute_bid d id b debt fund = Ok d' ->
  shifts d (fun a => ind a (asset_id (base (bd_inv_swan_price b))) * fund) d' /\ bitassets d' = bitassets d
  /\ dyn_data d' = dyn_data d /\ assets d' = assets d.
Proof.
  intros Hb E. unfold execute_bid in E. mon. safe_ints.
  destruct (_ >? _); mon.
  match goal with E : (if _ =? _ then add_core_in_orders ?d0 ?o ?n else _) = Ok ?d1 |- _ =>
    assert (shifts d0 (fun _ => 0) d1 /\ exists st, d1 = d0 <| account_stats := st |>) as (Hs & st & ->) end.
  { match goal with E : (if ?x then _ else _) = Ok _ |- _ => destruct x end.
    - eapply core_in_orders_frame; by left.
    - mon. split; [by apply shifts_refl | eexists; apply set_stats_same]. }
  split; [|done]. eapply shifts_ext.
  - eapply shifts_comp; [apply create_call_shifts|]. eapply shifts_comp; [exact Hs|].
    eapply shifts_comp; [by eapply push_push_shifts | by apply remove_bid_shifts].
  - intros a. unfold asset_in, get_collateral, collateral_type. cbn. lia.
Qed.

Lemma cancelled_bitassets a s b d d' : cancelled a s b d d' -> bitassets d' = bitassets d /\ dyn_data d' = dyn_data d
  /\ assets d' = assets d.
Proof. by intros ((m & l & st & bd & ->) & _). Qed.

(** Reviving an asset moves its fund into a position of its issuer. *)
Lemma revive_bitasset_shifts d id a b d' : bitassets d !! id = Some b -> revive_bitasset d id a b = Ok d' ->
  shifts d (fun _ => 0) d' /\ bitassets d' = <[id := b <| ba_settlement_price := null_price |> <| ba_settlement_fund := 0 |>]> (bitassets d)
  /\ dyn_data d' = dyn_data d /\ assets d' = assets d.
Proof.
  intros Hb E. unfold revive_bitasset, cancel_bids_and_revive_mpa in E. mon.
  match goal with E : cancel_all_bids ?x _ = Ok ?y |- _ =>
    rename x into d1; rename y into d2; apply cancel_all_bids_ok in E;
    pose proof (cancelled_bitassets _ _ _ _ _ E) as (E1 & E2 & E3); destruct E as (_ & Hs2 & _) end.
  match goal with E : (if 0 <? _ then _ else _) = Ok d1 |- _ =>
    assert (shifts d (fun a => ind a (bo_short_backing_asset (ba_options b)) * ba_settlement_fund b) d1
            /\ bitassets d1 = bitassets d /\ dyn_data d1 = dyn_data d /\ assets d1 = assets d) as (Hs1 & E4 & E5 & E6);
    [destruct (_ <? _); mon|] end.
  - match goal with E : asset_div _ _ = Ok _ |- _ => unfold asset_div in E end. mon.
    match goal with E : execute_bid _ _ ?bid _ _ = Ok _ |- _ =>
      eapply execute_bid_shifts in E as (Hs & E4 & E5 & E6); [|apply lookup_tcreate] end.
    split_and!; [|by rewrite E4 | by rewrite E5 | by rewrite E6]. eapply shifts_ext; [eapply shifts_comp; [apply create_bid_shifts | exact Hs]|].
    intros x. unfold asset_in. cbn. lia.
  - split_and!; [|done..]. apply shifts_refl. intros x. nia.
  - split_and!; [| cbn; by rewrite E1, E4 | cbn; by rewrite E2 | cbn; by rewrite E3].
    eapply shifts_ext.
    + eapply shifts_comp; [exact Hs1|]. eapply shifts_comp; [exact Hs2|].
      apply (set_bitasset_shifts d2 id b); [by rewrite E1, E4 | reflexivity].
    + intros x. cbn. lia.
Qed.

Lemma only_fees_tables d0 d : only_fees d0 d ->
  assets d = assets d0 /\ bitassets d = bitassets d0 /\ call_orders d = call_orders d0
  /\ settlements d = settlements d0 /\ collateral_bids d = collateral_bids d0 /\ limit_orders d = limit_orders d0
  /\ head_block_time d = head_block_time d0 /\ next_maintenance_time d = next_maintenance_time d0
  /\ accounts d = accounts d0 /\ params d = params d0 /\ forall a, supply a d = supply a d0.
Proof. intros (dd & st & -> & E). split_and!; try reflexivity. exact E. Qed.

Lemma find_bid_Some d debt acc id b : find_bid d debt acc = Some (id, b) ->
  rows (collateral_bids d) !! id = Some b /\ bid_debt_type b = debt /\ bd_bidder b = acc.
Proof. intros E. apply tsearch_Some in E as [E HP]. by reflect_bools. Qed.

Lemma bid_context d op ctx : bid_collateral_do_evaluate d op = Ok ctx ->
  ctx = find_bid d (asset_id (bc_debt_covered op)) (bc_bidder op)
  /\ exists b, bitassets d !! asset_id (bc_debt_covered op) = Some b
       /\ asset_id (bc_additional_collateral op) = bo_short_backing_asset (ba_options b)
       /\ is_globally_settled b = true /\ ba_is_prediction_market b = false.
Proof. unfold bid_collateral_do_evaluate, get_bitasset. intros E. mon. split; [done|]. by eexists. Qed.

#[export] Instance bid_collateral_laws :
  EvaluatorLaws bid_collateral_operation (option (Z * collateral_bid_object)) unit.
Proof.
  split. cbn. intros d0 d op ctx d' r _ Hev Hfees Hwf E.
  apply bid_context in Hev as [-> _]. destruct (only_fees_tables _ _ Hfees) as (_ & _ & _ & _ & Eb & _).
  unfold bid_collateral_do_apply in E. mon.
  match goal with E : match find_bid d0 ?x ?y with _ => _ end = Ok ?d1 |- _ =>
    assert (shifts d (fun _ => 0) d1) as Hs;
    [destruct (find_bid d0 x y) as [[id b]|] eqn:Ef; mon; [|by apply shifts_refl]|] end.
  { apply find_bid_Some in Ef as [Hb _]. rewrite <- Eb in Hb. by eapply cancel_bid_shifts. }
  destruct (amount _ =? 0); mon; [destruct (Hs Hwf) as [Hwf' Hx]; split; [|done]; intros a; rewrite Hx; lia|].
  match goal with E : asset_div _ _ = Ok _ |- _ => unfold asset_div in E end. mon. asset_ints.
  match goal with E : adjust_balance _ _ _ = Ok _ |- _ => apply adjust_shifts in E as [Ha _] end.
  assert (shifts d (fun _ => 0) (create_bid r1 (CollateralBid (bc_bidder op) (Price (bc_additional_collateral op) (bc_debt_covered op))))) as Hall.
  { eapply shifts_ext; [eapply shifts_comp; [exact Hs | eapply shifts_comp; [exact Ha | apply create_bid_shifts]]|].
    intros a. unfold asset_in. cbn. lia. }
  destruct (Hall Hwf) as [Hwf' Hx]. split; [|done]. intros a. rewrite Hx. lia.
Qed.
End BidLaws.
