(* ===== verification/AssetOps.v ===== *)
(** The operations on assets of [asset_evaluator.cpp] and [protocol/asset_ops.cpp]:
    creating, issuing, reserving and updating an asset, changing its issuer, its fee
    pool and its accumulated fees. *)
From S2P Require Import Prelude Records Fc Asset Objects Vesting Database Holdings Sample Fees Evaluator Feed Market AssetRules BitassetFeed Bids.

(** ** The operations *)

Record asset_create_operation := AssetCreate {
  cr_fee : asset;
  cr_issuer : account_id_type;
  cr_symbol : string;
  cr_precision : Z;
  cr_common_options : asset_options;
  cr_bitasset_opts : option bitasset_options;
  cr_is_prediction_market : bool;
}.

Record asset_issue_operation := AssetIssue {
  iss_fee : asset;
  iss_issuer : account_id_type;
  iss_asset_to_issue : asset;
  iss_issue_to_account : account_id_type;
}.

Record asset_reserve_operation := AssetReserve {
  rsv_fee : asset;
  rsv_payer : account_id_type;
  rsv_amount_to_reserve : asset;
}.

Record asset_fund_fee_pool_operation := AssetFundFeePool {
  ffp_fee : asset;
  ffp_from_account : account_id_type;
  ffp_asset_id : asset_id_type;
  ffp_amount : share_type;
}.

Record asset_update_operation := AssetUpdate {
  upd_fee : asset;
  upd_issuer : account_id_type;
  upd_asset_to_update : asset_id_type;
  upd_new_issuer : option account_id_type;
  upd_new_options : asset_options;
  upd_new_precision : option Z;
  upd_skip_core_exchange_rate : option bool;
}.

Record asset_update_issuer_operation := AssetUpdateIssuer {
  upi_fee : asset;
  upi_issuer : account_id_type;
  upi_asset_to_update : asset_id_type;
  upi_new_issuer : account_id_type;
}.

Record asset_claim_fees_operation := AssetClaimFees {
  clf_fee : asset;
  clf_issuer : account_id_type;
  clf_amount_to_claim : asset;
  clf_claim_from_asset_id : option asset_id_type;
}.

Record asset_claim_pool_operation := AssetClaimPool {
  clp_fee : asset;
  clp_issuer : account_id_type;
  clp_asset_id : asset_id_type;
  clp_amount_to_claim : asset;
}.

(** ** Their own consistency *)

Definition asset_create_validate (op : asset_create_operation) : result unit :=
  let o := cr_common_options op in
  assert! 0 <=? amount (cr_fee op) @ "fee.amount >= 0" in
  assert! is_valid_symbol (cr_symbol op) @ "is_valid_symbol(symbol)" in
  do! asset_options_validate o in
  do! (if negb (0 =? Z.land (Z.land (ao_issuer_permissions o) NON_UIA_ONLY_ISSUER_PERMISSION_MASK)
                            (not16 (witness_fed_asset ||| committee_fed_asset)))
       then assert! is_set (cr_bitasset_opts op) @ "bitasset_opts.valid()" in Ok tt
       else Ok tt) in
  do! (if cr_is_prediction_market op then
         assert! is_set (cr_bitasset_opts op)
           @ "Cannot have a User-Issued Asset implement a prediction market." in
         assert! negb (unset (ao_issuer_permissions o) global_settle) @ "global_settle" in
         assert! unset (ao_issuer_permissions o) disable_bsrm_update @ "disable_bsrm_update" in
         assert! match cr_bitasset_opts op with
                 | Some b => negb (is_set (bo_black_swan_response_method b))
                 | None => true
                 end @ "Can not set black_swan_response_method for Prediction Markets" in
         Ok tt
       else Ok tt) in
  do! match cr_bitasset_opts op with Some b => bitasset_options_validate b | None => Ok tt end in
  let! dummy := asset_mul_price (Asset 1 CORE) (ao_core_exchange_rate o) in
  assert! asset_id dummy =? 1 @ "dummy.asset_id == asset_id_type(1)" in
  assert! cr_precision op <=? 12 @ "precision <= 12" in
  Ok tt.

Definition asset_update_validate (op : asset_update_operation) : result unit :=
  assert! 0 <=? amount (upd_fee op) @ "fee.amount >= 0" in
  assert! match upd_new_issuer op with Some i => negb (upd_issuer op =? i) | None => true end @ "issuer != *new_issuer" in
  do! asset_options_validate (upd_new_options op) in
  let! dummy := asset_mul_price (Asset 1 (upd_asset_to_update op)) (ao_core_exchange_rate (upd_new_options op)) in
  assert! asset_id dummy =? CORE @ "dummy.asset_id == asset_id_type()" in
  assert! match upd_new_precision op with Some p => p <=? 12 | None => true end @ "new_precision <= 12" in
  assert! match upd_skip_core_exchange_rate op with Some s => s | None => true end
    @ "If skip_core_exchange_rate is specified, it can only be true" in
  Ok tt.

Definition asset_update_issuer_validate (op : asset_update_issuer_operation) : result unit :=
  assert! 0 <=? amount (upi_fee op) @ "fee.amount >= 0" in
  assert! negb (upi_issuer op =? upi_new_issuer op) @ "issuer != new_issuer" in Ok tt.

Definition asset_reserve_validate (op : asset_reserve_operation) : result unit :=
  assert! 0 <=? amount (rsv_fee op) @ "fee.amount >= 0" in
  assert! amount (rsv_amount_to_reserve op) <=? GRAPHENE_MAX_SHARE_SUPPLY @ "amount <= GRAPHENE_MAX_SHARE_SUPPLY" in
  assert! 0 <? amount (rsv_amount_to_reserve op) @ "amount > 0" in Ok tt.

Definition asset_issue_validate (op : asset_issue_operation) : result unit :=
  assert! 0 <=? amount (iss_fee op) @ "fee.amount >= 0" in
  assert! amount (iss_asset_to_issue op) <=? GRAPHENE_MAX_SHARE_SUPPLY @ "amount <= GRAPHENE_MAX_SHARE_SUPPLY" in
  assert! 0 <? amount (iss_asset_to_issue op) @ "amount > 0" in
  assert! negb (asset_id (iss_asset_to_issue op) =? 0) @ "asset_id != asset_id_type(0)" in Ok tt.

Definition asset_fund_fee_pool_validate (op : asset_fund_fee_pool_operation) : result unit :=
  assert! 0 <=? amount (ffp_fee op) @ "fee.amount >= 0" in
  assert! asset_id (ffp_fee op) =? CORE @ "fee.asset_id == asset_id_type()" in
  assert! 0 <? ffp_amount op @ "amount > 0" in Ok tt.

Definition asset_claim_fees_validate (op : asset_claim_fees_operation) : result unit :=
  assert! 0 <=? amount (clf_fee op) @ "fee.amount >= 0" in
  assert! 0 <? amount (clf_amount_to_claim op) @ "amount_to_claim.amount > 0" in
  assert! match clf_claim_from_asset_id op with
          | Some i => negb (i =? asset_id (clf_amount_to_claim op))
          | None => true
          end @ "claim_from_asset_id != amount_to_claim.asset_id" in Ok tt.

Definition asset_claim_pool_validate (op : asset_claim_pool_operation) : result unit :=
  assert! 0 <=? amount (clp_fee op) @ "fee.amount >= 0" in
  assert! negb (asset_id (clp_fee op) =? clp_asset_id op) @ "fee.asset_id != asset_id" in
  assert! 0 <? amount (clp_amount_to_claim op) @ "amount_to_claim.amount > 0" in
  assert! asset_id (clp_amount_to_claim op) =? CORE @ "amount_to_claim.asset_id == asset_id_type()" in Ok tt.

(** ** Lookups *)

Definition find_symbol (d : database) (symbol : string) : option (asset_id_type * asset_object) :=
  tsearch (fun a => bool_decide (as_symbol a = symbol)) (assets d).

(** [for( auto id : ids ) d.get(id)] *)
Definition accounts_exist (d : database) (ids : gset account_id_type) : result unit :=
  assert! bool_decide (set_Forall (fun i => is_Some (tfind (accounts d) i)) ids) @ "account" in Ok tt.

Definition check_authorities (d : database) (o : asset_options) : result unit :=
  let most := cp_maximum_asset_whitelist_authorities (params d) in
  assert! Z.of_nat (size (ao_whitelist_authorities o)) <=? most @ "whitelist_authorities" in
  assert! Z.of_nat (size (ao_blacklist_authorities o)) <=? most @ "blacklist_authorities" in
  do! accounts_exist d (ao_whitelist_authorities o) in
  accounts_exist d (ao_blacklist_authorities o).

(** ** Creating an asset *)

(** The asset that backs a new market-issued asset: nothing deeper than an asset backed by
    an asset that is not market-issued, and for the committee in the end the core asset. *)
Definition check_backing (d : database) (issuer : account_id_type) (o : bitasset_options) : result unit :=
  let id := bo_short_backing_asset o in
  let! backing := get_asset d id in
  do! (if as_market_issued backing then
         let! b := get_bitasset d id backing in
         let! backing_backing := get_asset d (bo_short_backing_asset (ba_options b)) in
         assert! negb (as_market_issued backing_backing)
           @ "May not create a bitasset backed by a bitasset backed by a bitasset." in
         assert! negb (issuer =? GRAPHENE_COMMITTEE_ACCOUNT) || (bo_short_backing_asset (ba_options b) =? CORE)
           @ "May not create a blockchain-controlled market asset which is not backed by CORE." in Ok tt
       else
         assert! negb (issuer =? GRAPHENE_COMMITTEE_ACCOUNT) || (id =? CORE)
           @ "May not create a blockchain-controlled market asset which is not backed by CORE." in Ok tt) in
  assert! (bo_feed_lifetime_sec o >? cp_block_interval (params d))
          && (bo_force_settlement_delay_sec o >? cp_block_interval (params d)) @ "block_interval" in
  Ok tt.

Definition asset_create_do_evaluate (d : database) (op : asset_create_operation) : result unit :=
  let o := cr_common_options op in
  do! check_asset_options_hardforks d o in
  do! match cr_bitasset_opts op with Some b => check_bitasset_options_hardforks d b | None => Ok tt end in
  do! check_flags d (is_set (cr_bitasset_opts op)) o in
  do! check_authorities d o in
  assert! negb (is_set (find_symbol d (cr_symbol op))) @ "asset_symbol_itr == asset_indx.end()" in
  do! (if head_block_time d >? HARDFORK_385_TIME then
         match symbol_prefix (cr_symbol op) with
         | Some prefix =>
             let! (_, parent) := of_option "Asset may only be created by issuer of its prefix" (find_symbol d prefix) in
             assert! as_issuer parent =? cr_issuer op @ "Asset may only be created by issuer of its prefix" in Ok tt
         | None => Ok tt
         end
       else Ok tt) in
  do! match cr_bitasset_opts op with Some b => check_backing d (cr_issuer op) b | None => Ok tt end in
  do! (if cr_is_prediction_market op then
         let! b := of_option "op.bitasset_opts" (cr_bitasset_opts op) in
         let! backing := get_asset d (bo_short_backing_asset b) in
         assert! cr_precision op =? as_precision backing @ "precision" in Ok tt
       else Ok tt) in
  Ok tt.

(** The exchange rate with the id of the new asset in the place of the other asset. *)
Definition rate_of_new_asset (id : asset_id_type) (p : price) : price :=
  if asset_id (base p) =? 0 then Price (base p) (Asset (amount (quote p)) id)
  else Price (Asset (amount (base p)) id) (quote p).

(** [bitasset_data] of a new asset: the default values of the class. *)
Definition new_bitasset (id : asset_id_type) (o : bitasset_options) (is_prediction_market : bool)
    : asset_bitasset_data_object :=
  BitassetData id o [] default_feed_with_icr default_feed_with_icr 0 null_price null_price is_prediction_market 0
    null_price 0 0 0 false false.

Section Create.
Context `{SafeInt64} `{Rational} `{NthElement} `{LongDouble}.
(** The member [_current_block_num] of the database. *)
Variable current_block_num : Z.

Definition new_asset (id : asset_id_type) (op : asset_create_operation) : asset_object :=
  let o := cr_common_options op in
  AssetObject (cr_symbol op) (cr_precision op) (cr_issuer op)
    (o <| ao_core_exchange_rate := rate_of_new_asset id (ao_core_exchange_rate o) |>)
    (is_set (cr_bitasset_opts op)) None current_block_num.

(** The asset and the data of a market-issued one; the price of GOLD is set at once. *)
Definition register_asset (d : database) (id : asset_id_type) (op : asset_create_operation) : result database :=
  let d := match cr_bitasset_opts op with
           | Some o => set_bitasset d id (new_bitasset id o (cr_is_prediction_market op))
           | None => d
           end in
  let a := new_asset id op in
  let d := d <| assets := tcreate (assets d) a |> in
  if as_market_issued a && is_gold_asset a then
    let! b := get_bitasset d id a in
    update_bitasset_current_feed d id b false
  else Ok d.

Definition asset_create_do_apply (d : database) (op : asset_create_operation) (core_fee_paid : share_type)
    (fee_is_odd : bool) : result (database * asset_id_type) :=
  let hf_429 := fee_is_odd && (head_block_time d >? HARDFORK_CORE_429_TIME) in
  let id := next_id (assets d) in
  let! fee_pool := safe_sub core_fee_paid (if hf_429 then 1 else 0) in
  let d := set_dyn d id (AssetDynamicData 0 0 0 0 fee_pool) in
  let! d :=
    if fee_is_odd && negb hf_429 then
      let! dd := get_dyn d CORE in
      let! s := safe_add (dd_current_supply dd) 1 in
      Ok (set_dyn d CORE (dd <| dd_current_supply := s |>))
    else Ok d in
  let! d := register_asset d id op in
  Ok (d, id).

(** The steps of an operation, with the fee shared: half of it, rounded down, goes to the
    fee pool of the new asset. *)
Definition asset_create_evaluate_apply (calculate_fee : database -> asset_create_operation -> result share_type)
    (skip_fee_schedule_check : bool) (d : database) (op : asset_create_operation) : result (database * asset_id_type) :=
  let! core_fee_paid := prepare_fee d (cr_issuer op) (cr_fee op) in
  do! (if skip_fee_schedule_check then Ok tt
       else let! required_fee := calculate_fee d op in
            assert! core_fee_paid >=? required_fee @ "Insufficient Fee Paid" in Ok tt) in
  do! asset_create_do_evaluate d op in
  let! d := convert_fee d (cr_fee op) core_fee_paid in
  let fee_is_odd := negb (Z.rem core_fee_paid 2 =? 0) in
  let! half := safe_sub core_fee_paid (Z.quot core_fee_paid 2) in
  let! d := pay_fee d (cr_issuer op) half in
  let! (d, id) := asset_create_do_apply d op half fee_is_odd in
  let! minus_fee := asset_neg (cr_fee op) in
  let! d := adjust_balance d (cr_issuer op) minus_fee in
  Ok (d, id).
End Create.

(** ** Issuing and reserving *)

Section Ops.
Context `{SafeInt64}.

Definition asset_issue_do_evaluate (d : database) (op : asset_issue_operation) : result unit :=
  let id := asset_id (iss_asset_to_issue op) in
  let! a := get_asset d id in
  assert! iss_issuer op =? as_issuer a @ "o.issuer == a.issuer" in
  assert! negb (as_market_issued a) @ "Cannot manually issue a market-issued asset." in
  assert! negb (is_liquidity_pool_share_asset a) @ "Cannot manually issue a liquidity pool share asset." in
  assert! can_create_new_supply a @ "Can not create new supply" in
  let! to_account := get_account d (iss_issue_to_account op) in
  assert! is_authorized_asset d (iss_issue_to_account op) to_account id a @ "is_authorized_asset" in
  let! dyn := get_dyn d id in
  let! s := safe_add (dd_current_supply dyn) (amount (iss_asset_to_issue op)) in
  assert! s <=? ao_max_supply (as_options a) @ "current_supply + amount <= max_supply" in
  Ok tt.

Definition asset_issue_do_apply (d : database) (op : asset_issue_operation) (ctx : unit) : result (database * unit) :=
  let id := asset_id (iss_asset_to_issue op) in
  let! d := adjust_balance d (iss_issue_to_account op) (iss_asset_to_issue op) in
  let! dyn := get_dyn d id in
  let! s := safe_add (dd_current_supply dyn) (amount (iss_asset_to_issue op)) in
  Ok (set_dyn d id (dyn <| dd_current_supply := s |>), tt).

Definition asset_reserve_do_evaluate (d : database) (op : asset_reserve_operation) : result unit :=
  let id := asset_id (rsv_amount_to_reserve op) in
  let! a := get_asset d id in
  assert! negb (as_market_issued a) @ "Cannot reserve because it is a market-issued asset" in
  let! from_account := get_account d (rsv_payer op) in
  assert! is_authorized_asset d (rsv_payer op) from_account id a @ "is_authorized_asset" in
  let! dyn := get_dyn d id in
  do! (if negb (is_liquidity_pool_share_asset a) then
         assert! dd_current_supply dyn >=? amount (rsv_amount_to_reserve op)
           @ "Can not reserve an amount that is more than the current supply" in Ok tt
       else
         assert! dd_current_supply dyn >? amount (rsv_amount_to_reserve op)
           @ "can only reserve an amount that is less than the current supply" in Ok tt) in
  Ok tt.

Definition asset_reserve_do_apply (d : database) (op : asset_reserve_operation) (ctx : unit) : result (database * unit) :=
  let id := asset_id (rsv_amount_to_reserve op) in
  let! minus := asset_neg (rsv_amount_to_reserve op) in
  let! d := adjust_balance d (rsv_payer op) minus in
  let! dyn := get_dyn d id in
  let! s := safe_sub (dd_current_supply dyn) (amount (rsv_amount_to_reserve op)) in
  Ok (set_dyn d id (dyn <| dd_current_supply := s |>), tt).

(** ** The fee pool and the accumulated fees *)

Definition asset_fund_fee_pool_do_evaluate (d : database) (op : asset_fund_fee_pool_operation) : result unit :=
  let! _ := get_asset d (ffp_asset_id op) in
  let! _ := get_dyn d (ffp_asset_id op) in
  Ok tt.

Definition asset_fund_fee_pool_do_apply (d : database) (op : asset_fund_fee_pool_operation) (ctx : unit)
    : result (database * unit) :=
  let! minus := safe_neg (ffp_amount op) in
  let! d := adjust_balance d (ffp_from_account op) (Asset minus CORE) in
  let! dyn := get_dyn d (ffp_asset_id op) in
  let! pool := safe_add (dd_fee_pool dyn) (ffp_amount op) in
  Ok (set_dyn d (ffp_asset_id op) (dyn <| dd_fee_pool := pool |>), tt).

Definition can_accumulate_fee (d : database) (id : asset_id_type) (a : asset_object) (fee : asset) : result bool :=
  if asset_id fee =? id then Ok true
  else if as_market_issued a then
    let! b := get_bitasset d id a in Ok (asset_id fee =? bo_short_backing_asset (ba_options b))
  else Ok false.

Definition claim_container (op : asset_claim_fees_operation) : asset_id_type :=
  match clf_claim_from_asset_id op with Some i => i | None => asset_id (clf_amount_to_claim op) end.

Definition asset_claim_fees_do_evaluate (d : database) (op : asset_claim_fees_operation) : result unit :=
  do! check_asset_claim_fees_hardfork_87_74_collatfee (head_block_time d) (clf_claim_from_asset_id op) in
  let id := claim_container op in
  let! container := get_asset d id in
  assert! as_issuer container =? clf_issuer op @ "Asset fees may only be claimed by the issuer" in
  let! can := can_accumulate_fee d id container (clf_amount_to_claim op) in
  assert! can @ "Asset is not backed by asset and does not hold it as fees." in
  let! ddo := get_dyn d id in
  if id =? asset_id (clf_amount_to_claim op) then
    assert! amount (clf_amount_to_claim op) <=? dd_accumulated_fees ddo
      @ "Attempt to claim more fees than have accumulated within asset" in Ok tt
  else
    assert! amount (clf_amount_to_claim op) <=? dd_accumulated_collateral_fees ddo
      @ "Attempt to claim more backing-asset fees than have accumulated within asset" in Ok tt.

Definition asset_claim_fees_do_apply (d : database) (op : asset_claim_fees_operation) (ctx : unit)
    : result (database * unit) :=
  let id := claim_container op in
  let! ddo := get_dyn d id in
  let! ddo' :=
    if id =? asset_id (clf_amount_to_claim op) then
      let! x := safe_sub (dd_accumulated_fees ddo) (amount (clf_amount_to_claim op)) in
      Ok (ddo <| dd_accumulated_fees := x |>)
    else
      let! x := safe_sub (dd_accumulated_collateral_fees ddo) (amount (clf_amount_to_claim op)) in
      Ok (ddo <| dd_accumulated_collateral_fees := x |>) in
  let! d := adjust_balance (set_dyn d id ddo') (clf_issuer op) (clf_amount_to_claim op) in
  Ok (d, tt).

Definition asset_claim_pool_do_evaluate (d : database) (op : asset_claim_pool_operation) : result unit :=
  let! a := get_asset d (clp_asset_id op) in
  assert! as_issuer a =? clp_issuer op @ "Asset fee pool may only be claimed by the issuer" in Ok tt.

Definition asset_claim_pool_do_apply (d : database) (op : asset_claim_pool_operation) (ctx : unit)
    : result (database * unit) :=
  let! _ := get_asset d (clp_asset_id op) in
  let! addo := get_dyn d (clp_asset_id op) in
  assert! amount (clp_amount_to_claim op) <=? dd_fee_pool addo @ "Attempt to claim more fees than is available" in
  let! pool := safe_sub (dd_fee_pool addo) (amount (clp_amount_to_claim op)) in
  let! d := adjust_balance (set_dyn d (clp_asset_id op) (addo <| dd_fee_pool := pool |>))
              (clp_issuer op) (clp_amount_to_claim op) in
  Ok (d, tt).

(** ** The issuer *)

Definition validate_new_issuer (d : database) (id : asset_id_type) (a : asset_object) (new_issuer : account_id_type)
    : result unit :=
  assert! is_set (tfind (accounts d) new_issuer) @ "New issuer account does not exist" in
  if as_market_issued a && (new_issuer =? GRAPHENE_COMMITTEE_ACCOUNT) then
    let! b := get_bitasset d id a in
    let backing_id := bo_short_backing_asset (ba_options b) in
    let! backing := get_asset d backing_id in
    if as_market_issued backing then
      let! bb := get_bitasset d backing_id backing in
      let! _ := get_asset d (bo_short_backing_asset (ba_options bb)) in
      assert! bo_short_backing_asset (ba_options bb) =? CORE
        @ "May not create a blockchain-controlled market asset which is not backed by CORE." in Ok tt
    else
      assert! backing_id =? CORE
        @ "May not create a blockchain-controlled market asset which is not backed by CORE." in Ok tt
  else Ok tt.

Definition asset_update_issuer_do_evaluate (d : database) (op : asset_update_issuer_operation) : result asset_object :=
  let! a := get_asset d (upi_asset_to_update op) in
  do! validate_new_issuer d (upi_asset_to_update op) a (upi_new_issuer op) in
  assert! upi_issuer op =? as_issuer a @ "Incorrect issuer for asset!" in
  Ok a.

Definition set_asset (d : database) (id : asset_id_type) (a : asset_object) : database :=
  d <| assets := tmodify (assets d) id a |>.

Definition asset_update_issuer_do_apply (d : database) (op : asset_update_issuer_operation) (a : asset_object)
    : result (database * unit) :=
  Ok (set_asset d (upi_asset_to_update op) (a <| as_issuer := upi_new_issuer op |>), tt).

(** ** Updating an asset *)

(** The permissions the issuer of [a] has: those of a prediction market include
    [global_settle], whatever was set. *)
Definition update_mask (d : database) (a : asset_object) (bitasset : option asset_bitasset_data_object)
    (o : asset_options) : result Z :=
  let mask := get_enabled_issuer_permissions_mask (as_options a) in
  match bitasset with
  | Some b =>
      if HARDFORK_BSIP_48_75_PASSED (head_block_time d) && ba_is_prediction_market b then
        assert! can_global_settle (a <| as_options := o |>)
          @ "The global_settle permission should be enabled for prediction markets" in
        Ok (mask ||| global_settle)
      else Ok mask
  | None => Ok mask
  end.

(** With a supply, permissions are not reinstated, the precision is kept and the maximum
    supply stays above the supply. *)
Definition check_with_supply (d : database) (bitasset : option asset_bitasset_data_object) (mask : Z)
    (supply : share_type) (op : asset_update_operation) : result unit :=
  let o := upd_new_options op in
  let reinstated := Z.land (get_enabled_issuer_permissions_mask o) (not16 mask) in
  if negb (supply =? 0) then
    assert! 0 =? (if HARDFORK_CORE_2467_PASSED (next_maintenance_time d) then
                    match bitasset with
                    | None => Z.land reinstated UIA_ASSET_ISSUER_PERMISSION_MASK
                    | Some b => if ba_is_prediction_market b then Z.land reinstated (not16 disable_bsrm_update)
                                else reinstated
                    end
                  else reinstated) @ "Cannot reinstate previously revoked issuer permissions" in
    assert! negb (is_set (upd_new_precision op)) @ "Cannot update precision if current supply is non-zero" in
    assert! negb (HARDFORK_BSIP_48_75_PASSED (head_block_time d)) || (supply <=? ao_max_supply o)
      @ "Max supply should not be smaller than current supply" in
    Ok tt
  else Ok tt.

(** Only flags the issuer has the permission for may change. *)
Definition check_flag_change (d : database) (a : asset_object) (mask : Z) (o : asset_options) : result unit :=
  let changed := Z.lxor (ao_flags o) (ao_flags (as_options a)) in
  if HARDFORK_BSIP_48_75_PASSED (head_block_time d) then
    let valid_flags_mask :=
      if HARDFORK_CORE_2281_PASSED (next_maintenance_time d) then VALID_FLAGS_MASK
      else Z.land VALID_FLAGS_MASK (not16 disable_collateral_bidding) in
    let check_bits := if as_market_issued a then valid_flags_mask else UIA_VALID_FLAGS_MASK in
    assert! 0 =? Z.land (Z.land changed check_bits) (not16 mask) @ "Flag change is forbidden by issuer permissions" in Ok tt
  else
    assert! 0 =? Z.land changed (not16 (ao_issuer_permissions (as_options a)))
      @ "Flag change is forbidden by issuer permissions" in Ok tt.

Definition backs_another_asset (d : database) (id : asset_id_type) : bool :=
  negb (bool_decide (map_Forall (fun _ b => bo_short_backing_asset (ba_options b) <> id) (bitassets d))).

Definition check_new_precision (d : database) (a : asset_object) (bitasset : option asset_bitasset_data_object)
    (op : asset_update_operation) : result unit :=
  match upd_new_precision op with
  | Some p =>
      assert! negb (p =? as_precision a) @ "Specified a new precision but it does not change" in
      assert! match bitasset with Some b => negb (ba_is_prediction_market b) | None => true end
        @ "Can not update precision of a prediction market" in
      assert! negb (backs_another_asset d (upd_asset_to_update op))
        @ "Asset is backed by this asset, can not update precision" in
      Ok tt
  | None => Ok tt
  end.

(** Returns the asset and the data of a market-issued one. *)
Definition asset_update_do_evaluate (d : database) (op : asset_update_operation)
    : result (asset_object * option asset_bitasset_data_object) :=
  let now := head_block_time d in
  let o := upd_new_options op in
  let id := upd_asset_to_update op in
  do! check_asset_options_hardforks d o in
  do! check_asset_update_extensions_hf_bsip_48_75 now (upd_new_precision op) (upd_skip_core_exchange_rate op) in
  let! a := get_asset d id in
  do! asset_object_validate (a <| as_options := o |>) in
  do! match upd_new_issuer op with
      | Some i =>
          assert! now <? HARDFORK_CORE_199_TIME
            @ "Since Hardfork #199, updating issuer requires the use of asset_update_issuer_operation." in
          validate_new_issuer d id a i
      | None => Ok tt
      end in
  let! bitasset := if as_market_issued a then let! b := get_bitasset d id a in Ok (Some b) else Ok None in
  do! (if HARDFORK_CORE_2467_PASSED (next_maintenance_time d) then
         match bitasset with
         | None => assert! unset (ao_issuer_permissions o) NON_UIA_ONLY_ISSUER_PERMISSION_MASK
                     @ "Unable to set non-UIA issuer permission bits on UIA" in Ok tt
         | Some b =>
             assert! negb (ba_is_prediction_market b) || unset (ao_issuer_permissions o) disable_bsrm_update
               @ "Unable to set disable_bsrm_update issuer permission bit on PM" in Ok tt
         end
       else Ok tt) in
  let! mask := update_mask d a bitasset o in
  let! dyn := get_dyn d id in
  do! check_with_supply d bitasset mask (dd_current_supply dyn) op in
  do! check_flags d (as_market_issued a) o in
  do! check_flag_change d a mask o in
  assert! upd_issuer op =? as_issuer a @ "Incorrect issuer for asset!" in
  assert! can_update_max_supply a || (ao_max_supply (as_options a) =? ao_max_supply o) @ "Can not update max supply" in
  do! check_new_precision d a bitasset op in
  do! check_authorities d o in
  Ok (a, bitasset).

(** The updated object. *)
Definition updated_asset (a : asset_object) (op : asset_update_operation) : asset_object :=
  let a := match upd_new_issuer op with Some i => a <| as_issuer := i |> | None => a end in
  let a := match upd_new_precision op with Some p => a <| as_precision := p |> | None => a end in
  let cer := ao_core_exchange_rate (as_options a) in
  let o := upd_new_options op in
  a <| as_options := if is_set (upd_skip_core_exchange_rate op) then o <| ao_core_exchange_rate := cer |> else o |>.

(** A new exchange rate of a market-issued asset is noted in its data. *)
Definition note_new_rate (d : database) (a : asset_object) (bitasset : option asset_bitasset_data_object)
    (op : asset_update_operation) : database :=
  match bitasset with
  | Some b =>
      if negb (is_set (upd_skip_core_exchange_rate op))
         && negb (price_eq (ao_core_exchange_rate (as_options a)) (ao_core_exchange_rate (upd_new_options op)))
         && negb (ba_asset_cer_updated b)
      then set_bitasset d (upd_asset_to_update op) (b <| ba_asset_cer_updated := true |>) else d
  | None => d
  end.

Definition asset_update_do_apply (d : database) (op : asset_update_operation)
    (ctx : asset_object * option asset_bitasset_data_object) : result (database * unit) :=
  let '(a, bitasset) := ctx in
  let o := upd_new_options op in
  let id := upd_asset_to_update op in
  let! d := if negb (unset (ao_flags o) disable_force_settle) && can_force_settle a
            then cancel_all_settle_orders d id else Ok d in
  let! d := if negb (unset (ao_flags o) disable_collateral_bidding) && can_bid_collateral a
            then cancel_all_bids d id else Ok d in
  let d := note_new_rate d a bitasset op in
  Ok (set_asset d id (updated_asset a op), tt).

#[export] Instance asset_issue_evaluator : Evaluator asset_issue_operation unit unit := {
  fee_payer := iss_issuer; op_fee := iss_fee; validate := asset_issue_validate;
  do_evaluate := asset_issue_do_evaluate; do_apply := asset_issue_do_apply;
}.
#[export] Instance asset_reserve_evaluator : Evaluator asset_reserve_operation unit unit := {
  fee_payer := rsv_payer; op_fee := rsv_fee; validate := asset_reserve_validate;
  do_evaluate := asset_reserve_do_evaluate; do_apply := asset_reserve_do_apply;
}.
#[export] Instance asset_fund_fee_pool_evaluator : Evaluator asset_fund_fee_pool_operation unit unit := {
  fee_payer := ffp_from_account; op_fee := ffp_fee; validate := asset_fund_fee_pool_validate;
  do_evaluate := asset_fund_fee_pool_do_evaluate; do_apply := asset_fund_fee_pool_do_apply;
}.
#[export] Instance asset_claim_fees_evaluator : Evaluator asset_claim_fees_operation unit unit := {
  fee_payer := clf_issuer; op_fee := clf_fee; validate := asset_claim_fees_validate;
  do_evaluate := asset_claim_fees_do_evaluate; do_apply := asset_claim_fees_do_apply;
}.
#[export] Instance asset_claim_pool_evaluator : Evaluator asset_claim_pool_operation unit unit := {
  fee_payer := clp_issuer; op_fee := clp_fee; validate := asset_claim_pool_validate;
  do_evaluate := asset_claim_pool_do_evaluate; do_apply := asset_claim_pool_do_apply;
}.
#[export] Instance asset_update_issuer_evaluator : Evaluator asset_update_issuer_operation asset_object unit := {
  fee_payer := upi_issuer; op_fee := upi_fee; validate := asset_update_issuer_validate;
  do_evaluate := asset_update_issuer_do_evaluate; do_apply := asset_update_issuer_do_apply;
}.
#[export] Instance asset_update_evaluator :
    Evaluator asset_update_operation (asset_object * option asset_bitasset_data_object) unit := {
  fee_payer := upd_issuer; op_fee := upd_fee; validate := asset_update_validate;
  do_evaluate := asset_update_do_evaluate; do_apply := asset_update_do_apply;
}.
End Ops.

(** ** Conservation *)

Section OpLaws.
Context `{SafeInt64Laws}.

Ltac asset_op :=
  intros d0 d op ctx d' r Hval Heval Hfees Hwf E; mon; asset_ints; safe_ints.

#[export] Instance asset_issue_laws : EvaluatorLaws asset_issue_operation unit unit.
Proof.
  split. cbn. unfold asset_issue_do_apply, get_dyn. asset_op. subst. adjust_steps.
  split; [conserve | destruct Hwf; wf].
Qed.

#[export] Instance asset_reserve_laws : EvaluatorLaws asset_reserve_operation unit unit.
Proof.
  split. cbn. unfold asset_reserve_do_apply, get_dyn. asset_op. subst. adjust_steps.
  split; [conserve | destruct Hwf; wf].
Qed.

#[export] Instance asset_fund_fee_pool_laws : EvaluatorLaws asset_fund_fee_pool_operation unit unit.
Proof.
  split. cbn. unfold asset_fund_fee_pool_do_apply, get_dyn. asset_op. subst. adjust_steps.
  split; [conserve | destruct Hwf; wf].
Qed.

#[export] Instance asset_claim_pool_laws : EvaluatorLaws asset_claim_pool_operation unit unit.
Proof.
  split. cbn. unfold asset_claim_pool_do_apply, asset_claim_pool_validate, get_dyn. asset_op. subst. adjust_steps.
  split; [conserve | destruct Hwf; wf].
Qed.

Lemma set_asset_shifts d id a a' : rows (assets d) !! id = Some a -> asset_options_ok a' ->
  shifts d (fun _ => 0) (set_asset d id a').
Proof.
  intros Ha Ho Hwf. split; [destruct Hwf; wf|]. intros x. unfold excess, holdings, supply. cbn. lia.
Qed.

Lemma shifts_zero d d' : shifts d (fun _ => 0) d' -> db_wf d -> conserves d d' /\ db_wf d'.
Proof. intros Hs Hwf. destruct (Hs Hwf) as [Hwf' Hx]. split; [|done]. intros a. rewrite Hx. lia. Qed.

#[export] Instance asset_update_issuer_laws : EvaluatorLaws asset_update_issuer_operation asset_object unit.
Proof.
  split. cbn. unfold asset_update_issuer_do_apply, asset_update_issuer_do_evaluate, get_asset, tfind. asset_op.
  destruct (only_fees_tables _ _ Hfees) as (Ea & _). rewrite <- Ea in *.
  eapply shifts_zero; [|done]. eapply set_asset_shifts; [eassumption|].
  match goal with R : rows (assets d) !! _ = Some _ |- _ => apply (wf_asset_options _ Hwf _ _ R) end.
Qed.

(** Where the claimed fees are kept. *)
Lemma claim_context d op : asset_claim_fees_do_evaluate d op = Ok tt ->
  claim_container op = asset_id (clf_amount_to_claim op)
  \/ exists b, bitassets d !! claim_container op = Some b
       /\ asset_id (clf_amount_to_claim op) = bo_short_backing_asset (ba_options b).
Proof.
  unfold asset_claim_fees_do_evaluate, can_accumulate_fee, get_bitasset. intros E. mon.
  destruct (Z.eqb_spec (claim_container op) (asset_id (clf_amount_to_claim op))); [by left|]. right.
  destruct (Z.eqb_spec (asset_id (clf_amount_to_claim op)) (claim_container op)); [congruence|].
  match goal with E : (if as_market_issued ?x then _ else _) = Ok _ |- _ => destruct (as_market_issued x); mon; [|done] end.
  eexists. by split.
Qed.

#[export] Instance asset_claim_fees_laws : EvaluatorLaws asset_claim_fees_operation unit unit.
Proof.
  split. cbn. intros d0 d op [] d' r _ Heval Hfees Hwf E. apply claim_context in Heval.
  destruct (only_fees_tables _ _ Hfees) as (_ & Eb & _). rewrite <- Eb in Heval.
  unfold asset_claim_fees_do_apply, get_dyn in E. mon.
  match goal with E : adjust_balance _ _ _ = Ok _ |- _ => apply adjust_shifts in E as [Hadj _] end.
  match type of Hadj with shifts ?d1 _ _ =>
    assert (shifts d (fun a => - asset_in a (clf_amount_to_claim op)) d1) as Hset end.
  { destruct (Z.eqb_spec (claim_container op) (asset_id (clf_amount_to_claim op))) as [Hi|Hi]; mon; safe_ints; subst.
    - eapply shifts_ext; [eapply set_dyn_shifts; [eassumption | reflexivity]|].
      intros a. unfold asset_in. cbn. rewrite Hi. lia.
    - destruct Heval as [Hc|(b & Hb & Hback)]; [done|].
      eapply shifts_ext; [eapply set_collateral_fees_shifts; [eassumption | reflexivity..]|].
      intros a. unfold asset_in, backing. cbn. rewrite Hb, Hback. lia. }
  eapply shifts_zero; [|done]. eapply shifts_ext; [eapply shifts_comp; [exact Hset | exact Hadj]|].
  intros a. cbn. lia.
Qed.
(** What the options promise about the amounts. *)
Lemma options_validate_amounts o : asset_options_validate o = Ok tt ->
  0 < ao_max_supply o <= GRAPHENE_MAX_SHARE_SUPPLY /\ 0 <= ao_max_market_fee o <= GRAPHENE_MAX_SHARE_SUPPLY.
Proof. unfold asset_options_validate. intros E. mon. lia. Qed.

Lemma updated_asset_ok a op : asset_update_validate op = Ok tt -> asset_options_ok (updated_asset a op).
Proof.
  unfold asset_update_validate. intros E. mon.
  match goal with E : asset_options_validate _ = Ok _ |- _ => apply options_validate_amounts in E end.
  unfold asset_options_ok, updated_asset. destruct (is_set _); cbn; lia.
Qed.

(** The objects the checks found. *)
Lemma asset_update_context d op a bitasset : asset_update_do_evaluate d op = Ok (a, bitasset) ->
  rows (assets d) !! upd_asset_to_update op = Some a
  /\ bitasset = (if as_market_issued a then bitassets d !! upd_asset_to_update op else None)
  /\ (as_market_issued a = true -> is_Some bitasset).
Proof.
  unfold asset_update_do_evaluate, get_asset, tfind, get_bitasset. intros E. mon.
  split; [done|]. destruct (as_market_issued a); mon; by split.
Qed.

(** The cancellations of an update. *)
Lemma asset_update_cancels d op a d1 d2 :
  (if negb (unset (ao_flags (upd_new_options op)) disable_force_settle) && can_force_settle a
   then cancel_all_settle_orders d (upd_asset_to_update op) else Ok d) = Ok d1 ->
  (if negb (unset (ao_flags (upd_new_options op)) disable_collateral_bidding) && can_bid_collateral a
   then cancel_all_bids d1 (upd_asset_to_update op) else Ok d1) = Ok d2 ->
  cancel_frame d d2 /\ shifts d (fun _ => 0) d2.
Proof.
  assert (forall (b s b' : bool) x y z, (if b then y else Ok x) = Ok z ->
    (y = Ok z -> cancelled (upd_asset_to_update op) s b' x z) -> cancel_frame x z /\ shifts x (fun _ => 0) z) as Hstep.
  { intros b s b' x y z E Hc. destruct b.
    - destruct (Hc E) as (Hf & Hs & _). by split.
    - mon. split; [apply cancel_frame_refl | by apply shifts_refl]. }
  intros E1 E2.
  apply (Hstep _ true false) in E1 as [Hf1 Hs1]; [|apply cancel_all_settle_orders_ok].
  apply (Hstep _ false true) in E2 as [Hf2 Hs2]; [|apply cancel_all_bids_ok].
  split; [by eapply cancel_frame_trans|]. eapply shifts_ext; [by eapply shifts_comp|]. intros x. cbn. lia.
Qed.

Lemma note_new_rate_shifts d a bitasset op :
  (forall b, bitasset = Some b -> bitassets d !! upd_asset_to_update op = Some b) ->
  shifts d (fun _ => 0) (note_new_rate d a bitasset op) /\ assets (note_new_rate d a bitasset op) = assets d.
Proof.
  intros Hb. unfold note_new_rate. destruct bitasset as [b|]; [|split; [by apply shifts_refl | done]].
  destruct (_ && _); [|split; [by apply shifts_refl | done]]. split; [|done].
  eapply shifts_ext; [apply (set_bitasset_shifts d _ b); [by apply Hb | done]|]. intros x. cbn. lia.
Qed.

#[export] Instance asset_update_laws :
  EvaluatorLaws asset_update_operation (asset_object * option asset_bitasset_data_object) unit.
Proof.
  split. cbn. intros d0 d op [a bitasset] d' r Hval Heval Hfees Hwf E.
  apply asset_update_context in Heval as (Ha & Hb & _).
  destruct (only_fees_tables _ _ Hfees) as (Ea & Eb & _). rewrite <- Ea in Ha. rewrite <- Eb in Hb.
  assert (forall b, bitasset = Some b -> bitassets d !! upd_asset_to_update op = Some b) as Hget
    by (intros b ->; by destruct (as_market_issued a)).
  clear Hb. unfold asset_update_do_apply in E. mon.
  match goal with E1 : (if _ then cancel_all_settle_orders _ _ else _) = Ok ?x,
      E2 : (if _ then cancel_all_bids _ _ else _) = Ok ?y |- _ =>
    destruct (asset_update_cancels _ _ _ _ _ E1 E2) as [(m & l & s & bd & Ed) Hs]; rename y into d2 end.
  assert (bitassets d2 = bitassets d /\ assets d2 = assets d) as [Eb2 Ea2] by (by subst d2). clear Ed.
  rewrite <- Eb2 in Hget. destruct (note_new_rate_shifts d2 a bitasset op Hget) as [Hn En].
  eapply shifts_zero; [|done]. eapply shifts_ext; [eapply shifts_comp; [exact Hs | eapply shifts_comp; [exact Hn|]]|].
  - apply (set_asset_shifts _ _ a); [by rewrite En, Ea2 | by apply updated_asset_ok].
  - intros x. cbn. lia.
Qed.
End OpLaws.
