(* ===== verification/FeedOps.v ===== *)
(** Who moves the price of a market-issued asset: the operations [asset_publish_feed],
    [asset_update_feed_producers] and [asset_update_bitasset] of [asset_evaluator.cpp], the
    expiry of feeds and the core exchange rates of [db_update.cpp], and the scheduled
    refresh of [defishares_feed.cpp]. *)
From S2P Require Import Prelude Records Fc Asset Objects Vesting Database Holdings Sample Fees Evaluator Feed Market AssetRules BitassetFeed Bids AssetOps.

Definition HARDFORK_480_TIME : Z := 1450378800.
Definition HARDFORK_615_TIME : Z := 1458752400.
Definition HARDFORK_CORE_868_890_TIME : Z := 1532008920.
Definition HARDFORK_CORE_922_931_TIME : Z := 1532008920.
Definition HARDFORK_CORE_2582_PASSED (head_block_time : Z) : bool := head_block_time >=? 1656203698.
Definition HARDFORK_CORE_2290_PASSED (next_maint_time : Z) : bool := next_maint_time >? 1641909720.

(** ** Feeds *)

Definition margin_call_params_equal (f g : price_feed) : bool :=
  price_eq (settlement_price f) (settlement_price g)
  && (maintenance_collateral_ratio f =? maintenance_collateral_ratio g)
  && (maximum_short_squeeze_ratio f =? maximum_short_squeeze_ratio g).

Abbreviation published := (time_point_sec * price_feed_with_icr)%type.

(** [feeds[publisher] = ...] in a map sorted by account. *)
Fixpoint feeds_set (k : account_id_type) (v : published) (l : list (account_id_type * published))
    : list (account_id_type * published) :=
  match l with
  | [] => [(k, v)]
  | (k', v') :: l' =>
      if k <? k' then (k, v) :: l
      else if k =? k' then (k, v) :: l'
      else (k', v') :: feeds_set k v l'
  end.

Definition feeds_get (k : account_id_type) (l : list (account_id_type * published)) : option published :=
  snd <$> list_find (fun x => fst x = k) l ≫= fun x => Some (snd x).

(** [feeds[acc]] inserts a feed that never was published. *)
Definition feeds_touch (l : list (account_id_type * published)) (k : account_id_type) : list (account_id_type * published) :=
  match feeds_get k l with Some _ => l | None => feeds_set k (0, default_feed_with_icr) l end.

Definition with_producers (producers : gset account_id_type) (l : list (account_id_type * published))
    : list (account_id_type * published) :=
  foldl feeds_touch (filter (fun x => fst x ∈ producers) l) (insertion_sort Z.ltb (elements producers)).

(** ** The operations *)

Record asset_publish_feed_operation := AssetPublishFeed {
  pub_fee : asset;
  pub_publisher : account_id_type;
  pub_asset_id : asset_id_type;
  pub_feed : price_feed;
  pub_initial_collateral_ratio : option Z;
}.

Record asset_update_feed_producers_operation := AssetUpdateFeedProducers {
  ufp_fee : asset;
  ufp_issuer : account_id_type;
  ufp_asset_to_update : asset_id_type;
  ufp_new_feed_producers : gset account_id_type;
}.

Record asset_update_bitasset_operation := AssetUpdateBitasset {
  ubo_fee : asset;
  ubo_issuer : account_id_type;
  ubo_asset_to_update : asset_id_type;
  ubo_new_options : bitasset_options;
}.

Definition asset_publish_feed_validate (op : asset_publish_feed_operation) : result unit :=
  let f := pub_feed op in
  assert! 0 <=? amount (pub_fee op) @ "fee.amount >= 0" in
  do! price_feed_validate f in
  do! (if negb (price_is_null (core_exchange_rate f)) then price_validate false (core_exchange_rate f) else Ok tt) in
  assert! price_is_null (settlement_price f) || price_is_null (core_exchange_rate f)
          || (asset_id (base (settlement_price f)) =? asset_id (base (core_exchange_rate f))) @ "base.asset_id" in
  assert! negb (price_is_null (settlement_price f)) @ "!feed.settlement_price.is_null()" in
  assert! price_feed_is_for f (pub_asset_id op) @ "feed.is_for( asset_id )" in
  assert! opt_within GRAPHENE_MIN_COLLATERAL_RATIO GRAPHENE_MAX_COLLATERAL_RATIO (pub_initial_collateral_ratio op) @ "ICR" in
  Ok tt.

Definition asset_update_feed_producers_validate (op : asset_update_feed_producers_operation) : result unit :=
  assert! 0 <=? amount (ufp_fee op) @ "fee.amount >= 0" in Ok tt.

Definition asset_update_bitasset_validate (op : asset_update_bitasset_operation) : result unit :=
  assert! 0 <=? amount (ubo_fee op) @ "fee.amount >= 0" in
  bitasset_options_validate (ubo_new_options op).

Section FeedOps.
Context `{SafeInt64} `{Rational} `{NthElement} `{LongDouble}.

(** ** Publishing a feed *)

Definition asset_publish_feed_do_evaluate (d : database) (op : asset_publish_feed_operation)
    : result (asset_object * asset_bitasset_data_object) :=
  let now := head_block_time d in
  let f := pub_feed op in
  let id := pub_asset_id op in
  do! check_asset_publish_feed_extensions_hf_bsip77 now (pub_initial_collateral_ratio op) in
  let! a := get_asset d id in
  assert! as_market_issued a @ "Can only publish price feeds for market-issued assets" in
  let! b := get_bitasset d id a in
  do! (if ba_is_prediction_market b || (now <=? HARDFORK_CORE_216_TIME) then
         assert! negb (is_globally_settled b) @ "No further feeds may be published after a settlement event" in Ok tt
       else Ok tt) in
  let direct_backing_feed := asset_id (quote (settlement_price f)) =? bo_short_backing_asset (ba_options b) in
  assert! accepts_gold_quote_feed d id a b f
          || direct_backing_feed && (negb (is_set (find_gold_asset d)) || is_gold_asset a)
    @ "Quote asset type in settlement price should be same as backing asset or GOLD for this asset" in
  do! (if now >? HARDFORK_480_TIME then
         assert! price_is_null (core_exchange_rate f) || (asset_id (quote (core_exchange_rate f)) =? CORE)
           @ "Quote asset in core exchange rate should be CORE asset" in Ok tt
       else
         assert! price_is_null (settlement_price f) || price_is_null (core_exchange_rate f)
                 || (asset_id (quote (settlement_price f)) =? asset_id (quote (core_exchange_rate f))) @ "Bad feed" in Ok tt) in
  do! (if negb (unset (ao_flags (as_options a)) witness_fed_asset) then
         let! w := get_account d GRAPHENE_WITNESS_ACCOUNT in
         assert! bool_decide (pub_publisher op ∈ ac_active_account_auths w)
           @ "Only active witnesses are allowed to publish price feeds for this asset" in Ok tt
       else if negb (unset (ao_flags (as_options a)) committee_fed_asset) then
         let! c := get_account d GRAPHENE_COMMITTEE_ACCOUNT in
         assert! bool_decide (pub_publisher op ∈ ac_active_account_auths c)
           @ "Only active committee members are allowed to publish price feeds for this asset" in Ok tt
       else
         assert! is_set (feeds_get (pub_publisher op) (ba_feeds b))
           @ "The account is not in the set of allowed price feed producers of this asset" in Ok tt) in
  Ok (a, b).

(** Whether a globally settled asset with a new feed comes back to life. *)
Definition should_revive (d : database) (id : asset_id_type) (b : asset_bitasset_data_object) : result bool :=
  let maint := next_maintenance_time d in
  let! dyn := get_dyn d id in
  let fund := Asset (ba_settlement_fund b) (bo_short_backing_asset (ba_options b)) in
  let supply := Asset (dd_current_supply dyn) id in
  if dd_current_supply dyn =? 0 then Ok true
  else if maint <=? HARDFORK_CORE_1270_TIME then
    let! fund_call_price := call_price supply fund (feed_mcr (ba_current_feed b)) in
    Ok (price_lt (price_inv fund_call_price) (feed_price (ba_current_feed b)))
  else
    let fund_collateralization := Price fund supply in
    Ok (if HARDFORK_CORE_2290_PASSED maint
        then price_gt fund_collateralization (ba_current_initial_collateralization b)
        else price_gt fund_collateralization (ba_current_maintenance_collateralization b)).

Definition asset_publish_feed_do_apply (d : database) (op : asset_publish_feed_operation)
    (ctx : asset_object * asset_bitasset_data_object) : result (database * unit) :=
  let '(a, b) := ctx in
  let id := pub_asset_id op in
  let icr := match pub_initial_collateral_ratio op with
             | Some r => r
             | None => maintenance_collateral_ratio (pub_feed op)
             end in
  let b1 := b <| ba_feeds ::= feeds_set (pub_publisher op) (head_block_time d, PriceFeedIcr (pub_feed op) icr) |> in
  let! d := update_bitasset_current_feed (set_bitasset d id b1) id b1 false in
  let! b' := get_bitasset d id a in
  let unchanged :=
    if HARDFORK_CORE_2582_PASSED (head_block_time d)
    then margin_call_params_equal (pf_feed (ba_median_feed b)) (pf_feed (ba_median_feed b'))
    else margin_call_params_equal (pf_feed (ba_current_feed b)) (pf_feed (ba_current_feed b')) in
  if unchanged then Ok (d, tt)
  else
    let! d :=
      if is_globally_settled b' && negb (price_is_null (feed_price (ba_current_feed b'))) then
        let! revive := should_revive d id b' in
        if revive then revive_bitasset d id a b' else Ok d
      else Ok d in
    let! b' := get_bitasset d id a in
    let! (d, _) := check_call_orders d a b' in
    Ok (d, tt).

(** ** The producers of the feeds *)

Definition asset_update_feed_producers_do_evaluate (d : database) (op : asset_update_feed_producers_operation)
    : result asset_object :=
  assert! Z.of_nat (size (ufp_new_feed_producers op)) <=? cp_maximum_asset_feed_publishers (params d)
    @ "Cannot specify more feed producers than maximum allowed" in
  let! a := get_asset d (ufp_asset_to_update op) in
  assert! as_market_issued a @ "Cannot update feed producers on a non-BitAsset." in
  assert! unset (ao_flags (as_options a)) committee_fed_asset @ "Cannot set feed producers on a committee-fed asset." in
  assert! unset (ao_flags (as_options a)) witness_fed_asset @ "Cannot set feed producers on a witness-fed asset." in
  assert! as_issuer a =? ufp_issuer op @ "Only asset issuer can update feed producers of an asset" in
  do! accounts_exist d (ufp_new_feed_producers op) in
  Ok a.

Definition asset_update_feed_producers_do_apply (d : database) (op : asset_update_feed_producers_operation)
    (a : asset_object) : result (database * unit) :=
  let id := ufp_asset_to_update op in
  let! b := get_bitasset d id a in
  let b1 := b <| ba_feeds ::= with_producers (ufp_new_feed_producers op) |> in
  let! d := update_bitasset_current_feed (set_bitasset d id b1) id b1 false in
  let! b' := get_bitasset d id a in
  let! (d, _) := check_call_orders d a b' in
  Ok (d, tt).
(** ** The options of a market-issued asset *)

Definition changed (old new : option Z) : bool := negb (bool_decide (old = new)).

(** No asset backed by this one may end up backed by itself, or too deep. *)
Definition check_children_of_bitasset (d : database) (op : asset_update_bitasset_operation)
    (new_backing_id : asset_id_type) (new_backing : asset_object) : result unit :=
  if new_backing_id =? CORE then Ok tt
  else
    rforeach (fun x : asset_id_type * asset_bitasset_data_object =>
      if bo_short_backing_asset (ba_options (snd x)) =? ubo_asset_to_update op then
        let! child := get_asset d (ba_asset_id (snd x)) in
        assert! negb (ba_asset_id (snd x) =? bo_short_backing_asset (ubo_new_options op))
          @ "A BitAsset would be invalidated by changing this backing asset ('A' backed by 'B' backed by 'A')." in
        assert! negb (as_issuer child =? GRAPHENE_COMMITTEE_ACCOUNT)
          @ "A blockchain-controlled market asset would be invalidated by changing this backing asset." in
        assert! negb (as_market_issued new_backing)
          @ "A non-blockchain controlled BitAsset would be invalidated by changing this backing asset." in
        Ok tt
      else Ok tt) (map_to_list (bitassets d)).

(** The checks of a new backing asset after hard fork core-922-931. *)
Definition check_new_backing (d : database) (op : asset_update_bitasset_operation) (a : asset_object)
    (b : asset_bitasset_data_object) (new_backing : asset_object) : result unit :=
  let id := ubo_asset_to_update op in
  let new_id := bo_short_backing_asset (ubo_new_options op) in
  assert! negb (new_id =? id) @ "Cannot update an asset to be backed by itself." in
  assert! negb (ba_is_prediction_market b) || (as_precision a =? as_precision new_backing)
    @ "The precision of the asset and backing asset must be equal." in
  do! (if as_issuer a =? GRAPHENE_COMMITTEE_ACCOUNT then
         if as_market_issued new_backing then
           let! bb := get_bitasset d new_id new_backing in
           assert! bo_short_backing_asset (ba_options bb) =? CORE
             @ "May not modify a blockchain-controlled market asset to be backed by an asset which is not backed by CORE." in
           check_children_of_bitasset d op new_id new_backing
         else
           assert! new_id =? CORE
             @ "May not modify a blockchain-controlled market asset to be backed by an asset which is not market issued asset nor CORE." in
           Ok tt
       else if negb (new_id =? CORE) then check_children_of_bitasset d op new_id new_backing
       else Ok tt) in
  if as_market_issued new_backing then
    let! bb := get_bitasset d new_id new_backing in
    let bbid := bo_short_backing_asset (ba_options bb) in
    if bbid =? CORE then Ok tt
    else
      let! backing_backing := get_asset d bbid in
      assert! negb (as_market_issued backing_backing)
        @ "A BitAsset cannot be backed by a BitAsset that itself is backed by a BitAsset." in Ok tt
  else Ok tt.

(** Changing the response to a black swan; returns whether the feeds depend on it. *)
Definition check_new_bsrm (d : database) (op : asset_update_bitasset_operation) (a : asset_object)
    (b : asset_bitasset_data_object) : result bool :=
  let old_bsrm := get_black_swan_response_method (ba_options b) in
  let new_bsrm := get_black_swan_response_method (ubo_new_options op) in
  if negb (old_bsrm =? new_bsrm) then
    assert! can_owner_update_bsrm a @ "No permission to update BSRM" in
    assert! negb (is_globally_settled b) @ "Unable to update BSRM when the asset has been globally settled" in
    do! (if individual_settlement_to_fund =? old_bsrm then
           assert! negb (is_individually_settled_to_fund b)
             @ "Unable to update BSRM when the individual settlement pool (for force-settlements) is not empty" in Ok tt
         else if individual_settlement_to_order =? old_bsrm then
           assert! negb (is_set (find_settled_debt_order d (ubo_asset_to_update op)))
             @ "Unable to update BSRM when there exists an individual settlement order" in Ok tt
         else Ok tt) in
    Ok ((no_settlement =? old_bsrm) || (no_settlement =? new_bsrm))
  else Ok false.

(** Returns the asset, its data and [update_feeds_due_to_bsrm_change]. *)
Definition asset_update_bitasset_do_evaluate (d : database) (op : asset_update_bitasset_operation)
    : result (asset_object * asset_bitasset_data_object * bool) :=
  let maint := next_maintenance_time d in
  let o := ubo_new_options op in
  let id := ubo_asset_to_update op in
  do! check_bitasset_options_hardforks d o in
  let! a := get_asset d id in
  assert! as_market_issued a @ "Cannot update BitAsset-specific settings on a non-BitAsset." in
  assert! ubo_issuer op =? as_issuer a @ "Only asset issuer can update bitasset_data of the asset." in
  let! b := get_bitasset d id a in
  assert! HARDFORK_CORE_2282_PASSED maint || negb (is_globally_settled b)
    @ "Cannot update a bitasset after a global settlement has executed" in
  assert! negb (ba_is_prediction_market b) || negb (is_set (bo_black_swan_response_method o))
    @ "Can not set black_swan_response_method for Prediction Markets" in
  let old := ba_options b in
  assert! can_owner_update_mcr a || negb (changed (bo_maintenance_collateral_ratio old) (bo_maintenance_collateral_ratio o))
    @ "No permission to update MCR" in
  assert! can_owner_update_icr a || negb (changed (bo_initial_collateral_ratio old) (bo_initial_collateral_ratio o))
    @ "No permission to update ICR" in
  assert! can_owner_update_mssr a || negb (changed (bo_maximum_short_squeeze_ratio old) (bo_maximum_short_squeeze_ratio o))
    @ "No permission to update MSSR" in
  let! bsrm_change := check_new_bsrm d op a b in
  let after_922_931 := maint >? HARDFORK_CORE_922_931_TIME in
  do! (if negb (bo_short_backing_asset o =? bo_short_backing_asset old) then
         assert! negb (is_globally_settled b) @ "Cannot change backing asset after a global settlement has executed" in
         let! dyn := get_dyn d id in
         assert! dd_current_supply dyn =? 0 @ "Cannot change backing asset if there is already a current supply." in
         assert! dd_accumulated_collateral_fees dyn =? 0
           @ "Must claim collateral-denominated fees before changing backing asset." in
         let! new_backing := get_asset d (bo_short_backing_asset o) in
         if after_922_931 then check_new_backing d op a b new_backing else Ok tt
       else Ok tt) in
  assert! negb after_922_931 || (bo_feed_lifetime_sec o >? cp_block_interval (params d))
    @ "Feed lifetime must exceed block interval." in
  assert! negb after_922_931 || (bo_force_settlement_delay_sec o >? cp_block_interval (params d))
    @ "Force settlement delay must exceed block interval." in
  Ok (a, b, bsrm_change).

(** The published feeds after the backing asset changed. *)
Definition reset_feeds (a : asset_object) (l : list (account_id_type * published)) : list (account_id_type * published) :=
  if negb (unset (ao_flags (as_options a)) (witness_fed_asset ||| committee_fed_asset)) then []
  else map (fun x => (fst x, (fst (snd x),
         (snd (snd x)) <| pf_feed ::= fun f => f <| settlement_price := null_price |> |>))) l.

(** Returns whether call orders have to be checked. *)
Definition update_bitasset_object_options (d : database) (op : asset_update_bitasset_operation) (a : asset_object)
    (b : asset_bitasset_data_object) (update_feeds_due_to_bsrm_change : bool) : result (database * bool) :=
  let id := ubo_asset_to_update op in
  let o := ubo_new_options op in
  let old := ba_options b in
  let after_868_890 := next_maintenance_time d >? HARDFORK_CORE_868_890_TIME in
  let backing_changed := after_868_890 && negb (bo_short_backing_asset o =? bo_short_backing_asset old) in
  let should_update_feeds :=
    negb (bo_minimum_feeds o =? bo_minimum_feeds old)
    || after_868_890 && negb (bo_feed_lifetime_sec o =? bo_feed_lifetime_sec old)
    || backing_changed
    || changed (bo_initial_collateral_ratio old) (bo_initial_collateral_ratio o)
    || changed (bo_maintenance_collateral_ratio old) (bo_maintenance_collateral_ratio o)
    || changed (bo_maximum_short_squeeze_ratio old) (bo_maximum_short_squeeze_ratio o) in
  let mcfr_changed := changed (bo_margin_call_fee_ratio old) (bo_margin_call_fee_ratio o) in
  let b1 := b <| ba_options := o |> in
  let b1 := if backing_changed then b1 <| ba_feeds ::= reset_feeds a |> else b1 in
  let d := set_bitasset d id b1 in
  if should_update_feeds || update_feeds_due_to_bsrm_change then
    let! d := update_bitasset_current_feed d id b1 (negb should_update_feeds) in
    let! b2 := get_bitasset d id a in
    let feed_actually_changed :=
      after_868_890 && negb (margin_call_params_equal (pf_feed (ba_current_feed b1)) (pf_feed (ba_current_feed b2)))
      || HARDFORK_CORE_2582_PASSED (head_block_time d)
         && negb (margin_call_params_equal (pf_feed (ba_median_feed b1)) (pf_feed (ba_median_feed b2))) in
    Ok (d, feed_actually_changed || mcfr_changed)
  else Ok (d, mcfr_changed).

Definition asset_update_bitasset_do_apply (d : database) (op : asset_update_bitasset_operation)
    (ctx : asset_object * asset_bitasset_data_object * bool) : result (database * unit) :=
  let '(a, b, bsrm_change) := ctx in
  let! (d, to_check_call_orders) := update_bitasset_object_options d op a b bsrm_change in
  let! b' := get_bitasset d (ubo_asset_to_update op) a in
  if to_check_call_orders then
    let! (d, _) := check_call_orders d a b' in Ok (d, tt)
  else Ok (d, tt).

#[export] Instance asset_publish_feed_evaluator :
    Evaluator asset_publish_feed_operation (asset_object * asset_bitasset_data_object) unit := {
  fee_payer := pub_publisher; op_fee := pub_fee; validate := asset_publish_feed_validate;
  do_evaluate := asset_publish_feed_do_evaluate; do_apply := asset_publish_feed_do_apply;
}.
#[export] Instance asset_update_feed_producers_evaluator :
    Evaluator asset_update_feed_producers_operation asset_object unit := {
  fee_payer := ufp_issuer; op_fee := ufp_fee; validate := asset_update_feed_producers_validate;
  do_evaluate := asset_update_feed_producers_do_evaluate; do_apply := asset_update_feed_producers_do_apply;
}.
#[export] Instance asset_update_bitasset_evaluator :
    Evaluator asset_update_bitasset_operation (asset_object * asset_bitasset_data_object * bool) unit := {
  fee_payer := ubo_issuer; op_fee := ubo_fee; validate := asset_update_bitasset_validate;
  do_evaluate := asset_update_bitasset_do_evaluate; do_apply := asset_update_bitasset_do_apply;
}.

(** ** The updates of every block *)

(** The market-issued assets, in the order in which they were created. *)
Definition bitasset_ids (d : database) : list asset_id_type :=
  insertion_sort Z.ltb (elements (dom (bitassets d))).

(** The feeds of one asset, updated on schedule. *)
Definition refresh_feed (d : database) (id : asset_id_type) : result database :=
  let! b := of_option "bitasset data" (bitassets d !! id) in
  let! a := get_asset d (ba_asset_id b) in
  let! d := update_bitasset_current_feed d id b false in
  let! b' := get_bitasset d id a in
  if negb (price_is_null (feed_price (ba_current_feed b')))
     && negb (price_eq (feed_price (ba_current_feed b)) (feed_price (ba_current_feed b')))
  then let! (d, _) := check_call_orders d a b' in Ok d
  else Ok d.

Definition refresh_scheduled_feeds (d : database) : result (database * bool) :=
  if feeds_scheduled d then
    let! d := rfold refresh_feed d (bitasset_ids d) in Ok (d, true)
  else Ok (d, false).

Definition need_to_update_cer (b : asset_bitasset_data_object) : bool :=
  (ba_feed_cer_updated b || ba_asset_cer_updated b) && negb (price_is_null (feed_cer (ba_current_feed b))).

Definition cer_taken (b : asset_bitasset_data_object) : asset_bitasset_data_object :=
  b <| ba_asset_cer_updated := false |> <| ba_feed_cer_updated := false |>.

(** The core exchange rate of the feed becomes that of the asset. *)
Definition update_core_exchange_rate (d : database) (id : asset_id_type) (b : asset_bitasset_data_object) : result database :=
  let! a := get_asset d (ba_asset_id b) in
  let cer := feed_cer (ba_current_feed b) in
  let d :=
    if negb (price_eq (ao_core_exchange_rate (as_options a)) cer)
    then set_asset d (ba_asset_id b) (a <| as_options ::= fun o => o <| ao_core_exchange_rate := cer |> |>) else d in
  Ok (set_bitasset d id (cer_taken b)).

(** The last element of the index [by_cer_update]; which one does not matter. *)
Definition last_cer_update (d : database) : option (asset_id_type * asset_bitasset_data_object) :=
  list_min (fun x y => fst y <? fst x)
    (filter (fun x => need_to_update_cer (snd x) = true) (map_to_list (bitassets d))).

Fixpoint update_core_exchange_rates_loop (fuel : nat) (d : database) : option (result database) :=
  match last_cer_update d with
  | None => Some (Ok d)
  | Some (id, b) =>
      match fuel with
      | O => None
      | S fuel' =>
          match update_core_exchange_rate d id b with
          | Ok d' => update_core_exchange_rates_loop fuel' d'
          | Err e => Some (Err e)
          end
      end
  end.

Definition update_core_exchange_rates (d : database) : result database :=
  run_loop (update_core_exchange_rates_loop (size (bitassets d)) d).

Definition feed_expiration_time (b : asset_bitasset_data_object) : time_point_sec :=
  let published := ba_current_feed_publication_time b in
  if 2 ^ 32 - 1 - published <=? bo_feed_lifetime_sec (ba_options b) then 2 ^ 32 - 1
  else published + bo_feed_lifetime_sec (ba_options b).

Definition feed_is_expired (b : asset_bitasset_data_object) (now : time_point_sec) : bool :=
  feed_expiration_time b <=? now.

(** One asset whose feed is expired. *)
Definition update_expired_feed (d : database) (id : asset_id_type) (b : asset_bitasset_data_object) : result database :=
  let! a := get_asset d (ba_asset_id b) in
  let! d := update_bitasset_current_feed d id b false in
  let! b' := get_bitasset d id a in
  let moved (f g : price_feed_with_icr) :=
    negb (price_is_null (feed_price g)) && negb (margin_call_params_equal (pf_feed g) (pf_feed f)) in
  let! d :=
    if moved (ba_current_feed b) (ba_current_feed b')
       || HARDFORK_CORE_2582_PASSED (head_block_time d) && moved (ba_median_feed b) (ba_median_feed b')
    then let! (d, _) := check_call_orders d a b' in Ok d
    else Ok d in
  if need_to_update_cer b' then update_core_exchange_rate d id b' else Ok d.
End FeedOps.
