(* ===== verification/FeedExpiry.v ===== *)
(** The end of a block for the feeds, [update_expired_feeds] and
    [update_core_exchange_rates] of [db_update.cpp]: both loops end, and leave no feed that
    is expired and no exchange rate that waits. *)
From S2P Require Import Prelude Records Fc Asset Objects Vesting Database Holdings Sample Fees Evaluator Feed Market AssetRules BitassetFeed Bids AssetOps FeedOps.

(** ** The index by expiration *)

Abbreviation entry := (asset_id_type * asset_bitasset_data_object)%type.

(** The order of the index [by_feed_expiration]. *)
Definition expires_before (x y : entry) : bool :=
  (feed_expiration_time (snd x) <? feed_expiration_time (snd y))
  || (feed_expiration_time (snd x) =? feed_expiration_time (snd y)) && (fst x <? fst y).

(** The first element of the index, and the one after an element. *)
Definition first_by_expiration (d : database) : option asset_id_type :=
  fst <$> list_min expires_before (map_to_list (bitassets d)).
Definition next_by_expiration (d : database) (x : entry) : option asset_id_type :=
  fst <$> list_min expires_before (filter (fun y => expires_before x y = true) (map_to_list (bitassets d))).

Section Expiry.
Context `{SafeInt64} `{Rational} `{NthElement} `{LongDouble}.

(** The loop with its iterator, which moves on before the element is modified; after hard
    fork 615 no element is skipped. *)
Fixpoint update_expired_feeds_loop (fuel : nat) (d : database) (itr : option asset_id_type) : option (result database) :=
  match itr with
  | None => Some (Ok d)
  | Some id =>
      match bitassets d !! id with
      | None => Some (Err (thrown "invalid iterator"))
      | Some b =>
          if feed_is_expired b (head_block_time d) then
            match fuel with
            | O => None
            | S fuel' =>
                match update_expired_feed d id b with
                | Ok d' => update_expired_feeds_loop fuel' d' (next_by_expiration d (id, b))
                | Err e => Some (Err e)
                end
            end
          else Some (Ok d)
      end
  end.

Definition update_expired_feeds (d : database) : result database :=
  run_loop (update_expired_feeds_loop (size (bitassets d)) d (first_by_expiration d)).

(** The two updates of a block. *)
Definition update_block_feeds (d : database) : result database :=
  let! d := update_expired_feeds d in update_core_exchange_rates d.

(** ** One feed *)

Lemma publication_time_alive now b : let t := publication_time now b in
  0 < bo_feed_lifetime_sec (ba_options b) -> now < t + bo_feed_lifetime_sec (ba_options b).
Proof.
  cbn zeta. intros Hl. unfold publication_time.
  assert (Forall (fun f => now < fst (snd f) + bo_feed_lifetime_sec (ba_options b)) (effective_feeds now b)) as Hall.
  { apply Forall_forall. intros f Hf. apply list_elem_of_filter in Hf as [Hf _]. unfold feed_alive in Hf. reflect_bools. lia. }
  assert (now < now + bo_feed_lifetime_sec (ba_options b)) as Hnow by lia.
  revert Hnow. generalize now at 2 4 as t. induction Hall as [|f l Hf _ IH]; intros t Ht; [exact Ht|]. cbn. apply IH. lia.
Qed.

Definition alive_time (now lifetime t : Z) : Prop := now < t + lifetime.

Lemma alive_not_expired now b : now < 2 ^ 32 - 1 ->
  alive_time now (bo_feed_lifetime_sec (ba_options b)) (ba_current_feed_publication_time b) -> feed_is_expired b now = false.
Proof.
  unfold alive_time, feed_is_expired, feed_expiration_time. intros Hn Ha. apply Z.leb_gt. case_match; lia.
Qed.

Lemma refresh_cache_time b b' : refresh_cache b = Ok b' ->
  ba_current_feed_publication_time b' = ba_current_feed_publication_time b.
Proof. unfold refresh_cache. intros E. by mon. Qed.

Lemma update_median_time now mt b b' : update_median_feeds now mt b = Ok b' ->
  ba_current_feed_publication_time b' = publication_time now b \/ ba_current_feed_publication_time b' = now.
Proof.
  unfold update_median_feeds, refresh_after_1270. intros E.
  repeat case_match; first [apply refresh_cache_time in E as -> | mon]; auto.
Qed.

Lemma apply_policy_time d b b' : apply_feed_policy d b = Ok b' ->
  ba_current_feed_publication_time b' = ba_current_feed_publication_time b
  \/ ba_current_feed_publication_time b' = head_block_time d.
Proof.
  unfold apply_feed_policy. intros E. mon. revert E.
  repeat case_match; intros E; mon;
    match goal with E : refresh_cache _ = Ok _ |- _ => apply refresh_cache_time in E as -> end; auto.
Qed.

Lemma renew_feed_alive d p b b' : renew_feed d false p b = Ok b' -> 0 < bo_feed_lifetime_sec (ba_options b) ->
  alive_time (head_block_time d) (bo_feed_lifetime_sec (ba_options b)) (ba_current_feed_publication_time b').
Proof.
  unfold renew_feed. intros E Hl. mon.
  match goal with E : update_median_feeds _ _ _ = Ok ?m, F : apply_feed_policy _ _ = Ok ?n |- _ =>
    assert (alive_time (head_block_time d) (bo_feed_lifetime_sec (ba_options b)) (ba_current_feed_publication_time n)) as Hn;
      [unfold alive_time; apply update_median_time in E; apply apply_policy_time in F; cbn in F;
       pose proof (publication_time_alive (head_block_time d) b Hl); destruct F, E; congruence || lia|];
    rename n into policy end.
  match goal with E : (if ?c then _ else _) = Ok ?x |- _ => destruct x as [b1 p1]; assert (b1 = policy) as -> by (destruct c; by mon) end.
  destruct p1; [|by mon]. apply refresh_cache_time in E as ->. exact Hn.
Qed.

(** What an update of one feed changes: its own data, which are not expired any more. *)
Record renewed (id : asset_id_type) (b : asset_bitasset_data_object) (d d' : database) : Prop := {
  rn_time : head_block_time d' = head_block_time d;
  rn_others : forall j, j <> id -> bitassets d' !! j = bitassets d !! j;
  rn_this : exists b', bitassets d' !! id = Some b' /\ ba_asset_id b' = ba_asset_id b /\ ba_options b' = ba_options b
    /\ alive_time (head_block_time d) (bo_feed_lifetime_sec (ba_options b)) (ba_current_feed_publication_time b');
}.

Lemma feed_renewed d id b d' : update_bitasset_current_feed d id b false = Ok d' -> 0 < bo_feed_lifetime_sec (ba_options b) ->
  renewed id b d d'.
Proof.
  unfold update_bitasset_current_feed. cbn [andb negb]. intros E Hl. mon.
  match goal with E : renew_feed _ _ _ _ = Ok ?x |- _ => rename x into b';
    pose proof (renew_feed_alive _ _ _ _ E Hl) as Ha; apply renew_feed_same in E as [Ei Eo _ _ _ _ _] end.
  assert (exists t, d' = (set_bitasset d id b') <| limit_orders := t |>) as [t ->].
  { match type of E with (if ?c then _ else _) = _ => destruct c end.
    - apply update_settled_debt_order_frame in E as (t & -> & _). by exists t.
    - mon. exists (limit_orders d). symmetry. by apply set_orders_same. }
  split; [done | |].
  - intros j Hj. by apply lookup_insert_ne.
  - exists b'. split; [apply lookup_insert_eq | done].
Qed.

Lemma exchange_rate_renewed d id b d' : update_core_exchange_rate d id b = Ok d' ->
  head_block_time d' = head_block_time d /\ bitassets d' = <[id := cer_taken b]> (bitassets d).
Proof. unfold update_core_exchange_rate. intros E. mon. by case_match. Qed.

Lemma expired_feed_renewed d id b d' : update_expired_feed d id b = Ok d' -> 0 < bo_feed_lifetime_sec (ba_options b) ->
  renewed id b d d'.
Proof.
  unfold update_expired_feed. intros E Hl. mon.
  match goal with E : update_bitasset_current_feed _ _ _ _ = Ok ?x |- _ =>
    apply feed_renewed in E as [Et Eo (b' & Hb' & Eid & Eopt & Ha)]; [|done]; rename x into d1 end.
  match goal with E : get_bitasset d1 _ _ = Ok ?x |- _ => unfold get_bitasset in E; mon; assert (x = b') as -> by congruence end.
  match goal with E : (if _ then _ else Ok d1) = Ok ?x |- _ => assert (x = d1) as -> end.
  { case_match; mon; [|done].
    match goal with E : check_call_orders _ _ _ = Ok ?x |- _ => destruct x; unfold check_call_orders in E end.
    repeat case_match; by mon. }
  case_match; mon; [|by split; [done | done | exists b']].
  apply exchange_rate_renewed in E as [Et2 Eb2]. split; [congruence | |].
  - intros j Hj. by rewrite Eb2, lookup_insert_ne, Eo.
  - exists (cer_taken b'). by rewrite Eb2, lookup_insert_eq.
Qed.

(** ** The loop over the expired feeds *)

Definition expired_in (d : database) (x : entry) : Prop := feed_is_expired (snd x) (head_block_time d) = true.
#[local] Instance expired_in_dec d x : Decision (expired_in d x) := bool_eq_dec _ _.

Definition pending (d : database) : nat := size (filter (expired_in d) (bitassets d)).

(** Nothing is expired before the iterator. *)
Definition reached (d : database) (itr : option asset_id_type) : Prop :=
  (forall i, itr = Some i -> is_Some (bitassets d !! i))
  /\ forall j c, bitassets d !! j = Some c -> expired_in d (j, c) ->
     exists i b, itr = Some i /\ bitassets d !! i = Some b /\ expires_before (j, c) (i, b) = false.

Definition lifetimes_ok (d : database) : Prop :=
  head_block_time d < 2 ^ 32 - 1
  /\ forall i b, bitassets d !! i = Some b -> 0 < bo_feed_lifetime_sec (ba_options b).

(** The least element of the index. *)
Lemma least_expiring (l : list entry) :
  match list_min expires_before l with
  | Some x => x ∈ l /\ forall y, y ∈ l -> expires_before y x = false
  | None => l = []
  end.
Proof.
  destruct (list_min _ _) as [x|] eqn:E; [|by apply list_min_None in E].
  split; [by eapply list_min_in|]. eapply list_min_least; [| |exact E]; unfold expires_before; intros; reflect_bools; lia.
Qed.

Lemma expires_before_total j c i b : j <> i -> expires_before (j, c) (i, b) = false -> expires_before (i, b) (j, c) = true.
Proof. unfold expires_before. cbn. intros Hne E. reflect_bools. lia. Qed.

Lemma reached_first d : reached d (first_by_expiration d).
Proof.
  unfold reached, first_by_expiration. pose proof (least_expiring (map_to_list (bitassets d))) as Hl.
  destruct (list_min _ _) as [[i b]|]; cbn.
  - destruct Hl as [Hin Hleast]. apply elem_of_map_to_list in Hin. split; [intros ? [= <-]; by eexists|].
    intros j c Hj _. exists i, b. split_and!; [done..|]. by apply Hleast, elem_of_map_to_list.
  - split; [done|]. intros j c Hj. apply elem_of_map_to_list in Hj. rewrite Hl in Hj. by apply not_elem_of_nil in Hj.
Qed.

(** After the update of an expired feed the iterator is where the rest begins. *)
Lemma reached_next d d' id b : reached d (Some id) -> bitassets d !! id = Some b -> renewed id b d d' ->
  (forall b', bitassets d' !! id = Some b' -> ~ expired_in d' (id, b')) -> reached d' (next_by_expiration d (id, b)).
Proof.
  intros [_ Hr] Hb [Et Eo Hthis] Hnot. unfold next_by_expiration.
  pose proof (least_expiring (filter (fun y => expires_before (id, b) y = true) (map_to_list (bitassets d)))) as Hl.
  assert (forall j c, j <> id -> bitassets d' !! j = Some c -> expired_in d' (j, c) ->
    (j, c) ∈ filter (fun y => expires_before (id, b) y = true) (map_to_list (bitassets d))) as Hrest.
  { intros j c Hj Hc He. rewrite Eo in Hc by done. unfold expired_in in He. rewrite Et in He.
    destruct (Hr j c Hc He) as (i & x & [= <-] & Hb2 & Hbefore). assert (b = x) as <- by congruence.
    apply list_elem_of_filter. split; [by apply expires_before_total | by apply elem_of_map_to_list]. }
  destruct (list_min _ _) as [[n bn]|]; cbn.
  - destruct Hl as [Hin Hleast]. apply list_elem_of_filter in Hin as [Hafter Hin]. apply elem_of_map_to_list in Hin.
    assert (n <> id) as Hne by (intros ->; assert (b = bn) as <- by congruence; unfold expires_before in Hafter; cbn in Hafter; lia).
    assert (bitassets d' !! n = Some bn) as Hn by (by rewrite Eo).
    split; [intros ? [= <-]; by eexists|]. intros j c Hc He. exists n, bn. split_and!; [done..|].
    apply Hleast, Hrest; [|done..]. intros ->. by apply (Hnot c).
  - split; [done|]. intros j c Hc He. exfalso. apply (not_elem_of_nil (j, c)). rewrite <- Hl. apply Hrest; [|done..].
    intros ->. by apply (Hnot c).
Qed.

Lemma renewed_lifetimes id b d d' : renewed id b d d' -> bitassets d !! id = Some b -> lifetimes_ok d -> lifetimes_ok d'.
Proof.
  intros [Et Eo (b' & Hb' & _ & Eopt & _)] Hb [Hn Hl]. split; [by rewrite Et|]. intros j c Hj.
  destruct (decide (j = id)) as [->|Hne]; [|rewrite Eo in Hj by done; by eapply Hl].
  assert (c = b') as -> by congruence. rewrite Eopt. by eapply Hl.
Qed.

Lemma renewed_not_expired id b d d' : renewed id b d d' -> lifetimes_ok d ->
  forall b', bitassets d' !! id = Some b' -> ~ expired_in d' (id, b').
Proof.
  intros [Et _ (b' & Hb' & _ & Eopt & Ha)] [Hn _] c Hc. assert (c = b') as -> by congruence.
  unfold expired_in. cbn. rewrite Et, alive_not_expired; [done | exact Hn | by rewrite Eopt].
Qed.

(** One element of a map stops to satisfy a predicate. *)
Lemma filter_shrinks {A} (P : Z * A -> Prop) `{forall x, Decision (P x)} (m : gmap Z A) i x y :
  m !! i = Some x -> P (i, x) -> ~ P (i, y) -> S (size (filter P (<[i := y]> m))) = size (filter P m).
Proof.
  intros Hx HP Hy. assert (filter P m !! i = Some x) as Hin by (by apply map_lookup_filter_Some).
  rewrite map_filter_insert_False, map_filter_delete, map_size_delete_Some; [| by exists x | done].
  assert (size (filter P m) <> 0%nat) as Hpos; [|lia].
  intros E0. apply map_size_empty_iff in E0. by rewrite E0, lookup_empty in Hin.
Qed.

Lemma renewed_pending id b d d' : renewed id b d d' -> bitassets d !! id = Some b -> expired_in d (id, b) ->
  (forall b', bitassets d' !! id = Some b' -> ~ expired_in d' (id, b')) -> S (pending d') = pending d.
Proof.
  intros [Et Eo (b' & Hb' & _)] Hb He Hnot. unfold pending.
  assert (bitassets d' = <[id := b']> (bitassets d)) as Em.
  { apply map_eq. intros j. destruct (decide (j = id)) as [->|Hne]; [by rewrite lookup_insert_eq|].
    by rewrite lookup_insert_ne, Eo. }
  assert (filter (expired_in d') (bitassets d') = filter (expired_in d) (bitassets d')) as Ef.
  { apply map_filter_ext. intros i x _. unfold expired_in. by rewrite Et. }
  rewrite Ef, Em. apply (filter_shrinks _ _ _ b); [done..|]. unfold expired_in in *. rewrite Et in Hnot. by apply Hnot.
Qed.

(** The data of an asset are stored under its id. *)
Definition ids_ok (d : database) : Prop := forall i b, bitassets d !! i = Some b -> ba_asset_id b = i.

(** Nothing is expired any more, and what was not expired is as before. *)
Record drained (d d' : database) : Prop := {
  dr_time : head_block_time d' = head_block_time d;
  dr_none : forall i b, bitassets d' !! i = Some b -> ~ expired_in d (i, b);
  dr_kept : forall i b, bitassets d !! i = Some b -> ~ expired_in d (i, b) -> bitassets d' !! i = Some b;
  dr_ids : ids_ok d -> ids_ok d';
}.

Lemma reached_drained d itr : reached d itr ->
  (forall i b, itr = Some i -> bitassets d !! i = Some b -> ~ expired_in d (i, b)) -> drained d d.
Proof.
  intros [_ Hr] Hend. split; [done | | done | done]. intros j c Hj He. destruct (Hr j c Hj He) as (i & b & -> & Hb & Hbefore).
  apply (Hend i b eq_refl Hb). unfold expired_in, feed_is_expired, expires_before in *. cbn in *. reflect_bools. lia.
Qed.

Lemma drained_step id b d d1 d' : renewed id b d d1 -> bitassets d !! id = Some b -> expired_in d (id, b) ->
  drained d1 d' -> drained d d'.
Proof.
  intros [Et Eo (b' & Hb' & Eid & _)] Hb Hex [Ft Fn Fk Fi]. unfold expired_in in *. rewrite Et in *.
  split; [done | exact Fn | |].
  2: { intros Hids. apply Fi. intros i c Hc. destruct (decide (i = id)) as [->|Hne]; [|rewrite Eo in Hc by done; by apply Hids].
       assert (c = b') as -> by congruence. rewrite Eid. by apply Hids. }
  intros i c Hi Hc. apply Fk; [|done]. rewrite Eo; [done|]. intros ->. assert (c = b) as -> by congruence. done.
Qed.

Lemma expired_loop_ends fuel d itr : (pending d <= fuel)%nat -> reached d itr -> lifetimes_ok d ->
  exists r, update_expired_feeds_loop fuel d itr = Some r /\ forall d', r = Ok d' -> drained d d'.
Proof.
  revert d itr. induction fuel as [|fuel IH]; intros d itr Hf Hr Hl;
    (destruct itr as [id|]; [|by exists (Ok d); split; [|intros ? [= <-]; eapply reached_drained]]);
    destruct (proj1 Hr id eq_refl) as [b Hb]; cbn; rewrite Hb;
    destruct (feed_is_expired b (head_block_time d)) eqn:He.
  2, 4: exists (Ok d); split; [done|]; intros ? [= <-]; eapply reached_drained; [exact Hr|]; intros i c [= <-] Hc;
    assert (c = b) as -> by congruence; unfold expired_in; cbn; congruence.
  - exfalso. assert (filter (expired_in d) (bitassets d) !! id = Some b) as Hin by (by apply map_lookup_filter_Some).
    assert (pending d = 0%nat) as E0 by lia. apply map_size_empty_iff in E0. by rewrite E0, lookup_empty in Hin.
  - destruct (update_expired_feed d id b) as [d1|e] eqn:E; [|by exists (Err e)].
    apply expired_feed_renewed in E as Hren; [|by eapply Hl].
    pose proof (renewed_not_expired _ _ _ _ Hren Hl) as Hnot.
    destruct (IH d1 (next_by_expiration d (id, b))) as (r & Er & Hdr).
    + pose proof (renewed_pending _ _ _ _ Hren Hb He Hnot). lia.
    + by eapply reached_next.
    + by eapply renewed_lifetimes.
    + exists r. split; [done|]. intros d' E'. eapply drained_step; [exact Hren | done | done | by apply Hdr].
Qed.

(** ** The loop over the exchange rates *)

Definition waiting (x : entry) : Prop := need_to_update_cer (snd x) = true.
#[local] Instance waiting_dec x : Decision (waiting x) := bool_eq_dec _ _.

Definition rate_of (a : asset_object) : price := ao_core_exchange_rate (as_options a).

(** Every asset whose exchange rate waits takes the one of its feed; nothing else changes. *)
Record rates_taken (d d' : database) : Prop := {
  rt_time : head_block_time d' = head_block_time d;
  rt_bitassets : forall i, bitassets d' !! i = (fun b => if need_to_update_cer b then cer_taken b else b) <$> bitassets d !! i;
  rt_taken : forall i b, bitassets d !! i = Some b -> waiting (i, b) ->
    exists a, rows (assets d') !! i = Some a /\ price_eq (rate_of a) (feed_cer (ba_current_feed b)) = true;
  rt_kept : forall i, (forall b, bitassets d !! i = Some b -> ~ waiting (i, b)) -> rows (assets d') !! i = rows (assets d) !! i;
}.

Lemma taken_not_waiting i b : ~ waiting (i, cer_taken b).
Proof. unfold waiting, need_to_update_cer, cer_taken. cbn. done. Qed.

Lemma price_eq_refl p : price_eq p p = true.
Proof. unfold price_eq. by rewrite !Z.eqb_refl. Qed.

Lemma exchange_rate_taken d id b d' : bitassets d !! id = Some b -> ba_asset_id b = id ->
  update_core_exchange_rate d id b = Ok d' ->
  (exists a, rows (assets d') !! id = Some a /\ price_eq (rate_of a) (feed_cer (ba_current_feed b)) = true)
  /\ forall j, j <> id -> rows (assets d') !! j = rows (assets d) !! j.
Proof.
  unfold update_core_exchange_rate, get_asset, tfind, rate_of. intros Hb Hid E. mon.
  destruct (price_eq _ _) eqn:Ep; cbn [negb].
  - split; [|done]. by eexists.
  - split.
    + eexists. split; [apply lookup_insert_eq|]. apply price_eq_refl.
    + intros j Hj. by apply lookup_insert_ne.
Qed.

Lemma last_cer_spec d : match last_cer_update d with
  | Some (i, b) => bitassets d !! i = Some b /\ waiting (i, b)
  | None => forall i b, bitassets d !! i = Some b -> ~ waiting (i, b)
  end.
Proof.
  unfold last_cer_update. destruct (list_min _ _) as [[i b]|] eqn:E.
  - apply list_min_in, list_elem_of_filter in E as [HP Hin]. by apply elem_of_map_to_list in Hin.
  - apply list_min_None in E. intros i b Hb Hw. apply (not_elem_of_nil (i, b)). rewrite <- E.
    apply list_elem_of_filter. split; [done|]. by apply elem_of_map_to_list.
Qed.

Lemma rates_loop_ends fuel d : (size (filter waiting (bitassets d)) <= fuel)%nat ->
  ids_ok d -> exists r, update_core_exchange_rates_loop fuel d = Some r /\ forall d', r = Ok d' -> rates_taken d d'.
Proof.
  revert d. induction fuel as [|fuel IH]; intros d Hf Hids; cbn;
    pose proof (last_cer_spec d) as Hlast; destruct (last_cer_update d) as [[id b]|].
  2, 4: exists (Ok d); split; [done|]; intros ? [= <-]; split; [done | | by intros i b Hb Hw; destruct (Hlast i b) | done];
    intros i; destruct (bitassets d !! i) as [b|] eqn:Hb; [|done]; cbn; pose proof (Hlast i b Hb) as Hw;
    unfold waiting in Hw; cbn in Hw; by destruct (need_to_update_cer b).
  - destruct Hlast as [Hb Hw]. exfalso. assert (filter waiting (bitassets d) !! id = Some b) as Hin by (by apply map_lookup_filter_Some).
    assert (size (filter waiting (bitassets d)) = 0%nat) as E0 by lia. apply map_size_empty_iff in E0. by rewrite E0, lookup_empty in Hin.
  - destruct Hlast as [Hb Hw]. destruct (update_core_exchange_rate d id b) as [d1|e] eqn:E; [|by exists (Err e)].
    destruct (exchange_rate_taken _ _ _ _ Hb (Hids _ _ Hb) E) as [Hrate Hothers].
    apply exchange_rate_renewed in E as [Et Eb]. destruct (IH d1) as (r & Er & Hr).
    + pose proof (filter_shrinks waiting (bitassets d) id b (cer_taken b) Hb Hw (taken_not_waiting _ _)) as Hs. rewrite Eb. lia.
    + intros i c. rewrite Eb. destruct (decide (i = id)) as [->|Hne]; [rewrite lookup_insert_eq | rewrite lookup_insert_ne by done; apply Hids].
      intros [= <-]. exact (Hids id b Hb).
    + exists r. split; [done|]. intros d' E'. destruct (Hr d' E') as [Ft Fb Ftk Fk]. split; [congruence | | |].
      * intros i. rewrite Fb, Eb. destruct (decide (i = id)) as [->|Hne]; [|by rewrite lookup_insert_ne].
        rewrite lookup_insert_eq, Hb. cbn. unfold waiting in Hw. cbn in Hw. by rewrite Hw.
      * intros i c Hc Hcw. destruct (decide (i = id)) as [->|Hne]; [|apply Ftk; [by rewrite Eb, lookup_insert_ne | done]].
        assert (c = b) as -> by congruence. rewrite Fk; [exact Hrate|]. intros x. rewrite Eb, lookup_insert_eq.
        intros [= <-]. apply taken_not_waiting.
      * intros i Hi. destruct (decide (i = id)) as [->|Hne]; [by destruct (Hi b)|]. rewrite Fk; [by apply Hothers|].
        intros x. rewrite Eb, lookup_insert_ne by done. apply Hi.
Qed.

End Expiry.

(** ** Witness *)

Module SampleLongDouble.
#[export] Instance sample_growth : LongDouble := fun _ => None.
End SampleLongDouble.

Section ExpirySample.
Import SampleNthElement SampleLongDouble.

(** The feed of asset 1 is expired; that of asset 2 is alive, and its exchange rate waits. *)
Definition sample_rate : price := Price (Asset 3 2) (Asset 7 CORE).
Definition waiting_bitasset : asset_bitasset_data_object :=
  sample_bitasset <| ba_asset_id := 2 |> <| ba_feed_cer_updated := true |>
    <| ba_current_feed := PriceFeedIcr (PriceFeed sample_rate sample_rate 1750 1100) 2000 |>
    <| ba_current_feed_publication_time := 1799999000 |>.
Definition feeds_db : database :=
  sample_db <| assets := table_from [sample_asset "DFS" 3 0 1 None;
                                     (sample_asset "USD" 5 1 1 None) <| as_market_issued := true |>;
                                     (sample_asset "EUR" 5 1 2 None) <| as_market_issued := true |>] |>
    <| bitassets := <[1 := sample_bitasset]> (<[2 := waiting_bitasset]> ∅) |>.

Lemma feeds_db_bitassets i b : bitassets feeds_db !! i = Some b -> i = 1 /\ b = sample_bitasset \/ i = 2 /\ b = waiting_bitasset.
Proof.
  change (bitassets feeds_db) with (<[1 := sample_bitasset]> (<[2 := waiting_bitasset]> (∅ : gmap Z asset_bitasset_data_object))).
  rewrite !lookup_insert_Some, lookup_empty. intros [[<- <-]|[_ [[<- <-]|[_ ?]]]]; [by left | by right | done].
Qed.

(** A feed in GOLD, the asset 2, and the quoted asset of the current feed after an update:
    with the response [no_settlement] the price is not converted to the core asset. *)
Definition gold_quoted (response : option Z) : asset_bitasset_data_object :=
  let feed := PriceFeedIcr (PriceFeed (Price (Asset 3000 1) (Asset 7000 2)) (Price (Asset 3 1) (Asset 7 CORE)) 1750 1100) 2000 in
  BitassetData 1 (BitassetOptions 86400 1 86400 0 2000 CORE None None None None None response)
    [(5, (1799999000, feed))] default_feed_with_icr default_feed_with_icr 0 null_price null_price false 0 null_price 0 0 0 false false.
Definition gold_quoted_db : database :=
  sample_db <| assets := table_from [sample_asset "DFS" 3 0 1 None;
                                     (sample_asset "USD" 5 1 1 None) <| as_market_issued := true |>;
                                     (sample_asset "GOLD" 3 1 2 None) <| as_market_issued := true |>] |>.
Definition quoted_in (response : option Z) : option asset_id_type :=
  match update_bitasset_current_feed gold_quoted_db 1 (gold_quoted response) false with
  | Ok d => (fun b => asset_id (quote (feed_price (ba_current_feed b)))) <$> bitassets d !! 1
  | Err _ => None
  end.

Example gold_feed_not_converted : quoted_in None = Some CORE /\ quoted_in (Some no_settlement) = Some 2.
Proof. split; vm_compute; reflexivity. Qed.
End ExpirySample.
