(* ===== verification/AssetSteps.v ===== *)
(** What the operations on assets do to the register of the assets: an operation that
    succeeds changes the entry of an existing asset in one of a few ways
    ([entry_step]), the data of a market-issued asset in one of a few ways ([bit_step]),
    and nothing else. The theorems about assets are proved against [RegisterLaws], the
    operations discharge it. *)
From S2P Require Import Prelude Records Fc Asset Objects Vesting Database Holdings Sample Fees Evaluator Feed Market AssetRules BitassetFeed Bids AssetOps FeedOps.

(** ** The steps *)

(** An asset [a] with the current supply [s], and what becomes of them. *)
Inductive entry_step (d : database) (i : asset_id_type) (a : asset_object) (s : Z) : asset_object -> Z -> Prop :=
  | entry_same : entry_step d i a s a s
  | entry_issued n : 0 < n -> s + n <= ao_max_supply (as_options a) -> can_create_new_supply a = true ->
      as_market_issued a = false -> entry_step d i a s a (s + n)
  | entry_reserved n : 0 < n <= s -> as_market_issued a = false -> entry_step d i a s a (s - n)
  | entry_updated op bitasset : asset_update_validate op = Ok tt -> asset_update_do_evaluate d op = Ok (a, bitasset) ->
      upd_asset_to_update op = i -> entry_step d i a s (updated_asset a op) s
  | entry_new_issuer op : asset_update_issuer_do_evaluate d op = Ok a -> upi_asset_to_update op = i ->
      entry_step d i a s (a <| as_issuer := upi_new_issuer op |>) s.

(** Everything but the feeds, the exchange rate flags, and perhaps the options; a globally
    settled asset may have been revived. *)
Record refed (o : bitasset_options) (b b' : asset_bitasset_data_object) : Prop := {
  rf_id : ba_asset_id b' = ba_asset_id b;
  rf_options : ba_options b' = o;
  rf_pm : ba_is_prediction_market b' = ba_is_prediction_market b;
  rf_debt : ba_individual_settlement_debt b' = ba_individual_settlement_debt b;
  rf_pool : ba_individual_settlement_fund b' = ba_individual_settlement_fund b;
  rf_fund : ba_settlement_price b' = ba_settlement_price b /\ ba_settlement_fund b' = ba_settlement_fund b
            \/ ba_settlement_price b' = null_price /\ ba_settlement_fund b' = 0;
}.

Section Steps.
Context `{SafeInt64Laws} `{Rational} `{NthElement} `{LongDouble}.

Inductive bit_step (d : database) (i : asset_id_type) (b : asset_bitasset_data_object) : asset_bitasset_data_object -> Prop :=
  | bit_fed b' : refed (ba_options b) b b' -> bit_step d i b b'
  | bit_updated op a bsrm b' : asset_update_bitasset_do_evaluate d op = Ok (a, b, bsrm) ->
      ubo_asset_to_update op = i -> refed (ubo_new_options op) b b' -> bit_step d i b b'.

(** An operation changes the object of one asset, or the data of one market-issued asset. *)
Inductive focus (d d' : database) : Prop :=
  | focus_bitasset i : assets d' = assets d -> (forall j, j <> i -> bitassets d' !! j = bitassets d !! j) -> focus d d'
  | focus_asset i : (forall j, j <> i -> rows (assets d') !! j = rows (assets d) !! j) ->
      (forall j b', bitassets d' !! j = Some b' -> exists b, bitassets d !! j = Some b /\ refed (ba_options b) b b') -> focus d d'.

(** The register after an operation: no asset comes or goes. *)
Record registered (d d' : database) : Prop := {
  rg_assets : forall i a, rows (assets d) !! i = Some a ->
    exists a', rows (assets d') !! i = Some a' /\ entry_step d i a (supply i d) a' (supply i d');
  rg_no_new : forall i, is_Some (rows (assets d') !! i) -> is_Some (rows (assets d) !! i);
  rg_bitassets : forall i b, bitassets d !! i = Some b ->
    exists b', bitassets d' !! i = Some b' /\ bit_step d i b b';
  rg_no_new_bitassets : forall i, is_Some (bitassets d' !! i) -> is_Some (bitassets d !! i);
  rg_next : next_id (assets d') = next_id (assets d);
  rg_focus : focus d d';
}.

(** The promise of an operation on assets. *)
Class RegisterLaws Op Ctx Res `{!Evaluator Op Ctx Res} : Prop := {
  apply_registers d0 d (op : Op) (ctx : Ctx) d' (r : Res) :
    validate op = Ok tt -> do_evaluate d0 op = Ok ctx -> only_fees d0 d ->
    do_apply d op ctx = Ok (d', r) -> registered d0 d';
}.

Lemma refed_refl b : refed (ba_options b) b b.
Proof. split; try done. by left. Qed.

Lemma same_funds_refed b b' : same_funds b b' -> refed (ba_options b) b b'.
Proof. intros [E1 E2 E3 E4 E5 E6 E7]. split; try done. by left. Qed.

Lemma refed_trans o b1 b2 b3 : refed o b1 b2 -> refed (ba_options b2) b2 b3 -> refed o b1 b3.
Proof.
  intros [E1 E2 E3 E4 E5 E6] [F1 F2 F3 F4 F5 F6]. split; [congruence..|].
  destruct F6 as [[F6 F7]|F6]; [rewrite F6, F7; exact E6 | by right].
Qed.

(** Tables that are the same, or differ in one row. *)
Lemma registered_dyn d d' : assets d' = assets d -> bitassets d' = bitassets d ->
  (forall i a, rows (assets d) !! i = Some a -> entry_step d i a (supply i d) a (supply i d')) -> registered d d'.
Proof.
  intros Ea Eb Hs. split; rewrite ?Ea, ?Eb; [eauto | done | | done | done | apply (focus_bitasset _ _ 0); [done | by rewrite Eb]].
  intros i b Hb. exists b. split; [done|]. apply bit_fed, refed_refl.
Qed.

Lemma registered_entry d d' i a a' : rows (assets d) !! i = Some a -> assets d' = tmodify (assets d) i a' ->
  (forall j b, bitassets d !! j = Some b -> exists b', bitassets d' !! j = Some b' /\ refed (ba_options b) b b') ->
  (forall j, is_Some (bitassets d' !! j) -> is_Some (bitassets d !! j)) ->
  (forall j, supply j d' = supply j d) -> entry_step d i a (supply i d) a' (supply i d) -> registered d d'.
Proof.
  intros Ha Ea Hb Hb' Hs He. split.
  - intros j x Hx. rewrite Ea, Hs. destruct (decide (j = i)) as [->|Hne].
    + exists a'. split; [apply lookup_tmodify|]. assert (x = a) as -> by congruence. exact He.
    + exists x. split; [by rewrite lookup_tmodify_ne | apply entry_same].
  - intros j [x Hx]. destruct (decide (j = i)) as [->|Hne]; [by eexists|].
    rewrite Ea, lookup_tmodify_ne in Hx by done. by eexists.
  - intros j b Hj. destruct (Hb j b Hj) as (b' & Hb2 & Hr). exists b'. split; [done | by apply bit_fed].
  - exact Hb'.
  - by rewrite Ea.
  - apply (focus_asset _ _ i).
    + intros j Hj. rewrite Ea. by apply lookup_tmodify_ne.
    + intros j b' Hj. destruct (Hb' j) as [b Hb0]; [by eexists|]. exists b. split; [done|].
      destruct (Hb j b Hb0) as (b2 & Hb2 & Hr). congruence.
Qed.

Lemma registered_bit d d' i b b' : bitassets d !! i = Some b -> assets d' = assets d ->
  (forall j, supply j d' = supply j d) -> bitassets d' !! i = Some b' ->
  (forall j, j <> i -> bitassets d' !! j = bitassets d !! j) -> bit_step d i b b' -> registered d d'.
Proof.
  intros Hb Ea Hs Hb' Hne Hstep. split.
  - intros j x Hx. rewrite Ea, Hs. exists x. split; [done | apply entry_same].
  - by rewrite Ea.
  - intros j x Hx. destruct (decide (j = i)) as [->|Hj].
    + exists b'. split; [done|]. assert (x = b) as -> by congruence. exact Hstep.
    + exists x. rewrite Hne by done. split; [done|]. apply bit_fed, refed_refl.
  - intros j Hj. destruct (decide (j = i)) as [->|Hj']; [by eexists|]. by rewrite Hne in Hj.
  - by rewrite Ea.
  - by apply (focus_bitasset _ _ i).
Qed.

(** A change of the supply of one asset. *)
Lemma supply_set_dyn d i x y j : dyn_data d !! i = Some y ->
  supply j (set_dyn d i x) = supply j d + ind j i * (dd_current_supply x - dd_current_supply y).
Proof. intros Hy. unfold supply, set_dyn. cbn. by apply supply_in_insert. Qed.

Lemma supply_get d i y : dyn_data d !! i = Some y -> supply i d = dd_current_supply y.
Proof. intros Hy. unfold supply, supply_in. by rewrite Hy. Qed.

Lemma adjust_balance_supply d acc x d' : adjust_balance d acc x = Ok d' ->
  assets d' = assets d /\ bitassets d' = bitassets d /\ dyn_data d' = dyn_data d.
Proof. intros E. destruct (adjust_balance_bids _ _ _ _ E) as [m ->]. done. Qed.
(** ** The operations keep the promise *)

(** The tables of the database the checks ran on. *)
Ltac before_fees F :=
  let Ea := fresh "Ea" in let Eb := fresh "Eb" in let Es := fresh "Es" in
  destruct (only_fees_tables _ _ F) as (Ea & Eb & _ & _ & _ & _ & _ & _ & _ & _ & Es).

#[export] Instance asset_issue_registers : RegisterLaws asset_issue_operation unit unit.
Proof.
  split. cbn. unfold asset_issue_validate, asset_issue_do_evaluate, asset_issue_do_apply, get_dyn, get_asset, tfind.
  intros d0 d op [] d' [] Hval Heval Hfees E. before_fees Hfees. mon. safe_ints. subst.
  match goal with E : adjust_balance _ _ _ = Ok _ |- _ => apply adjust_balance_supply in E as (Fa & Fb & Fd) end.
  apply registered_dyn; [cbn; congruence.. |]. intros i a Ha. rewrite <- Es.
  match goal with H : dyn_data d0 !! _ = Some _ |- _ => pose proof (supply_get _ _ _ H) as Es0 end.
  match goal with H : dyn_data _ !! _ = Some ?y |- context [set_dyn _ ?k ?x] =>
    rewrite (supply_set_dyn _ k x y) by exact H; pose proof (supply_get _ _ _ H) as Es1 end.
  cbn. unfold supply in *. rewrite Fd in *. unfold ind.
  destruct (Z.eqb_spec (asset_id (iss_asset_to_issue op)) i) as [<-|Hi].
  - match goal with |- entry_step _ _ _ ?s _ ?s' => replace s' with (s + amount (iss_asset_to_issue op)) by lia end.
    match goal with H : rows (assets d0) !! _ = Some ?x |- _ => assert (x = a) as -> by congruence end.
    rewrite <- Es in Es0. apply entry_issued; [lia.. | | ]; by destruct (as_market_issued a).
  - rewrite Z.mul_0_l, Z.add_0_r. apply entry_same.
Qed.
#[export] Instance asset_reserve_registers : RegisterLaws asset_reserve_operation unit unit.
Proof.
  split. cbn. unfold asset_reserve_validate, asset_reserve_do_evaluate, asset_reserve_do_apply, get_dyn, get_asset, tfind.
  intros d0 d op [] d' [] Hval Heval Hfees E. before_fees Hfees. mon. safe_ints. subst.
  match goal with E : adjust_balance _ _ _ = Ok _ |- _ => apply adjust_balance_supply in E as (Fa & Fb & Fd) end.
  apply registered_dyn; [cbn; congruence.. |]. intros i a Ha. rewrite <- Es.
  match goal with H : dyn_data d0 !! _ = Some ?y, E : (if negb (is_liquidity_pool_share_asset _) then _ else _) = _ |- _ =>
    pose proof (supply_get _ _ _ H) as Es0; assert (amount (rsv_amount_to_reserve op) <= dd_current_supply y) as Hle
      by (case_match; mon; lia) end.
  match goal with H : dyn_data _ !! _ = Some ?y |- context [set_dyn _ ?k ?x] =>
    rewrite (supply_set_dyn _ k x y) by exact H; pose proof (supply_get _ _ _ H) as Es1 end.
  cbn. unfold supply in *. rewrite Fd in *. unfold ind.
  destruct (Z.eqb_spec (asset_id (rsv_amount_to_reserve op)) i) as [<-|Hi].
  - match goal with |- entry_step _ _ _ ?s _ ?s' => replace s' with (s - amount (rsv_amount_to_reserve op)) by lia end.
    match goal with H : rows (assets d0) !! _ = Some ?x |- _ => assert (x = a) as -> by congruence end.
    rewrite <- Es in Es0. apply entry_reserved; [lia|]. by destruct (as_market_issued a).
  - rewrite Z.mul_0_l, Z.add_0_r. apply entry_same.
Qed.

(** An operation that only moves fees. *)
Lemma registered_fees d0 d d1 i x y m d' : only_fees d0 d -> dyn_data d1 !! i = Some y ->
  dd_current_supply x = dd_current_supply y -> d1 = d <| balances := m |> -> assets d' = assets d ->
  bitassets d' = bitassets d -> dyn_data d' = <[i := x]> (dyn_data d1) -> registered d0 d'.
Proof.
  intros Hfees Hy Hs -> Fa Fb Fd. before_fees Hfees. cbn in Hy.
  apply registered_dyn; [congruence.. |]. intros j a Ha. rewrite <- Es.
  replace (supply j d') with (supply j d); [apply entry_same|].
  unfold supply. rewrite Fd. cbn. rewrite (supply_in_insert _ _ _ _ _ Hy), Hs. lia.
Qed.

#[export] Instance asset_fund_fee_pool_registers : RegisterLaws asset_fund_fee_pool_operation unit unit.
Proof.
  split. cbn. unfold asset_fund_fee_pool_do_apply, get_dyn. intros d0 d op [] d' [] _ _ Hfees E. mon.
  match goal with E : adjust_balance _ _ _ = Ok _ |- _ => apply adjust_balance_bids in E as [m Em] end.
  eapply registered_fees; [exact Hfees | eassumption | | exact Em | by subst | by subst | reflexivity]. done.
Qed.

#[export] Instance asset_claim_fees_registers : RegisterLaws asset_claim_fees_operation unit unit.
Proof.
  split. cbn. unfold asset_claim_fees_do_apply, get_dyn. intros d0 d op [] d' [] _ _ Hfees E. mon.
  match goal with E : adjust_balance _ _ _ = Ok _ |- _ => apply adjust_balance_supply in E as (Fa & Fb & Fd) end.
  match goal with H : dyn_data d !! _ = Some ?y, F : dyn_data d' = dyn_data (set_dyn _ ?i ?x) |- _ =>
    assert (dd_current_supply x = dd_current_supply y) as Hs by (destruct (_ =? _); by mon);
    apply (registered_fees d0 d d i x y (balances d) d'); [done | exact H | exact Hs | by destruct d | exact Fa | exact Fb | exact F] end.
Qed.

#[export] Instance asset_claim_pool_registers : RegisterLaws asset_claim_pool_operation unit unit.
Proof.
  split. cbn. unfold asset_claim_pool_do_apply, get_dyn. intros d0 d op [] d' [] _ _ Hfees E. mon.
  match goal with E : adjust_balance _ _ _ = Ok _ |- _ => apply adjust_balance_supply in E as (Fa & Fb & Fd) end.
  match goal with H : dyn_data d !! _ = Some ?y, F : dyn_data d' = dyn_data (set_dyn _ ?i ?x) |- _ =>
    apply (registered_fees d0 d d i x y (balances d) d'); [done | exact H | done | by destruct d | exact Fa | exact Fb | exact F] end.
Qed.

#[export] Instance asset_update_issuer_registers : RegisterLaws asset_update_issuer_operation asset_object unit.
Proof.
  split. cbn. unfold asset_update_issuer_do_apply. intros d0 d op a d' [] _ Heval Hfees E. before_fees Hfees. mon.
  assert (rows (assets d0) !! upi_asset_to_update op = Some a) as Ha
    by (unfold asset_update_issuer_do_evaluate, get_asset, tfind in Heval; by mon).
  apply (registered_entry d0 _ _ a (a <| as_issuer := upi_new_issuer op |>) Ha).
  - cbn. by rewrite Ea.
  - intros j b Hb. exists b. cbn. rewrite Eb. split; [done | apply refed_refl].
  - intros j. cbn. by rewrite Eb.
  - exact Es.
  - by apply entry_new_issuer.
Qed.

(** What noting a new exchange rate leaves alone. *)
Lemma note_new_rate_refed d a bitasset op :
  (forall b, bitasset = Some b -> bitassets d !! upd_asset_to_update op = Some b) ->
  let d' := note_new_rate d a bitasset op in
  (forall j, supply j d' = supply j d)
  /\ (forall j b, bitassets d !! j = Some b -> exists b', bitassets d' !! j = Some b' /\ refed (ba_options b) b b')
  /\ (forall j, is_Some (bitassets d' !! j) -> is_Some (bitassets d !! j)).
Proof.
  intros Hget. cbn zeta. unfold note_new_rate.
  assert ((forall j, supply j d = supply j d)
    /\ (forall j b, bitassets d !! j = Some b -> exists b', bitassets d !! j = Some b' /\ refed (ba_options b) b b')
    /\ (forall j, is_Some (bitassets d !! j) -> is_Some (bitassets d !! j))) as Hsame.
  { split_and!; [done | | done]. intros j b Hj. exists b. split; [done | apply refed_refl]. }
  destruct bitasset as [b0|]; [|exact Hsame]. destruct (_ && _); [|exact Hsame]. split_and!; [done | |].
  - intros j b Hj. cbn. destruct (decide (j = upd_asset_to_update op)) as [->|Hne].
    + rewrite lookup_insert_eq. eexists. split; [reflexivity|].
      rewrite (Hget b0) in Hj by done. injection Hj as <-. split; try done. by left.
    + rewrite lookup_insert_ne by done. exists b. split; [done | apply refed_refl].
  - intros j. cbn. destruct (decide (j = upd_asset_to_update op)) as [->|Hne].
    + intros _. rewrite (Hget b0) by done. by eexists.
    + by rewrite lookup_insert_ne.
Qed.

#[export] Instance asset_update_registers :
  RegisterLaws asset_update_operation (asset_object * option asset_bitasset_data_object) unit.
Proof.
  split. cbn. intros d0 d op [a bitasset] d' [] Hval Heval Hfees E. before_fees Hfees.
  destruct (asset_update_context _ _ _ _ Heval) as (Ha & Hb & _).
  assert (forall b, bitasset = Some b -> bitassets d0 !! upd_asset_to_update op = Some b) as Hget
    by (intros b ->; by destruct (as_market_issued a)).
  clear Hb. unfold asset_update_do_apply in E. mon.
  match goal with E1 : (if _ then cancel_all_settle_orders _ _ else _) = Ok ?x,
      E2 : (if _ then cancel_all_bids _ _ else _) = Ok ?y |- _ =>
    destruct (asset_update_cancels _ _ _ _ _ E1 E2) as [(m & l & s & bd & Ed) _]; rename y into d2 end.
  assert (bitassets d2 = bitassets d0 /\ assets d2 = assets d0 /\ forall j, supply j d2 = supply j d0) as (Eb2 & Ea2 & Es2)
    by (subst d2; cbn; rewrite Ea, Eb; auto).
  clear Ed. rewrite <- Eb2 in Hget. destruct (note_new_rate_refed d2 a bitasset op Hget) as (Ns & Nb & Nn).
  destruct (note_new_rate_shifts d2 a bitasset op Hget) as [_ Na].
  rewrite Eb2 in Nb, Nn. apply (registered_entry _ _ _ _ (updated_asset a op) Ha).
  - cbn. by rewrite Na, Ea2.
  - exact Nb.
  - exact Nn.
  - intros j. change (supply j (set_asset ?x _ _)) with (supply j x). by rewrite Ns, Es2.
  - by eapply entry_updated.
Qed.
(** Only the data of the asset [i] differ, from [b] to [b']. *)
Record only_bit (o : bitasset_options) (i : asset_id_type) (b b' : asset_bitasset_data_object) (d d' : database) : Prop := {
  ob_assets : assets d' = assets d;
  ob_supply : forall j, supply j d' = supply j d;
  ob_others : forall j, j <> i -> bitassets d' !! j = bitassets d !! j;
  ob_this : bitassets d' !! i = Some b';
  ob_refed : refed o b b';
}.

Lemma only_bit_set o i b b' d : refed o b b' -> only_bit o i b b' d (set_bitasset d i b').
Proof.
  intros Hr. split; [done | done | | apply lookup_insert_eq | exact Hr]. intros j Hj. by apply lookup_insert_ne.
Qed.

Lemma only_bit_trans o i b1 b2 b3 d1 d2 d3 : only_bit o i b1 b2 d1 d2 -> only_bit (ba_options b2) i b2 b3 d2 d3 ->
  only_bit o i b1 b3 d1 d3.
Proof.
  intros [Ea Es Eo _ Er] [Fa Fs Fo Ft Fr]. split; [congruence | congruence | | exact Ft | by eapply refed_trans].
  intros j Hj. by rewrite Fo, Eo.
Qed.

Lemma feed_only_bit i b skip d d' : bitassets d !! i = Some b -> update_bitasset_current_feed d i b skip = Ok d' ->
  exists b', only_bit (ba_options b) i b b' d d'.
Proof.
  intros Hb E. destruct (update_feed_step _ _ _ _ _ Hb E) as (b' & Hs & t & -> & _). exists b'.
  apply same_funds_refed in Hs. split; [done | done | | apply lookup_insert_eq | exact Hs].
  intros j Hj. by apply lookup_insert_ne.
Qed.

(** New data are stored, and the feed is updated from them. *)
Lemma set_feed_only_bit o i b b1 skip d d' : refed o b b1 ->
  update_bitasset_current_feed (set_bitasset d i b1) i b1 skip = Ok d' -> exists b', only_bit o i b b' d d'.
Proof.
  intros Hb1 E. apply feed_only_bit in E as [b' Ho]; [|apply lookup_insert_eq].
  exists b'. eapply only_bit_trans; [by apply only_bit_set | exact Ho].
Qed.

Lemma revive_only_bit i a b d d' : bitassets d !! i = Some b -> revive_bitasset d i a b = Ok d' ->
  exists b', only_bit (ba_options b) i b b' d d'.
Proof.
  intros Hb E. destruct (revive_bitasset_shifts _ _ _ _ _ Hb E) as (_ & Eb & Ed & Ea). eexists.
  split; [exact Ea | | | rewrite Eb; apply lookup_insert_eq | split; try done; by right].
  - intros j. unfold supply. by rewrite Ed.
  - intros j Hj. rewrite Eb. by apply lookup_insert_ne.
Qed.

Lemma check_call_orders_same d a b r : check_call_orders d a b = Ok r -> fst r = d.
Proof. unfold check_call_orders. intros E. repeat case_match; by mon. Qed.

(** With [bit_step]: what the checks promise about the whole operation. *)
Lemma only_bit_registers o i b b' d0 d d' : only_fees d0 d -> bitassets d0 !! i = Some b ->
  only_bit o i b b' d d' -> bit_step d0 i b b' -> registered d0 d'.
Proof.
  intros Hfees Hb [Fa Fs Fo Ft _] Hstep. before_fees Hfees.
  apply (registered_bit _ _ i b b' Hb); [congruence | intros; congruence | exact Ft | | exact Hstep].
  intros j Hj. by rewrite Fo, Eb.
Qed.

Lemma get_bitasset_Some d i a b : get_bitasset d i a = Ok b -> bitassets d !! i = Some b.
Proof. unfold get_bitasset. intros E. by mon. Qed.

#[export] Instance asset_update_feed_producers_registers :
  RegisterLaws asset_update_feed_producers_operation asset_object unit.
Proof.
  split. cbn. unfold asset_update_feed_producers_do_apply. intros d0 d op a d' [] _ _ Hfees E. mon.
  repeat match goal with E : get_bitasset _ _ _ = Ok _ |- _ => apply get_bitasset_Some in E end.
  match goal with E : check_call_orders _ _ _ = Ok ?x |- _ => apply check_call_orders_same in E; destruct x; cbn in E; mon end.
  match goal with Hb : bitassets d !! _ = Some ?x, E : update_bitasset_current_feed _ _ ?b1 _ = Ok _ |- _ =>
    rename x into old; rename Hb into Hbit;
    apply (set_feed_only_bit (ba_options old) _ old) in E as [b' Ho]; [|split; try done; by left] end.
  eapply only_bit_registers; [done | | exact Ho | apply bit_fed, Ho].
  destruct (only_fees_tables _ _ Hfees) as (_ & <- & _). exact Hbit.
Qed.

#[export] Instance asset_publish_feed_registers :
  RegisterLaws asset_publish_feed_operation (asset_object * asset_bitasset_data_object) unit.
Proof.
  split. cbn. intros d0 d op [a b] d' [] _ Heval Hfees E.
  assert (bitassets d0 !! pub_asset_id op = Some b) as Hb.
  { unfold asset_publish_feed_do_evaluate in Heval. mon.
    by repeat match goal with E : get_bitasset _ _ _ = Ok _ |- _ => apply get_bitasset_Some in E end. }
  unfold asset_publish_feed_do_apply in E. mon.
  repeat match goal with E : get_bitasset _ _ _ = Ok _ |- _ => apply get_bitasset_Some in E end.
  match goal with E : update_bitasset_current_feed _ _ _ _ = Ok ?d1 |- _ =>
    rename d1 into d2; apply (set_feed_only_bit (ba_options b) _ b) in E as [b2 Ho]; [|split; try done; by left] end.
  assert (exists b', only_bit (ba_options b) (pub_asset_id op) b b' d d') as [b' Ho'].
  { match goal with H : bitassets d2 !! _ = Some ?x |- _ => rewrite (ob_this _ _ _ _ _ _ Ho) in H; injection H as -> end.
    match type of E with (if ?x then _ else _) = _ => destruct x end; mon; [by eexists|].
    repeat match goal with E : get_bitasset _ _ _ = Ok _ |- _ => apply get_bitasset_Some in E end.
    match goal with E : check_call_orders _ _ _ = Ok ?x |- _ => apply check_call_orders_same in E; destruct x; cbn in E; mon end.
    match goal with E : (if ?x then _ else _) = Ok _ |- _ => destruct x end; mon; [|by eexists].
    match goal with E : (if ?x then _ else _) = Ok _ |- _ => destruct x end; mon; [|by eexists].
    match goal with E : revive_bitasset _ _ _ _ = Ok _ |- _ =>
      apply revive_only_bit in E as [b3 Ho3]; [|apply Ho]; exists b3; eapply only_bit_trans; [exact Ho | exact Ho3] end. }
  eapply only_bit_registers; [exact Hfees | exact Hb | exact Ho' | apply bit_fed, Ho'].
Qed.

#[export] Instance asset_update_bitasset_registers :
  RegisterLaws asset_update_bitasset_operation (asset_object * asset_bitasset_data_object * bool) unit.
Proof.
  split. cbn. intros d0 d op [[a b] bsrm] d' [] _ Heval Hfees E.
  assert (bitassets d0 !! ubo_asset_to_update op = Some b) as Hb.
  { unfold asset_update_bitasset_do_evaluate in Heval. mon.
    by repeat match goal with E : get_bitasset _ _ _ = Ok _ |- _ => apply get_bitasset_Some in E end. }
  unfold asset_update_bitasset_do_apply in E. mon.
  match goal with E : update_bitasset_object_options _ _ _ _ _ = Ok ?x |- _ => destruct x as [d1 tocheck]; rename E into Eo end.
  assert (d' = d1) as ->.
  { destruct tocheck; mon; [|done].
    by match goal with E : check_call_orders _ _ _ = Ok ?x |- _ => apply check_call_orders_same in E; destruct x; cbn in E; mon end. }
  clear E. assert (exists b', only_bit (ubo_new_options op) (ubo_asset_to_update op) b b' d d1) as [b' Ho].
  { unfold update_bitasset_object_options in Eo.
    match type of Eo with context [set_bitasset d _ ?x] =>
      set (b1 := x) in Eo; assert (refed (ubo_new_options op) b b1) as Hb1 by (unfold b1; destruct (_ && negb (bo_short_backing_asset _ =? _))%bool; split; try done; by left) end.
    clearbody b1. match type of Eo with (if ?x then _ else _) = _ => destruct x end; mon.
    - by match goal with E : update_bitasset_current_feed _ _ _ _ = Ok _ |- _ => eapply set_feed_only_bit in E end.
    - exists b1. by apply only_bit_set. }
  eapply only_bit_registers; [exact Hfees | exact Hb | exact Ho | eapply bit_updated; [exact Heval | done | apply Ho]].
Qed.

(** ** Every operation that succeeds *)

Lemma operation_registers {Op Ctx Res} `{RegisterLaws Op Ctx Res} calc skip d (op : Op) d' (r : Res) :
  apply_operation calc skip d op = Ok (d', r) -> registered d d'.
Proof.
  unfold apply_operation. intros E. mon.
  match goal with E : start_evaluate _ _ _ _ = Ok _ |- _ =>
    apply start_evaluate_inv in E as (d1 & ctx & d2 & m & Heval & Hfees & E & ->) end.
  assert (registered d d2) as Hreg by (eapply apply_registers; eassumption).
  destruct Hreg as [? ? ? ? ? Hfocus]. split; try assumption.
  destruct Hfocus as [i ? ?|i ? ?]; [by apply (focus_bitasset _ _ i) | by apply (focus_asset _ _ i)].
Qed.
End Steps.
