(* ===== verification/AssetRegistry.v ===== *)
(** The register of the assets: what holds of every asset, and of the assets that back
    others, whatever sequence of operations on assets the chain applies. *)
From S2P Require Import Prelude Records Fc Asset Objects Vesting Database Holdings Sample Fees Evaluator Feed Market AssetRules BitassetFeed Bids AssetOps FeedOps FeedExpiry AssetSteps.

(** ** Creating an asset *)

Section Registry.
Context `{SafeInt64Laws} `{Rational} `{NthElement} `{LongDouble}.

(** What a successful creation does to the register. *)
Record created (num : Z) (op : asset_create_operation) (id : asset_id_type) (d d' : database) : Prop := {
  cd_id : id = next_id (assets d);
  cd_checked : asset_create_do_evaluate d op = Ok tt;
  cd_assets : assets d' = tcreate (assets d) (new_asset num id op);
  cd_others : forall j, j <> id -> bitassets d' !! j = bitassets d !! j;
  cd_bitasset : match cr_bitasset_opts op with
                | Some o => exists b, bitassets d' !! id = Some b
                              /\ refed o (new_bitasset id o (cr_is_prediction_market op)) b
                | None => bitassets d' !! id = bitassets d !! id
                end;
  cd_supply : forall j, j <> id -> supply j d' = supply j d;
  cd_no_supply : supply id d' = 0;
}.

Lemma register_asset_created num d id op d' : register_asset num d id op = Ok d' ->
  assets d' = tcreate (assets d) (new_asset num id op)
  /\ (forall j, supply j d' = supply j d) /\ (forall j, j <> id -> bitassets d' !! j = bitassets d !! j)
  /\ match cr_bitasset_opts op with
     | Some o => exists b, bitassets d' !! id = Some b /\ refed o (new_bitasset id o (cr_is_prediction_market op)) b
     | None => bitassets d' !! id = bitassets d !! id
     end.
Proof.
  unfold register_asset. cbn [as_market_issued new_asset]. destruct (cr_bitasset_opts op) as [o|]; cbn [is_set andb]; intros E.
  - set (b := new_bitasset id o (cr_is_prediction_market op)) in *.
    set (d1 := (set_bitasset d id b) <| assets := tcreate (assets (set_bitasset d id b)) (new_asset num id op) |>) in *.
    assert (bitassets d1 !! id = Some b) as Hb by apply lookup_insert_eq.
    assert (exists b', only_bit o id b b' d1 d') as [b' [Fa Fs Fo Ft Fr]].
    { destruct (is_gold_asset _); mon.
      - match goal with E : get_bitasset _ _ _ = Ok ?x |- _ =>
          apply get_bitasset_Some in E; rewrite Hb in E; injection E as <- end.
        by apply (feed_only_bit _ _ _ _ _ Hb) in E.
      - exists b. split; try done. exact (refed_refl b). }
    split_and!; [by rewrite Fa | intros j; by rewrite Fs | | by exists b'].
    intros j Hj. rewrite Fo by done. by apply lookup_insert_ne.
  - mon. done.
Qed.

(** The part after the fee. *)
Lemma asset_create_do_apply_created num d0 d op half odd d' id : only_fees d0 d ->
  HARDFORK_CORE_429_TIME < head_block_time d0 -> asset_create_do_evaluate d0 op = Ok tt ->
  asset_create_do_apply num d op half odd = Ok (d', id) -> created num op id d0 d'.
Proof.
  intros Hfees Ht Heval E. destruct (only_fees_tables _ _ Hfees) as (Ea & Eb & _ & _ & _ & _ & Et & _ & _ & _ & Es).
  unfold asset_create_do_apply in E. rewrite Et, (proj2 (Z.gtb_lt _ _) Ht), andb_true_r, andb_negb_r in E. mon.
  rewrite Ea in *. set (i := next_id (assets d0)) in *.
  match goal with E : register_asset num (set_dyn d i ?x) i op = Ok _ |- _ =>
    apply register_asset_created in E as (Fa & Fs & Fo & Fb); set (dd := x) in Fs;
    assert (dd_current_supply dd = 0) as Hdd by done; clearbody dd end.
  cbn in Fa, Fo, Fb. rewrite Ea in Fa. rewrite Eb in Fo, Fb. split; try done.
  - intros j Hj. rewrite Fs, <- Es. unfold supply, supply_in. cbn. by rewrite lookup_insert_ne.
  - rewrite Fs. unfold supply, supply_in. cbn. by rewrite lookup_insert_eq.
Qed.

Lemma asset_create_created num calc skip d op d' id : HARDFORK_CORE_429_TIME < head_block_time d ->
  asset_create_evaluate_apply num calc skip d op = Ok (d', id) -> created num op id d d'.
Proof.
  intros Ht E. unfold asset_create_evaluate_apply in E. mon.
  match goal with x : (database * Z)%type |- _ => destruct x as [d3 i] end. mon.
  match goal with E : adjust_balance _ _ _ = Ok _ |- _ => apply adjust_balance_supply in E as (Fa & Fb & Fd) end.
  repeat match goal with
  | E : convert_fee _ _ _ = Ok _ |- _ => apply convert_fee_only in E
  | E : pay_fee _ _ _ = Ok _ |- _ => apply pay_fee_only in E
  end.
  assert (created num op id d d3) as [G1 G2 G3 G4 G5 G6 G7].
  { eapply asset_create_do_apply_created; [by eapply only_fees_trans | exact Ht | done | eassumption]. }
  assert (forall j, supply j d' = supply j d3) as Fs by (intros j; unfold supply; by rewrite Fd).
  split; rewrite ?Fa, ?Fb, ?Fs; try assumption. intros j. by rewrite Fs; apply G6.
Qed.

(** ** Steps *)

(** What an operation costs, and whether the fee is checked. *)
Variable fee_of : forall Op : Type, database -> Op -> result share_type.
Variable skip : bool.

(** One operation on assets. *)
Inductive asset_step (d d' : database) : Prop :=
  | create_step num (op : asset_create_operation) id : asset_create_validate op = Ok tt ->
      asset_create_evaluate_apply num (fee_of _) skip d op = Ok (d', id) -> asset_step d d'
  | issue_step (op : asset_issue_operation) r : apply_operation (fee_of _) skip d op = Ok (d', r) -> asset_step d d'
  | reserve_step (op : asset_reserve_operation) r : apply_operation (fee_of _) skip d op = Ok (d', r) -> asset_step d d'
  | update_step (op : asset_update_operation) r : apply_operation (fee_of _) skip d op = Ok (d', r) -> asset_step d d'
  | update_issuer_step (op : asset_update_issuer_operation) r :
      apply_operation (fee_of _) skip d op = Ok (d', r) -> asset_step d d'
  | update_bitasset_step (op : asset_update_bitasset_operation) r :
      apply_operation (fee_of _) skip d op = Ok (d', r) -> asset_step d d'
  | update_feed_producers_step (op : asset_update_feed_producers_operation) r :
      apply_operation (fee_of _) skip d op = Ok (d', r) -> asset_step d d'
  | publish_feed_step (op : asset_publish_feed_operation) r :
      apply_operation (fee_of _) skip d op = Ok (d', r) -> asset_step d d'
  | fund_fee_pool_step (op : asset_fund_fee_pool_operation) r :
      apply_operation (fee_of _) skip d op = Ok (d', r) -> asset_step d d'
  | claim_fees_step (op : asset_claim_fees_operation) r :
      apply_operation (fee_of _) skip d op = Ok (d', r) -> asset_step d d'
  | claim_pool_step (op : asset_claim_pool_operation) r :
      apply_operation (fee_of _) skip d op = Ok (d', r) -> asset_step d d'.

(** After the hard forks the checks depend on. *)
Definition forks_passed (d : database) : Prop :=
  HARDFORK_BSIP_48_75_PASSED (head_block_time d) = true /\ HARDFORK_CORE_2467_PASSED (next_maintenance_time d) = true.

Lemma asset_step_cases d d' : forks_passed d -> asset_step d d' ->
  registered d d' \/ exists num op id, asset_create_validate op = Ok tt /\ created num op id d d'.
Proof.
  intros [Ht _] Hstep. unfold HARDFORK_BSIP_48_75_PASSED in Ht. apply Z.geb_le in Ht.
  destruct Hstep as [num op id Hval E| | | | | | | | | |];
    [|left; match goal with E : apply_operation _ _ _ _ = Ok _ |- _ => exact (operation_registers _ _ _ _ _ _ E) end..].
  right. exists num, op, id. split; [done|]. eapply asset_create_created; [|exact E].
  unfold HARDFORK_CORE_429_TIME. lia.
Qed.

Lemma registered_table_wf d d' : registered d d' -> table_wf (assets d) -> table_wf (assets d').
Proof.
  intros Hr [Hn Hwf]. split; [rewrite (rg_next _ _ Hr); exact Hn|]. intros i x Hx. rewrite (rg_next _ _ Hr).
  destruct (rg_no_new _ _ Hr i) as [a Ha]; [by eexists|]. by apply (Hwf i a).
Qed.

(** What becomes of an asset that exists. *)
Lemma asset_step_entry d d' i a : forks_passed d -> table_wf (assets d) -> rows (assets d) !! i = Some a ->
  asset_step d d' ->
  table_wf (assets d') /\ (exists a', rows (assets d') !! i = Some a' /\ entry_step d i a (supply i d) a' (supply i d'))
  /\ (forall b', bitassets d' !! i = Some b' -> (exists b, bitassets d !! i = Some b /\ bit_step d i b b')).
Proof.
  intros Hf Hwf Ha Hstep. destruct (asset_step_cases _ _ Hf Hstep) as [Hr|(num & op & id & _ & Hc)].
  - split; [by eapply registered_table_wf|]. split; [by apply (rg_assets _ _ Hr)|]. intros b' Hb'.
    destruct (rg_no_new_bitassets _ _ Hr i) as [b Hb]; [by eexists|].
    destruct (rg_bitassets _ _ Hr i b Hb) as (b2 & Hb2 & Hs). exists b. split; [done|]. congruence.
  - assert (i <> id) as Hi by (rewrite (cd_id _ _ _ _ _ Hc); apply (proj2 Hwf) in Ha; lia).
    split; [rewrite (cd_assets _ _ _ _ _ Hc); by apply tcreate_wf|]. split.
    + exists a. rewrite (cd_assets _ _ _ _ _ Hc), (cd_supply _ _ _ _ _ Hc) by done. split; [|apply entry_same].
      rewrite lookup_tcreate_ne; [done|]. by rewrite <- (cd_id _ _ _ _ _ Hc).
    + intros b'. rewrite (cd_others _ _ _ _ _ Hc) by done. intros Hb'. exists b'. split; [done|]. apply bit_fed, refed_refl.
Qed.

(** ** Permissions *)

(** The bits of the flags: those an asset of this kind has, those whose permission cannot
    come back, whether the issuer may change one, and its value. *)
Definition flag_bit (a : asset_object) (k : Z) : bool :=
  Z.testbit (if as_market_issued a then VALID_FLAGS_MASK else UIA_VALID_FLAGS_MASK) k.
Definition governed (d : database) (i : asset_id_type) (a : asset_object) (k : Z) : Prop :=
  0 <= k < 16 /\
  if as_market_issued a then
    forall b, bitassets d !! i = Some b -> ba_is_prediction_market b = true ->
      Z.testbit (global_settle ||| disable_bsrm_update) k = false
  else Z.testbit UIA_ASSET_ISSUER_PERMISSION_MASK k = true.
Definition may_change (a : asset_object) (k : Z) : bool := Z.testbit (get_enabled_issuer_permissions_mask (as_options a)) k.
Definition flag (a : asset_object) (k : Z) : bool := Z.testbit (ao_flags (as_options a)) k.

Lemma not16_bit x k : 0 <= k < 16 -> Z.testbit (not16 x) k = negb (Z.testbit x k).
Proof. intros Hk. unfold not16, u16. rewrite Z.mod_pow2_bits_low by lia. apply Z.lnot_spec. lia. Qed.

Lemma zero_bits x k : (0 =? x) = true -> Z.testbit x k = false.
Proof. intros E. apply Z.eqb_eq in E. subst. apply Z.testbit_0_l. Qed.

Lemma updated_flags a op : as_market_issued (updated_asset a op) = as_market_issued a
  /\ ao_flags (as_options (updated_asset a op)) = ao_flags (upd_new_options op)
  /\ ao_issuer_permissions (as_options (updated_asset a op)) = ao_issuer_permissions (upd_new_options op)
  /\ ao_max_supply (as_options (updated_asset a op)) = ao_max_supply (upd_new_options op).
Proof. unfold updated_asset. by destruct (is_set _), (upd_new_precision op), (upd_new_issuer op). Qed.

Lemma update_mask_bit d a bitasset o mask k : update_mask d a bitasset o = Ok mask -> may_change a k = false ->
  (forall b, bitasset = Some b -> ba_is_prediction_market b = true -> Z.testbit (global_settle ||| disable_bsrm_update) k = false) ->
  Z.testbit mask k = false.
Proof.
  unfold update_mask, may_change. intros E Hmay Hb. destruct bitasset as [b|]; [|by mon].
  destruct (ba_is_prediction_market b) eqn:Hpm; [|rewrite andb_false_r in E; by mon].
  specialize (Hb b eq_refl Hpm). rewrite Z.lor_spec, orb_false_iff in Hb.
  destruct (HARDFORK_BSIP_48_75_PASSED _); cbn [andb] in E; mon; [|done]. rewrite Z.lor_spec, Hmay. apply Hb.
Qed.

Lemma check_with_supply_bit d bitasset mask s op k : forks_passed d -> check_with_supply d bitasset mask s op = Ok tt ->
  s <> 0 -> 0 <= k < 16 -> Z.testbit mask k = false ->
  match bitasset with
  | Some b => ba_is_prediction_market b = true -> Z.testbit (global_settle ||| disable_bsrm_update) k = false
  | None => Z.testbit UIA_ASSET_ISSUER_PERMISSION_MASK k = true
  end ->
  Z.testbit (get_enabled_issuer_permissions_mask (upd_new_options op)) k = false
  /\ s <= ao_max_supply (upd_new_options op) /\ upd_new_precision op = None.
Proof.
  unfold check_with_supply. intros [-> ->] E Hs Hk Hmask Hb. rewrite (proj2 (Z.eqb_neq s 0) Hs) in E. cbn [negb] in E. mon.
  split; [|split; [cbn in *; lia | by destruct (upd_new_precision op)]].
  match goal with E : 0 = ?x |- _ => assert (Z.testbit x k = false) as Hbit by (rewrite <- E; apply Z.testbit_0_l); clear E end.
  destruct bitasset as [b|].
  - destruct (ba_is_prediction_market b).
    + specialize (Hb eq_refl). rewrite Z.lor_spec, orb_false_iff in Hb. destruct Hb as [_ Hb].
      rewrite !Z.land_spec, !not16_bit, Hmask, Hb, !andb_true_r in Hbit by done. done.
    + by rewrite Z.land_spec, not16_bit, Hmask, andb_true_r in Hbit by done.
  - by rewrite !Z.land_spec, not16_bit, Hmask, Hb, !andb_true_r in Hbit by done.
Qed.

Lemma check_flag_change_bit d a mask o k : forks_passed d -> check_flag_change d a mask o = Ok tt -> 0 <= k < 16 ->
  Z.testbit mask k = false -> flag_bit a k = true -> Z.testbit (ao_flags o) k = flag a k.
Proof.
  unfold check_flag_change, flag, flag_bit. intros [-> Hm] E Hk Hmask Hbit.
  change HARDFORK_CORE_2281_PASSED with HARDFORK_CORE_2467_PASSED in E. rewrite Hm in E. mon.
  match goal with E : 0 = ?x |- _ => assert (Z.testbit x k = false) as Hx by (rewrite <- E; apply Z.testbit_0_l); clear E end.
  rewrite !Z.land_spec, not16_bit, Hmask, andb_true_r, Hbit, andb_true_r, Z.lxor_spec in Hx by done.
  by apply xorb_eq.
Qed.

(** With a supply, an update does not bring a permission back, and without a permission
    the flag stays. *)
Lemma update_keeps_revoked d op a bitasset k : forks_passed d -> asset_update_do_evaluate d op = Ok (a, bitasset) ->
  supply (upd_asset_to_update op) d <> 0 -> governed d (upd_asset_to_update op) a k -> may_change a k = false ->
  may_change (updated_asset a op) k = false
  /\ (flag_bit a k = true -> flag (updated_asset a op) k = flag a k)
  /\ supply (upd_asset_to_update op) d <= ao_max_supply (upd_new_options op)
  /\ (can_update_max_supply a = false -> ao_max_supply (upd_new_options op) = ao_max_supply (as_options a)).
Proof.
  intros [Hf1 Hf2] Heval Hs [Hk Hgov] Hmay.
  destruct (asset_update_context _ _ _ _ Heval) as (_ & Hbit & Hsome).
  destruct (updated_flags a op) as (_ & Efl & Eperm & _).
  assert (may_change (updated_asset a op) k = Z.testbit (get_enabled_issuer_permissions_mask (upd_new_options op)) k) as ->
    by (unfold may_change, get_enabled_issuer_permissions_mask; by rewrite Eperm).
  unfold flag. rewrite Efl.
  unfold asset_update_do_evaluate, get_dyn in Heval. mon.
  match goal with E : update_mask _ _ _ _ = Ok ?m |- _ => rename m into mask; rename E into Em end.
  match goal with E : dyn_data d !! _ = Some _ |- _ => rewrite (supply_get _ _ _ E) in * end.
  assert (Z.testbit mask k = false) as Hmask.
  { apply (update_mask_bit _ _ _ _ _ _ Em Hmay). destruct (as_market_issued a); [exact Hgov | done]. }
  split; [|split; [|split]].
  - eapply check_with_supply_bit; [done | eassumption | done | done | exact Hmask |].
    destruct (as_market_issued a); [|exact Hgov]. destruct (Hsome eq_refl) as [b Hb]. rewrite Hb. by apply Hgov.
  - intros Hbit. by eapply check_flag_change_bit.
  - eapply (check_with_supply_bit _ _ _ _ _ k); [done | eassumption | done | done | exact Hmask |].
    destruct (as_market_issued a); [|exact Hgov]. destruct (Hsome eq_refl) as [b Hb]. rewrite Hb. by apply Hgov.
  - intros Hlock. match goal with E : (can_update_max_supply a || _) = true |- _ => rewrite Hlock in E; by apply Z.eqb_eq in E end.
Qed.

Lemma unset_bit x k : 0 <= k -> unset x (2 ^ k) = negb (Z.testbit x k).
Proof.
  intros Hk. unfold unset. destruct (Z.testbit x k) eqn:Hx; cbn [negb].
  - apply Z.eqb_neq. intros E. assert (Z.testbit (Z.land x (2 ^ k)) k = false) as Hb by (rewrite <- E; apply Z.testbit_0_l).
    rewrite Z.land_spec, Hx, Z.pow2_bits_true in Hb by done. discriminate Hb.
  - apply Z.eqb_eq. symmetry. apply Z.bits_inj'. intros n Hn. rewrite Z.land_spec, Z.testbit_0_l, Z.pow2_bits_eqb by done.
    destruct (Z.eqb_spec k n) as [<-|]; [by rewrite Hx | apply andb_false_r].
Qed.

Lemma update_keeps_lock d op a bitasset : asset_update_do_evaluate d op = Ok (a, bitasset) ->
  can_update_max_supply a = false -> ao_max_supply (upd_new_options op) = ao_max_supply (as_options a).
Proof.
  unfold asset_update_do_evaluate. intros E Hlock. mon.
  match goal with E : (can_update_max_supply a || _) = true |- _ => rewrite Hlock in E; by apply Z.eqb_eq in E end.
Qed.

(** What one operation leaves alone in an asset that has a supply. *)
Lemma entry_keeps d i a a' s : forks_passed d -> entry_step d i a (supply i d) a' s -> supply i d <> 0 ->
  as_market_issued a' = as_market_issued a
  /\ (forall k, governed d i a k -> may_change a k = false ->
        may_change a' k = false /\ (flag_bit a k = true -> flag a' k = flag a k))
  /\ (can_update_max_supply a = false -> ao_max_supply (as_options a') = ao_max_supply (as_options a))
  /\ (can_create_new_supply a = false -> s <= supply i d).
Proof.
  intros Hf Hstep Hs. destruct Hstep as [| n Hn _ Hcan | n Hn | op bitasset _ Heval Hi | op Heval Hi];
    [split_and!; intros; solve [done | lia | congruence] .. | | split_and!; intros; solve [done | lia]].
  destruct (updated_flags a op) as (Emi & _ & _ & Emax). split_and!; [exact Emi | | | by intros].
  - intros k Hk Hmay. subst i. destruct (update_keeps_revoked _ _ _ _ k Hf Heval Hs Hk Hmay) as (H1' & H2' & _). by split.
  - rewrite Emax. by eapply update_keeps_lock.
Qed.

(** A step while the asset has a supply. *)
Definition live_step (i : asset_id_type) (d d' : database) : Prop :=
  forks_passed d /\ supply i d <> 0 /\ asset_step d d'.

Lemma live_governed i d d' a a' k : live_step i d d' -> table_wf (assets d) -> rows (assets d) !! i = Some a ->
  as_market_issued a' = as_market_issued a -> governed d i a k -> governed d' i a' k.
Proof.
  intros (Hf & _ & Hstep) Hwf Ha Emi [Hk Hg]. split; [done|]. rewrite Emi. destruct (as_market_issued a); [|done].
  destruct (asset_step_entry _ _ _ _ Hf Hwf Ha Hstep) as (_ & _ & Hb). intros b' Hb' Hpm.
  destruct (Hb b' Hb') as (b & Hb0 & Hs). apply (Hg b Hb0).
  by destruct Hs as [? [_ _ <- _ _ _] | ? ? ? ? _ _ [_ _ <- _ _ _]].
Qed.

(** C11: Permissions an issuer gave up stay given up: while the asset has a supply, after hard forks
    BSIP 48/75 and core-2467, whatever sequence of the operations of [asset_step] follows,
    the issuer cannot get back a permission that is not enabled, and the flag it governs
    keeps its value. This holds for the permissions a user-issued asset can have, and for
    those of a market-issued one but [global_settle] and [disable_bsrm_update] of a
    prediction market. *)
Theorem revoked_permissions_final i d d' a k :
  rtc (live_step i) d d' -> table_wf (assets d) -> rows (assets d) !! i = Some a ->
  governed d i a k -> may_change a k = false ->
  exists a', rows (assets d') !! i = Some a' /\ may_change a' k = false
    /\ (flag_bit a k = true -> flag a' k = flag a k).
Proof.
  intros Hrtc. revert a. induction Hrtc as [d | d d1 d2 Hstep _ IH]; intros a Hwf Ha Hg Hmay; [by exists a|].
  pose proof Hstep as (Hf & Hs & Hop).
  destruct (asset_step_entry _ _ _ _ Hf Hwf Ha Hop) as (Hwf1 & (a1 & Ha1 & He) & _).
  destruct (entry_keeps _ _ _ _ _ Hf He Hs) as (Emi & Hkeep & _ & _). destruct (Hkeep k Hg Hmay) as [Hmay1 Hflag].
  destruct (IH a1 Hwf1 Ha1) as (a2 & Ha2 & Hmay2 & Hflag2); [by eapply live_governed | done |].
  exists a2. split; [done|]. split; [done|]. intros Hbit. rewrite <- Hflag by done. apply Hflag2.
  unfold flag_bit in *. by rewrite Emi.
Qed.

Lemma supply_bits_governed d i a k : k = 9 \/ k = 10 -> governed d i a k /\ flag_bit a k = true.
Proof.
  intros Hk. split.
  - split; [lia|]. destruct (as_market_issued a); [intros ? _ _|]; by destruct Hk as [-> | ->].
  - unfold flag_bit. by destruct (as_market_issued a), Hk as [-> | ->].
Qed.

(** C29: A renounced supply stays renounced: when an issuer locked the maximum supply and gave up the
    permission to unlock it, no sequence of the operations of [asset_step] changes it while
    there is a supply; when the issuer disabled new supply for good, the supply does not
    grow meanwhile (after hard forks BSIP 48/75 and core-2467). *)
Theorem renounced_supply_final i d d' a :
  rtc (live_step i) d d' -> table_wf (assets d) -> rows (assets d) !! i = Some a ->
  (can_update_max_supply a = false -> may_change a 9 = false ->
   exists a', rows (assets d') !! i = Some a' /\ ao_max_supply (as_options a') = ao_max_supply (as_options a))
  /\ (can_create_new_supply a = false -> may_change a 10 = false -> supply i d' <= supply i d).
Proof.
  intros Hrtc. revert a. induction Hrtc as [d | d d1 d2 Hstep _ IH]; intros a Hwf Ha; [split; [by exists a | done]|].
  pose proof Hstep as (Hf & Hs & Hop).
  destruct (asset_step_entry _ _ _ _ Hf Hwf Ha Hop) as (Hwf1 & (a1 & Ha1 & He) & _).
  destruct (entry_keeps _ _ _ _ _ Hf He Hs) as (_ & Hkeep & Hmax & Hnew).
  destruct (IH a1 Hwf1 Ha1) as [IH1 IH2].
  split; intros Hflag Hmay.
  - destruct (supply_bits_governed d i a 9) as [Hg Hbit]; [by left|]. destruct (Hkeep 9 Hg Hmay) as [Hmay1 Hf1].
    destruct IH1 as (a2 & Ha2 & E2); [| done | exists a2; rewrite E2; auto].
    unfold can_update_max_supply in *. change lock_max_supply with (2 ^ 9) in *. rewrite unset_bit in * by lia.
    unfold flag in Hf1. by rewrite Hf1.
  - destruct (supply_bits_governed d i a 10) as [Hg Hbit]; [by right|]. destruct (Hkeep 10 Hg Hmay) as [Hmay1 Hf1].
    etrans; [apply IH2; [|done] | by apply Hnew].
    change (can_create_new_supply a1) with (unset (ao_flags (as_options a1)) (2 ^ 10)).
    change (can_create_new_supply a) with (unset (ao_flags (as_options a)) (2 ^ 10)) in Hflag. rewrite unset_bit in * by lia.
    unfold flag in Hf1. by rewrite Hf1.
Qed.

(** ** The register is in order *)

Record options_ok (o : asset_options) : Prop := {
  oo_max_supply : 0 < ao_max_supply o <= GRAPHENE_MAX_SHARE_SUPPLY;
  oo_market_fee : ao_market_fee_percent o <= GRAPHENE_100_PERCENT;
  oo_max_market_fee : 0 <= ao_max_market_fee o <= GRAPHENE_MAX_SHARE_SUPPLY;
  oo_taker_fee : opt_within 0 GRAPHENE_100_PERCENT (ao_taker_fee_percent o) = true;
  oo_reward : opt_within 0 GRAPHENE_100_PERCENT (ao_reward_percent o) = true;
  oo_permissions : unset (ao_issuer_permissions o) (not16 ASSET_ISSUER_PERMISSION_MASK) = true;
}.

(** A price between the asset and the core asset. *)
Definition rate_ok (i : asset_id_type) (p : price) : Prop :=
  0 < amount (base p) /\ 0 < amount (quote p)
  /\ (asset_id (base p) = CORE /\ asset_id (quote p) = i \/ asset_id (base p) = i /\ asset_id (quote p) = CORE).

Record asset_ok (d : database) (i : asset_id_type) (a : asset_object) : Prop := {
  ak_symbol : is_valid_symbol (as_symbol a) = true;
  ak_parent : forall p, symbol_prefix (as_symbol a) = Some p -> exists j b, rows (assets d) !! j = Some b /\ as_symbol b = p;
  ak_precision : as_precision a <= 12;
  ak_options : options_ok (as_options a);
  ak_flags : validate_flags (as_options a) (as_market_issued a) true = Ok tt;
  ak_rate : i <> CORE -> rate_ok i (ao_core_exchange_rate (as_options a));
  ak_supply : 0 <= supply i d <= ao_max_supply (as_options a);
  ak_market_issued : as_market_issued a = true <-> is_Some (bitassets d !! i);
}.

(** The asset [k] can back an asset: it is not backed by a market-issued one in turn, and
    when the committee issues the backed asset, the core asset is behind it. *)
Definition backer_ok (d : database) (committee : Prop) (k : asset_id_type) : Prop :=
  match bitassets d !! k with
  | Some kb =>
      (exists a, rows (assets d) !! bo_short_backing_asset (ba_options kb) = Some a /\ as_market_issued a = false)
      /\ (committee -> bo_short_backing_asset (ba_options kb) = CORE)
  | None => committee -> k = CORE
  end.

(** The asset that backs a market-issued asset: not itself, and of the same precision for
    a prediction market. *)
Definition backing_ok (d : database) (i : asset_id_type) (b : asset_bitasset_data_object) : Prop :=
  let k := bo_short_backing_asset (ba_options b) in
  ba_asset_id b = i /\ k <> i /\ exists a ka, rows (assets d) !! i = Some a /\ rows (assets d) !! k = Some ka
  /\ (ba_is_prediction_market b = true -> as_precision a = as_precision ka)
  /\ backer_ok d (as_issuer a = GRAPHENE_COMMITTEE_ACCOUNT) k.

Record registry_ok (d : database) : Prop := {
  ro_table : table_wf (assets d);
  ro_core : exists a, rows (assets d) !! CORE = Some a /\ as_market_issued a = false;
  ro_assets : forall i a, rows (assets d) !! i = Some a -> asset_ok d i a;
  ro_backing : forall i b, bitassets d !! i = Some b -> backing_ok d i b;
  ro_symbols : forall i j a b, rows (assets d) !! i = Some a -> rows (assets d) !! j = Some b ->
    as_symbol a = as_symbol b -> i = j;
}.

Lemma options_validate_ok o : asset_options_validate o = Ok tt -> options_ok o.
Proof. unfold asset_options_validate. intros E. mon. split; done. Qed.

Lemma asset_mul_price_rate i c p x : asset_mul_price (Asset 1 i) p = Ok x -> asset_id x = c ->
  asset_id (base p) = i /\ asset_id (quote p) = c \/ asset_id (base p) = c /\ asset_id (quote p) = i.
Proof.
  unfold asset_mul_price. cbn [asset_id amount]. intros E Hx. case_match; mon; [left | case_match; mon; right]; cbn in *; lia.
Qed.

Lemma options_validate_rate o : asset_options_validate o = Ok tt ->
  0 < amount (base (ao_core_exchange_rate o)) /\ 0 < amount (quote (ao_core_exchange_rate o))
  /\ asset_id (base (ao_core_exchange_rate o)) <> asset_id (quote (ao_core_exchange_rate o)).
Proof. unfold asset_options_validate, price_validate. intros E. mon. split_and!; lia. Qed.

Lemma updated_asset_basics a op : as_symbol (updated_asset a op) = as_symbol a
  /\ as_precision (updated_asset a op) = default (as_precision a) (upd_new_precision op)
  /\ as_issuer (updated_asset a op) = default (as_issuer a) (upd_new_issuer op).
Proof. unfold updated_asset. destruct (is_set _); by destruct (upd_new_precision op), (upd_new_issuer op). Qed.

(** What the checks of an update promise about the new object. *)
Lemma updated_options a op : asset_update_validate op = Ok tt -> options_ok (as_options a) ->
  (upd_asset_to_update op <> CORE -> rate_ok (upd_asset_to_update op) (ao_core_exchange_rate (as_options a))) ->
  options_ok (as_options (updated_asset a op))
  /\ (upd_asset_to_update op <> CORE ->
      rate_ok (upd_asset_to_update op) (ao_core_exchange_rate (as_options (updated_asset a op))))
  /\ (as_precision a <= 12 -> as_precision (updated_asset a op) <= 12).
Proof.
  unfold asset_update_validate. intros E Ho Hr. mon.
  match goal with E : asset_options_validate _ = Ok _ |- _ =>
    pose proof (options_validate_ok _ E) as Hn; destruct (options_validate_rate _ E) as (Hb & Hq & Hne) end.
  match goal with E : asset_mul_price _ _ = Ok _ |- _ => eapply asset_mul_price_rate in E as Hid; [|eassumption] end.
  destruct (updated_asset_basics a op) as (_ & -> & _). split_and!.
  - unfold updated_asset. destruct (is_set _); [|exact Hn]. cbn. destruct Hn. by split.
  - intros Hi. unfold updated_asset. destruct (is_set _); cbn; [destruct (upd_new_precision op), (upd_new_issuer op); by apply Hr|].
    split_and!; [done..|]. tauto.
  - intros Hp. destruct (upd_new_precision op); cbn; lia.
Qed.

Lemma flags_checked d mi o : forks_passed d -> check_flags d mi o = Ok tt -> validate_flags o mi true = Ok tt.
Proof.
  unfold check_flags. intros [_ Hm] E. change HARDFORK_CORE_2281_PASSED with HARDFORK_CORE_2467_PASSED in E.
  by rewrite Hm in E.
Qed.

Lemma validate_flags_same o o' mi : ao_flags o' = ao_flags o -> validate_flags o' mi true = validate_flags o mi true.
Proof. unfold validate_flags. by intros ->. Qed.

Lemma asset_update_flags d op a bitasset : forks_passed d -> asset_update_do_evaluate d op = Ok (a, bitasset) ->
  validate_flags (upd_new_options op) (as_market_issued a) true = Ok tt
  /\ (supply (upd_asset_to_update op) d = 0 \/ supply (upd_asset_to_update op) d <= ao_max_supply (upd_new_options op)).
Proof.
  unfold asset_update_do_evaluate, get_dyn. intros Hf E. mon.
  match goal with E : dyn_data d !! _ = Some _ |- _ => rewrite (supply_get _ _ _ E) in * end.
  split; [by eapply flags_checked|].
  match goal with E : check_with_supply _ _ _ _ _ = Ok _ |- _ => unfold check_with_supply in E; rewrite (proj1 Hf) in E end.
  match goal with E : (if negb (?s =? 0) then _ else _) = Ok _ |- _ => destruct (Z.eqb_spec s 0) end; [by left|]. cbn [negb] in *.
  right. mon. cbn in *. lia.
Qed.

(** One asset through one operation. *)
Lemma entry_asset_ok d d' i a a' : forks_passed d -> entry_step d i a (supply i d) a' (supply i d') -> asset_ok d i a ->
  (forall j b, rows (assets d) !! j = Some b -> exists b', rows (assets d') !! j = Some b' /\ as_symbol b' = as_symbol b) ->
  (is_Some (bitassets d' !! i) <-> is_Some (bitassets d !! i)) -> asset_ok d' i a'.
Proof.
  intros Hf Hstep [K1 K2 K3 K4 K5 K6 K7 K8] Hsym Hbit.
  assert (forall p, symbol_prefix (as_symbol a) = Some p -> exists j b, rows (assets d') !! j = Some b /\ as_symbol b = p) as K2'.
  { intros p Hp. destruct (K2 p Hp) as (j & b & Hb & <-). destruct (Hsym j b Hb) as (b' & Hb' & <-). eauto. }
  rewrite <- Hbit in K8. inversion Hstep; subst; try by (split; cbn; try done; lia).
  destruct (updated_flags a op) as (Emi & Efl & _ & Emax). destruct (updated_asset_basics a op) as (Esym & _ & _).
  match goal with Hv : asset_update_validate op = Ok _, He : asset_update_do_evaluate d op = Ok _ |- _ =>
    destruct (updated_options a op Hv K4 K6) as (U1 & U2 & U3); destruct (asset_update_flags _ _ _ _ Hf He) as [U4 U5] end.
  split; [by rewrite Esym | by rewrite Esym | by apply U3 | exact U1 | | exact U2 | | by rewrite Emi].
  - rewrite Emi. erewrite validate_flags_same; [exact U4 | exact Efl].
  - rewrite Emax. pose proof (oo_max_supply _ U1) as Hpos. rewrite Emax in Hpos. lia.
Qed.

(** ** Backing assets *)

(** The backer of an asset that an operation leaves as it is. *)
Lemma backer_kept d d' (P Q : Prop) k : backer_ok d P k -> (Q -> P) ->
  (forall j a, rows (assets d) !! j = Some a ->
     exists a', rows (assets d') !! j = Some a' /\ as_market_issued a' = as_market_issued a) ->
  (forall kb', bitassets d' !! k = Some kb' -> exists kb, bitassets d !! k = Some kb
     /\ bo_short_backing_asset (ba_options kb') = bo_short_backing_asset (ba_options kb)) ->
  (is_Some (bitassets d !! k) -> is_Some (bitassets d' !! k)) -> backer_ok d' Q k.
Proof.
  unfold backer_ok. intros Hk HQ Hassets Hbit Hsome. destruct (bitassets d' !! k) as [kb'|] eqn:Hkb'.
  - destruct (Hbit kb' eq_refl) as (kb & Hkb & ->). rewrite Hkb in Hk. destruct Hk as [(a & Ha & Hmi) Hc]. split; [|auto].
    destruct (Hassets _ _ Ha) as (a' & Ha' & Emi). exists a'. split; [done|]. congruence.
  - destruct (bitassets d !! k); [|auto]. destruct Hsome; [by eexists | done].
Qed.

(** What the checks of a creation and of a new issuer promise. *)
Lemma check_backing_ok d issuer o : check_backing d issuer o = Ok tt ->
  (forall k a, rows (assets d) !! k = Some a -> as_market_issued a = true <-> is_Some (bitassets d !! k)) ->
  (exists ka, rows (assets d) !! bo_short_backing_asset o = Some ka)
  /\ backer_ok d (issuer = GRAPHENE_COMMITTEE_ACCOUNT) (bo_short_backing_asset o).
Proof.
  unfold check_backing, get_asset, tfind, backer_ok. intros E Hmi. mon. split; [by eexists|].
  match goal with H : rows (assets d) !! bo_short_backing_asset o = Some ?x |- _ =>
    pose proof (Hmi _ _ H) as Hx; destruct (as_market_issued x); mon end.
  - match goal with E : get_bitasset _ _ _ = Ok _ |- _ => apply get_bitasset_Some in E; rewrite E end.
    split; [eexists; split; [eassumption|]; done | intros ->; cbn in *; lia].
  - destruct (bitassets d !! _) eqn:Eb; [exfalso; assert (false = true) by (apply Hx; by eexists); done|].
    intros ->. cbn in *. lia.
Qed.

Lemma validate_new_issuer_ok d i a b P : validate_new_issuer d i a GRAPHENE_COMMITTEE_ACCOUNT = Ok tt ->
  as_market_issued a = true -> bitassets d !! i = Some b ->
  (forall k x, rows (assets d) !! k = Some x -> as_market_issued x = true <-> is_Some (bitassets d !! k)) ->
  backer_ok d P (bo_short_backing_asset (ba_options b)) -> backer_ok d True (bo_short_backing_asset (ba_options b)).
Proof.
  unfold validate_new_issuer, get_asset, tfind, backer_ok. intros E Ha Hb Hmi Hk. rewrite Ha in E. cbn [andb] in E.
  rewrite Z.eqb_refl in E. mon. match goal with E : get_bitasset _ i _ = Ok _ |- _ => apply get_bitasset_Some in E; rewrite Hb in E; injection E as <- end.
  match goal with H : rows (assets d) !! bo_short_backing_asset _ = Some ?x |- _ =>
    pose proof (Hmi _ _ H) as Hx; destruct (as_market_issued x); mon end.
  - match goal with E : get_bitasset _ _ _ = Ok _ |- _ => apply get_bitasset_Some in E; rewrite E in * end.
    split; [apply Hk | intros _; lia].
  - destruct (bitassets d !! bo_short_backing_asset _) eqn:Eb; [exfalso; assert (false = true) by (apply Hx; by eexists); done|].
    intros _. lia.
Qed.

(** An asset whose backing asset changes from one that backs other assets itself. *)
Definition child_ok (d : database) (new_id : asset_id_type) (new_backing : asset_object) (c : asset_id_type) : Prop :=
  new_id = CORE
  \/ c <> new_id /\ as_market_issued new_backing = false
     /\ forall child, rows (assets d) !! c = Some child -> as_issuer child <> GRAPHENE_COMMITTEE_ACCOUNT.

Lemma check_children_ok d op new_backing : let new_id := bo_short_backing_asset (ubo_new_options op) in
  check_children_of_bitasset d op new_id new_backing = Ok tt ->
  forall j c, bitassets d !! j = Some c -> bo_short_backing_asset (ba_options c) = ubo_asset_to_update op ->
  child_ok d new_id new_backing (ba_asset_id c).
Proof.
  cbn zeta. unfold check_children_of_bitasset, get_asset, tfind. intros E j c Hc Hback. case_match; [left; lia|]. right.
  rewrite rforeach_ok, Forall_forall in E. specialize (E (j, c)). cbn [snd] in E. rewrite Hback, Z.eqb_refl in E.
  specialize (E (proj2 (elem_of_map_to_list _ _ _) Hc)). mon. split_and!; [cbn in *; lia | done |].
  intros child Hchild. assert (child = r) as -> by congruence. cbn in *. lia.
Qed.

(** What the checks of a new backing asset promise. *)
Lemma check_new_backing_ok d op a b new_backing : let new_id := bo_short_backing_asset (ubo_new_options op) in
  check_new_backing d op a b new_backing = Ok tt -> rows (assets d) !! new_id = Some new_backing ->
  (forall k x, rows (assets d) !! k = Some x -> as_market_issued x = true <-> is_Some (bitassets d !! k)) ->
  (exists c, rows (assets d) !! CORE = Some c /\ as_market_issued c = false) ->
  new_id <> ubo_asset_to_update op /\ (ba_is_prediction_market b = true -> as_precision a = as_precision new_backing)
  /\ backer_ok d (as_issuer a = GRAPHENE_COMMITTEE_ACCOUNT) new_id
  /\ forall j c, bitassets d !! j = Some c -> bo_short_backing_asset (ba_options c) = ubo_asset_to_update op ->
     child_ok d new_id new_backing (ba_asset_id c).
Proof.
  cbn zeta. set (k := bo_short_backing_asset (ubo_new_options op)). unfold check_new_backing. fold k. intros E Hk Hmi Hcore.
  pose proof (Hmi _ _ Hk) as Hx. mon. split_and!.
  - cbn in *. lia.
  - intros Hpm. rewrite Hpm in *. cbn in *. lia.
  - unfold backer_ok, get_asset, tfind in *. destruct (as_market_issued new_backing).
    + mon. repeat match goal with E : get_bitasset _ _ _ = Ok _ |- _ => apply get_bitasset_Some in E; rewrite E end.
      split.
      * destruct (Z.eqb_spec (bo_short_backing_asset (ba_options r)) CORE) as [->|]; [exact Hcore|]. mon. by eexists.
      * intros Hc. apply Z.eqb_eq in Hc. match goal with E : (if as_issuer a =? _ then _ else _) = _ |- _ => rewrite Hc in E end. mon.
        match goal with E : get_bitasset _ _ _ = Ok _ |- _ => apply get_bitasset_Some in E end. cbn in *. congruence || lia.
    + destruct (bitassets d !! k); [exfalso; assert (false = true) by (apply Hx; by eexists); done|].
      intros Hc. apply Z.eqb_eq in Hc. match goal with E : (if as_issuer a =? _ then _ else _) = _ |- _ => rewrite Hc in E end. mon.
      cbn in *. lia.
  - destruct (Z.eqb_spec k CORE) as [Hcor|Hcor]; [by left|].
    intros j c Hj Hback. eapply check_children_ok; [|done..]. fold k.
    destruct (as_issuer a =? _), (as_market_issued new_backing); cbn [negb] in *; mon; try done; by cbn in *; lia.
Qed.

Lemma bitasset_update_backing d op a b bsrm : forks_passed d -> asset_update_bitasset_do_evaluate d op = Ok (a, b, bsrm) ->
  rows (assets d) !! ubo_asset_to_update op = Some a /\ bitassets d !! ubo_asset_to_update op = Some b
  /\ (bo_short_backing_asset (ubo_new_options op) = bo_short_backing_asset (ba_options b)
      \/ exists new_backing, rows (assets d) !! bo_short_backing_asset (ubo_new_options op) = Some new_backing
         /\ check_new_backing d op a b new_backing = Ok tt).
Proof.
  unfold asset_update_bitasset_do_evaluate, get_asset, tfind, forks_passed, HARDFORK_CORE_2467_PASSED. intros [_ Hm] E. mon.
  repeat match goal with E : get_bitasset _ _ _ = Ok _ |- _ => apply get_bitasset_Some in E end. split_and!; [done..|].
  assert ((next_maintenance_time d >? HARDFORK_CORE_922_931_TIME) = true) as Hf
    by (unfold HARDFORK_CORE_922_931_TIME; cbn in *; lia). rewrite Hf in *.
  match goal with E : (if negb (?x =? ?y) then _ else _) = Ok _ |- _ => destruct (Z.eqb_spec x y); cbn [negb] in E end; [by left|].
  right. mon. by eexists.
Qed.

(** What of an asset matters to the assets it backs and is backed by. *)
Lemma entry_shape d i a s a' s' : forks_passed d -> entry_step d i a s a' s' ->
  as_symbol a' = as_symbol a /\ as_market_issued a' = as_market_issued a
  /\ (as_precision a' = as_precision a
      \/ (forall j c, bitassets d !! j = Some c -> bo_short_backing_asset (ba_options c) <> i)
         /\ (forall b, as_market_issued a = true -> bitassets d !! i = Some b -> ba_is_prediction_market b = false))
  /\ (as_issuer a' = as_issuer a \/ validate_new_issuer d i a (as_issuer a') = Ok tt).
Proof.
  intros [Ht _] Hstep. destruct Hstep as [| | | op bitasset _ Heval <- | op Heval <-]; [split_and!; auto .. | |].
  - destruct (updated_flags a op) as (-> & _). destruct (updated_asset_basics a op) as (-> & -> & ->).
    destruct (asset_update_context _ _ _ _ Heval) as (_ & Hbit & _). unfold asset_update_do_evaluate in Heval. mon.
    split_and!; [done | done | | left].
    + match goal with E : check_new_precision _ _ _ _ = Ok _ |- _ => unfold check_new_precision in E end.
      destruct (upd_new_precision op); [|by left]. mon. right. split.
      * match goal with E : backs_another_asset _ _ = false |- _ => unfold backs_another_asset in E;
          apply negb_false_iff, bool_decide_eq_true in E; intros j c Hj; exact (E j c Hj) end.
      * intros b Hmi Hb. rewrite Hmi, Hb in *. by mon.
    + destruct (upd_new_issuer op); [|done]. mon. unfold HARDFORK_BSIP_48_75_PASSED, HARDFORK_CORE_199_TIME in *. lia.
  - unfold asset_update_issuer_do_evaluate in Heval. mon. split_and!; auto.
Qed.

(** A new backing asset that passed the checks. *)
Record new_backing_ok (d : database) (i : asset_id_type) (b : asset_bitasset_data_object) (k : asset_id_type) : Prop := {
  nb_asset : exists a nb, rows (assets d) !! i = Some a /\ rows (assets d) !! k = Some nb
    /\ (ba_is_prediction_market b = true -> as_precision a = as_precision nb)
    /\ backer_ok d (as_issuer a = GRAPHENE_COMMITTEE_ACCOUNT) k
    /\ forall j c, bitassets d !! j = Some c -> bo_short_backing_asset (ba_options c) = i -> child_ok d k nb (ba_asset_id c);
  nb_other : k <> i;
}.

Lemma registry_market_issued d : registry_ok d ->
  forall k x, rows (assets d) !! k = Some x -> as_market_issued x = true <-> is_Some (bitassets d !! k).
Proof. intros Hd k x Hx. apply (ak_market_issued _ _ _ (ro_assets _ Hd k x Hx)). Qed.

Lemma bit_step_backing d i b b' : forks_passed d -> registry_ok d -> bitassets d !! i = Some b -> bit_step d i b b' ->
  ba_asset_id b' = ba_asset_id b /\ ba_is_prediction_market b' = ba_is_prediction_market b
  /\ (bo_short_backing_asset (ba_options b') = bo_short_backing_asset (ba_options b)
      \/ new_backing_ok d i b (bo_short_backing_asset (ba_options b'))).
Proof.
  intros Hf Hd Hb Hstep. destruct Hstep as [b' [-> -> -> _ _ _] | op a bsrm b' Heval <- [-> -> -> _ _ _]]; [auto|].
  split_and!; [done..|]. destruct (bitasset_update_backing _ _ _ _ _ Hf Heval) as (Ha & _ & [Hsame|(nb & Hnb & Hck)]); [by left|].
  right. destruct (check_new_backing_ok _ _ _ _ _ Hck Hnb) as (N1 & N2 & N3 & N4);
    [by apply registry_market_issued | apply (ro_core _ Hd) |]. split; [|done]. exists a, nb. auto.
Qed.

(** An operation on the data of one market-issued asset. *)
Lemma bitasset_backing d d' k : forks_passed d -> registry_ok d -> registered d d' -> assets d' = assets d ->
  (forall j, j <> k -> bitassets d' !! j = bitassets d !! j) ->
  forall i b', bitassets d' !! i = Some b' -> backing_ok d' i b'.
Proof.
  intros Hf Hd Hr Ea Hother i b' Hb'.
  destruct (rg_no_new_bitassets _ _ Hr i) as [b Hb]; [by eexists|].
  destruct (rg_bitassets _ _ Hr i b Hb) as (b2 & Hb2 & Hs). assert (b2 = b') as -> by congruence. clear Hb2.
  destruct (bit_step_backing _ _ _ _ Hf Hd Hb Hs) as (Eid & Epm & Hback).
  destruct (ro_backing _ Hd i b Hb) as (Hid & Hne & a & ka & Ha & Hka & Hpm & Hk).
  unfold backing_ok. rewrite Ea, Eid, Epm. split; [done|].
  assert (forall P kk, kk <> k -> backer_ok d P kk -> backer_ok d' P kk) as Hkeep.
  { intros P kk Hkk HP. apply (backer_kept d d' P P); rewrite ?Ea; eauto; by rewrite (Hother _ Hkk); eauto. }
  destruct (decide (i = k)) as [->|Hik].
  - destruct Hback as [->|[(a2 & nb & Ha2 & Hnb & Hpm2 & Hk2 & _) Hne2]].
    + split; [done|]. exists a, ka. auto.
    + split; [done|]. exists a2, nb. auto.
  - assert (b' = b) as -> by (rewrite Hother in Hb' by done; congruence). clear Hback.
    split; [done|]. exists a, ka. split_and!; [done..|].
    destruct (decide (bo_short_backing_asset (ba_options b) = k)) as [Hbk|Hbk]; [|by apply Hkeep].
    rewrite Hbk in *. destruct (bitassets d !! k) as [kb|] eqn:Hkb.
    + destruct (rg_bitassets _ _ Hr k kb Hkb) as (kb' & Hkb' & Hks).
      destruct (bit_step_backing _ _ _ _ Hf Hd Hkb Hks) as (_ & _ & [Hsame|[(a2 & nb & _ & Hnb & _ & _ & Hch) _]]).
      * eapply (backer_kept d d'); rewrite ?Ea; [exact Hk | done | eauto | | by rewrite Hkb'; eauto].
        intros x Hx. exists kb. split; [done|]. congruence.
      * unfold backer_ok. rewrite Hkb', Ea. specialize (Hch i b Hb Hbk). rewrite Hid in Hch.
        destruct Hch as [Hcore|(Hc1 & Hc2 & Hc3)].
        -- rewrite Hcore in *. split; [apply (ro_core _ Hd) | done].
        -- split; [by exists nb|]. intros Hcom. by destruct (Hc3 a Ha).
    + eapply (backer_kept d d'); rewrite ?Ea; [exact Hk | done | eauto | | rewrite Hkb; by intros []].
      intros x Hx. destruct (rg_no_new_bitassets _ _ Hr k) as [y Hy]; [by eexists|]. congruence.
Qed.

(** The backing asset of an asset that may have a new issuer. *)
Lemma issuer_backer d i a a' s s' b : forks_passed d -> registry_ok d -> rows (assets d) !! i = Some a ->
  bitassets d !! i = Some b -> entry_step d i a s a' s' ->
  backer_ok d (as_issuer a = GRAPHENE_COMMITTEE_ACCOUNT) (bo_short_backing_asset (ba_options b)) ->
  backer_ok d (as_issuer a' = GRAPHENE_COMMITTEE_ACCOUNT) (bo_short_backing_asset (ba_options b)).
Proof.
  intros Hf Hd Ha Hb He Hk. destruct (entry_shape _ _ _ _ _ _ Hf He) as (_ & _ & _ & [->|Hv]); [exact Hk|].
  assert (forall P Q : Prop, backer_ok d P (bo_short_backing_asset (ba_options b)) -> (Q -> P) ->
    backer_ok d Q (bo_short_backing_asset (ba_options b))) as Hweak by (intros; eapply (backer_kept d d); eauto).
  destruct (decide (as_issuer a' = GRAPHENE_COMMITTEE_ACCOUNT)) as [Hc|Hc]; [|by eapply Hweak].
  rewrite Hc in Hv. apply (Hweak True); [|done]. eapply validate_new_issuer_ok; [exact Hv | | exact Hb | | exact Hk].
  - apply (registry_market_issued _ Hd i a Ha). by eexists.
  - by apply registry_market_issued.
Qed.

(** An operation on the object of an asset. *)
Lemma asset_backing d d' : forks_passed d -> registry_ok d -> registered d d' ->
  (forall j b', bitassets d' !! j = Some b' -> exists b, bitassets d !! j = Some b /\ refed (ba_options b) b b') ->
  forall i b', bitassets d' !! i = Some b' -> backing_ok d' i b'.
Proof.
  intros Hf Hd Hr Hrefed i b' Hb'. destruct (Hrefed i b' Hb') as (b & Hb & [Eid Eo Epm _ _ _]).
  destruct (ro_backing _ Hd i b Hb) as (Hid & Hne & a & ka & Ha & Hka & Hpm & Hk).
  unfold backing_ok. rewrite Eid, Eo, Epm. split; [done|]. split; [done|].
  destruct (rg_assets _ _ Hr i a Ha) as (a' & Ha' & He). destruct (rg_assets _ _ Hr _ ka Hka) as (ka' & Hka' & Hke).
  exists a', ka'. split; [done|]. split; [done|]. split.
  - intros Hbpm. destruct (entry_shape _ _ _ _ _ _ Hf He) as (_ & _ & [-> | [_ Hp]] & _).
    + destruct (entry_shape _ _ _ _ _ _ Hf Hke) as (_ & _ & [-> | [Hp _]] & _); [by apply Hpm | by destruct (Hp i b Hb)].
    + rewrite (Hp b) in Hbpm; [done | apply (registry_market_issued _ Hd i a Ha); by eexists | done].
  - eapply (backer_kept d d' (as_issuer a' = GRAPHENE_COMMITTEE_ACCOUNT));
      [exact (issuer_backer _ _ _ _ _ _ _ Hf Hd Ha Hb He Hk) | done | | |].
    + intros j x Hx. destruct (rg_assets _ _ Hr j x Hx) as (x' & Hx' & Hxe). exists x'. split; [done|].
      by destruct (entry_shape _ _ _ _ _ _ Hf Hxe) as (_ & -> & _).
    + intros kb' Hkb'. destruct (Hrefed _ _ Hkb') as (kb & Hkb & [_ -> _ _ _ _]). by exists kb.
    + intros [kb Hkb]. destruct (rg_bitassets _ _ Hr _ kb Hkb) as (kb' & Hkb' & _). by eexists.
Qed.

(** An operation on an asset that exists keeps the register in order. *)
Lemma registered_registry d d' : forks_passed d -> registry_ok d -> registered d d' -> registry_ok d'.
Proof.
  intros Hf Hd Hr.
  assert (forall i a', rows (assets d') !! i = Some a' -> exists a, rows (assets d) !! i = Some a
    /\ entry_step d i a (supply i d) a' (supply i d')) as Hback.
  { intros i a' Ha'. destruct (rg_no_new _ _ Hr i) as [a Ha]; [by eexists|]. exists a. split; [done|].
    destruct (rg_assets _ _ Hr i a Ha) as (a2 & Ha2 & He). congruence. }
  split.
  - eapply registered_table_wf; [done | apply Hd].
  - destruct (ro_core _ Hd) as (c & Hc & Hmi). destruct (rg_assets _ _ Hr _ c Hc) as (c' & Hc' & He). exists c'.
    split; [done|]. destruct (entry_shape _ _ _ _ _ _ Hf He) as (_ & -> & _). exact Hmi.
  - intros i a' Ha'. destruct (Hback i a' Ha') as (a & Ha & He). eapply entry_asset_ok; [done | exact He | by apply Hd | |].
    + intros j x Hx. destruct (rg_assets _ _ Hr j x Hx) as (x' & Hx' & Hxe). exists x'. split; [done|].
      apply (entry_shape _ _ _ _ _ _ Hf Hxe).
    + split; [apply (rg_no_new_bitassets _ _ Hr)|]. intros [b Hb].
      destruct (rg_bitassets _ _ Hr i b Hb) as (b' & Hb' & _). by eexists.
  - destruct (rg_focus _ _ Hr) as [k Ea Hother | k _ Hrefed]; [by eapply bitasset_backing | by apply (asset_backing d)].
  - intros i j a' b' Ha' Hb' Esym. destruct (Hback i a' Ha') as (a & Ha & Hae), (Hback j b' Hb') as (b & Hb & Hbe).
    apply (ro_symbols _ Hd i j a b Ha Hb).
    destruct (entry_shape _ _ _ _ _ _ Hf Hae) as (<- & _), (entry_shape _ _ _ _ _ _ Hf Hbe) as (<- & _). exact Esym.
Qed.

(** ** A new asset *)

Lemma create_validate_ok op id : asset_create_validate op = Ok tt ->
  is_valid_symbol (cr_symbol op) = true /\ cr_precision op <= 12 /\ options_ok (cr_common_options op)
  /\ rate_ok id (rate_of_new_asset id (ao_core_exchange_rate (cr_common_options op))).
Proof.
  unfold asset_create_validate. intros E. mon.
  match goal with E : asset_options_validate _ = Ok _ |- _ =>
    pose proof (options_validate_ok _ E) as Hn; destruct (options_validate_rate _ E) as (Hb & Hq & _) end.
  match goal with E : asset_mul_price _ _ = Ok _ |- _ => eapply asset_mul_price_rate in E as Hid; [|eassumption] end.
  split_and!; [done..|]. unfold rate_of_new_asset.
  destruct Hid as [[Hb1 Hq1]|[Hb1 Hq1]]; rewrite Hb1; cbn; split_and!; cbn; auto.
Qed.

Lemma create_evaluate_ok d op : asset_create_do_evaluate d op = Ok tt -> forks_passed d ->
  validate_flags (cr_common_options op) (is_set (cr_bitasset_opts op)) true = Ok tt
  /\ (forall i a, rows (assets d) !! i = Some a -> as_symbol a <> cr_symbol op)
  /\ (forall p, symbol_prefix (cr_symbol op) = Some p -> exists j b, rows (assets d) !! j = Some b /\ as_symbol b = p)
  /\ match cr_bitasset_opts op with
     | Some o => check_backing d (cr_issuer op) o = Ok tt
         /\ (cr_is_prediction_market op = true -> forall k, rows (assets d) !! bo_short_backing_asset o = Some k ->
             cr_precision op = as_precision k)
     | None => True
     end.
Proof.
  unfold asset_create_do_evaluate. intros E Hf. mon. split_and!; [by eapply flags_checked | | |].
  - intros i a Ha Hs. match goal with E : is_set (find_symbol d ?x) = false |- _ => destruct (find_symbol d x) eqn:En; [done|] end.
    pose proof (tsearch_None _ _ _ _ En Ha) as Hx. by apply bool_decide_eq_false in Hx.
  - intros p Hp. destruct Hf as [Ht _]. unfold HARDFORK_BSIP_48_75_PASSED in Ht.
    assert ((head_block_time d >? HARDFORK_385_TIME) = true) as Hg by (unfold HARDFORK_385_TIME; lia).
    rewrite Hg, Hp in *. mon. match goal with x : (asset_id_type * asset_object)%type |- _ => destruct x as [j b] end.
    match goal with E : find_symbol _ _ = Some _ |- _ => apply tsearch_Some in E as [Hj Hs]; apply bool_decide_eq_true in Hs end.
    by exists j, b.
  - destruct (cr_bitasset_opts op) as [o|]; [|done]. split; [done|]. intros Hpm k Hk. rewrite Hpm in *.
    unfold get_asset, tfind in *. mon. congruence.
Qed.

Lemma registry_fresh d i a : registry_ok d -> rows (assets d) !! i = Some a -> i <> next_id (assets d).
Proof. intros Hd Ha. apply (proj2 (ro_table _ Hd)) in Ha. lia. Qed.

Lemma registry_no_bitasset d : registry_ok d -> bitassets d !! next_id (assets d) = None.
Proof.
  intros Hd. destruct (bitassets d !! _) eqn:Eb; [|done].
  destruct (ro_backing _ Hd _ _ Eb) as (_ & _ & x & _ & Hx & _). by destruct (registry_fresh _ _ _ Hd Hx).
Qed.

(** The assets after a creation. *)
Lemma created_rows num op id d d' : registry_ok d -> created num op id d d' ->
  rows (assets d') !! id = Some (new_asset num id op)
  /\ (forall i a, rows (assets d) !! i = Some a -> rows (assets d') !! i = Some a)
  /\ (forall i a, rows (assets d') !! i = Some a -> i = id /\ a = new_asset num id op \/ rows (assets d) !! i = Some a).
Proof.
  intros Hd [Eid _ Ea _ _ _ _]. assert (rows (assets d') !! id = Some (new_asset num id op)) as Hthis by (rewrite Ea, Eid; apply lookup_tcreate).
  split; [exact Hthis|]. split.
  - intros i a Ha. rewrite Ea, lookup_tcreate_ne; [done|]. by eapply registry_fresh.
  - intros i a Ha. destruct (decide (i = id)) as [->|Hne]; [left; split; [done | congruence]|]. right.
    rewrite Ea, lookup_tcreate_ne in Ha; [done|]. by rewrite <- Eid.
Qed.

Lemma created_asset_ok num op id d d' : forks_passed d -> registry_ok d -> asset_create_validate op = Ok tt ->
  created num op id d d' -> asset_ok d' id (new_asset num id op).
Proof.
  intros Hf Hd Hval Hc. destruct (created_rows _ _ _ _ _ Hd Hc) as (_ & Hkept & _).
  destruct Hc as [Eid Heval _ _ Hbit _ Hnew]. destruct (create_validate_ok op id Hval) as (V1 & V2 & V3 & V4).
  destruct (create_evaluate_ok _ _ Heval Hf) as (E1 & _ & E3 & _). split; cbn; [done | | done | | | done | |].
  - intros p Hp. destruct (E3 p Hp) as (j & b & Hb & Hs). exists j, b. auto.
  - destruct V3. by split.
  - erewrite validate_flags_same; [exact E1 | done].
  - rewrite Hnew. pose proof (oo_max_supply _ V3). lia.
  - destruct (cr_bitasset_opts op) as [o|]; cbn; [destruct Hbit as (b & -> & _); split; [by eexists | done]|].
    rewrite Hbit, Eid, registry_no_bitasset by done. split; [done | by intros []].
Qed.

Lemma created_backing num op id d d' : forks_passed d -> registry_ok d -> created num op id d d' ->
  forall i b, bitassets d' !! i = Some b -> backing_ok d' i b.
Proof.
  intros Hf Hd Hc. destruct (created_rows _ _ _ _ _ Hd Hc) as (Hthis & Hkept & _).
  destruct Hc as [Eid Heval _ Hother Hbit _ _]. destruct (create_evaluate_ok _ _ Heval Hf) as (_ & _ & _ & E4).
  assert (forall i a, rows (assets d) !! i = Some a -> i <> id) as Hold by (intros i a Ha; rewrite Eid; by eapply registry_fresh).
  assert (forall P k, is_Some (rows (assets d) !! k) -> backer_ok d P k -> backer_ok d' P k) as Hkeep.
  { intros P k [a Ha] HP. apply (backer_kept d d' P P); rewrite ?(Hother k (Hold _ _ Ha)); eauto. }
  intros i b Hb. destruct (decide (i = id)) as [->|Hne].
  - destruct (cr_bitasset_opts op) as [o|]; [|pose proof (registry_no_bitasset _ Hd); congruence].
    destruct Hbit as (b2 & Hb2 & [Rid Ro Rpm _ _ _]). assert (b2 = b) as -> by congruence. destruct E4 as [Hck Hpm].
    destruct (check_backing_ok _ _ _ Hck (registry_market_issued _ Hd)) as [[ka Hka] Hk].
    unfold backing_ok. rewrite Rid, Ro, Rpm. split; [done|]. split; [by eapply Hold|].
    exists (new_asset num id op), ka. by split_and!; auto.
  - rewrite Hother in Hb by done. destruct (ro_backing _ Hd i b Hb) as (B1 & B2 & a & ka & Ha & Hka & B3 & B4).
    split; [done|]. split; [done|]. exists a, ka. split_and!; eauto.
Qed.

Lemma created_registry num op id d d' : forks_passed d -> registry_ok d -> asset_create_validate op = Ok tt ->
  created num op id d d' -> registry_ok d'.
Proof.
  intros Hf Hd Hval Hc. destruct (created_rows _ _ _ _ _ Hd Hc) as (Hthis & Hkept & Hcases).
  destruct (create_evaluate_ok _ _ (cd_checked _ _ _ _ _ Hc) Hf) as (_ & E2 & _). split.
  - rewrite (cd_assets _ _ _ _ _ Hc). apply tcreate_wf, Hd.
  - destruct (ro_core _ Hd) as (c & Hcore & Hmi). exists c. auto.
  - intros i a Ha. destruct (Hcases i a Ha) as [[-> ->]|Ha0]; [by eapply created_asset_ok|].
    destruct (ro_assets _ Hd i a Ha0) as [K1 K2 K3 K4 K5 K6 K7 K8].
    assert (i <> id) as Hi by (rewrite (cd_id _ _ _ _ _ Hc); by eapply registry_fresh).
    split; rewrite ?(cd_supply _ _ _ _ _ Hc), ?(cd_others _ _ _ _ _ Hc) by done; try done.
    intros p Hp. destruct (K2 p Hp) as (j & b & Hb & Hs). exists j, b. auto.
  - by eapply created_backing.
  - intros i j a b Ha Hb Esym. destruct (Hcases i a Ha) as [[-> ->]|Ha0], (Hcases j b Hb) as [[-> ->]|Hb0]; [done | | |].
    + by destruct (E2 j b Hb0).
    + by destruct (E2 i a Ha0).
    + by apply (ro_symbols _ Hd i j a b).
Qed.

(** C10: The register of the assets stays in order: once hard forks BSIP 48/75 and core-2467 have
    passed, whatever sequence of the eleven operations [asset_step] lists succeeds
    (creating, issuing, reserving, updating, feeding an asset, its fees and pool), every
    asset keeps a valid symbol of its own whose parent symbol exists, options, flags and an
    exchange rate within their rules and a supply between zero and its maximum; a market-
    issued asset stays backed by another asset that is not backed by a market-issued one in
    turn, of equal precision for a prediction market, and with the core asset behind it when
    the committee issues it. *)
Theorem registry_preserved d d' : rtc (fun d1 d2 => forks_passed d1 /\ asset_step d1 d2) d d' ->
  registry_ok d -> registry_ok d'.
Proof.
  induction 1 as [d | d d1 d2 [Hf Hstep] _ IH]; [done|]. intros Hd. apply IH.
  destruct (asset_step_cases _ _ Hf Hstep) as [Hr|(num & op & id & Hval & Hc)].
  - by eapply registered_registry.
  - by eapply created_registry.
Qed.
End Registry.

(** ** Witnesses *)

Section RegistrySample.
Import SampleNthElement SampleLongDouble.

(** The issuer of asset 1 gave up every permission, with the maximum supply locked and new
    supply disabled. *)
Definition locked_options (fee : Z) : asset_options :=
  (sample_options 1537 1) <| ao_issuer_permissions := 1536 |> <| ao_market_fee_percent := fee |>.
Definition locked_asset : asset_object := (sample_asset "USD" 5 1537 1 None) <| as_options := locked_options 100 |>.
Definition locked_db : database :=
  sample_db <| assets := table_from [sample_asset "DFS" 3 0 1 None; locked_asset] |>.

Definition sample_reserve : asset_reserve_operation := AssetReserve (Asset 0 CORE) 5 (Asset 1000 1).
Definition sample_update : asset_update_operation :=
  AssetUpdate (Asset 0 CORE) 5 1 None (locked_options 200) None None.
Definition sample_reinstate : asset_update_operation :=
  AssetUpdate (Asset 0 CORE) 5 1 None ((locked_options 200) <| ao_issuer_permissions := 0 |>) None None.

Definition locked1 : database := after (apply_operation (no_fee _) true locked_db sample_reserve).
Definition locked2 : database := after (apply_operation (no_fee _) true locked1 sample_update).

Lemma locked_steps : rtc (live_step no_fee true 1) locked_db locked2.
Proof.
  assert (forks_passed locked_db /\ forks_passed locked1) as [F0 F1] by (split; split; vm_compute; reflexivity).
  eapply rtc_l; [|apply rtc_once]; (split; [eassumption|]; split; [vm_compute; discriminate|]).
  - destruct (after_ok (apply_operation (no_fee _) true locked_db sample_reserve)) as [r E]; [vm_compute; reflexivity|].
    exact (reserve_step _ _ _ _ _ _ E).
  - destruct (after_ok (apply_operation (no_fee _) true locked1 sample_update)) as [r E]; [vm_compute; reflexivity|].
    exact (update_step _ _ _ _ _ _ E).
Qed.

(** An attempt to take the permissions back fails. *)
Example locked_for_good :
  apply_operation (no_fee _) true locked2 sample_reinstate
  = Err (assert_exception "Cannot reinstate previously revoked issuer permissions").
Proof. vm_compute. reflexivity. Qed.

Lemma revoked_permissions_final_witness :
  exists a', rows (assets locked2) !! 1 = Some a' /\ may_change a' 0 = false /\ flag a' 0 = true.
Proof.
  destruct (revoked_permissions_final no_fee true 1 locked_db locked2 locked_asset 0 locked_steps
              (table_from_wf _) eq_refl ltac:(split; [lia | reflexivity]) eq_refl) as (a' & Ha' & Hm & Hf).
  exists a'. split; [exact Ha'|]. split; [exact Hm|]. rewrite Hf by reflexivity. reflexivity.
Defined.

Lemma renounced_supply_final_witness :
  (exists a', rows (assets locked2) !! 1 = Some a' /\ ao_max_supply (as_options a') = 1000000000000)
  /\ supply 1 locked2 <= 3000000.
Proof.
  destruct (renounced_supply_final no_fee true 1 locked_db locked2 locked_asset locked_steps (table_from_wf _) eq_refl)
    as [Hmax Hnew].
  destruct (Hmax eq_refl eq_refl) as (a' & Ha' & E). split; [exists a'; split; [exact Ha' | exact E]|].
  exact (Hnew eq_refl eq_refl).
Defined.

Definition registry_db : database :=
  sample_db <| assets := table_from [sample_asset "DFS" 3 0 1 None; sample_asset "USD" 5 1 1 None] |>.

Lemma registry_db_rows i a : rows (assets registry_db) !! i = Some a ->
  i = 0 /\ a = sample_asset "DFS" 3 0 1 None \/ i = 1 /\ a = sample_asset "USD" 5 1 1 None.
Proof.
  change (rows (assets registry_db)) with (<[1 := sample_asset "USD" 5 1 1 None]> (<[0 := sample_asset "DFS" 3 0 1 None]>
    (∅ : gmap Z asset_object))). rewrite !lookup_insert_Some, lookup_empty.
  intros [[<- <-]|[_ [[<- <-]|[_ ?]]]]; [by right | by left | done].
Qed.

Lemma registry_db_ok : registry_ok registry_db.
Proof.
  split.
  - apply table_from_wf.
  - by eexists.
  - intros i a Ha.
    destruct (registry_db_rows i a Ha) as [[-> ->]|[-> ->]]; split;
      try reflexivity; try done; try (split; [discriminate | by intros []]);
      try (repeat split; solve [discriminate | reflexivity]).
    intros _. repeat split. right. by split.
  - intros i b Hb. discriminate Hb.
  - intros i j a b Ha Hb. destruct (registry_db_rows i a Ha) as [[-> ->]|[-> ->]],
      (registry_db_rows j b Hb) as [[-> ->]|[-> ->]]; intros E; (done || discriminate E).
Qed.

(** Account 6 creates an asset backed by USD, and later lets the core asset back it. *)
Definition sample_bit_options (backing : asset_id_type) : bitasset_options :=
  BitassetOptions 86400 1 86400 0 2000 backing None None None None None None.
Definition sample_create : asset_create_operation :=
  AssetCreate (Asset 10 CORE) 6 "EURUSD" 5 (sample_options 0 1) (Some (sample_bit_options 1)) false.
Definition sample_update_bitasset : asset_update_bitasset_operation :=
  AssetUpdateBitasset (Asset 0 CORE) 6 2 (sample_bit_options CORE).

Definition registry1 : database := after (asset_create_evaluate_apply 1000 (no_fee _) true registry_db sample_create).
Definition registry2 : database := after (apply_operation (no_fee _) true registry1 sample_update_bitasset).

Lemma registry_preserved_witness : registry_ok registry2
  /\ exists b, bitassets registry2 !! 2 = Some b /\ bo_short_backing_asset (ba_options b) = CORE.
Proof.
  split; [|eexists; split; vm_compute; reflexivity].
  apply (registry_preserved no_fee true registry_db registry2); [|exact registry_db_ok].
  assert (forks_passed registry_db /\ forks_passed registry1) as [F0 F1] by (split; split; vm_compute; reflexivity).
  eapply rtc_l; [|apply rtc_once]; (split; [eassumption|]).
  - destruct (after_ok (asset_create_evaluate_apply 1000 (no_fee _) true registry_db sample_create)) as [r E];
      [vm_compute; reflexivity|].
    refine (create_step _ _ _ _ _ _ _ _ E). vm_compute. reflexivity.
  - destruct (after_ok (apply_operation (no_fee _) true registry1 sample_update_bitasset)) as [r E]; [vm_compute; reflexivity|].
    exact (update_bitasset_step _ _ _ _ _ _ E).
Defined.

(** The core asset cannot be created a second time, and an asset cannot back itself. *)
Example registry_rejects :
  asset_create_evaluate_apply 1000 (no_fee _) true registry2
    (AssetCreate (Asset 10 CORE) 6 "DFS" 5 (sample_options 0 1) None false)
  = Err (assert_exception "asset_symbol_itr == asset_indx.end()")
  /\ apply_operation (no_fee _) true registry2 (AssetUpdateBitasset (Asset 0 CORE) 6 2 (sample_bit_options 2))
  = Err (assert_exception "Cannot update an asset to be backed by itself.").
Proof. split; vm_compute; reflexivity. Qed.
End RegistrySample.
